(* ===== verification/_CoqProject ===== *)
-Q . S2P
Prelude.v
GoSort.v
GoTime.v
GoPath.v
Api.v
Effects.v
Config.v
Interfaces.v
UpgradeSteps.v
DeepCopy.v
Aliasing.v
Scheduler.v
SpecProvider.v
ClusterVersion.v
Metrics.v
UpgradeConfigManager.v
Notifier.v
EventManager.v
Machinery.v
Drain.v
NodeKeeper.v
Scaler.v
Maintenance.v
Availability.v
UpgraderConfig.v
HealthChecks.v
Upgraders.v
UpgradersEvents.v
UpgradersCorrect.v
Validation.v
Controller.v
ControllerCorrect.v
Watches.v
ControllerLive.v
Operator.v
PointerUpgrade.v
Environment.v
ScalerLive.v
UpgradersLive.v
OperatorLive.v
Concurrency.v
Collector.v
Startup.v
GoJson.v
Wire.v
Monitoring.v
Ocm.v
Clients.v
