(* ===== verification/Prelude.v ===== *)
(** * Managed Upgrade Operator: a verification library

    The managed-upgrade-operator upgrades an OpenShift cluster on behalf of a
    managed service.  A provider says which upgrade is wanted; the operator keeps
    it as one custom resource, the UpgradeConfig, and three controllers and a
    synchronisation loop see it through: validation, waiting for the scheduled
    time, the ordered steps of the upgrade, draining of nodes, notifications,
    metrics.  This library is a shallow embedding of that program: the Go
    functions under src/ are Rocq functions with the same names and the same
    branches, and the theorems state what they guarantee.

    ** How Go code is represented

    - Code without effects is a function.  Code with effects is a value of
      [prog E A] (this file): a tree of requests to the outside with the
      continuation for each answer, a result, or a panic.  Sequencing is monadic
      ([x ← p; f]), an early return of an error is [x ←? p; f]; a nil
      dereference is [deref], which panics.  The requests are the constructors of
      [Effects.Eff]: clock, environment, API server, Prometheus, OCM,
      Alertmanager, HTTP.  Their answers are unconstrained: a theorem on all
      executions holds for every failure of every request.
    - [(value, error)] is [result]; where both are returned, a pair.  A slice is a
      list, a map with an order that matters a list of pairs or a permutation
      given as a parameter, otherwise stdpp's [gmap].  Integers are [Z] with the
      wrap-around of their width written out ([wrap32], [wrap64], [dur_mul]);
      times are nanoseconds since the Unix epoch.  A struct that is mutated
      through a pointer is returned by the function that mutates it; that this is
      sound for UpgradeConfigs, whose arrays structs share, is proved over a heap
      ([DeepCopy], [Aliasing], [PointerUpgrade]).
    - Go loops over slices are structural recursions.  The loops that wait are
      bounded by the code's own limits (the three attempts of an availability
      check) or by a parameter that every theorem quantifies over (the polls
      [attempts] of [confirmDeleted]); the endless synchronisation loop is a
      step relation.  The goroutines of an availability check interleave in a
      loop with fuel; the check gives it the number of requests they can make,
      and that this is enough is part of [availability_check_explained].
    - Reasoning: [exec p tr o] says that [p] can make the requests [tr] with those
      answers and end in [o]; [wp] is the post-condition transformer over traces
      ([wp_exec], [wp_bind], [wp_bindr]); [all_ev], [no_panic] are structural
      conditions on requests and panics, with the hint database [muo] and the
      tactics [ev_auto], [np_auto], [wp_cbn]; [run] executes a program against a
      handler, so every program has an execution in every environment.

    ** Map of the files

    Foundations: [Prelude] (notation, results, programs and their logic, machine
    integers, strings), [GoSort] (sort.Slice), [GoTime] (RFC 3339, printing of
    durations), [GoPath] (path.Match), [GoJson] (decoding of JSON values),
    [Api] (api/v1alpha1: the resource and its operations), [Effects] (external
    objects and requests), [Config] (pkg/configmanager, config/), [Interfaces]
    (semantic versions, URLs, regular expressions).

    Components, each with its definitions, lemmas, theorems and witnesses:
    - [UpgradeSteps] pkg/upgradesteps: the step runner: which steps a run executes
      and the conditions it records;
    - [DeepCopy] api/v1alpha1 (zz_generated.deepcopy.go): the heap and the deep
      copies; [Aliasing] the operations on conditions and histories and the step
      runner through pointers; [PointerUpgrade] the upgraders and the controller's
      upgradeCluster through pointers;
    - [Scheduler] pkg/scheduler, [ClusterVersion] pkg/clusterversion, [Metrics]
      pkg/metrics, [Machinery] pkg/machinery;
    - [SpecProvider] pkg/specprovider, pkg/localprovider, pkg/ocmprovider;
      [UpgradeConfigManager] pkg/upgradeconfigmanager;
    - [Notifier] pkg/notifier, [EventManager] pkg/eventmanager;
    - [Drain] pkg/pod, pkg/drain; [NodeKeeper] controllers/nodekeeper and
      controllers/machineconfigpool; [Scaler] pkg/scaler;
    - [Maintenance] pkg/maintenance, pkg/alertmanager; [Availability]
      pkg/availabilitychecks;
    - [UpgraderConfig], [HealthChecks], [Upgraders] pkg/upgraders, with
      [UpgradersEvents] (which requests a step makes) and [UpgradersCorrect];
    - [Validation] pkg/validation;
    - [Controller] controllers/upgradeconfig, with [ControllerCorrect] (life
      cycle, when an upgrade starts), [ControllerLive] (it completes) and
      [Watches] (which events and results lead to the next reconciliation);
    - [Operator] main.go: the controller with the builders of all the others;
    - [Environment], [ScalerLive], [UpgradersLive], [OperatorLive]: what a
      healthy cluster answers, and that the assembled operator completes an
      upgrade over it;
    - [Concurrency] main.go: the controllers interleaved over one API server;
    - [Startup] main.go, pkg/k8sutil: the start of the process;
    - [Collector] pkg/collector, pkg/metrics/collector;
    - [Wire], [Monitoring], [Ocm], [Clients]: the clients of Prometheus,
      Alertmanager, OCM and the deployment validation operator (pkg/metrics,
      pkg/maintenance, pkg/alertmanager, pkg/ocm, pkg/ocmagent, pkg/dvo,
      util/access_token.go) as programs over lower-level requests.

    ** How the parts fit

    Components meet at type classes that carry their laws: [SpecProvider] and its
    builder, [UpgradeConfigManager], [Notifier], [EventManager],
    [DrainStrategy], and for the controller [ClusterUpgrader], [Validator],
    [RefreshManager] and [Builders].  A client is verified against the class;
    [UpgradersCorrect] and [Operator] discharge the laws with the real
    components, so that the theorems on [Reconcile] hold for the whole program.
    [Clients.link] replaces the requests that stand for clients by the clients.

    ** What is proved

    - Life cycle ([ControllerCorrect], [ControllerLive], [Concurrency],
      [Operator]): the statuses that a reconciliation writes follow the abstract
      life cycle New, Pending, Upgrading, Upgraded or Failed; stored resources
      are well formed; an upgrade starts only when it is validated, due and
      unchanged; the ClusterVersion is patched only for an upgrade under way;
      all this under any interleaving of the controllers' requests; and with
      working collaborators the resource reaches Upgraded and stays there.
    - Completion of the assembled operator ([Environment], [ScalerLive],
      [UpgradersLive], [OperatorLive]): total correctness over an environment
      relation, [must], in which every request of the operator is answered as a
      healthy cluster answers it ([healthy]), the ClusterVersion goes through the
      stages Idle, Commenced and Finished, and the surge capacity comes up after
      it was asked for and goes away after it was removed ([moves]); every step
      of both upgraders is shown to do its part, [Reconcile] never panics, and
      when the clock passes the scheduled time, the surge capacity comes up
      within the upgrade window and a commenced upgrade finishes, the resource
      reaches Upgraded and no surge capacity stays, with the spec from the
      cluster or from OCM.  [Watches] says for every phase when the next
      reconciliation comes, and [Startup] that the process comes up.
    - The upgrade ([UpgradeSteps], [UpgradersCorrect], [HealthChecks],
      [Validation], [ClusterVersion]): the runner executes the steps in order, each
      on a resource that records those before it as complete, and stops at the
      first that is not done; the upgrade commences only after its
      gates and fails only after its window; what the health checks, the
      validator and the desired-version patch guarantee.
    - Synchronisation and notification ([UpgradeConfigManager], [SpecProvider],
      [Notifier], [EventManager]): refinement of an abstract synchronisation,
      creation only when absent, at most one report per state, accepted reports
      only move forward.
    - Nodes ([Drain], [NodeKeeper], [Scaler], [Maintenance], [Availability]):
      only due pods are touched, when exactly a drain has failed, what justifies
      an alert, clones are created and removed, at most one active worker silence, and the concurrent check in
      every interleaving of its goroutines.
    - Pointers ([DeepCopy], [Aliasing], [PointerUpgrade]): a deep copy is an equal
      resource in new cells that shares with its original exactly the time stamps
      of the conditions; an upgrading reconciliation of a copy, with its writes
      into shared arrays, has the executions of the one on values, and the cached
      original never changes.
    - Observation and clients ([Collector], [Clients], [Ocm]): what a scrape
      reports, what is made of the answers of Prometheus and of OCM, which
      certificate authority is trusted, when reading the access token panics.

    ** Parameters

    Code that is not part of the sources enters as a class or an argument: the
    YAML decoder, semantic versions with the laws of their order, URL and image
    references, regular expressions, the syntax of JSON, the PEM parser, the
    builders of the OCM SDK, the Cincinnati client, the deep copies of Kubernetes
    metadata and of time stamps, and the order in which Go iterates over a map.  The API server of [UpgradeConfigManager] and
    [Concurrency] and the Alertmanager of [Maintenance] are specifications of
    those services, used by the theorems that name them.

    ** Not modelled

    Logging and the registration of the schemes; what the libraries do behind the
    calls of main.go (the manager, leader election, health probes, the metrics
    service): the calls themselves are events of [Startup]; proxies and the
    timeouts of HTTP transports; contexts; mocks and tests; that a
    status update decodes the answer into the existing structs (the model takes
    the answer as a new value).  [OperatorLive] is about ARO without the gate of the pre-upgrade
    health check, which panics there; it assumes that status updates are stored,
    that only the operator's patches commence an upgrade, that nobody else adds
    or removes its surge capacity, and that the one machine of a surge MachineSet
    has a node when the scaler asks for it, which panics otherwise.  A panic ends the execution:
    the recovery of controller-runtime is not modelled.  [NewClient] requests
    stand for the construction of a client and do not panic; the construction
    itself is in [Monitoring] and [Ocm].  ASCII text is assumed where Go folds
    the case of letters. *)

From stdpp Require Import base gmap strings pretty list.
From Stdlib Require Import ZArith Lia Ascii.

(** ** Notation scope of the development *)

Declare Scope muo_scope.
Delimit Scope muo_scope with muo.
Open Scope muo_scope.

(** ** Errors and results

    Go returns [(value, error)] pairs.  When the value is the zero value on
    every error path the pair is modelled by [result]; where the source
    returns both, the model returns the product. *)

(** The package-level error variables that the code compares by identity. *)
Inductive sentinel :=
| ErrClusterIsUpgrading | ErrRetrievingUpgradeConfigs | ErrMissingOperatorNamespace
| ErrProviderSpecPull | ErrRemovingUpgradeConfig | ErrCreatingUpgradeConfig
| ErrUpgradeConfigNotFound | ErrNotConfigured | ErrNoConfigManagerDefined
| ErrInvalidSpecProvider | ErrNoSpecProviderConfig | ErrNoNotifierConfigured
| ErrProviderUnavailable | ErrRetrievingPolicies | ErrProcessingPolicies
| ErrClusterIdNotFound.

(** Error values: an anonymous [fmt.Errorf] text, an API status error (with
    the outcome of [errors.IsNotFound]), a sentinel, the two typed errors of
    [pkg/scaler] and an aggregated [multierror]. *)
#[warnings="-register-all"]
Inductive error :=
| ErrText (msg : string)
| ErrApi (notFound : bool) (msg : string)
| ErrSentinel (s : sentinel)
| ErrScaleTimeOut (msg : string)
| ErrDrainTimeOut (nodeName : string)
| ErrMulti (errs : list error).

Inductive result (A : Type) := Ok (a : A) | Err (e : error).
Arguments Ok {A} _.
Arguments Err {A} _.

#[export] Instance sentinel_eq_dec : EqDecision sentinel.
Proof. solve_decision. Defined.

Definition sentinel_msg (s : sentinel) : string :=
  match s with
  | ErrClusterIsUpgrading => "cluster is upgrading"
  | ErrRetrievingUpgradeConfigs => "unable to retrieve upgradeconfigs"
  | ErrMissingOperatorNamespace =>
      "can't determine operator namespace, missing env OPERATOR_NAMESPACE"
  | ErrProviderSpecPull => "unable to retrieve upgrade spec"
  | ErrRemovingUpgradeConfig => "unable to remove existing UpgradeConfig"
  | ErrCreatingUpgradeConfig => "unable to create new UpgradeConfig"
  | ErrUpgradeConfigNotFound => "upgrade config not found"
  | ErrNotConfigured => "no upgrade config manager configured"
  | ErrNoConfigManagerDefined => "no configManager defined in configuration"
  | ErrInvalidSpecProvider => "invalid configManager spec provider type defined"
  | ErrNoSpecProviderConfig => "no configManager spec provider configured"
  | ErrNoNotifierConfigured => "no valid configured notifier"
  | ErrProviderUnavailable => "OCM Provider unavailable"
  | ErrRetrievingPolicies => "could not retrieve provider upgrade policies"
  | ErrProcessingPolicies => "could not process provider upgrade policies"
  | ErrClusterIdNotFound =>
      "OCM did not return a valid cluster ID: pull-secret may be invalid OR cluster's owner is disabled/banned in OCM"
  end.

(** [err == ErrX] for a sentinel, and [errors.IsNotFound(err)]. *)
Definition is_sentinel (s : sentinel) (e : error) : bool :=
  match e with ErrSentinel s' => bool_decide (s = s') | _ => false end.

Definition IsNotFound (e : error) : bool :=
  match e with ErrApi nf _ => nf | _ => false end.

(** [err.Error()]; the aggregate's text is the concatenation of its parts. *)
Fixpoint error_msg (e : error) : string :=
  match e with
  | ErrText m => m
  | ErrApi _ m => m
  | ErrSentinel s => sentinel_msg s
  | ErrScaleTimeOut m => m
  | ErrDrainTimeOut n => n
  | ErrMulti es => String.concat "; " (map error_msg es)
  end.

(** [multierror.ErrorOrNil]. *)
Definition errorOrNil (errs : list error) : option error :=
  match errs with [] => None | _ => Some (ErrMulti errs) end.

Definition is_ok {A} (r : result A) : bool :=
  match r with Ok _ => true | Err _ => false end.

(** ** Effectful programs

    A Go function that talks to its environment (API server, clock, metrics,
    OCM, Alertmanager) is a tree of external events.  The response of each
    event is arbitrary, so a statement about all executions of a program
    covers every behaviour of the environment; a nil dereference is [Panic]. *)

Inductive prog (E : Type -> Type) (A : Type) : Type :=
| Ret (a : A)
| Panic (msg : string)
| Vis (X : Type) (e : E X) (k : X -> prog E A).
Arguments Ret {E A} _.
Arguments Panic {E A} _.
Arguments Vis {E A X} _ _.

#[export] Instance prog_ret E : MRet (prog E) := @Ret E.

Fixpoint prog_bind {E A B} (f : A -> prog E B) (p : prog E A) : prog E B :=
  match p with
  | Ret a => f a
  | Panic s => Panic s
  | Vis e k => Vis e (fun x => prog_bind f (k x))
  end.

#[export] Instance prog_mbind E : MBind (prog E) := fun A B => @prog_bind E A B.

(** Perform one external event. *)
Definition call {E X} (e : E X) : prog E X := Vis e Ret.

(** The early return [if err != nil { return ..., err }]. *)
Definition bindr {E A B} (p : prog E (result A)) (f : A -> prog E (result B))
    : prog E (result B) :=
  p ≫= fun r => match r with Ok a => f a | Err e => Ret (Err e) end.

Notation "x ←? p ; f" := (bindr p (fun x => f))
  (at level 20, p at level 100, f at level 200, only parsing) : muo_scope.

(** Pointer dereference: [nil] panics. *)
Definition deref {E A} (o : option A) : prog E A :=
  match o with Some a => Ret a | None => Panic "nil pointer dereference" end.

(** *** Executions *)

Record obs (E : Type -> Type) := Obs { ob_type : Type; ob_event : E ob_type; ob_resp : ob_type }.
Arguments Obs {E ob_type} _ _.
Arguments ob_event {E} _.
Arguments ob_resp {E} _.

Inductive outcome (A : Type) := Done (a : A) | Crash (msg : string).
Arguments Done {A} _.
Arguments Crash {A} _.

(** [exec p tr o]: [p] can interact along the trace [tr] and end with [o]. *)
Fixpoint exec {E A} (p : prog E A) (tr : list (obs E)) (o : outcome A) : Prop :=
  match p with
  | Ret a => tr = [] /\ o = Done a
  | Panic s => tr = [] /\ o = Crash s
  | Vis e k => exists x tr', tr = Obs e x :: tr' /\ exec (k x) tr' o
  end.

(** Post-condition transformer over traces, for all responses. *)
Fixpoint wp {E A} (p : prog E A) (Q : list (obs E) -> outcome A -> Prop) : Prop :=
  match p with
  | Ret a => Q [] (Done a)
  | Panic s => Q [] (Crash s)
  | Vis e k => forall x, wp (k x) (fun tr o => Q (Obs e x :: tr) o)
  end.

(** Every event of every execution of [p] satisfies [P]. *)
Fixpoint all_ev {E A} (P : forall X, E X -> Prop) (p : prog E A) : Prop :=
  match p with
  | Ret _ | Panic _ => True
  | Vis e k => P _ e /\ forall x, all_ev P (k x)
  end.

(** No execution of [p] panics. *)
Fixpoint no_panic {E A} (p : prog E A) : Prop :=
  match p with
  | Ret _ => True
  | Panic _ => False
  | Vis e k => forall x, no_panic (k x)
  end.

(** Run a program against an environment given by a handler. *)
Fixpoint run {E A S} (h : forall X, E X -> S -> X * S) (p : prog E A) (s : S)
    : list (obs E) * outcome A * S :=
  match p with
  | Ret a => ([], Done a, s)
  | Panic m => ([], Crash m, s)
  | Vis e k =>
      let '(x, s') := h _ e s in
      let '(tr, o, s'') := run h (k x) s' in
      (Obs e x :: tr, o, s'')
  end.

(** Left-to-right loops over a slice with early exit on error. *)
Fixpoint for_each {E A B} (f : B -> A -> prog E (result B)) (b : B) (l : list A)
    : prog E (result B) :=
  match l with
  | [] => Ret (Ok b)
  | a :: l' => b' ←? f b a; for_each f b' l'
  end.

(** ** Machine integers *)

Definition wrap (w : Z) (x : Z) : Z :=
  ((x + 2 ^ (w - 1)) mod 2 ^ w - 2 ^ (w - 1))%Z.
Notation wrap32 := (wrap 32).
Notation wrap64 := (wrap 64).

Definition in_int (w x : Z) : Prop := (- 2 ^ (w - 1) <= x < 2 ^ (w - 1))%Z.

(** ** Time

    [time.Time] is the number of nanoseconds since the Unix epoch (an exact
    integer), [time.Duration] an int64 number of nanoseconds. *)

Notation Time := Z (only parsing).
Notation Duration := Z (only parsing).

Definition Nanosecond : Duration := 1%Z.
Definition Second : Duration := (1000000000)%Z.
Definition Minute : Duration := (60 * Second)%Z.
Definition Hour : Duration := (60 * Minute)%Z.

Definition maxDuration : Duration := (2 ^ 63 - 1)%Z.
Definition minDuration : Duration := (- 2 ^ 63)%Z.

(** [time.Duration(n) * unit]: int64 multiplication. *)
Definition dur_mul (n unit : Z) : Duration := wrap64 (n * unit).

(** The zero [time.Time] is January 1, year 1, 00:00 UTC. *)
Definition zeroTime : Time := (-62135596800 * Second)%Z.
Definition IsZero (t : Time) : bool := (t =? zeroTime)%Z.
Definition After (t u : Time) : bool := (u <? t)%Z.
Definition Before (t u : Time) : bool := (t <? u)%Z.
Definition TimeAdd (t : Time) (d : Duration) : Time := (t + d)%Z.

(** [Time.Sub] saturates at the bounds of [Duration]. *)
Definition TimeSub (t u : Time) : Duration := Z.max minDuration (Z.min maxDuration (t - u)%Z).

(** ** Strings *)

(** The double quote character, kept out of string literals. *)
Definition dq : string := String (ascii_of_nat 34) EmptyString.
Definition quoted (s : string) : string := dq +:+ s +:+ dq.

Fixpoint HasPrefix (s p : string) : bool :=
  match p, s with
  | EmptyString, _ => true
  | String a p', String b s' => Ascii.eqb b a && HasPrefix s' p'
  | String _ _, EmptyString => false
  end.

Fixpoint Contains (s sub : string) : bool :=
  HasPrefix s sub ||
  match s with EmptyString => false | String _ s' => Contains s' sub end.

Fixpoint HasSuffix (s suf : string) : bool :=
  String.eqb s suf ||
  match s with EmptyString => false | String _ s' => HasSuffix s' suf end.

(** [strings.Join(l, sep)]. *)
Definition Join (l : list string) (sep : string) : string := String.concat sep l.

Definition upper_ascii (a : ascii) : ascii :=
  let n := nat_of_ascii a in
  if andb (Nat.leb 97 n) (Nat.leb n 122) then ascii_of_nat (n - 32) else a.
Definition lower_ascii (a : ascii) : ascii :=
  let n := nat_of_ascii a in
  if andb (Nat.leb 65 n) (Nat.leb n 90) then ascii_of_nat (n + 32) else a.

(** [strings.ToUpper], [strings.ToLower] on ASCII text. *)
Fixpoint ToUpper (s : string) : string :=
  match s with EmptyString => EmptyString | String a s' => String (upper_ascii a) (ToUpper s') end.
Fixpoint ToLower (s : string) : string :=
  match s with EmptyString => EmptyString | String a s' => String (lower_ascii a) (ToLower s') end.

(** ** The program logic *)

Section ProgramLogic.
Context {E : Type -> Type}.

Lemma exec_bind {A B} (p : prog E A) (f : A -> prog E B) tr o :
  exec (p ≫= f) tr o <->
  (exists a tr1 tr2, tr = tr1 ++ tr2 /\ exec p tr1 (Done a) /\ exec (f a) tr2 o) \/
  (exists s, o = Crash s /\ exec p tr (Crash s)).
Proof.
  revert tr. induction p as [a|s|X e k IH]; intros tr; cbn.
  - split.
    + intros H. left. by exists a, [], tr.
    + intros [(a' & t1 & t2 & -> & [-> [= ->]] & Hf)|(s & -> & _ & ?)]; done.
  - split.
    + intros [-> ->]. right. by exists s.
    + intros [(a' & t1 & t2 & -> & [-> ?] & ?)|(s' & -> & -> & [= ->])]; done.
  - split.
    + intros (x & t & -> & H). apply IH in H.
      destruct H as [(a & t1 & t2 & -> & H1 & H2)|(s & -> & H)]; [left|right].
      * exists a, (Obs e x :: t1), t2. split; [done|]. split; [by exists x, t1|done].
      * exists s. split; [done|]. by exists x, t.
    + intros [(a & t1 & t2 & -> & (x & t & -> & H1) & H2)|(s & -> & x & t & -> & H)];
        eexists x, _; (split; [reflexivity|]); apply IH.
      * left. by exists a, t, t2.
      * right. by exists s.
Qed.

Lemma wp_exec {A} (p : prog E A) Q :
  wp p Q <-> forall tr o, exec p tr o -> Q tr o.
Proof.
  revert Q. induction p as [a|s|X e k IH]; intros Q; cbn.
  - split; [intros H tr o [-> ->]; exact H|auto].
  - split; [intros H tr o [-> ->]; exact H|auto].
  - split.
    + intros H tr o (x & t & -> & Hx). exact (proj1 (IH x _) (H x) _ _ Hx).
    + intros H x. apply IH. intros tr o Hx. apply H. eauto.
Qed.

Lemma wp_mono {A} (p : prog E A) Q Q' :
  wp p Q -> (forall tr o, Q tr o -> Q' tr o) -> wp p Q'.
Proof. rewrite !wp_exec. eauto. Qed.

Lemma wp_bind {A B} (p : prog E A) (f : A -> prog E B) Q :
  wp (p ≫= f) Q <->
  wp p (fun tr o => match o with
                    | Done a => wp (f a) (fun tr' o' => Q (tr ++ tr') o')
                    | Crash s => Q tr (Crash s)
                    end).
Proof.
  revert Q. induction p as [a|s|X e k IH]; intros Q; cbn; [done..|].
  split; intros H x.
  - eapply wp_mono; [exact (proj1 (IH x _) (H x))|]. by intros tr [a|s].
  - apply IH. eapply wp_mono; [exact (H x)|]. by intros tr [a|s].
Qed.

Lemma wp_bindr {A B} (p : prog E (result A)) (f : A -> prog E (result B)) Q :
  wp (bindr p f) Q <->
  wp p (fun tr o => match o with
                    | Done (Ok a) => wp (f a) (fun tr' o' => Q (tr ++ tr') o')
                    | Done (Err e) => Q tr (Done (Err e))
                    | Crash s => Q tr (Crash s)
                    end).
Proof.
  unfold bindr. rewrite wp_bind. split; intros H; (eapply wp_mono; [exact H|]);
    intros tr [[a|e]|s]; cbn; rewrite ?app_nil_r; done.
Qed.

(** Sequences associate. *)
Lemma wp_bind_assoc {A B C} (p : prog E A) (g : A -> prog E B) (f : B -> prog E C) Q :
  wp ((p ≫= g) ≫= f) Q <-> wp (p ≫= fun a => g a ≫= f) Q.
Proof.
  revert Q. induction p as [a|s|X e k IH]; intros Q; cbn; [done..|].
  split; intros H x; [exact (proj1 (IH x _) (H x))|exact (proj2 (IH x _) (H x))].
Qed.

(** An early return inside a sequence. *)
Lemma wp_bindr_bind {A B C} (p : prog E (result A)) (g : A -> prog E (result B)) (f : result B -> prog E C) Q :
  wp (bindr p g ≫= f) Q <-> wp (p ≫= fun r => match r with Ok a => g a ≫= f | Err e => f (Err e) end) Q.
Proof.
  revert Q. induction p as [[a|e]|s|X e k IH]; intros Q; cbn; [done..|].
  split; intros H x; [exact (proj1 (IH x _) (H x))|exact (proj2 (IH x _) (H x))].
Qed.

Lemma all_ev_exec {A} (P : forall X, E X -> Prop) (p : prog E A) tr o :
  all_ev P p -> exec p tr o -> Forall (fun ob => P _ (ob_event ob)) tr.
Proof.
  revert tr. induction p as [a|s|X e k IH]; intros tr; cbn.
  - intros _ [-> _]. constructor.
  - intros _ [-> _]. constructor.
  - intros [He Hk] (x & t & -> & Hx). constructor; [exact He|]. eapply IH; eauto.
Qed.

Lemma all_ev_bind {A B} P (p : prog E A) (f : A -> prog E B) :
  all_ev P p -> (forall a, all_ev P (f a)) -> all_ev P (p ≫= f).
Proof.
  intros Hp Hf. induction p as [a|s|X e k IH]; cbn in *; [done..|].
  destruct Hp as [He Hk]. split; [done|]. intros x. by apply IH.
Qed.

Lemma all_ev_bindr {A B} P (p : prog E (result A)) (f : A -> prog E (result B)) :
  all_ev P p -> (forall a, all_ev P (f a)) -> all_ev P (bindr p f).
Proof. intros Hp Hf. apply all_ev_bind; [done|]. intros [a|e]; cbn; auto. Qed.

(** The continuation is only reached with results that the post-condition of
    the first part allows. *)
Lemma all_ev_bind_wp {A B} P (p : prog E A) (f : A -> prog E B) :
  all_ev P p -> wp p (fun _ o => match o with Done a => all_ev P (f a) | Crash _ => True end) ->
  all_ev P (p ≫= f).
Proof.
  intros Hp. induction p as [a|s|X e k IH]; cbn in *; [done..|].
  destruct Hp as [He Hk]. intros Hw. split; [done|]. intros x. by apply IH.
Qed.

Lemma all_ev_call {X} (P : forall X, E X -> Prop) (e : E X) : P _ e -> all_ev P (call e).
Proof. cbn. auto. Qed.

Lemma all_ev_ret {A} (P : forall X, E X -> Prop) (a : A) : all_ev P (Ret a).
Proof. exact I. Qed.

Lemma all_ev_deref {A} (P : forall X, E X -> Prop) (o : option A) : all_ev P (@deref E A o).
Proof. destruct o; exact I. Qed.

Lemma all_ev_impl {A} (P P' : forall X, E X -> Prop) (p : prog E A) :
  (forall X e, P X e -> P' X e) -> all_ev P p -> all_ev P' p.
Proof.
  intros H. induction p as [a|s|X e k IH]; cbn; [done..|].
  intros [He Hk]. split; [auto|]. intros x. by apply IH.
Qed.

Lemma no_panic_wp_iff {A} (p : prog E A) :
  no_panic p <-> wp p (fun _ o => exists a, o = Done a).
Proof.
  induction p as [a|s|X e k IH]; cbn.
  - split; [by eexists|done].
  - split; [done|by intros [? ?]].
  - split; intros H x; apply IH, H.
Qed.

Lemma no_panic_wp {A} (p : prog E A) : no_panic p -> wp p (fun _ o => exists a, o = Done a).
Proof. apply no_panic_wp_iff. Qed.

Lemma no_panic_exec {A} (p : prog E A) tr o : no_panic p -> exec p tr o -> exists a, o = Done a.
Proof. intros H. revert tr o. apply wp_exec. by apply no_panic_wp. Qed.

Lemma no_panic_bind {A B} (p : prog E A) (f : A -> prog E B) :
  no_panic p -> (forall a, no_panic (f a)) -> no_panic (p ≫= f).
Proof.
  intros Hp Hf. induction p as [a|s|X e k IH]; cbn in *; [done..|]. intros x. by apply IH.
Qed.

Lemma no_panic_bindr {A B} (p : prog E (result A)) (f : A -> prog E (result B)) :
  no_panic p -> (forall a, no_panic (f a)) -> no_panic (bindr p f).
Proof. intros Hp Hf. apply no_panic_bind; [done|]. intros [a|e]; cbn; auto. Qed.

Lemma no_panic_call {X} (e : E X) : no_panic (call e).
Proof. cbn. done. Qed.

(** The scripted run of a program is one of its executions, so every program
    has an execution in every environment: the Go code returns. *)
Lemma run_exec {A S} (h : forall X, E X -> S -> X * S) (p : prog E A) s :
  exec p (run h p s).1.1 (run h p s).1.2.
Proof.
  revert s. induction p as [a|m|X e k IH]; intros s; cbn; [done..|].
  destruct (h X e s) as [x s'] eqn:Hh. specialize (IH x s').
  destruct (run h (k x) s') as [[tr o] s'']. cbn in *. eauto.
Qed.

Lemma run_bind {A B S} (h : forall X, E X -> S -> X * S) (p : prog E A) (f : A -> prog E B) s :
  run h (p ≫= f) s =
  let '(tr, o, s1) := run h p s in
  match o with
  | Done a => let '(tr', o', s2) := run h (f a) s1 in (tr ++ tr', o', s2)
  | Crash m => (tr, Crash m, s1)
  end.
Proof.
  revert s. induction p as [a|m|X e k IH]; intros s; cbn.
  - by destruct (run h (f a) s) as [[tr o] s'].
  - done.
  - destruct (h X e s) as [x s']. specialize (IH x s'). cbn in IH. rewrite IH.
    destruct (run h (k x) s') as [[tr o] s1]. destruct o as [a|m]; [|done].
    by destruct (run h (f a) s1) as [[tr' o'] s2].
Qed.

(** Outcome and final state of a sequence. *)
Lemma run_bind_done {A B S} (h : forall X, E X -> S -> X * S) (p : prog E A) (f : A -> prog E B) s a s1 :
  (run h p s).1.2 = Done a -> (run h p s).2 = s1 ->
  (run h (p ≫= f) s).1.2 = (run h (f a) s1).1.2 /\ (run h (p ≫= f) s).2 = (run h (f a) s1).2.
Proof.
  rewrite run_bind. destruct (run h p s) as [[tr o] s']. cbn. intros -> ->.
  by destruct (run h (f a) s1) as [[tr' o'] s2].
Qed.

(** The responses of a handler without state. *)
Lemma run_answers {A} (h : forall X, E X -> unit -> X * unit) (p : prog E A) u :
  Forall (fun ob => ob_resp ob = (h _ (ob_event ob) tt).1) (run h p u).1.1.
Proof.
  revert u. induction p as [a|m|X e k IH]; intros []; cbn; [constructor..|].
  destruct (h X e tt) as [x u'] eqn:Hh. specialize (IH x u'). destruct (run h (k x) u') as [[tr o] u''].
  constructor; [|exact IH]. cbn. by rewrite Hh.
Qed.

End ProgramLogic.

(** Hints and tactics of the program logic: [ev_auto] follows the structure of
    a program and leaves the events it performs, [wp_cbn] unfolds the
    combinators of straight-line code. *)
Create HintDb muo.
#[export] Hint Resolve all_ev_ret all_ev_deref all_ev_call : muo.

Ltac ev_step :=
  lazymatch goal with
  | |- all_ev _ (bindr _ _) => apply all_ev_bindr
  | |- all_ev _ (mbind _ _) => apply all_ev_bind
  | |- all_ev _ (Ret _) => exact I
  | |- all_ev _ (Panic _) => exact I
  | |- all_ev _ (mret _) => exact I
  | |- all_ev _ (call _) => apply all_ev_call
  | |- all_ev _ (Vis _ _) => split
  | |- all_ev _ (deref _) => apply all_ev_deref
  | |- all_ev _ (match ?x with _ => _ end) => destruct x
  | |- forall _, _ => intro
  end.
Ltac ev_auto := repeat first [ev_step | solve [eauto with muo]].

(** The same for the absence of panics. *)
Ltac np_step :=
  lazymatch goal with
  | |- no_panic (bindr _ _) => apply no_panic_bindr
  | |- no_panic (mbind _ _) => apply no_panic_bind
  | |- no_panic (Ret _) => exact I
  | |- no_panic (mret _) => exact I
  | |- no_panic (call _) => apply no_panic_call
  | |- no_panic (match ?x with _ => _ end) => destruct x
  | |- forall _, _ => intro
  end.
Ltac np_auto := repeat first [solve [eauto with muo] | np_step].

Ltac wp_cbn := cbn [wp mbind mret prog_mbind prog_ret prog_bind call bindr deref app].

(** Split every match on which the goal (or a hypothesis) depends. *)
Ltac split_match :=
  match goal with
  | |- context [match ?x with _ => _ end] => destruct x eqn:?
  end.

(** ** Machine integers *)

Lemma wrap_range w x : (0 < w)%Z -> in_int w (wrap w x).
Proof.
  intros Hw. unfold wrap, in_int.
  assert (2 ^ w = 2 * 2 ^ (w - 1))%Z as E by
    (rewrite <- Z.pow_succ_r by lia; f_equal; lia).
  assert (0 < 2 ^ (w - 1))%Z by (apply Z.pow_pos_nonneg; lia).
  pose proof (Z.mod_pos_bound (x + 2 ^ (w - 1)) (2 ^ w)). lia.
Qed.

Lemma wrap_id w x : (0 < w)%Z -> in_int w x -> wrap w x = x.
Proof.
  intros Hw Hx. unfold wrap, in_int in *.
  assert (2 ^ w = 2 * 2 ^ (w - 1))%Z as E by
    (rewrite <- Z.pow_succ_r by lia; f_equal; lia).
  rewrite Z.mod_small by lia. lia.
Qed.

Lemma dur_mul_id n unit : in_int 64 (n * unit) -> dur_mul n unit = (n * unit)%Z.
Proof. apply wrap_id. lia. Qed.

(** ** Strings *)

Lemma HasPrefix_app (p s : string) : HasPrefix (p +:+ s) p = true.
Proof.
  induction p as [|a p IH]; [by destruct s|].
  change (Ascii.eqb a a && HasPrefix (p +:+ s) p = true). by rewrite Ascii.eqb_refl.
Qed.

Lemma HasPrefix_spec (s p : string) :
  HasPrefix s p = true <-> exists s', s = p +:+ s'.
Proof.
  split; [|intros [s' ->]; apply HasPrefix_app].
  revert s. induction p as [|a p IH]; intros s; cbn; [by exists s|].
  destruct s as [|b s]; [done|]. intros [->%Ascii.eqb_eq [s' ->]%IH]%andb_prop.
  by exists s'.
Qed.

Lemma string_app_assoc (a b c : string) : (a +:+ b) +:+ c = a +:+ (b +:+ c).
Proof. induction a as [|x a IH]; [done|]. exact (f_equal (String x) IH). Qed.

Lemma string_app_nil_r (a : string) : a +:+ "" = a.
Proof. induction a as [|x a IH]; [done|]. exact (f_equal (String x) IH). Qed.

Lemma Contains_app_r (s t sub : string) : Contains t sub = true -> Contains (s +:+ t) sub = true.
Proof.
  intros H. induction s as [|a s IH]; [done|].
  change (HasPrefix (String a s +:+ t) sub || Contains (s +:+ t) sub = true).
  by rewrite IH, orb_true_r.
Qed.

Lemma HasPrefix_app_l (s t p : string) : HasPrefix s p = true -> HasPrefix (s +:+ t) p = true.
Proof.
  intros [s' ->]%HasPrefix_spec. rewrite string_app_assoc. apply HasPrefix_app.
Qed.

Lemma Contains_app_l (s t sub : string) : Contains s sub = true -> Contains (s +:+ t) sub = true.
Proof.
  induction s as [|a s IH].
  - cbn. rewrite orb_false_r. destruct sub; [destruct t; done|done].
  - intros [H|H]%orb_true_iff; apply orb_true_iff; [left|right; exact (IH H)].
    change (HasPrefix (String a s +:+ t) sub = true). by apply HasPrefix_app_l.
Qed.

(** ** Parts of a trace *)

Lemma app_sub_l {A} (l1 l2 : list A) : l1 ⊆ l1 ++ l2.
Proof. intros x Hx. apply elem_of_app. by left. Qed.
Lemma app_sub_r {A} (l1 l2 : list A) : l2 ⊆ l1 ++ l2.
Proof. intros x Hx. apply elem_of_app. by right. Qed.

(** ** The element with the earliest key: the first one among equals *)
Lemma fold_earliest {A} (key : A -> Time) (l : list A) (p : A) :
  let q := fold_left (fun next x => if Before (key x) (key next) then x else next) l p in
  (q = p \/ q ∈ l) /\ (key q <= key p)%Z /\ forall r, r ∈ l -> (key q <= key r)%Z.
Proof.
  revert p. induction l as [|x l IH]; intros p; cbn.
  { split_and!; [by left|lia|]. intros r Hr. by apply elem_of_nil in Hr. }
  destruct (Before (key x) (key p)) eqn:E; [apply Z.ltb_lt in E|apply Z.ltb_ge in E].
  - destruct (IH x) as (H1 & H2 & H3). split_and!; [|lia|].
    { right. destruct H1 as [->|?]; [by left|by right]. }
    intros r [->|Hr]%elem_of_cons; [done|by apply H3].
  - destruct (IH p) as (H1 & H2 & H3). split_and!; [|lia|].
    { destruct H1 as [->|?]; [by left|right; by right]. }
    intros r [->|Hr]%elem_of_cons; [lia|by apply H3].
Qed.
