(* ===== verification/GoSort.v ===== *)
(** * sort.Slice

    The insertion sort that Go's [sort.Slice] runs on slices of at most twelve
    elements, with its index-based comparison function: the callback receives
    two indices, and may look at the slice being sorted or, as one caller
    does, at another one.  With a callback that compares the current contents
    it is the stable functional insertion sort [isort]. *)

From S2P Require Import Prelude.
From stdpp Require Import base list sorting.
From Stdlib Require Import Lia.

Section Sort.
Context {A : Type}.
Implicit Types l pre post : list A.

Definition swap (i j : nat) l : list A :=
  match l !! i, l !! j with
  | Some a, Some b => <[i := b]> (<[j := a]> l)
  | _, _ => l
  end.

(** [for j := i; j > 0 && less(j, j-1); j-- { swap(j, j-1) }] *)
Fixpoint sift (less : list A -> nat -> nat -> bool) (j : nat) l : list A :=
  match j with
  | O => l
  | S j' => if less l j j' then sift less j' (swap j j' l) else l
  end.

Definition insertionSort (less : list A -> nat -> nat -> bool) l : list A :=
  foldl (fun l i => sift less i l) l (seq 1 (length l - 1)).

(** The callback that compares the current elements at the two indices. *)
Definition less_of (lt : A -> A -> bool) (l : list A) (i j : nat) : bool :=
  match l !! i, l !! j with Some a, Some b => lt a b | _, _ => false end.

(** Insert into a reversed sorted prefix. *)
Fixpoint ins_rev (lt : A -> A -> bool) (x : A) (racc : list A) : list A :=
  match racc with
  | [] => [x]
  | y :: r => if lt x y then y :: ins_rev lt x r else x :: y :: r
  end.

Definition isort (lt : A -> A -> bool) l : list A :=
  rev (foldl (fun acc x => ins_rev lt x acc) [] l).

Lemma swap_perm i j l : swap i j l ≡ₚ l.
Proof.
  unfold swap. destruct (l !! i) as [a|] eqn:Hi; [|done].
  destruct (l !! j) as [b|] eqn:Hj; [|done].
  exact (Permutation_insert_swap l j i b a Hj Hi).
Qed.

Lemma sift_perm less j l : sift less j l ≡ₚ l.
Proof.
  revert l. induction j as [|j IH]; intros l; cbn; [done|].
  destruct (less l (S j) j); [|done]. by rewrite IH, swap_perm.
Qed.

(** Whatever the callback answers, the result is a permutation. *)
Lemma insertionSort_perm less l : insertionSort less l ≡ₚ l.
Proof.
  unfold insertionSort. generalize (seq 1 (length l - 1)) as is_. intros is_.
  revert l. induction is_ as [|i is_ IH]; intros l; cbn; [done|]. by rewrite IH, sift_perm.
Qed.

(** Sifting the element after a prefix inserts it into the prefix. *)
Lemma sift_ins lt pre x post :
  sift (less_of lt) (length pre) (pre ++ x :: post) = rev (ins_rev lt x (rev pre)) ++ post.
Proof.
  revert x post. induction pre as [|y pre IH] using rev_ind; intros x post; [done|].
  rewrite length_app, Nat.add_comm. cbn [length Nat.add sift]. rewrite rev_app_distr. cbn [rev app].
  rewrite <- app_assoc. cbn [app ins_rev].
  assert ((pre ++ y :: x :: post) !! length pre = Some y) as Hy by (by apply list_lookup_middle).
  assert ((pre ++ y :: x :: post) !! S (length pre) = Some x) as Hx.
  { replace (pre ++ y :: x :: post) with ((pre ++ [y]) ++ x :: post) by (by rewrite <- app_assoc).
    apply list_lookup_middle. rewrite length_app. cbn. lia. }
  unfold less_of at 1. rewrite Hx, Hy. destruct (lt x y).
  - unfold swap. rewrite Hx, Hy.
    replace (<[S (length pre):=y]> (<[length pre:=x]> (pre ++ y :: x :: post)))
      with (pre ++ x :: y :: post).
    + rewrite IH. cbn [rev]. by rewrite <- app_assoc.
    + rewrite insert_app_r_alt by lia. rewrite Nat.sub_diag. cbn.
      rewrite insert_app_r_alt by lia. replace (S (length pre) - length pre) with 1 by lia. done.
  - cbn [rev]. rewrite rev_involutive, <- !app_assoc. done.
Qed.

Lemma insertionSort_prefix lt racc post :
  foldl (fun l i => sift (less_of lt) i l) (rev racc ++ post) (seq (length racc) (length post)) =
  rev (foldl (fun acc x => ins_rev lt x acc) racc post).
Proof.
  revert racc. induction post as [|x post IH]; intros racc; cbn [length seq foldl].
  - by rewrite app_nil_r.
  - rewrite <- (length_rev racc) at 1. rewrite sift_ins, rev_involutive.
    rewrite <- IH. do 2 f_equal.
    clear. induction racc as [|y racc IH]; cbn; [done|]. destruct (lt x y); cbn; by rewrite <- ?IH.
Qed.

(** With a callback on the current contents, [sort.Slice] is [isort]. *)
Lemma insertionSort_isort lt l : insertionSort (less_of lt) l = isort lt l.
Proof.
  unfold insertionSort, isort. destruct l as [|x l]; [done|].
  cbn [length foldl ins_rev]. rewrite Nat.sub_succ, Nat.sub_0_r.
  exact (insertionSort_prefix lt [x] l).
Qed.

(** Sortedness for a comparison that is a strict weak order. *)
Lemma ins_rev_sorted lt x racc :
  (forall a b, lt a b = true -> lt b a = false) ->
  (forall a b c, lt b a = false -> lt c b = false -> lt c a = false) ->
  StronglySorted (fun a b => lt a b = false) racc ->
  StronglySorted (fun a b => lt a b = false) (ins_rev lt x racc).
Proof.
  intros Hasym Htrans. induction racc as [|y r IH]; cbn; intros H.
  - repeat constructor.
  - apply StronglySorted_inv in H as [Hr Hy]. destruct (lt x y) eqn:E.
    + constructor; [by apply IH|].
      assert (ins_rev lt x r ≡ₚ x :: r) as ->.
      { clear. induction r as [|z r IH]; cbn; [done|].
        destruct (lt x z); [|done]. rewrite IH. apply Permutation_swap. }
      constructor; auto.
    + constructor; [by constructor|]. constructor; [done|].
      eapply Forall_impl; [exact Hy|]. intros z Hz. cbn in Hz. by apply (Htrans z y x).
Qed.

Lemma isort_perm lt l : isort lt l ≡ₚ l.
Proof. rewrite <- insertionSort_isort. apply insertionSort_perm. Qed.

(** The reversed result: no element is before one that follows it. *)
Lemma isort_sorted lt l :
  (forall a b, lt a b = true -> lt b a = false) ->
  (forall a b c, lt b a = false -> lt c b = false -> lt c a = false) ->
  StronglySorted (fun a b => lt a b = false) (rev (isort lt l)).
Proof.
  intros Hasym Htrans. unfold isort. rewrite rev_involutive.
  assert (StronglySorted (fun a b => lt a b = false) (@nil A)) as H by constructor.
  revert H. generalize (@nil A) as racc. induction l as [|x l IH]; intros racc H; cbn; [done|].
  apply IH. by apply ins_rev_sorted.
Qed.

End Sort.

(** The order of the result, by index. *)
Lemma isort_order {A} (lt : A -> A -> bool) l i j a b :
  (forall a b, lt a b = true -> lt b a = false) ->
  (forall a b c, lt b a = false -> lt c b = false -> lt c a = false) ->
  i < j -> isort lt l !! i = Some a -> isort lt l !! j = Some b -> lt b a = false.
Proof.
  intros Hasym Htrans Hij Ha Hb. pose proof (isort_sorted lt l Hasym Htrans) as Hs.
  rewrite <- (rev_involutive (isort lt l)) in Ha, Hb. revert Ha Hb Hs.
  generalize (rev (isort lt l)) as r. intros r Ha Hb Hs.
  revert i j Hij Ha Hb. induction Hs as [|x r Hs IH Hx]; intros i j Hij; cbn; [done|].
  assert (forall k c, (rev r ++ [x]) !! k = Some c -> rev r !! k = Some c \/ k = length r /\ c = x) as Hk.
  { intros k c [Hc|[Hle Hc]]%lookup_app_Some; [by left|right].
    rewrite length_rev in *. apply list_lookup_singleton_Some in Hc as [? ->]. split; [lia|done]. }
  intros [Ha|[-> ->]]%Hk [Hb|[-> ->]]%Hk; [by eapply IH| | |lia].
  - rewrite Forall_forall in Hx. apply Hx. apply list_elem_of_lookup_2 in Ha.
    by apply list_elem_of_In, in_rev, list_elem_of_In.
  - apply lookup_lt_Some in Hb. rewrite length_rev in Hb. lia.
Qed.

(** Without an inversion between neighbours nothing moves. *)
Lemma insertionSort_id {A} (less : list A -> nat -> nat -> bool) l :
  (forall i, S i < length l -> less l (S i) i = false) -> insertionSort less l = l.
Proof.
  intros H. unfold insertionSort.
  assert (forall n k, k + n <= length l -> 0 < k -> foldl (fun l i => sift less i l) l (seq k n) = l) as Hf.
  { induction n as [|n IH]; intros k Hk Hpos; cbn; [done|]. destruct k as [|k]; [lia|].
    cbn [sift]. rewrite H by lia. apply IH; lia. }
  destruct l as [|x l]; [done|]. apply Hf; cbn; lia.
Qed.
