(* ===== verification/GoTime.v ===== *)
(** * Times, durations and RFC 3339 texts

    The parts of Go's [time] package that the operator uses on texts:
    [parseRFC3339] is [time.Parse(time.RFC3339, s)], the entry point of every
    schedule, [formatRFC3339] is [Time.Format(time.RFC3339)], and
    [Duration_String] prints durations in messages and queries. *)

From stdpp Require Import base gmap strings pretty list.
From Stdlib Require Import ZArith Lia Ascii.
From S2P Require Import Prelude.
Local Open Scope Z_scope.

(** ** Civil dates *)

Definition is_leap (y : Z) : bool :=
  (y mod 4 =? 0) && (negb (y mod 100 =? 0) || (y mod 400 =? 0)).

Definition days_in (m y : Z) : Z :=
  match m with
  | 2 => if is_leap y then 29 else 28
  | 4 | 6 | 9 | 11 => 30
  | _ => 31
  end.

(** Days from January 1, year 0 to January 1 of year [y >= 0]. *)
Definition days_before_year (y : Z) : Z :=
  365 * y + (y + 3) / 4 - (y + 99) / 100 + (y + 399) / 400.

Definition days_before_month (m y : Z) : Z :=
  match m with
  | 1 => 0 | 2 => 31 | 3 => 59 | 4 => 90 | 5 => 120 | 6 => 151 | 7 => 181
  | 8 => 212 | 9 => 243 | 10 => 273 | 11 => 304 | _ => 334
  end + (if is_leap y && (2 <? m) then 1 else 0).

Definition unix_days (y m d : Z) : Z :=
  days_before_year y + days_before_month m y + (d - 1) - 719528.

(** A date and time with its offset from UTC in seconds. *)
Record civil := mkCivil {
  c_year : Z; c_month : Z; c_day : Z; c_hour : Z; c_min : Z; c_sec : Z; c_nsec : Z; c_offset : Z }.

Definition time_of (c : civil) : Time :=
  (unix_days (c_year c) (c_month c) (c_day c) * 86400
   + c_hour c * 3600 + c_min c * 60 + c_sec c - c_offset c) * Second + c_nsec c.

(** ** time.Parse(time.RFC3339, value) *)

Definition digit (a : ascii) : option Z :=
  let n := Z.of_nat (nat_of_ascii a) in
  if (48 <=? n) && (n <=? 57) then Some (n - 48) else None.

(** [getnum]: two digits, or one when [fixed] is false. *)
Definition getnum (fixed : bool) (s : string) : option (Z * string) :=
  match s with
  | EmptyString => None
  | String a s1 =>
      match digit a with
      | None => None
      | Some d1 =>
          match s1 with
          | EmptyString => if fixed then None else Some (d1, s1)
          | String b s2 =>
              match digit b with
              | Some d2 => Some (d1 * 10 + d2, s2)
              | None => if fixed then None else Some (d1, s1)
              end
          end
      end
  end.

Definition getnum_in (fixed : bool) (lo hi : Z) (s : string) : option (Z * string) :=
  match getnum fixed s with
  | Some (n, s') => if (lo <=? n) && (n <=? hi) then Some (n, s') else None
  | None => None
  end.

Definition getyear (s : string) : option (Z * string) :=
  match getnum true s with
  | Some (a, s1) =>
      match getnum true s1 with Some (b, s2) => Some (a * 100 + b, s2) | None => None end
  | None => None
  end.

Definition skip (a : ascii) (s : string) : option string :=
  match s with String b s' => if Ascii.eqb a b then Some s' else None | EmptyString => None end.

(** Digits of the fractional second: at most nine are used, all are skipped. *)
Fixpoint fraction (left : nat) (acc : Z) (s : string) : Z * string :=
  match s with
  | String a s' =>
      match digit a with
      | Some d => match left with
                  | O => fraction O acc s'
                  | S l => fraction l (acc * 10 + d) s'
                  end
      | None => (acc * 10 ^ Z.of_nat left, s)
      end
  | EmptyString => (acc * 10 ^ Z.of_nat left, s)
  end.

Definition getnsec (s : string) : Z * string :=
  match s with
  | String c (String a s') =>
      if (Ascii.eqb c "." || Ascii.eqb c ",")%char && bool_decide (is_Some (digit a))
      then fraction 9 0 (String a s') else (0, s)
  | _ => (0, s)
  end.

(** The zone: [Z], or a sign, two digits, a colon and two digits. *)
Definition getzone (s : string) : option (Z * string) :=
  match s with
  | String "Z" s' => Some (0, s')
  | String sign s1 =>
      if (Ascii.eqb sign "+" || Ascii.eqb sign "-")%char then
        match getnum_in true 0 24 s1 with
        | Some (hr, s2) =>
            match skip ":" s2 with
            | Some s3 =>
                match getnum_in true 0 60 s3 with
                | Some (mm, s4) =>
                    let off := (hr * 60 + mm) * 60 in
                    Some (if Ascii.eqb sign "-" then - off else off, s4)
                | None => None
                end
            | None => None
            end
        | None => None
        end
      else None
  | EmptyString => None
  end.

Definition parse_civil (s : string) : option civil :=
  '(y, s) ← getyear s; s ← skip "-" s;
  '(mo, s) ← getnum_in true 1 12 s; s ← skip "-" s;
  '(d, s) ← getnum true s; s ← skip "T" s;
  '(h, s) ← getnum_in false 0 23 s; s ← skip ":" s;
  '(mi, s) ← getnum_in true 0 59 s; s ← skip ":" s;
  '(sec, s) ← getnum_in true 0 59 s;
  let '(ns, s) := getnsec s in
  '(off, s) ← getzone s;
  if String.eqb s "" && (1 <=? d) && (d <=? days_in mo y)
  then Some (mkCivil y mo d h mi sec ns off) else None.

Definition parseRFC3339 (value : string) : result Time :=
  match parse_civil value with
  | Some c => Ok (time_of c)
  | None => Err (ErrText ("parsing time " +:+ quoted value))
  end.

(** ** Time.Format(time.RFC3339), without the fractional second *)

Definition dig (d : Z) : ascii := ascii_of_nat (Z.to_nat (48 + d)).
Definition two (n : Z) (s : string) : string := String (dig (n / 10)) (String (dig (n mod 10)) s).

Definition format_zone (off : Z) : string :=
  if off =? 0 then "Z"
  else let a := Z.abs off / 60 in
       String (if (off <? 0)%Z then "-" else "+")%char (two (a / 60) (String ":" (two (a mod 60) ""))).

Definition formatRFC3339 (c : civil) : string :=
  two (c_year c / 100) (two (c_year c mod 100) (String "-" (two (c_month c) (String "-"
    (two (c_day c) (String "T" (two (c_hour c) (String ":" (two (c_min c) (String ":"
      (two (c_sec c) (format_zone (c_offset c))))))))))))).

Definition valid_civil (c : civil) : Prop :=
  0 <= c_year c <= 9999 /\ 1 <= c_month c <= 12 /\
  1 <= c_day c <= days_in (c_month c) (c_year c) /\
  0 <= c_hour c <= 23 /\ 0 <= c_min c <= 59 /\ 0 <= c_sec c <= 59 /\ c_nsec c = 0 /\
  c_offset c mod 60 = 0 /\ Z.abs (c_offset c) <= 24 * 3600.

(** ** Time.UTC().Format(time.UnixDate) *)

(** Year, month and day of a number of days since the Unix epoch: 400 years
    have 146097 days, and a year is counted from its March. *)
Definition date_of_days (days : Z) : Z * Z * Z :=
  let z := days + 719468 in
  let era := z / 146097 in
  let doe := z mod 146097 in
  let yoe := (doe - doe / 1460 + doe / 36524 - doe / 146096) / 365 in
  let doy := doe - (365 * yoe + yoe / 4 - yoe / 100) in
  let mp := (5 * doy + 2) / 153 in
  let m := if mp <? 10 then mp + 3 else mp - 9 in
  (yoe + era * 400 + (if m <=? 2 then 1 else 0), m, doy - (153 * mp + 2) / 5 + 1).

Definition weekday_name (days : Z) : string :=
  match (days + 4) mod 7 with
  | 0 => "Sun" | 1 => "Mon" | 2 => "Tue" | 3 => "Wed" | 4 => "Thu" | 5 => "Fri" | _ => "Sat"
  end.
Definition month_name (m : Z) : string :=
  match m with
  | 1 => "Jan" | 2 => "Feb" | 3 => "Mar" | 4 => "Apr" | 5 => "May" | 6 => "Jun"
  | 7 => "Jul" | 8 => "Aug" | 9 => "Sep" | 10 => "Oct" | 11 => "Nov" | _ => "Dec"
  end.

(** For the years 0 to 9999 of a parsed time. *)
Definition formatUnixDate (t : Time) : string :=
  let secs := t / Second in
  let days := secs / 86400 in
  let s := secs mod 86400 in
  let '(y, m, d) := date_of_days days in
  (weekday_name days +:+ " " +:+ month_name m +:+ " " +:+
   (if (d <? 10)%Z then String " " (String (dig d) "") else two d "") +:+ " " +:+
   two (s / 3600) (String ":" (two (s / 60 mod 60) (String ":" (two (s mod 60) " UTC ")))) +:+
   two (y / 100) (two (y mod 100) ""))%string.

(** ** Durations as text ([time.Duration.String]) *)

(** The nine digits of a fraction of a second, without trailing zeros. *)
Fixpoint frac_digits (n : nat) (v : Z) (printing : bool) : string * Z :=
  match n with
  | O => ("", v)
  | S n' =>
      let digit := (v mod 10)%Z in
      let printing := printing || negb (digit =? 0)%Z in
      let '(s, rest) := frac_digits n' (v / 10)%Z printing in
      ((s +:+ if printing then pretty digit else "")%string, rest)
  end.

(** The fraction with its point, and the integer part that is left. *)
Definition fmtFrac (prec : nat) (v : Z) : string * Z :=
  let '(s, rest) := frac_digits prec v false in
  ((if String.eqb s "" then "" else "." +:+ s)%string, rest).

Definition micro : string := String (Ascii.ascii_of_nat 194) (String (Ascii.ascii_of_nat 181) "s").

Definition Duration_String (d : Duration) : string :=
  let u := Z.abs d in
  let sign : string := if (d <? 0)%Z then "-" else "" in
  if (u =? 0)%Z then "0s"
  else if (u <? Second)%Z then
    let '(prec, unit) :=
      if (u <? 1000)%Z then (0%nat, "ns")
      else if (u <? 1000000)%Z then (3%nat, micro)
      else (6%nat, "ms") in
    let '(frac, i) := fmtFrac prec u in
    sign +:+ pretty i +:+ frac +:+ unit
  else
    let '(frac, secs) := fmtFrac 9 u in
    let s := pretty (secs mod 60)%Z +:+ frac +:+ "s" in
    let mins := (secs / 60)%Z in
    if (mins =? 0)%Z then sign +:+ s
    else
      let s := pretty (mins mod 60)%Z +:+ "m" +:+ s in
      let hours := (mins / 60)%Z in
      if (hours =? 0)%Z then sign +:+ s else sign +:+ pretty hours +:+ "h" +:+ s.

(** [Duration.Truncate(m)] for a positive [m]. *)
Definition Truncate (d m : Duration) : Duration := (d - Z.rem d m)%Z.

(** [Time.Unix()]: whole seconds, rounded down; exact in a float64. *)
Definition Unix (t : Time) : Z := (t / Second)%Z.

(** ** Lemmas: printing and parsing numbers *)

Ltac Zify.zify_post_hook ::= Z.div_mod_to_equations.

Lemma digit_dig d : 0 <= d <= 9 -> digit (dig d) = Some d.
Proof.
  intros H. assert (d ∈ [0; 1; 2; 3; 4; 5; 6; 7; 8; 9]) as Hd.
  { assert (d = 0 \/ d = 1 \/ d = 2 \/ d = 3 \/ d = 4 \/ d = 5 \/ d = 6 \/ d = 7 \/ d = 8 \/ d = 9)
      as Hd by lia. set_solver. }
  revert Hd. repeat setoid_rewrite elem_of_cons. rewrite elem_of_nil.
  intros Hd. repeat destruct Hd as [->|Hd]; try reflexivity. done.
Qed.

Lemma getnum_two fixed n s : 0 <= n <= 99 -> getnum fixed (two n s) = Some (n, s).
Proof.
  intros H. unfold getnum, two.
  rewrite !digit_dig by lia. do 2 f_equal. lia.
Qed.

Lemma getnum_in_two fixed lo hi n s :
  0 <= n <= 99 -> lo <= n <= hi -> getnum_in fixed lo hi (two n s) = Some (n, s).
Proof.
  intros H Hb. unfold getnum_in. rewrite getnum_two by lia.
  rewrite (proj2 (Z.leb_le lo n)), (proj2 (Z.leb_le n hi)) by lia. done.
Qed.

Lemma getyear_two y s : 0 <= y <= 9999 -> getyear (two (y / 100) (two (y mod 100) s)) = Some (y, s).
Proof.
  intros H. unfold getyear.
  rewrite !getnum_two by lia. do 2 f_equal. lia.
Qed.

Lemma skip_eq a s : skip a (String a s) = Some s.
Proof. cbn. by rewrite Ascii.eqb_refl. Qed.

Lemma getzone_format off :
  off mod 60 = 0 -> Z.abs off <= 24 * 3600 -> getzone (format_zone off) = Some (off, "").
Proof.
  intros Hm Hb. unfold format_zone. destruct (Z.eqb_spec off 0) as [->|Hne]; [done|].
  set (a := Z.abs off / 60).
  assert (Z.abs off = 60 * a) as Ha by (subst a; lia).
  clearbody a.
  destruct (Z.ltb_spec off 0); cbn [getzone]; cbn [Ascii.eqb Bool.eqb orb];
    rewrite getnum_in_two, skip_eq, getnum_in_two by lia; cbn; do 2 f_equal; lia.
Qed.

Lemma getnsec_format_zone off : getnsec (format_zone off) = (0, format_zone off).
Proof.
  unfold format_zone. destruct (off =? 0); [done|]. unfold two. cbn.
  by destruct (off <? 0).
Qed.

Lemma days_in_bounds m y : 28 <= days_in m y <= 31.
Proof. unfold days_in. repeat case_match; lia. Qed.

Lemma parse_format c : valid_civil c -> parse_civil (formatRFC3339 c) = Some c.
Proof.
  intros (Hy & Hmo & Hd & Hh & Hmi & Hs & Hns & Hoff & Hab).
  pose proof (days_in_bounds (c_month c) (c_year c)).
  unfold parse_civil, formatRFC3339. rewrite getyear_two by lia. cbn [mbind option_bind].
  rewrite skip_eq. cbn [mbind option_bind]. rewrite getnum_in_two by lia. cbn [mbind option_bind].
  rewrite skip_eq. cbn [mbind option_bind]. rewrite getnum_two by lia. cbn [mbind option_bind].
  rewrite skip_eq. cbn [mbind option_bind]. rewrite getnum_in_two by lia. cbn [mbind option_bind].
  rewrite skip_eq. cbn [mbind option_bind]. rewrite getnum_in_two by lia. cbn [mbind option_bind].
  rewrite skip_eq. cbn [mbind option_bind]. rewrite getnum_in_two by lia. cbn [mbind option_bind].
  rewrite getnsec_format_zone, getzone_format by done. cbn [mbind option_bind].
  rewrite (proj2 (Z.leb_le _ _)), (proj2 (Z.leb_le _ _)) by lia. cbn.
  destruct c; cbn in *; by subst.
Qed.

(** ** Lemmas: the calendar *)

Lemma is_leap_spec y : is_leap y = true <-> y mod 4 = 0 /\ (y mod 100 <> 0 \/ y mod 400 = 0).
Proof. unfold is_leap. rewrite andb_true_iff, orb_true_iff, negb_true_iff, !Z.eqb_eq, Z.eqb_neq. done. Qed.

Lemma days_before_year_succ y :
  days_before_year (y + 1) = days_before_year y + (if is_leap y then 366 else 365).
Proof.
  unfold days_before_year. destruct (is_leap y) eqn:E.
  - apply is_leap_spec in E. lia.
  - assert (~ (y mod 4 = 0 /\ (y mod 100 <> 0 \/ y mod 400 = 0))) by (rewrite <- is_leap_spec; congruence).
    lia.
Qed.

Lemma days_before_month_succ m y :
  1 <= m <= 11 -> days_before_month (m + 1) y = days_before_month m y + days_in m y.
Proof.
  intros H. assert (m = 1 \/ m = 2 \/ m = 3 \/ m = 4 \/ m = 5 \/ m = 6 \/ m = 7 \/ m = 8 \/ m = 9 \/
    m = 10 \/ m = 11) as Hm by lia.
  unfold days_before_month, days_in.
  repeat destruct Hm as [->|Hm]; try subst m; destruct (is_leap y); reflexivity.
Qed.

(** The day after a date. *)
Definition next_day (y m d : Z) : Z * Z * Z :=
  if d <? days_in m y then (y, m, d + 1)
  else if m <? 12 then (y, m + 1, 1) else (y + 1, 1, 1).

(** Parsing the RFC 3339 rendering of a valid date and time (any offset of
    whole minutes up to 24 hours) gives back the instant: the text that the
    OCM provider writes into spec.upgradeAt is the time the scheduler reads. *)
Lemma parseRFC3339_format c :
  valid_civil c -> parseRFC3339 (formatRFC3339 c) = Ok (time_of c).
Proof. intros H. unfold parseRFC3339. by rewrite parse_format. Qed.

(** The day numbers of the parser are the calendar: January 1, 1970 is day
    0 and every day is followed by the next one, across months and years and
    with the Gregorian leap rule. *)
Lemma unix_days_calendar y m d :
  unix_days 1970 1 1 = 0 /\
  (1 <= m <= 12 -> 1 <= d <= days_in m y ->
   let '(y', m', d') := next_day y m d in
   unix_days y' m' d' = unix_days y m d + 1 /\ 1 <= m' <= 12 /\ 1 <= d' <= days_in m' y').
Proof.
  split; [done|]. intros Hm Hd. unfold next_day, unix_days.
  destruct (Z.ltb_spec d (days_in m y)); [lia|].
  destruct (Z.ltb_spec m 12).
  - pose proof (days_in_bounds (m + 1) y). rewrite days_before_month_succ by lia. lia.
  - assert (m = 12) as -> by lia. pose proof (days_in_bounds 1 (y + 1)).
    rewrite days_before_year_succ. unfold days_before_month, days_in in *. cbn in *.
    destruct (is_leap y), (is_leap (y + 1)); cbn in *; lia.
Qed.

Lemma formatUnixDate_example : formatUnixDate (1718454645 * Second) = "Sat Jun 15 12:30:45 UTC 2024"%string.
Proof. reflexivity. Qed.
Lemma date_of_days_examples :
  map date_of_days [-1; 0; 58; 59; 11016; 19782; 2932896] =
    [(1969, 12, 31); (1970, 1, 1); (1970, 2, 28); (1970, 3, 1); (2000, 2, 29); (2024, 2, 29); (9999, 12, 31)].
Proof. reflexivity. Qed.
