(* ===== verification/GoPath.v ===== *)
(** * Shell patterns: the Go function [path.Match]

    On ASCII text.  A pattern is parsed into terms; the matcher takes the
    maximal star-free chunks of the pattern in turn, each at the earliest
    position that the star before it allows.  [globs] is the documented meaning
    of a pattern; the two agree on names without a slash. *)

From stdpp Require Import base strings list.
From Stdlib Require Import ZArith Lia Ascii.
From S2P Require Import Prelude.

(** ** Patterns *)

(** A character range [lo-hi]; a single character is the range [c-c]. *)
Definition char_range : Type := ascii * ascii.

Inductive term :=
| TStar
| TAny
| TClass (negated : bool) (ranges : list char_range)
| TChar (c : ascii).

Definition ErrBadPattern : error := ErrText "syntax error in pattern".

(** The parser state: outside a class, or inside one with what was read so far:
    the negation, the ranges, and the position in the current range. *)
Inductive range_state :=
| RStart                      (* at the start of a range *)
| REsc                        (* after a backslash there *)
| RLo (lo : ascii)            (* after the first character *)
| RHi (lo : ascii)            (* after the dash *)
| RHiEsc (lo : ascii).        (* after a backslash there *)

Inductive parse_state :=
| PTerm
| PEsc
| PClassOpen                  (* just after the bracket *)
| PClass (negated : bool) (ranges : list char_range) (st : range_state).

Definition backslash : ascii := ascii_of_nat 92.

(** Reading [c] inside a class: the next ranges and position, [inr] when the
    class is closed, [None] for a syntax error. *)
Definition classStep (ranges : list char_range) (st : range_state) (c : ascii)
    : option (list char_range * range_state + list char_range) :=
  let start (ranges : list char_range) :=
    if Ascii.eqb c "]" then
      if decide (ranges = []) then None else Some (inr ranges)
    else if Ascii.eqb c "-" then None
    else if Ascii.eqb c backslash then Some (inl (ranges, REsc))
    else Some (inl (ranges, RLo c)) in
  match st with
  | RStart => start ranges
  | REsc => Some (inl (ranges, RLo c))
  | RLo lo => if Ascii.eqb c "-" then Some (inl (ranges, RHi lo)) else start (ranges ++ [(lo, lo)])
  | RHi lo =>
      if Ascii.eqb c "]" || Ascii.eqb c "-" then None
      else if Ascii.eqb c backslash then Some (inl (ranges, RHiEsc lo))
      else Some (inl (ranges ++ [(lo, c)], RStart))
  | RHiEsc lo => Some (inl (ranges ++ [(lo, c)], RStart))
  end.

(** The terms of a pattern, [None] when it is malformed. *)
Fixpoint parsePattern (st : parse_state) (pattern : string) : option (list term) :=
  match pattern with
  | EmptyString => match st with PTerm => Some [] | _ => None end
  | String c rest =>
      match st with
      | PTerm =>
          if Ascii.eqb c "*" then cons TStar <$> parsePattern PTerm rest
          else if Ascii.eqb c "?" then cons TAny <$> parsePattern PTerm rest
          else if Ascii.eqb c "[" then parsePattern PClassOpen rest
          else if Ascii.eqb c backslash then parsePattern PEsc rest
          else cons (TChar c) <$> parsePattern PTerm rest
      | PEsc => cons (TChar c) <$> parsePattern PTerm rest
      | PClassOpen =>
          if Ascii.eqb c "^" then parsePattern (PClass true [] RStart) rest
          else match classStep [] RStart c with
               | Some (inl (ranges, st')) => parsePattern (PClass false ranges st') rest
               | _ => None
               end
      | PClass negated ranges st' =>
          match classStep ranges st' c with
          | Some (inl (ranges, st')) => parsePattern (PClass negated ranges st') rest
          | Some (inr ranges) => cons (TClass negated ranges) <$> parsePattern PTerm rest
          | None => None
          end
      end
  end.

(** ** Matching *)

Definition inRange (c : ascii) (r : char_range) : bool :=
  Nat.leb (nat_of_ascii r.1) (nat_of_ascii c) && Nat.leb (nat_of_ascii c) (nat_of_ascii r.2).

(** A term other than a star against one character. *)
Definition matchTerm (t : term) (c : ascii) : bool :=
  match t with
  | TStar => false
  | TAny => negb (Ascii.eqb c "/")
  | TClass negated ranges => negb (Bool.eqb (existsb (inRange c) ranges) negated)
  | TChar c' => Ascii.eqb c c'
  end.

(** A star-free chunk against the start of the name: what remains. *)
Fixpoint matchChunk (chunk : list term) (s : string) : option string :=
  match chunk with
  | [] => Some s
  | t :: chunk' =>
      match s with
      | EmptyString => None
      | String c s' => if matchTerm t c then matchChunk chunk' s' else None
      end
  end.

Fixpoint hasSlash (s : string) : bool :=
  match s with EmptyString => false | String c s' => Ascii.eqb c "/" || hasSlash s' end.

(** Skip characters other than a slash until the chunk matches. *)
Fixpoint skipMatch (ok : string -> option string) (name : string) : option string :=
  match name with
  | EmptyString => None
  | String c rest =>
      if Ascii.eqb c "/" then None
      else match ok rest with
           | Some t => Some t
           | None => skipMatch ok rest
           end
  end.

(** The chunks of a pattern, each with whether a star precedes it. *)
Fixpoint chunks (star : bool) (chunk : list term) (ts : list term) : list (bool * list term) :=
  match ts with
  | [] => if negb star && bool_decide (chunk = []) then [] else [(star, chunk)]
  | TStar :: ts' =>
      if bool_decide (chunk = []) then chunks true [] ts'
      else (star, chunk) :: chunks true [] ts'
  | t :: ts' => chunks star (chunk ++ [t]) ts'
  end.

Fixpoint matchChunks (cs : list (bool * list term)) (name : string) : bool :=
  match cs with
  | [] => String.eqb name ""
  | (star, chunk) :: cs' =>
      if star && bool_decide (chunk = []) then negb (hasSlash name)
      else
        let ok s :=
          match matchChunk chunk s with
          | Some t => if String.eqb t "" || negb (bool_decide (cs' = [])) then Some t else None
          | None => None
          end in
        match ok name with
        | Some t => matchChunks cs' t
        | None =>
            if star then
              match skipMatch ok name with
              | Some t => matchChunks cs' t
              | None => false
              end
            else false
        end
  end.

Definition path_Match (pattern name : string) : result bool :=
  match parsePattern PTerm pattern with
  | None => Err ErrBadPattern
  | Some ts => Ok (matchChunks (chunks false [] ts) name)
  end.

(** ** The documented meaning *)

(** A star matches any sequence of characters other than a slash, the other
    terms a single character. *)
Inductive globs : list term -> string -> Prop :=
| globs_nil : globs [] ""
| globs_star_stop ts s : globs ts s -> globs (TStar :: ts) s
| globs_star_skip ts c s : c <> "/"%char -> globs (TStar :: ts) s -> globs (TStar :: ts) (String c s)
| globs_char t ts c s : matchTerm t c = true -> globs ts s -> globs (t :: ts) (String c s).

(** ** Lemmas *)

Definition plain (t : term) : Prop := t <> TStar.
#[export] Instance term_eq_dec : EqDecision term.
Proof. solve_decision. Defined.

(** [t] is a suffix of [s]. *)
Inductive tail_of : string -> string -> Prop :=
| tail_refl s : tail_of s s
| tail_skip c s t : tail_of t s -> tail_of t (String c s).

Lemma tail_of_trans a b c : tail_of a b -> tail_of b c -> tail_of a c.
Proof. intros Hab Hbc. revert a Hab. induction Hbc; intros; [done|]. constructor. auto. Qed.

Lemma tail_of_uncons c s t : tail_of (String c t) s -> tail_of t s.
Proof. intros H. eapply tail_of_trans; [|exact H]. apply tail_skip, tail_refl. Qed.

Lemma tail_no_slash t s : tail_of t s -> hasSlash s = false -> hasSlash t = false.
Proof. induction 1; cbn; [done|]. intros [_ H']%orb_false_iff. auto. Qed.

(** A star absorbs more of a name without slashes. *)
Lemma globs_star_tail ts t s : tail_of t s -> hasSlash s = false -> globs (TStar :: ts) t -> globs (TStar :: ts) s.
Proof.
  induction 1 as [|c s t Ht IH]; cbn; [done|]. intros [Hc Hs]%orb_false_iff Hg.
  apply globs_star_skip; [|auto]. intros ->. by rewrite Ascii.eqb_refl in Hc.
Qed.

Lemma globs_star ts s : hasSlash s = false -> globs (TStar :: ts) s <-> exists t, tail_of t s /\ globs ts t.
Proof.
  intros Hs. split.
  - remember (TStar :: ts) as l. intros Hg. induction Hg as [|ts' s Hg _|ts' c s Hc Hg IH|t ts' c s Ht]; simplify_eq.
    + exists s. split; [constructor|done].
    + cbn in Hs. apply orb_false_iff in Hs as [_ Hs]. destruct (IH Hs eq_refl) as (t & ? & ?).
      exists t. split; [by constructor|done].
  - intros (t & Ht & Hg). eapply globs_star_tail; [done..|]. by constructor.
Qed.

Lemma globs_star_nil s : globs [TStar] s <-> hasSlash s = false.
Proof.
  split.
  - remember [TStar] as l. intros Hg. induction Hg as [|ts' s Hg _|ts' c s Hc Hg IH|t ts' c s Ht]; simplify_eq.
    + by inversion Hg.
    + cbn. rewrite IH by done. rewrite orb_false_r. by apply Ascii.eqb_neq.
  - induction s as [|c s IH]; cbn; [repeat constructor|]. intros [Hc Hs]%orb_false_iff.
    apply globs_star_skip; [by apply Ascii.eqb_neq|auto].
Qed.

Lemma globs_chunk chunk ts s : Forall plain chunk ->
  globs (chunk ++ ts) s <-> exists t, matchChunk chunk s = Some t /\ globs ts t.
Proof.
  intros Hp. revert s. induction Hp as [|t chunk Ht _ IH]; intros s; cbn.
  - split; [by eexists|by intros (? & [= ->] & ?)].
  - split.
    + intros Hg. inversion Hg as [|ts' s' ?|ts' c s' ? ?|t' ts' c s' Hm ?]; simplify_eq; try done.
      rewrite Hm. by apply IH.
    + destruct s as [|c s]; [by intros (? & ? & ?)|]. destruct (matchTerm t c) eqn:E; [|by intros (? & ? & ?)].
      intros H. constructor; [done|]. by apply IH.
Qed.

Lemma matchChunk_tail chunk s t : matchChunk chunk s = Some t -> tail_of t s.
Proof.
  revert s. induction chunk as [|x chunk IH]; intros s; cbn; [intros [= ->]; constructor|].
  destruct s as [|c s]; [done|]. destruct (matchTerm x c); [|done]. intros H. constructor. auto.
Qed.

Lemma matchChunk_length chunk s t :
  matchChunk chunk s = Some t -> String.length s = length chunk + String.length t.
Proof.
  revert s. induction chunk as [|x chunk IH]; intros s; cbn; [by intros [= ->]|].
  destruct s as [|c s]; [done|]. destruct (matchTerm x c); [|done]. cbn. intros H. f_equal. auto.
Qed.

Lemma tail_of_length t s : tail_of t s -> String.length t <= String.length s.
Proof. induction 1; cbn; lia. Qed.

(** Suffixes of one string are ordered by their lengths. *)
Lemma tails_ordered a b s :
  tail_of a s -> tail_of b s -> String.length a <= String.length b -> tail_of a b.
Proof.
  intros Ha. revert b. induction Ha as [s|c s t Ht IH]; intros b Hb Hl.
  - inversion Hb as [|c s' t' Ht']; subst; [constructor|]. apply tail_of_length in Ht'. cbn in Hl. lia.
  - inversion Hb as [|c' s' t' Ht']; subst; [by constructor|]. auto.
Qed.

(** The skipping search returns the first match. *)
Lemma skipMatch_sound ok name t :
  skipMatch ok name = Some t -> exists s, tail_of s name /\ ok s = Some t.
Proof.
  induction name as [|c name IH]; cbn; [done|]. destruct (Ascii.eqb c "/"); [done|].
  destruct (ok name) eqn:E; intros H.
  - injection H as ->. exists name. split; [|done]. apply tail_skip, tail_refl.
  - destruct (IH H) as (s & Hs & ?). exists s. split; [by constructor|done].
Qed.

Lemma skipMatch_first ok name s t :
  hasSlash name = false -> tail_of s name -> s <> name -> ok s = Some t ->
  exists s' t', skipMatch ok name = Some t' /\ tail_of s' name /\ tail_of s s' /\ ok s' = Some t'.
Proof.
  intros Hn Ht Hne Hok. revert Hn Hne. induction Ht as [|c name s Ht IH]; [done|].
  cbn. intros [Hc Hn]%orb_false_iff _. rewrite Hc. destruct (ok name) as [t'|] eqn:E.
  - exists name, t'. split_and!; [done| |done|done]. apply tail_skip, tail_refl.
  - destruct (decide (s = name)) as [->|Hne]; [by rewrite Hok in E|].
    destruct (IH Hok Hn Hne) as (s' & t' & ? & ? & ? & ?). exists s', t'. split_and!; try done. by constructor.
Qed.

(** The pattern of a list of chunks. *)
Fixpoint unchunks (cs : list (bool * list term)) : list term :=
  match cs with
  | [] => []
  | (star, chunk) :: cs' => (if star : bool then [TStar] else []) ++ chunk ++ unchunks cs'
  end.

(** All chunks but the first follow a star, and only the last may be empty. *)
Fixpoint chunks_ok (first : bool) (cs : list (bool * list term)) : Prop :=
  match cs with
  | [] => True
  | (star, chunk) :: cs' =>
      Forall plain chunk /\ (first = false -> star = true) /\ (chunk = [] -> cs' = []) /\ chunks_ok false cs'
  end.

Lemma globs_star_star ts s : globs (TStar :: TStar :: ts) s <-> globs (TStar :: ts) s.
Proof.
  split; [|by constructor]. remember (TStar :: TStar :: ts) as l. intros Hg.
  induction Hg as [|ts' s Hg _|ts' c s Hc Hg IH|t ts' c s Ht]; simplify_eq; [done|apply globs_star_skip; auto].
Qed.

Lemma globs_app_cong l ts ts' s :
  (forall s, globs ts s <-> globs ts' s) -> globs (l ++ ts) s <-> globs (l ++ ts') s.
Proof.
  intros H. assert (forall ts ts', (forall s, globs ts s -> globs ts' s) -> forall l s, globs (l ++ ts) s -> globs (l ++ ts') s) as K.
  { clear. intros ts ts' H l. induction l as [|t l IH]; intros s; [apply H|]. cbn.
    remember (t :: l ++ ts) as x. intros Hg. revert Heqx.
    induction Hg as [|ts0 s Hg _|ts0 c s Hc Hg IHg|t0 ts0 c s Ht Hg]; intros [= <- ->].
    - apply globs_star_stop, IH, Hg.
    - apply globs_star_skip; [done|by apply IHg].
    - apply globs_char; [done|]. by apply IH. }
  split; apply K; intros; by apply H.
Qed.

Lemma chunks_spec star chunk ts :
  Forall plain chunk ->
  chunks_ok (negb star) (chunks star chunk ts) /\
  forall s, globs (unchunks (chunks star chunk ts)) s <->
            globs ((if star : bool then [TStar] else []) ++ chunk ++ ts) s.
Proof.
  revert star chunk. induction ts as [|t ts IH]; intros star chunk Hp.
  - cbn [chunks]. destruct (bool_decide_reflect (chunk = [])) as [->|Hc]; destruct star; cbn; try done.
    all: split; [split_and!; done|]. all: intros s; by rewrite ?app_nil_r.
  - destruct t as [| |n r|c].
    2-4: match goal with IH : _, Hp : Forall plain ?ch |- context [chunks ?st ?ch (?t :: _)] =>
        destruct (IH st (ch ++ [t])) as [H1 H2]; [apply Forall_app; split; [done|by repeat constructor]|];
        (split; [exact H1|]); intros s; specialize (H2 s); rewrite <- app_assoc in H2; exact H2
      end.
    cbn [chunks]. destruct (IH true []) as [H1 H2]; [constructor|]. cbn in H2.
    destruct (bool_decide_reflect (chunk = [])) as [->|Hc].
    + split.
      { destruct star; [done|]. revert H1. generalize (chunks true [] ts). intros [|[st ch] cs]; cbn; [done|].
        intros (? & ? & ? & ?). split_and!; done. }
      intros s. rewrite H2. destruct star; cbn; [by rewrite globs_star_star|done].
    + split; [cbn; split_and!; [done|by destruct star|done|done]|].
      intros s. cbn [unchunks]. apply globs_app_cong. intros s'. apply globs_app_cong. exact H2.
Qed.

Lemma matchChunks_globs first cs name :
  chunks_ok first cs -> hasSlash name = false ->
  matchChunks cs name = true <-> globs (unchunks cs) name.
Proof.
  revert first name. induction cs as [|[star chunk] cs IH]; intros first name; cbn [chunks_ok matchChunks unchunks].
  { intros _ _. split; [intros ->%String.eqb_eq; constructor|]. intros H. by inversion H. }
  intros (Hp & _ & Hlast & Hok) Hn.
  destruct (star && bool_decide (chunk = [])) eqn:E0.
  { apply andb_true_iff in E0 as [-> E0]. apply bool_decide_eq_true in E0 as ->.
    rewrite (Hlast eq_refl). cbn. rewrite globs_star_nil. by destruct (hasSlash name). }
  clear E0. set (ok := fun s => match matchChunk chunk s with
    | Some t => if String.eqb t "" || negb (bool_decide (cs = [])) then Some t else None | None => None end).
  change ((match ok name with
    | Some t => matchChunks cs t
    | None => if star then match skipMatch ok name with Some t => matchChunks cs t | None => false end else false
    end) = true <-> globs ((if star then [TStar] else []) ++ chunk ++ unchunks cs) name).
  assert (forall s t, ok s = Some t -> matchChunk chunk s = Some t) as Hok1.
  { intros s t. unfold ok. destruct (matchChunk chunk s); [|done]. by destruct (_ || _). }
  assert (forall s t, matchChunk chunk s = Some t -> globs (unchunks cs) t -> ok s = Some t) as Hok2.
  { intros s t Hm Hg. unfold ok. rewrite Hm. destruct (bool_decide_reflect (cs = [])) as [->|_]; [|by rewrite orb_true_r].
    cbn in Hg. by inversion Hg. }
  assert (forall s t, tail_of s name -> ok s = Some t -> hasSlash t = false) as Hsl.
  { intros s t Hs H%Hok1%matchChunk_tail. eapply tail_no_slash; [|exact Hn]. by eapply tail_of_trans. }
  split.
  - intros Hm. assert (exists s t, tail_of s name /\ (star = false -> s = name) /\ ok s = Some t /\ matchChunks cs t = true)
      as (s & t & Hs & Hstar & Hokt & Hmt).
    { destruct (ok name) as [t|] eqn:E; [exists name, t; split_and!; [constructor|done..]|].
      destruct star; [|done]. destruct (skipMatch ok name) as [t|] eqn:E2; [|done].
      destruct (skipMatch_sound _ _ _ E2) as (s & ? & ?). by exists s, t. }
    assert (globs (chunk ++ unchunks cs) s) as Hg.
    { apply globs_chunk; [done|]. exists t. split; [auto|]. apply (IH false); eauto. }
    destruct star; cbn; [apply globs_star; eauto|]. by rewrite Hstar in Hg.
  - intros Hg. assert (exists s, tail_of s name /\ (star = false -> s = name) /\ globs (chunk ++ unchunks cs) s)
      as (s & Hs & Hstar & Hg').
    { destruct star; cbn in Hg; [|exists name; split_and!; [constructor|done..]].
      apply globs_star in Hg as (s & ? & ?); [|done]. by exists s. }
    apply globs_chunk in Hg' as (t & Hm & Hg'); [|done].
    pose proof (Hok2 _ _ Hm Hg') as Hokt.
    (* any earlier match leaves a longer rest, which the next star absorbs *)
    assert (forall s' t', tail_of s' name -> tail_of s s' -> ok s' = Some t' -> matchChunks cs t' = true) as Hearly.
    { intros s' t' Hs' Hss' Hok'. apply (IH false); [done|eauto|].
      pose proof (Hok1 _ _ Hok') as Hm'.
      assert (tail_of t t') as Htt.
      { apply (tails_ordered _ _ s').
        - eapply tail_of_trans; [by eapply matchChunk_tail|done].
        - by eapply matchChunk_tail.
        - apply matchChunk_length in Hm, Hm'. apply tail_of_length in Hss'. lia. }
      destruct cs as [|[st ch] cs'].
      { cbn in Hg'. inversion Hg'; subst. unfold ok in Hok'. rewrite Hm' in Hok'. cbn in Hok'.
        rewrite orb_false_r in Hok'. destruct (String.eqb t' "") eqn:E; [|done].
        apply String.eqb_eq in E as ->. constructor. }
      destruct Hok as (_ & Hst & _). rewrite (Hst eq_refl) in Hg' |- *. cbn in *.
      eapply globs_star_tail; [exact Htt| |done]. eauto. }
    destruct (ok name) as [t'|] eqn:E; [apply (Hearly name t'); [constructor|done..]|].
    destruct (decide (s = name)) as [->|Hne]; [by rewrite Hokt in E|].
    destruct star; [|by destruct Hne; apply Hstar].
    destruct (skipMatch_first ok name s t Hn Hs Hne Hokt) as (s' & t' & -> & ? & ? & ?). eauto.
Qed.

(** [path.Match] on a well-formed pattern and a name without slashes. *)
Lemma path_Match_globs pattern ts name :
  parsePattern PTerm pattern = Some ts -> hasSlash name = false ->
  path_Match pattern name = Ok true <-> globs ts name.
Proof.
  intros Hp Hn. unfold path_Match. rewrite Hp. destruct (chunks_spec false [] ts) as [H1 H2]; [constructor|].
  cbn in H2. rewrite <- H2, <- (matchChunks_globs true) by done. split; [by intros [= ->]|by intros ->].
Qed.

(** Whether [path.Match] fails depends on the pattern only. *)
Lemma path_Match_error pattern name name' e :
  path_Match pattern name = Err e -> path_Match pattern name' = Err e.
Proof. unfold path_Match. by destruct (parsePattern PTerm pattern). Qed.
