(* ===== verification/Api.v ===== *)
(** * The UpgradeConfig API (api/v1alpha1/upgradeconfig_types.go)

    The custom resource with its status, the operations on condition sets and
    on upgrade histories, and their laws: lookup after update, preservation of
    the uniqueness of condition types and of history versions. *)

From S2P Require Import Prelude.
From stdpp Require Import base gmap strings list.
From Stdlib Require Import ZArith Lia.

(** ** Data *)

(** [UpgradeType] is a string; OSD and ARO are the declared constants. *)
Inductive UpgradeType := OSD | ARO | UpgradeTypeOther (s : string).

(** [UpgradePhase] is a string; the CRD admits the first five constants. *)
Inductive UpgradePhase :=
| UpgradePhaseNew | UpgradePhasePending | UpgradePhaseUpgrading
| UpgradePhaseUpgraded | UpgradePhaseFailed | UpgradePhaseUnknown
| UpgradePhaseOther (s : string).

Inductive ConditionStatus :=
| ConditionTrue | ConditionFalse | ConditionUnknown | ConditionStatusOther (s : string).

#[export] Instance UpgradeType_eq_dec : EqDecision UpgradeType.
Proof. solve_decision. Defined.
#[export] Instance UpgradePhase_eq_dec : EqDecision UpgradePhase.
Proof. solve_decision. Defined.
#[export] Instance ConditionStatus_eq_dec : EqDecision ConditionStatus.
Proof. solve_decision. Defined.

Definition phase_string (p : UpgradePhase) : string :=
  match p with
  | UpgradePhaseNew => "New" | UpgradePhasePending => "Pending"
  | UpgradePhaseUpgrading => "Upgrading" | UpgradePhaseUpgraded => "Upgraded"
  | UpgradePhaseFailed => "Failed" | UpgradePhaseUnknown => "Unknown"
  | UpgradePhaseOther s => s
  end.

(** Feature gates. *)
Definition PreHealthCheckFeatureGate : string := "PreHealthCheck".
Definition ServiceLogNotificationFeatureGate : string := "ServiceLogNotification".

(** Condition types, named after the upgrade steps. *)
Definition SendStartedNotification : string := "StartedNotificationSent".
Definition UpgradePreHealthCheck : string := "ClusterHealthyBeforeUpgrade".
Definition ExtDepAvailabilityCheck : string := "ExternalDependenciesAvailable".
Definition UpgradeScaleUpExtraNodes : string := "ComputeCapacityReserved".
Definition ControlPlaneMaintWindow : string := "ControlPlaneMaintenanceWindowCreated".
Definition CommenceUpgradeCondition : string := "UpgradeCommenced".
Definition ControlPlaneUpgradedCondition : string := "ControlPlaneUpgraded".
Definition RemoveControlPlaneMaintWindowCondition : string := "ControlPlaneMaintenanceWindowRemoved".
Definition WorkersMaintWindow : string := "WorkersMaintenanceWindowCreated".
Definition AllWorkerNodesUpgraded : string := "WorkerNodesUpgraded".
Definition RemoveExtraScaledNodesCondition : string := "ComputeCapacityRemoved".
Definition RemoveMaintWindowCondition : string := "WorkersMaintenanceWindowRemoved".
Definition PostClusterHealthCheck : string := "ClusterHealthyAfterUpgrade".
Definition PostUpgradeProceduresCondition : string := "PostUpgradeTasksCompleted".
Definition SendCompletedNotificationCondition : string := "CompletedNotificationSent".
Definition IsClusterUpgradable : string := "IsClusterUpgradable".

Record UpgradeCondition := mkCondition {
  cond_Type : string;
  cond_Status : ConditionStatus;
  LastProbeTime : option Time;
  LastTransitionTime : option Time;
  cond_StartTime : option Time;
  cond_CompleteTime : option Time;
  cond_Reason : string;
  cond_Message : string;
}.

Notation Conditions := (list UpgradeCondition) (only parsing).

Record UpgradeHistory := mkHistory {
  Version : string;
  PrecedingVersion : string;
  Phase : UpgradePhase;
  hist_Conditions : Conditions;
  StartTime : option Time;
  CompleteTime : option Time;
  WorkerStartTime : option Time;
  WorkerCompleteTime : option Time;
}.

Notation UpgradeHistories := (list UpgradeHistory) (only parsing).

(** [Update]: the release to upgrade to. *)
Record Update := mkUpdate {
  desired_Version : string;
  desired_Channel : string;
  desired_Image : string;
}.

Record UpgradeConfigSpec := mkSpec {
  Desired : Update;
  UpgradeAt : string;
  PDBForceDrainTimeout : Z;  (* int32 *)
  Type_ : UpgradeType;
  CapacityReservation : bool;
}.

(** The resource; of the metadata the code reads and writes the name, the
    namespace and the resource version. *)
Record UpgradeConfig := mkUpgradeConfig {
  uc_Name : string;
  uc_Namespace : string;
  uc_ResourceVersion : string;
  Spec : UpgradeConfigSpec;
  History : UpgradeHistories;
}.

#[export] Instance UpgradeCondition_eq_dec : EqDecision UpgradeCondition.
Proof. solve_decision. Defined.
#[export] Instance UpgradeHistory_eq_dec : EqDecision UpgradeHistory.
Proof. solve_decision. Defined.
#[export] Instance Update_eq_dec : EqDecision Update.
Proof. solve_decision. Defined.
#[export] Instance UpgradeConfigSpec_eq_dec : EqDecision UpgradeConfigSpec.
Proof. solve_decision. Defined.
#[export] Instance UpgradeConfig_eq_dec : EqDecision UpgradeConfig.
Proof. solve_decision. Defined.

(** Zero values. *)
Definition zeroSpec : UpgradeConfigSpec :=
  mkSpec (mkUpdate "" "" "") "" 0 (UpgradeTypeOther "") false.
Definition zeroUpgradeConfig : UpgradeConfig := mkUpgradeConfig "" "" "" zeroSpec [].

(** The desired version of an UpgradeConfig, read by almost every operation. *)
Definition ucVersionOf (uc : UpgradeConfig) : string := desired_Version (Desired (Spec uc)).

(** Field updates. *)
Definition set_History (hs : UpgradeHistories) (uc : UpgradeConfig) : UpgradeConfig :=
  mkUpgradeConfig (uc_Name uc) (uc_Namespace uc) (uc_ResourceVersion uc) (Spec uc) hs.
Definition set_Phase (p : UpgradePhase) (h : UpgradeHistory) : UpgradeHistory :=
  mkHistory (Version h) (PrecedingVersion h) p (hist_Conditions h) (StartTime h)
    (CompleteTime h) (WorkerStartTime h) (WorkerCompleteTime h).
Definition set_Conditions (cs : Conditions) (h : UpgradeHistory) : UpgradeHistory :=
  mkHistory (Version h) (PrecedingVersion h) (Phase h) cs (StartTime h)
    (CompleteTime h) (WorkerStartTime h) (WorkerCompleteTime h).
Definition set_Version (v : string) (h : UpgradeHistory) : UpgradeHistory :=
  mkHistory v (PrecedingVersion h) (Phase h) (hist_Conditions h) (StartTime h)
    (CompleteTime h) (WorkerStartTime h) (WorkerCompleteTime h).
Definition set_StartTime (t : option Time) (h : UpgradeHistory) : UpgradeHistory :=
  mkHistory (Version h) (PrecedingVersion h) (Phase h) (hist_Conditions h) t
    (CompleteTime h) (WorkerStartTime h) (WorkerCompleteTime h).
Definition set_CompleteTime (t : option Time) (h : UpgradeHistory) : UpgradeHistory :=
  mkHistory (Version h) (PrecedingVersion h) (Phase h) (hist_Conditions h) (StartTime h)
    t (WorkerStartTime h) (WorkerCompleteTime h).
Definition set_WorkerTimes (s c : option Time) (h : UpgradeHistory) : UpgradeHistory :=
  mkHistory (Version h) (PrecedingVersion h) (Phase h) (hist_Conditions h) (StartTime h)
    (CompleteTime h) s c.
Definition set_desired_Version (v : string) (uc : UpgradeConfig) : UpgradeConfig :=
  let s := Spec uc in let d := Desired s in
  mkUpgradeConfig (uc_Name uc) (uc_Namespace uc) (uc_ResourceVersion uc)
    (mkSpec (mkUpdate v (desired_Channel d) (desired_Image d)) (UpgradeAt s)
       (PDBForceDrainTimeout s) (Type_ s) (CapacityReservation s))
    (History uc).

(** ** Operations *)

Definition GetPDBDrainTimeoutDuration (uc : UpgradeConfig) : Duration :=
  dur_mul (PDBForceDrainTimeout (Spec uc)) Minute.

Definition GetHealthCheckDuration (uc : UpgradeConfig) : Duration := (Hour * 2)%Z.

Definition IsTrue (c : UpgradeCondition) : bool := bool_decide (cond_Status c = ConditionTrue).
Definition IsFalse (c : UpgradeCondition) : bool := bool_decide (cond_Status c = ConditionFalse).
Definition IsUnknown (c : UpgradeCondition) : bool := bool_decide (cond_Status c = ConditionUnknown).

Fixpoint GetCondition (conditions : Conditions) (t : string) : option UpgradeCondition :=
  match conditions with
  | [] => None
  | condition :: rest =>
      if bool_decide (cond_Type condition = t) then Some condition else GetCondition rest t
  end.

Fixpoint IsTrueFor (conditions : Conditions) (t : string) : bool :=
  match conditions with
  | [] => false
  | condition :: rest =>
      if bool_decide (cond_Type condition = t) then IsTrue condition else IsTrueFor rest t
  end.

Fixpoint IsFalseFor (conditions : Conditions) (t : string) : bool :=
  match conditions with
  | [] => false
  | condition :: rest =>
      if bool_decide (cond_Type condition = t) then IsFalse condition else IsFalseFor rest t
  end.

Fixpoint IsUnknownFor (conditions : Conditions) (t : string) : bool :=
  match conditions with
  | [] => true
  | condition :: rest =>
      if bool_decide (cond_Type condition = t) then IsUnknown condition else IsUnknownFor rest t
  end.

(** The two [time.Now()] readings at the top of [SetCondition]. *)
Definition stampTimes (transition probe : option Time) (c : UpgradeCondition) : UpgradeCondition :=
  mkCondition (cond_Type c) (cond_Status c) probe transition (cond_StartTime c)
    (cond_CompleteTime c) (cond_Reason c) (cond_Message c).

(** The loop of [SetCondition]: [None] when no condition has the type. *)
Fixpoint replaceCondition (newCond : UpgradeCondition) (conditions : Conditions)
    : option (Conditions * bool) :=
  match conditions with
  | [] => None
  | condition :: rest =>
      if bool_decide (cond_Type condition = cond_Type newCond) then
        let newCond' :=
          if bool_decide (cond_Status condition = cond_Status newCond)
          then stampTimes (LastTransitionTime condition) (LastProbeTime newCond) newCond
          else newCond in
        let changed :=
          bool_decide (cond_Status condition <> cond_Status newCond) ||
          bool_decide (cond_Reason condition <> cond_Reason newCond) ||
          bool_decide (cond_Message condition <> cond_Message newCond) in
        Some (newCond' :: rest, changed)
      else
        match replaceCondition newCond rest with
        | Some (rest', changed) => Some (condition :: rest', changed)
        | None => None
        end
  end.

Definition SetCondition (now1 now2 : Time) (newCond : UpgradeCondition)
    (conditions : Conditions) : Conditions * bool :=
  let newCond := stampTimes (Some now1) (Some now2) newCond in
  match replaceCondition newCond conditions with
  | Some r => r
  | None => (newCond :: conditions, true)
  end.

(** [NewConditions]; each argument comes with its two clock readings. *)
Definition NewConditions (conds : list (Time * Time * UpgradeCondition)) : Conditions :=
  fold_left (fun cs '(t1, t2, c) => (SetCondition t1 t2 c cs).1) conds [].

(** The receiver is a pointer to a slice, which may be nil. *)
Fixpoint removeFirst (conditions : Conditions) (t : string) : Conditions * bool :=
  match conditions with
  | [] => ([], false)
  | condition :: rest =>
      if bool_decide (cond_Type condition = t) then (rest, true)
      else let '(rest', b) := removeFirst rest t in (condition :: rest', b)
  end.

Definition RemoveCondition (conditions : option Conditions) (t : string)
    : option Conditions * bool :=
  match conditions with
  | None => (None, false)
  | Some cs => let '(cs', b) := removeFirst cs t in (Some cs', b)
  end.

Fixpoint GetHistory (histories : UpgradeHistories) (version : string) : option UpgradeHistory :=
  match histories with
  | [] => None
  | history :: rest =>
      if bool_decide (Version history = version) then Some history else GetHistory rest version
  end.

Fixpoint replaceHistory (history : UpgradeHistory) (histories : UpgradeHistories)
    : option UpgradeHistories :=
  match histories with
  | [] => None
  | h :: rest =>
      if bool_decide (Version h = Version history) then Some (history :: rest)
      else match replaceHistory history rest with
           | Some rest' => Some (h :: rest')
           | None => None
           end
  end.

Definition SetHistory (history : UpgradeHistory) (histories : UpgradeHistories) : UpgradeHistories :=
  match replaceHistory history histories with
  | Some hs => hs
  | None => history :: histories
  end.

(** ** Well-formedness: one condition per type, one history per version *)

Definition wf_conditions (cs : Conditions) : Prop := NoDup (map cond_Type cs).
Definition wf_histories (hs : UpgradeHistories) : Prop :=
  NoDup (map Version hs) /\ Forall (fun h => wf_conditions (hist_Conditions h)) hs.

(** What [SetCondition] stores for a new condition given the stored one. *)
Definition stored_condition (now1 now2 : Time) (old : option UpgradeCondition)
    (c : UpgradeCondition) : UpgradeCondition :=
  match old with
  | Some o =>
      if bool_decide (cond_Status o = cond_Status c)
      then stampTimes (LastTransitionTime o) (Some now2) c
      else stampTimes (Some now1) (Some now2) c
  | None => stampTimes (Some now1) (Some now2) c
  end.

(** Status, reason or message of the stored condition differ. *)
Definition condition_differs (old : option UpgradeCondition) (c : UpgradeCondition) : Prop :=
  match old with
  | None => True
  | Some o => cond_Status o <> cond_Status c \/ cond_Reason o <> cond_Reason c \/
              cond_Message o <> cond_Message c
  end.

(** ** Condition sets *)

Lemma replaceCondition_None c cs :
  replaceCondition c cs = None <-> GetCondition cs (cond_Type c) = None.
Proof.
  induction cs as [|d cs IH]; cbn; [done|].
  case_bool_decide; [done|]. destruct (replaceCondition c cs) as [[? ?]|]; naive_solver.
Qed.

Lemma GetCondition_Type cs t c : GetCondition cs t = Some c -> cond_Type c = t.
Proof. induction cs as [|d cs IH]; cbn; [done|]. case_bool_decide; naive_solver. Qed.

Lemma GetCondition_None cs t : GetCondition cs t = None <-> t ∉ map cond_Type cs.
Proof.
  induction cs as [|d cs IH]; cbn.
  - split; [intros _; apply not_elem_of_nil|done].
  - rewrite not_elem_of_cons. case_bool_decide; [naive_solver|]. rewrite IH. naive_solver.
Qed.

Lemma GetCondition_elem cs t c : GetCondition cs t = Some c -> c ∈ cs.
Proof.
  induction cs as [|d cs IH]; cbn; [done|]. case_bool_decide; [|set_solver].
  intros [= ->]. set_solver.
Qed.

Lemma replaceCondition_lookup c cs cs' b t :
  replaceCondition c cs = Some (cs', b) ->
  exists o, GetCondition cs (cond_Type c) = Some o /\
    b = bool_decide (cond_Status o <> cond_Status c) ||
        bool_decide (cond_Reason o <> cond_Reason c) ||
        bool_decide (cond_Message o <> cond_Message c) /\
    GetCondition cs' t =
      if bool_decide (t = cond_Type c) then
        Some (if bool_decide (cond_Status o = cond_Status c)
              then stampTimes (LastTransitionTime o) (LastProbeTime c) c else c)
      else GetCondition cs t.
Proof.
  revert cs' b. induction cs as [|d cs IH]; intros cs' b; cbn [replaceCondition]; [done|].
  destruct (bool_decide_reflect (cond_Type d = cond_Type c)) as [Hd|Hd].
  - intros [= <- <-]. exists d. cbn [GetCondition]. rewrite (bool_decide_true _ Hd).
    split_and!; [done..|].
    destruct (bool_decide_reflect (cond_Status d = cond_Status c)); cbn;
      repeat case_bool_decide; congruence.
  - destruct (replaceCondition c cs) as [[rest b']|] eqn:E; [|done]. intros [= <- <-].
    destruct (IH _ _ eq_refl) as (o & Ho & -> & Ht). exists o. cbn [GetCondition].
    rewrite (bool_decide_false _ Hd). split_and!; [done..|]. rewrite Ht.
    repeat case_bool_decide; congruence.
Qed.

Lemma SetCondition_lookup now1 now2 c cs t :
  GetCondition (SetCondition now1 now2 c cs).1 t =
  if bool_decide (t = cond_Type c)
  then Some (stored_condition now1 now2 (GetCondition cs (cond_Type c)) c)
  else GetCondition cs t.
Proof.
  unfold SetCondition. set (c' := stampTimes (Some now1) (Some now2) c).
  destruct (replaceCondition c' cs) as [[cs' b]|] eqn:E.
  - destruct (replaceCondition_lookup _ _ _ _ t E) as (o & Ho & _ & Ht).
    cbn in *. rewrite Ht, Ho. cbn. by repeat case_bool_decide.
  - apply replaceCondition_None in E. subst c'. cbn in *. rewrite E. cbn.
    repeat case_bool_decide; congruence.
Qed.

Lemma SetCondition_changed now1 now2 c cs :
  (SetCondition now1 now2 c cs).2 = true <->
  condition_differs (GetCondition cs (cond_Type c)) c.
Proof.
  unfold SetCondition. set (c' := stampTimes (Some now1) (Some now2) c).
  destruct (replaceCondition c' cs) as [[cs' b]|] eqn:E.
  - destruct (replaceCondition_lookup _ _ _ _ "" E) as (o & Ho & -> & _).
    cbn in *. rewrite Ho. cbn. rewrite !orb_true_iff, !bool_decide_eq_true. tauto.
  - apply replaceCondition_None in E. cbn in *. rewrite E. done.
Qed.

Lemma replaceCondition_types c cs cs' b :
  replaceCondition c cs = Some (cs', b) -> map cond_Type cs' = map cond_Type cs.
Proof.
  revert cs' b. induction cs as [|d cs IH]; intros cs' b; cbn; [done|].
  case_bool_decide as Hd.
  - intros [= <- _]. cbn. f_equal. by case_bool_decide.
  - destruct (replaceCondition c cs) as [[rest b']|]; [|done]. intros [= <- _].
    cbn. f_equal. eauto.
Qed.

Lemma SetCondition_types now1 now2 c cs :
  map cond_Type (SetCondition now1 now2 c cs).1 =
  match GetCondition cs (cond_Type c) with
  | Some _ => map cond_Type cs
  | None => cond_Type c :: map cond_Type cs
  end.
Proof.
  unfold SetCondition. set (c' := stampTimes (Some now1) (Some now2) c).
  destruct (replaceCondition c' cs) as [[cs' b]|] eqn:E.
  - destruct (replaceCondition_lookup _ _ _ _ "" E) as (o & Ho & _).
    cbn in *. rewrite Ho. eauto using replaceCondition_types.
  - apply replaceCondition_None in E. cbn in *. by rewrite E.
Qed.

Lemma SetCondition_wf now1 now2 c cs :
  wf_conditions cs -> wf_conditions (SetCondition now1 now2 c cs).1.
Proof.
  unfold wf_conditions. rewrite SetCondition_types.
  destruct (GetCondition cs (cond_Type c)) eqn:E; [done|].
  intros H. constructor; [|done]. by apply GetCondition_None.
Qed.

Lemma removeFirst_spec cs t :
  wf_conditions cs ->
  (removeFirst cs t).1 = filter (fun c => cond_Type c <> t) cs /\
  ((removeFirst cs t).2 = true <-> is_Some (GetCondition cs t)).
Proof.
  unfold wf_conditions. induction cs as [|d cs IH]; cbn [map removeFirst GetCondition].
  - intros _. split; [done|]. split; [done|intros [? ?]; done].
  - intros [Hd Hnd]%NoDup_cons. destruct (IH Hnd) as [H1 H2].
    destruct (bool_decide_reflect (cond_Type d = t)) as [<-|Hne].
    + rewrite filter_cons_False by auto. split; [|split; [by eexists|done]].
      cbn [fst]. clear -Hd. induction cs as [|e cs IH]; [done|].
      rewrite filter_cons_True; [f_equal; apply IH; set_solver|set_solver].
    + destruct (removeFirst cs t) as [rest b]. cbn [fst snd] in *.
      rewrite filter_cons_True by done. by rewrite H1.
Qed.

(** ** Upgrade histories *)

Lemma replaceHistory_None h hs :
  replaceHistory h hs = None <-> GetHistory hs (Version h) = None.
Proof.
  induction hs as [|d hs IH]; cbn; [done|].
  case_bool_decide; [done|]. destruct (replaceHistory h hs); naive_solver.
Qed.

Lemma GetHistory_Version hs v h : GetHistory hs v = Some h -> Version h = v.
Proof. induction hs as [|d hs IH]; cbn; [done|]. case_bool_decide; naive_solver. Qed.

Lemma GetHistory_None hs v : GetHistory hs v = None <-> v ∉ map Version hs.
Proof.
  induction hs as [|d hs IH]; cbn.
  - split; [intros _; apply not_elem_of_nil|done].
  - rewrite not_elem_of_cons. case_bool_decide; [naive_solver|]. rewrite IH. naive_solver.
Qed.

Lemma GetHistory_elem hs v h : GetHistory hs v = Some h -> h ∈ hs.
Proof.
  induction hs as [|d hs IH]; cbn; [done|]. case_bool_decide; [|set_solver].
  intros [= ->]. set_solver.
Qed.

Lemma replaceHistory_lookup h hs hs' v :
  replaceHistory h hs = Some hs' ->
  GetHistory hs' v = if bool_decide (v = Version h) then Some h else GetHistory hs v.
Proof.
  revert hs'. induction hs as [|d hs IH]; intros hs'; cbn; [done|].
  destruct (bool_decide_reflect (Version d = Version h)) as [Hd|Hd].
  - intros [= <-]. cbn. repeat case_bool_decide; congruence.
  - destruct (replaceHistory h hs) as [rest|] eqn:E; [|done]. intros [= <-].
    cbn. rewrite (IH _ eq_refl). repeat case_bool_decide; congruence.
Qed.

Lemma SetHistory_lookup h hs v :
  GetHistory (SetHistory h hs) v =
  if bool_decide (v = Version h) then Some h else GetHistory hs v.
Proof.
  unfold SetHistory. destruct (replaceHistory h hs) as [hs'|] eqn:E.
  - by eapply replaceHistory_lookup.
  - cbn. repeat case_bool_decide; congruence.
Qed.

Lemma SetHistory_eq h hs : GetHistory (SetHistory h hs) (Version h) = Some h.
Proof. rewrite SetHistory_lookup. by case_bool_decide. Qed.

Lemma replaceHistory_versions h hs hs' :
  replaceHistory h hs = Some hs' -> map Version hs' = map Version hs.
Proof.
  revert hs'. induction hs as [|d hs IH]; intros hs'; cbn; [done|].
  case_bool_decide as Hd; [intros [= <-]; cbn; by f_equal|].
  destruct (replaceHistory h hs) as [rest|]; [|done]. intros [= <-]. cbn. f_equal. eauto.
Qed.

Lemma SetHistory_versions h hs :
  map Version (SetHistory h hs) =
  match GetHistory hs (Version h) with
  | Some _ => map Version hs
  | None => Version h :: map Version hs
  end.
Proof.
  unfold SetHistory. destruct (replaceHistory h hs) as [hs'|] eqn:E.
  - destruct (GetHistory hs (Version h)) eqn:G; [by eapply replaceHistory_versions|].
    apply replaceHistory_None in G. congruence.
  - apply replaceHistory_None in E. by rewrite E.
Qed.

Lemma replaceHistory_Forall P h hs hs' :
  replaceHistory h hs = Some hs' -> P h -> Forall P hs -> Forall P hs'.
Proof.
  revert hs'. induction hs as [|d hs IH]; intros hs'; cbn; [done|].
  intros E Hh [Hd Hhs]%Forall_cons. case_bool_decide as Hv.
  - injection E as <-. by constructor.
  - destruct (replaceHistory h hs) as [rest|]; [|done]. injection E as <-.
    constructor; [done|]. by apply IH.
Qed.

Lemma SetHistory_wf h hs :
  wf_histories hs -> wf_conditions (hist_Conditions h) -> wf_histories (SetHistory h hs).
Proof.
  intros [Hnd Hf] Hh. split.
  - rewrite SetHistory_versions. destruct (GetHistory hs (Version h)) eqn:E; [done|].
    constructor; [|done]. by apply GetHistory_None.
  - unfold SetHistory. destruct (replaceHistory h hs) as [hs'|] eqn:E.
    + by eapply (replaceHistory_Forall _ _ _ _ E).
    + by constructor.
Qed.

Lemma wf_histories_conditions hs v h :
  wf_histories hs -> GetHistory hs v = Some h -> wf_conditions (hist_Conditions h).
Proof.
  intros [_ Hf] HG%GetHistory_elem. rewrite Forall_forall in Hf. by apply Hf.
Qed.

#[export] Hint Resolve SetCondition_wf SetHistory_wf wf_histories_conditions SetHistory_eq : muo.
