(* ===== verification/Effects.v ===== *)
(** * External objects and effects

    The Kubernetes, OCM and Alertmanager objects the operator reads (with the
    fields the code uses) and the signature [Eff] of its external events: the
    clock, the process environment, the API server, Prometheus gauges and
    queries, OCM, Alertmanager and HTTP.  The responses are unconstrained. *)

From S2P Require Import Prelude GoTime Api.
From stdpp Require Import base gmap strings list.
From Stdlib Require Import ZArith Lia.

(** ** ClusterVersion and ClusterOperator (config.openshift.io/v1) *)

Inductive UpdateState := CompletedUpdate | PartialUpdate | UpdateStateOther (s : string).

Record UpdateHistory := mkUpdateHistory {
  uh_State : UpdateState;
  uh_Version : string;
  StartedTime : Time;
  CompletionTime : option Time;
}.

Record Release := mkRelease { rel_Version : string; rel_Image : string }.

(** [Spec.DesiredUpdate] *)
Record DesiredUpdate := mkDesiredUpdate { du_Version : string; du_Image : string }.

(** A [ClusterOperatorStatusCondition]. *)
Record StatusCondition := mkStatusCondition {
  sc_Type : string; sc_Status : ConditionStatus; sc_Reason : string; sc_Message : string }.

Record ClusterVersion := mkClusterVersion {
  cv_ClusterID : string;
  cv_Channel : string;
  cv_Upstream : string;
  cv_DesiredUpdate : option DesiredUpdate;
  cv_Overrides : list string;
  cv_Desired_Version : string;  (* Status.Desired.Version *)
  cv_History : list UpdateHistory;
  AvailableUpdates : list Release;
  ConditionalUpdates : list Release;  (* the Release field of each entry *)
  cv_Conditions : list StatusCondition;
}.

Record ClusterOperator := mkClusterOperator { co_Name : string; co_Conditions : list StatusCondition }.

#[export] Instance UpdateState_eq_dec : EqDecision UpdateState.
Proof. solve_decision. Defined.

(** ** Machines, nodes, pods *)

Record Taint := mkTaint { taint_Key : string; taint_Effect : string; TimeAdded : option Time }.

Record Node := mkNode {
  node_Name : string;
  Unschedulable : bool;
  Taints : list Taint;
  node_Annotations : gmap string string;
  node_Labels : gmap string string;
  node_Conditions : list (string * ConditionStatus);
  node_DeletionTimestamp : option Time;
}.

(** Label maps are Go maps, which may be nil: writing to a nil map panics. *)
Record MachineSet := mkMachineSet {
  ms_Name : string;
  ms_Namespace : string;
  ms_Labels : option (gmap string string);
  ms_CreationTimestamp : Time;
  ms_DeletionTimestamp : option Time;
  ms_SpecReplicas : option Z;
  ms_TemplateLabels : option (gmap string string);
  ms_MatchLabels : option (gmap string string);
  ms_Replicas : Z;
  ms_ReadyReplicas : Z;
}.

Record Machine := mkMachine {
  machine_Name : string;
  machine_Phase : option string;
  NodeRef : option string;  (* the Name of the referenced node *)
}.

Record MachineConfigPool := mkMCP { MachineCount : Z; UpdatedMachineCount : Z }.

Record Pod := mkPod {
  pod_Name : string;
  pod_Namespace : string;
  NodeName : string;
  pod_Labels : gmap string string;
  OwnerKinds : list string;
  Finalizers : list string;
  pod_DeletionTimestamp : option Time;
}.

Inductive IntOrString := IntVal (n : Z) | StrVal (s : string).

Record PodDisruptionBudget := mkPDB {
  pdb_Name : string;
  pdb_Namespace : string;
  MaxUnavailable : option IntOrString;
  MinAvailable : option IntOrString;
  pdb_Selector : option (list (string * string));  (* MatchLabels of a non-nil selector *)
}.

(** List options: label equalities and required label keys. *)
Record selector := mkSelector { sel_Namespace : string; sel_Labels : list (string * string); sel_Has : list string }.

(** ** Alertmanager and OCM *)

Record Silence := mkSilence {
  sil_ID : string; sil_Comment : string; sil_CreatedBy : string; sil_State : string }.

Record Matcher := mkMatcher { mat_Name : string; mat_Value : string; mat_IsRegex : bool }.

Record OcmCluster := mkOcmCluster {
  ocm_ID : string; ocm_ChannelGroup : string; ocm_NodeDrainGracePeriod : Z }.
Record UpgradePolicy := mkUpgradePolicy {
  policy_ID : string; policy_Version : string; policy_NextRun : civil }.
Record UpgradePolicyState := mkPolicyState { ps_Value : string; ps_Description : string }.
Record ServiceLog := mkServiceLog { sl_Severity : string; sl_Summary : string; sl_DocReferences : string }.

(** ** The signature of external events *)

Inductive Eff : Type -> Type :=
(* clock, environment, waiting *)
| Now : Eff Time
| LookupEnv (name : string) : Eff (option string)
| Sleep (d : Duration) : Eff unit
| Int63n (seed n : Z) : Eff Z
(* the goroutine that runs next, out of [n] *)
| Schedule (n : nat) : Eff nat
(* UpgradeConfigs *)
| GetUpgradeConfig (name ns : string) : Eff (result UpgradeConfig)
| ListUpgradeConfigs (ns name : string) : Eff (result (list UpgradeConfig))
| UpdateUpgradeConfig (uc : UpgradeConfig) : Eff (result UpgradeConfig)
| StatusUpdate (uc : UpgradeConfig) : Eff (result UpgradeConfig)
| CreateUpgradeConfig (uc : UpgradeConfig) : Eff (result unit)
| DeleteUpgradeConfig (uc : UpgradeConfig) (grace : option Z) : Eff (result unit)
(* cluster version and operators *)
| GetCV : Eff (result ClusterVersion)
| PatchCV (cv : ClusterVersion) (patch : string) : Eff (result ClusterVersion)
| ListClusterOperators : Eff (result (list ClusterOperator))
(* machines, nodes, pods *)
| ListMachineSets (s : selector) : Eff (result (list MachineSet))
| CreateMachineSet (ms : MachineSet) : Eff (result unit)
| DeleteMachineSet (ms : MachineSet) : Eff (result unit)
| ListMachines (s : selector) : Eff (result (list Machine))
| ListNodes (labelSelector : string) : Eff (result (list Node))
| GetNode (name : string) : Eff (result Node)
| GetMachineConfigPool (name : string) : Eff (result MachineConfigPool)
| ListPods (fieldSelector : string) : Eff (result (list Pod))
| DeletePod (p : Pod) (grace : option Z) : Eff (result unit)
| UpdatePod (p : Pod) : Eff (result unit)
| ListPDBs : Eff (result (list PodDisruptionBudget))
(* config maps and file integrity objects *)
| GetConfigMap (name ns : string) : Eff (result (gmap string string))
| GetFileIntegrity (name ns : string) : Eff (result unit)
| UpdateFileIntegrity (name ns : string) (annotations : list (string * string)) : Eff (result unit)
(* Prometheus: gauges of this process and queries *)
| GaugeSet (metric : string) (labels : list (string * string)) (v : Z) : Eff unit
| GaugeReset (metric : string) : Eff unit
| PromQuery (query : string) : Eff (result (list (gmap string string)))
(* OCM *)
| OcmGetCluster : Eff (result OcmCluster)
| OcmPostServiceLog (sl : ServiceLog) (description : string) : Eff (result unit)
| OcmGetUpgradePolicies (clusterId : string) : Eff (result (Z * list UpgradePolicy))  (* Total, Items *)
| OcmGetPolicyState (policyId clusterId : string) : Eff (result UpgradePolicyState)
| OcmSetState (value description policyId clusterId : string) : Eff (result unit)
(* Alertmanager *)
| AmListSilences : Eff (result (list Silence))
| AmPostSilence (matchers : list Matcher) (startsAt endsAt : Time) (creator comment : string)
    : Eff (result unit)
| AmDeleteSilence (id : string) : Eff (result unit)
(* HTTP and DVO *)
| HttpGet (timeout : Duration) (url : string) : Eff (result (Z * string))  (* status, body *)
| DvoNew : Eff (result unit)
| DvoGetMetrics : Eff (result string)
(* construction of clients that only reads cluster objects *)
| NewClient (component : string) : Eff (result unit)
(* Cincinnati *)
| CincinnatiGetUpdates (clusterId upstream channel version : string)
    : Eff (result (list Release * list Release)).

Notation M := (prog Eff).

(** ** Default environment

    Every request fails, the clock is at the epoch: a base for the concrete
    environments of examples. *)
Definition unavailable {A} : result A := Err (ErrApi false "unavailable").

Definition default_resp {X} (e : Eff X) : X :=
  match e in Eff X return X with
  | Now => 0%Z
  | LookupEnv _ => Some "openshift-managed-upgrade-operator"
  | Sleep _ => tt
  | Int63n _ _ => 0%Z
  | Schedule _ => 0
  | GetUpgradeConfig _ _ => unavailable
  | ListUpgradeConfigs _ _ => unavailable
  | UpdateUpgradeConfig _ => unavailable
  | StatusUpdate _ => unavailable
  | CreateUpgradeConfig _ => unavailable
  | DeleteUpgradeConfig _ _ => unavailable
  | GetCV => unavailable
  | PatchCV _ _ => unavailable
  | ListClusterOperators => unavailable
  | ListMachineSets _ => unavailable
  | CreateMachineSet _ => unavailable
  | DeleteMachineSet _ => unavailable
  | ListMachines _ => unavailable
  | ListNodes _ => unavailable
  | GetNode _ => unavailable
  | GetMachineConfigPool _ => unavailable
  | ListPods _ => unavailable
  | DeletePod _ _ => unavailable
  | UpdatePod _ => unavailable
  | ListPDBs => unavailable
  | GetConfigMap _ _ => unavailable
  | GetFileIntegrity _ _ => unavailable
  | UpdateFileIntegrity _ _ _ => unavailable
  | GaugeSet _ _ _ => tt
  | GaugeReset _ => tt
  | PromQuery _ => unavailable
  | OcmGetCluster => unavailable
  | OcmPostServiceLog _ _ => unavailable
  | OcmGetUpgradePolicies _ => unavailable
  | OcmGetPolicyState _ _ => unavailable
  | OcmSetState _ _ _ _ => unavailable
  | AmListSilences => unavailable
  | AmPostSilence _ _ _ _ _ => unavailable
  | AmDeleteSilence _ => unavailable
  | HttpGet _ _ => unavailable
  | DvoNew => unavailable
  | DvoGetMetrics => unavailable
  | NewClient _ => unavailable
  | CincinnatiGetUpdates _ _ _ _ => unavailable
  end.

(** Shorthands for the events used everywhere. *)
Definition now : M Time := call Now.

(** [util.GetOperatorNamespace] (util/namespace.go). *)
Definition GetOperatorNamespace : M (result string) :=
  ns ← call (LookupEnv "OPERATOR_NAMESPACE");
  mret match ns with
       | Some ns => Ok ns
       | None => Err (ErrText "OPERATOR_NAMESPACE must be set")
       end.

(** ** Classes of events *)

(** Events that change something outside the process. *)
Definition mutates {X} (e : Eff X) : bool :=
  match e with
  | UpdateUpgradeConfig _ | StatusUpdate _ | CreateUpgradeConfig _ | DeleteUpgradeConfig _ _
  | PatchCV _ _ | CreateMachineSet _ | DeleteMachineSet _ | DeletePod _ _ | UpdatePod _
  | UpdateFileIntegrity _ _ _ | OcmPostServiceLog _ _ | OcmSetState _ _ _ _
  | AmPostSilence _ _ _ _ _ | AmDeleteSilence _ => true
  | _ => false
  end.
Definition reads X (e : Eff X) : Prop := mutates e = false.

(** Every event except patches of the ClusterVersion. *)
Definition not_PatchCV X (e : Eff X) : Prop :=
  match e with PatchCV _ _ => False | _ => True end.

(** Every event except writes of UpgradeConfigs; and except both. *)
Definition no_uc_write X (e : Eff X) : Prop :=
  match e with
  | UpdateUpgradeConfig _ | StatusUpdate _ | CreateUpgradeConfig _ | DeleteUpgradeConfig _ _ => False
  | _ => True
  end.
Definition quiet_event X (e : Eff X) : Prop :=
  match e with
  | PatchCV _ _ | UpdateUpgradeConfig _ | StatusUpdate _ | CreateUpgradeConfig _ | DeleteUpgradeConfig _ _ => False
  | _ => True
  end.

(** The same without the creation and deletion of MachineSets. *)
Definition calm X (e : Eff X) : Prop :=
  match e with CreateMachineSet _ | DeleteMachineSet _ => False | _ => quiet_event X e end.

(** Every event except updates of a stored UpgradeConfig. *)
Definition no_rewrite X (e : Eff X) : Prop :=
  match e with UpdateUpgradeConfig _ | StatusUpdate _ => False | _ => True end.

(** Events other than gauges. *)
Definition no_gauge X (e : Eff X) : Prop :=
  match e with GaugeSet _ _ _ | GaugeReset _ => False | _ => True end.

(** What a notification may do: read, and tell OCM. *)
Definition tells_ocm {X} (e : Eff X) : bool :=
  match e with OcmPostServiceLog _ _ | OcmSetState _ _ _ _ => true | _ => false end.
Definition notifier_event X (e : Eff X) : Prop :=
  no_gauge X e /\ (reads X e \/ tells_ocm e = true).

(** Whatever it does, it changes nothing but what OCM is told. *)
Definition only_tells X (e : Eff X) : Prop := mutates e = true -> tells_ocm e = true.

Lemma notifier_event_only_tells X e : notifier_event X e -> only_tells X e.
Proof. intros [_ [H|H]] Hm; [|done]. unfold reads in H. by rewrite H in Hm. Qed.
Lemma reads_only_tells X e : reads X e -> only_tells X e.
Proof. intros H Hm. unfold reads in H. by rewrite H in Hm. Qed.
Lemma only_tells_quiet X e : only_tells X e -> quiet_event X e.
Proof. destruct e; try done; intros H; by specialize (H eq_refl). Qed.
Lemma only_tells_calm X e : only_tells X e -> calm X e.
Proof. destruct e; try done; intros H; by specialize (H eq_refl). Qed.
Lemma calm_quiet X e : calm X e -> quiet_event X e.
Proof. by destruct e. Qed.
Lemma quiet_not_PatchCV X e : quiet_event X e -> not_PatchCV X e.
Proof. by destruct e. Qed.
Lemma no_uc_write_no_rewrite X e : no_uc_write X e -> no_rewrite X e.
Proof. by destruct e. Qed.
Lemma reads_no_uc_write X e : reads X e -> no_uc_write X e.
Proof. by destruct e. Qed.
Lemma quiet_no_uc_write X e : quiet_event X e -> no_uc_write X e.
Proof. by destruct e. Qed.

Lemma all_ev_and {A} P P' (p : M A) : all_ev P p -> all_ev P' p -> all_ev (fun X e => P X e /\ P' X e) p.
Proof. induction p as [a|m|X e k IH]; cbn; [done..|]. intros [H1 H2] [H3 H4]. split; [done|]. auto. Qed.

Lemma reads_notifier_event {A} (p : M A) : all_ev reads p -> all_ev no_gauge p -> all_ev notifier_event p.
Proof.
  intros Hr Hg. eapply all_ev_impl; [|exact (all_ev_and _ _ _ Hr Hg)]. intros X e [? ?]. split; [done|by left].
Qed.

Lemma reads_quiet X e : reads X e -> quiet_event X e.
Proof. by destruct e. Qed.
Lemma reads_calm X e : reads X e -> calm X e.
Proof. by destruct e. Qed.

Lemma GetOperatorNamespace_reads : all_ev reads GetOperatorNamespace.
Proof. unfold GetOperatorNamespace. ev_auto. done. Qed.
#[export] Hint Resolve GetOperatorNamespace_reads : muo.

(** The environment in which every request fails. *)
Definition default_env X (e : Eff X) (u : unit) : X * unit := (default_resp e, u).
Definition trace_of {A} (p : M A) : list (obs Eff) := (run default_env p tt).1.1.
Definition outcome_of {A} (p : M A) : outcome A := (run default_env p tt).1.2.
Lemma default_exec {A} (p : M A) : exec p (trace_of p) (outcome_of p).
Proof. exact (run_exec default_env p tt). Defined.

(** ** Reconciliation results (controller-runtime) *)

Record ReconcileResult := mkReconcileResult { Requeue : bool; RequeueAfter : Duration }.
Definition noRequeue : ReconcileResult := mkReconcileResult false 0.

(** [return reconcile.Result{}, nil] and [return reconcile.Result{}, err]. *)
Definition reconciled : M (ReconcileResult * option error) := mret (noRequeue, None).
Definition reconcileError (err : error) : M (ReconcileResult * option error) := mret (noRequeue, Some err).

(** ** Traces *)

(** The observations that change something. *)
Definition mutations (tr : list (obs Eff)) : list (obs Eff) :=
  List.filter (fun ob => mutates (ob_event ob)) tr.

Lemma mutations_app t1 t2 : mutations (t1 ++ t2) = mutations t1 ++ mutations t2.
Proof. apply List.filter_app. Qed.

Lemma mutations_reads tr : Forall (fun ob : obs Eff => reads _ (ob_event ob)) tr -> mutations tr = [].
Proof.
  induction 1 as [|ob tr Hob _ IH]; [done|]. unfold mutations in *. cbn [List.filter].
  unfold reads in Hob. by rewrite Hob.
Qed.

Lemma reads_wp {A} (p : M A) :
  all_ev reads p -> no_panic p ->
  wp p (fun tr o => Forall (fun ob : obs Eff => reads _ (ob_event ob)) tr /\ exists a, o = Done a).
Proof.
  intros Hr Hp. apply wp_exec. intros tr o Hex. split.
  - by eapply (all_ev_exec (E := Eff)).
  - by eapply no_panic_exec.
Qed.

Lemma GetOperatorNamespace_no_panic : no_panic GetOperatorNamespace.
Proof. unfold GetOperatorNamespace. np_auto. Qed.
#[export] Hint Resolve GetOperatorNamespace_no_panic : muo.

(** Reading programs leave the state of an environment alone. *)
(** Events that leave the environment as it was. *)
Lemma run_still {A S} (P : forall X, Eff X -> Prop) (h : forall X, Eff X -> S -> X * S) (p : M A) s :
  (forall X (e : Eff X) s, P X e -> (h X e s).2 = s) -> all_ev P p -> (run h p s).2 = s.
Proof.
  intros Hh. revert s. induction p as [a|m|X e k IH]; intros s; cbn; [done..|].
  intros [He Hk]. specialize (Hh X e s He). destruct (h X e s) as [x s'] eqn:E. cbn in Hh. subst s'.
  specialize (IH x s (Hk x)). by destruct (run h (k x) s) as [[tr o] s''].
Qed.

Lemma run_reads {A S} (h : forall X, Eff X -> S -> X * S) (p : M A) s :
  (forall X (e : Eff X) s, reads X e -> (h X e s).2 = s) -> all_ev reads p -> (run h p s).2 = s.
Proof. apply run_still. Qed.

(** The run of a program ends with a result and a state. *)
Definition ends {A S} (h : forall X, Eff X -> S -> X * S) (p : M A) (s : S) (a : A) (s' : S) : Prop :=
  (run h p s).1.2 = Done a /\ (run h p s).2 = s'.

Section Ends.
Context {S : Type} (h : forall X, Eff X -> S -> X * S).

Lemma ends_ret {A} (a : A) s : ends h (mret a) s a s.
Proof. done. Qed.

Lemma ends_bind {A B} (p : M A) (f : A -> M B) s a s1 b s2 :
  ends h p s a s1 -> ends h (f a) s1 b s2 -> ends h (p ≫= f) s b s2.
Proof. intros [H1 H2] [H3 H4]. destruct (run_bind_done h p f s a s1 H1 H2) as [R1 R2]. split; congruence. Qed.

Lemma ends_bindr {A B} (p : M (result A)) (f : A -> M (result B)) s a s1 b s2 :
  ends h p s (Ok a) s1 -> ends h (f a) s1 b s2 -> ends h (bindr p f) s b s2.
Proof. intros H1 H2. unfold bindr. by eapply ends_bind. Qed.

Lemma ends_call {X} (e : Eff X) s : ends h (call e) s (h X e s).1 (h X e s).2.
Proof. unfold ends, call. cbn. by destruct (h X e s). Qed.

Lemma ends_still {A} (P : forall X, Eff X -> Prop) (p : M A) s a :
  (forall X (e : Eff X) s, P X e -> (h X e s).2 = s) -> all_ev P p -> (run h p s).1.2 = Done a -> ends h p s a s.
Proof. intros Hh Hp Ha. split; [done|]. by eapply run_still. Qed.

Lemma no_panic_run {A} (p : M A) s : no_panic p -> exists a, (run h p s).1.2 = Done a.
Proof. intros Hp. exact (no_panic_exec _ _ _ Hp (run_exec h p s)). Qed.
End Ends.

