(* ===== verification/Config.v ===== *)
(** * Configuration (pkg/configmanager, config/config.go)

    Every component reads its part of the operator's config map: [Into] fetches
    the map, decodes the YAML under the target's key and validates the result.
    The YAML decoder is not part of the sources: [Yaml] is its interface.  The
    validators of the components are instances of [ConfigValidator]. *)

From stdpp Require Import base gmap strings list.
From Stdlib Require Import ZArith Lia.
From S2P Require Import Prelude GoTime Api Effects.

(** [yaml.Unmarshal] into a configuration type, and its [IsValid] method. *)
Class Yaml (C : Type) := Unmarshal : string -> result C.
Class ConfigValidator (C : Type) := IsValid : C -> option error.

Record Target := mkTarget { tgt_Name : string; tgt_Namespace : string; ConfigKey : string }.

Definition OperatorName : string := "managed-upgrade-operator".
Definition ConfigMapName : string := OperatorName +:+ "-config".
Definition ConfigField : string := "config.yaml".

(** [CMTarget.NewCMTarget]: fill the blanks of a target. *)
Definition NewCMTarget (c : Target) : M (result Target) :=
  let name := if String.eqb (tgt_Name c) "" then ConfigMapName else tgt_Name c in
  let key := if String.eqb (ConfigKey c) "" then ConfigField else ConfigKey c in
  ns ←? (if String.eqb (tgt_Namespace c) "" then GetOperatorNamespace else mret (Ok (tgt_Namespace c)));
  mret (Ok (mkTarget name ns key)).

Lemma NewCMTarget_no_panic c : no_panic (NewCMTarget c).
Proof. unfold NewCMTarget, GetOperatorNamespace. np_auto. Qed.
#[export] Hint Resolve NewCMTarget_no_panic : muo.

Lemma NewCMTarget_reads c : all_ev reads (NewCMTarget c).
Proof. unfold NewCMTarget. ev_auto. Qed.
#[export] Hint Resolve NewCMTarget_reads : muo.

Section Into.
Context {C : Type} `{!Yaml C} `{!ConfigValidator C}.

(** [configManager.Into] *)
Definition Into (target : Target) : M (result C) :=
  cfgMap ←? call (GetConfigMap (tgt_Name target) (tgt_Namespace target));
  let yml := default "" (cfgMap !! ConfigKey target) in
  mret match Unmarshal yml with
       | Err err => Err (ErrText ("check config map " +:+ tgt_Name target +:+
                           " for incorrect yaml formatting " +:+ error_msg err))
       | Ok cfg => match IsValid cfg with Some e => Err e | None => Ok cfg end
       end.

(** The [read...Config] helper that every component has: the default target,
    [Into], and the validation once more. *)
Definition readConfig : M (result C) :=
  cmTarget ←? NewCMTarget (mkTarget "" "" "");
  cfg ←? Into cmTarget;
  mret match IsValid cfg with Some e => Err e | None => Ok cfg end.

Lemma Into_reads target : all_ev reads (Into target).
Proof. unfold Into. ev_auto; done. Qed.

(** ** What a successful read guarantees *)

Lemma Into_wp target :
  wp (Into target) (fun tr o => exists r, o = Done r /\
    match r with
    | Ok cfg => IsValid cfg = None /\
        exists m, tr = [Obs (GetConfigMap (tgt_Name target) (tgt_Namespace target)) (Ok m)] /\
          Unmarshal (default "" (m !! ConfigKey target)) = Ok cfg
    | Err _ => True
    end).
Proof.
  unfold Into. wp_cbn. intros [m|e]; wp_cbn; [|by eexists]. eexists; split; [done|].
  destruct (Unmarshal _) as [cfg|e] eqn:E; [|done]. destruct (IsValid cfg) eqn:V; [done|]. eauto.
Qed.

Lemma readConfig_valid tr o :
  exec readConfig tr o -> exists r, o = Done r /\ match r with Ok cfg => IsValid cfg = None | Err _ => True end.
Proof.
  revert tr o. apply wp_exec. unfold readConfig. apply wp_bindr.
  eapply wp_mono; [apply no_panic_wp, NewCMTarget_no_panic|].
  intros tr o ([t|e] & ->); [|by eexists]. apply wp_bindr. eapply wp_mono; [apply Into_wp|].
  intros tr' o' (r & -> & Hr). destruct r as [cfg|e]; [|by eexists]. wp_cbn.
  eexists; split; [done|]. destruct Hr as [Hv _]. rewrite Hv. exact Hv.
Qed.

Lemma readConfig_no_panic : no_panic readConfig.
Proof. apply no_panic_wp_iff, wp_exec. intros tr o (r & -> & _)%readConfig_valid. by eexists. Qed.

Lemma readConfig_reads : all_ev reads readConfig.
Proof. unfold readConfig. pose proof Into_reads. ev_auto. Qed.

End Into.

#[export] Hint Resolve Into_reads readConfig_reads readConfig_no_panic : muo.
