(* ===== verification/Interfaces.v ===== *)
(** * Interfaces of code outside the sources

    Semantic versions (github.com/blang/semver) and URL parsing are used
    through these classes; their laws state documented behaviour.  A concrete
    instance of each serves the examples. *)

From stdpp Require Import base gmap strings list pretty.
From Stdlib Require Import ZArith Lia Ascii.
From S2P Require Import Prelude GoTime.

(** ** Semantic versions *)

Class Semver := {
  SemVersion : Type;
  semver_Parse : string -> result SemVersion;
  semver_String : SemVersion -> string;
  Major : SemVersion -> Z;
  Minor : SemVersion -> Z;
  Compare : SemVersion -> SemVersion -> Z;  (* -1, 0 or 1 *)
}.

(** [Compare] is the precedence order of semantic versions. *)
Class SemverLaws `{Semver} := {
  Compare_antisym v w : Compare w v = (- Compare v w)%Z;
  Compare_range v w : (-1 <= Compare v w <= 1)%Z;
  Compare_trans u v w : (Compare u v <= 0)%Z -> (Compare v w <= 0)%Z -> (Compare u w <= 0)%Z;
  uint64_Major v : (0 <= Major v < 2 ^ 64)%Z;
  uint64_Minor v : (0 <= Minor v < 2 ^ 64)%Z;
}.

(** [url.Parse], giving the parsed URL by its [String()]. *)
Class UrlParse := url_Parse : string -> result string.

(** ** Concrete instances: three plain numbers separated by dots *)

Fixpoint number (s : string) (acc : option Z) : option (Z * string) :=
  match s with
  | String a rest =>
      match digit a with
      | Some d => number rest (Some (default 0%Z acc * 10 + d)%Z)
      | None => match acc with Some n => Some (n, s) | None => None end
      end
  | EmptyString => match acc with Some n => Some (n, EmptyString) | None => None end
  end.

Definition plain_parse (s : string) : option (Z * Z * Z) :=
  '(a, s) ← number s None; s ← skip "."%char s;
  '(b, s) ← number s None; s ← skip "."%char s;
  '(c, s) ← number s None;
  if String.eqb s "" && (a <? 2 ^ 64)%Z && (b <? 2 ^ 64)%Z then Some (a, b, c) else None.

Definition plain_compare (v w : Z * Z * Z) : Z :=
  let '(a, b, c) := v in let '(a', b', c') := w in
  if (a <? a')%Z then -1 else if (a' <? a)%Z then 1
  else if (b <? b')%Z then -1 else if (b' <? b)%Z then 1
  else if (c <? c')%Z then -1 else if (c' <? c)%Z then 1 else 0.

Definition bounded (v : Z * Z * Z) : bool :=
  ((0 <=? v.1.1) && (v.1.1 <? 2 ^ 64) && (0 <=? v.1.2) && (v.1.2 <? 2 ^ 64))%Z.

Definition plainSemver : Semver := {|
  SemVersion := { v : Z * Z * Z | bounded v = true };
  semver_Parse s :=
    match plain_parse s with
    | Some v => match decide (bounded v = true) with
                | left H => Ok (exist _ v H)
                | right _ => Err (ErrText "out of range")
                end
    | None => Err (ErrText ("invalid version " +:+ s))
    end;
  semver_String v := pretty (`v).1.1 +:+ "." +:+ pretty (`v).1.2 +:+ "." +:+ pretty (`v).2;
  Major v := (`v).1.1;
  Minor v := (`v).1.2;
  Compare v w := plain_compare (`v) (`w);
|}.

Lemma plainSemverLaws : @SemverLaws plainSemver.
Proof.
  split; cbn.
  - intros [[[a b] c] ?] [[[a' b'] c'] ?]. cbn.
    repeat (match goal with |- context [(?x <? ?y)%Z] => destruct (Z.ltb_spec x y) end); lia.
  - intros [[[a b] c] ?] [[[a' b'] c'] ?]. cbn. repeat case_match; lia.
  - intros [[[a b] c] ?] [[[a' b'] c'] ?] [[[a2 b2] c2] ?]. cbn.
    repeat (match goal with |- context [(?x <? ?y)%Z] => destruct (Z.ltb_spec x y) end); lia.
  - intros [v H]. cbn. unfold bounded in H. lia.
  - intros [v H]. cbn. unfold bounded in H. lia.
Qed.

Definition plainUrl : UrlParse := fun s => if String.eqb s "" then Err (ErrText "empty") else Ok s.

(** [regexp.MustCompile(p).MatchString(s)]; [None] when the pattern does not
    compile, which panics. *)
Class Regexp := regexp_match : string -> string -> option bool.

(** Patterns that match as plain substrings. *)
Definition substringRegexp : Regexp := fun p s => Some (Contains s p).
