(* ===== verification/UpgradeSteps.v ===== *)
(** * The upgrade step runner (pkg/upgradesteps)

    [Run] executes an ordered list of named steps on an UpgradeConfig and
    records a condition per step.  The steps are arbitrary programs.  A run is
    unfolded into a relation on steps ([run_rel]) for induction; the properties
    say which steps a run executes and what they find, and what it guarantees
    about the phase, the conditions and the rest of the resource. *)

From S2P Require Import Prelude Api Effects.
From stdpp Require Import base gmap strings list.
From Stdlib Require Import ZArith Lia.

(** ** Actions and steps (action.go) *)

(** An action function; it reads the UpgradeConfig of its upgrader. *)
Definition actionFunction : Type := UpgradeConfig -> M (result bool).

Record actionStep := Action { step_name : string; step_f : actionFunction }.

(** [actionStep.run] and [actionStep.String]. *)
Definition step_run (s : actionStep) (uc : UpgradeConfig) : M (result bool) := step_f s uc.
Definition step_String (s : actionStep) : string := step_name s.

(** ** The runner (runner.go) *)

Definition newUpgradeCondition (reason msg : string) (conditionType : string)
    (s : ConditionStatus) : UpgradeCondition :=
  mkCondition conditionType s None None None None reason msg.

(** [conditions.SetCondition], reading the clock twice. *)
Definition SetCondition_now (c : UpgradeCondition) (cs : Conditions) : M (list UpgradeCondition) :=
  t1 ← now; t2 ← now; mret (SetCondition t1 t2 c cs).1.

Definition set_cond_StartTime (t : option Time) (c : UpgradeCondition) : UpgradeCondition :=
  mkCondition (cond_Type c) (cond_Status c) (LastProbeTime c) (LastTransitionTime c) t
    (cond_CompleteTime c) (cond_Reason c) (cond_Message c).

Definition setConditionStart (step : actionStep) (upgradeConfig : UpgradeConfig) : M UpgradeConfig :=
  history ← deref (GetHistory (History upgradeConfig) (ucVersionOf upgradeConfig));
  match GetCondition (hist_Conditions history) (step_String step) with
  | None =>
      let condition :=
        newUpgradeCondition (step_String step +:+ " not done")
          (step_String step +:+ " has started") (step_String step) ConditionFalse in
      t ← now;
      cs ← SetCondition_now (set_cond_StartTime (Some t) condition) (hist_Conditions history);
      mret (set_History (SetHistory (set_Conditions cs history) (History upgradeConfig)) upgradeConfig)
  | Some _ => mret upgradeConfig
  end.

Definition setConditionInProgress (step : actionStep) (message : string)
    (upgradeConfig : UpgradeConfig) : M UpgradeConfig :=
  history ← deref (GetHistory (History upgradeConfig) (ucVersionOf upgradeConfig));
  match GetCondition (hist_Conditions history) (step_String step) with
  | Some c =>
      let c := mkCondition (cond_Type c) ConditionFalse (LastProbeTime c) (LastTransitionTime c)
                 (cond_StartTime c) None (cond_Reason c) message in
      cs ← SetCondition_now c (hist_Conditions history);
      mret (set_History (SetHistory (set_Conditions cs history) (History upgradeConfig)) upgradeConfig)
  | None => mret upgradeConfig
  end.

Definition setConditionComplete (step : actionStep) (upgradeConfig : UpgradeConfig) : M UpgradeConfig :=
  history ← deref (GetHistory (History upgradeConfig) (ucVersionOf upgradeConfig));
  match GetCondition (hist_Conditions history) (step_String step) with
  | Some c =>
      complete ← match cond_CompleteTime c with
                 | None => t ← now; mret (Some t)
                 | Some t => mret (Some t)
                 end;
      let c := mkCondition (cond_Type c) ConditionTrue (LastProbeTime c) (LastTransitionTime c)
                 (cond_StartTime c) complete (step_String step +:+ " done")
                 (step_String step +:+ " is completed") in
      cs ← SetCondition_now c (hist_Conditions history);
      mret (set_History (SetHistory (set_Conditions cs history) (History upgradeConfig)) upgradeConfig)
  | None => mret upgradeConfig
  end.

(** [Run]: the updated resource, the phase and the error. *)
Fixpoint Run (upgradeConfig : UpgradeConfig) (steps : list actionStep)
    : M (UpgradeConfig * UpgradePhase * option error) :=
  match steps with
  | [] => mret (upgradeConfig, UpgradePhaseUpgraded, None)
  | step :: rest =>
      uc1 ← setConditionStart step upgradeConfig;
      r ← step_run step uc1;
      match r with
      | Err err =>
          uc2 ← setConditionInProgress step (error_msg err) uc1;
          mret (uc2, UpgradePhaseUpgrading, Some err)
      | Ok false =>
          uc2 ← setConditionInProgress step (step_String step +:+ " still in progress") uc1;
          mret (uc2, UpgradePhaseUpgrading, None)
      | Ok true =>
          uc2 ← setConditionComplete step uc1;
          Run uc2 rest
      end
  end.

(** ** The runner as a step relation *)

Definition in_progress_message (s : actionStep) (r : result bool) : string :=
  match r with Err e => error_msg e | Ok _ => step_String s +:+ " still in progress" end.
Definition result_error (r : result bool) : option error :=
  match r with Err e => Some e | Ok _ => None end.

(** [run_rel uc steps tr uc' n ph err]: along the trace, the first [n] steps
    are done and the outcome is as given; [n] is the number of steps when all
    are done, otherwise the index of the step that is not. *)
Inductive run_rel : UpgradeConfig -> list actionStep -> list (obs Eff) ->
    UpgradeConfig -> nat -> UpgradePhase -> option error -> Prop :=
| run_all_done uc : run_rel uc [] [] uc 0 UpgradePhaseUpgraded None
| run_stopped uc s rest t1 t2 t3 uc1 uc2 r :
    exec (setConditionStart s uc) t1 (Done uc1) ->
    exec (step_run s uc1) t2 (Done r) -> r <> Ok true ->
    exec (setConditionInProgress s (in_progress_message s r) uc1) t3 (Done uc2) ->
    run_rel uc (s :: rest) (t1 ++ t2 ++ t3) uc2 0 UpgradePhaseUpgrading (result_error r)
| run_next uc s rest t1 t2 t3 t4 uc1 uc2 uc' n ph err :
    exec (setConditionStart s uc) t1 (Done uc1) ->
    exec (step_run s uc1) t2 (Done (Ok true)) ->
    exec (setConditionComplete s uc1) t3 (Done uc2) ->
    run_rel uc2 rest t4 uc' n ph err ->
    run_rel uc (s :: rest) (t1 ++ t2 ++ t3 ++ t4) uc' (S n) ph err.

(** The condition of type [t] after a run that stops at index [n]: decided by
    the last executed step of that name. *)
Fixpoint final_status (steps : list actionStep) (n : nat) (t : string) : option bool :=
  match steps, n with
  | [], _ => None
  | s :: _, 0 => if bool_decide (step_name s = t) then Some false else None
  | s :: rest, S n' =>
      match final_status rest n' t with
      | Some b => Some b
      | None => if bool_decide (step_name s = t) then Some true else None
      end
  end.

(** Condition lookup in the history of the desired version. *)
Definition conditionOf (uc : UpgradeConfig) (t : string) : option UpgradeCondition :=
  h ← GetHistory (History uc) (ucVersionOf uc); GetCondition (hist_Conditions h) t.

(** Two resources that differ at most in the conditions of the desired
    version's history. *)
Record same_but_conditions (uc uc' : UpgradeConfig) : Prop := {
  sbc_Name : uc_Name uc' = uc_Name uc;
  sbc_Namespace : uc_Namespace uc' = uc_Namespace uc;
  sbc_RV : uc_ResourceVersion uc' = uc_ResourceVersion uc;
  sbc_Spec : Spec uc' = Spec uc;
  sbc_versions : map Version (History uc') = map Version (History uc);
  sbc_other : forall v, v <> ucVersionOf uc -> GetHistory (History uc') v = GetHistory (History uc) v;
  sbc_desired : forall h, GetHistory (History uc) (ucVersionOf uc) = Some h ->
    exists cs, GetHistory (History uc') (ucVersionOf uc) = Some (set_Conditions cs h);
}.

(** The condition recorded for a step that is done, or not yet done. *)
Definition is_complete (oc : option UpgradeCondition) : Prop :=
  exists c, oc = Some c /\ IsTrue c = true /\ is_Some (cond_CompleteTime c).
Definition is_in_progress (oc : option UpgradeCondition) : Prop :=
  exists c, oc = Some c /\ IsFalse c = true /\ cond_CompleteTime c = None.

(** ** Lemmas: one condition update *)

Lemma same_but_conditions_refl uc : same_but_conditions uc uc.
Proof. split; try done. intros h Hh. exists (hist_Conditions h). by destruct h. Qed.

Lemma same_but_conditions_version uc uc' :
  same_but_conditions uc uc' -> ucVersionOf uc' = ucVersionOf uc.
Proof. intros []. unfold ucVersionOf. by rewrite sbc_Spec0. Qed.

Lemma same_but_conditions_trans uc1 uc2 uc3 :
  same_but_conditions uc1 uc2 -> same_but_conditions uc2 uc3 -> same_but_conditions uc1 uc3.
Proof.
  intros H12 H23. pose proof (same_but_conditions_version _ _ H12) as Hv.
  destruct H12, H23. split; try congruence.
  - intros v Hne. rewrite sbc_other1, sbc_other0; congruence.
  - intros h Hh. destruct (sbc_desired0 _ Hh) as [cs Hcs].
    rewrite <- Hv in Hcs. destruct (sbc_desired1 _ Hcs) as [cs' Hcs'].
    exists cs'. rewrite <- Hv. by rewrite Hcs'.
Qed.

(** The resource after [history.Conditions.SetCondition(c)] and
    [Status.History.SetHistory(history)]. *)
Definition with_condition (t1 t2 : Time) (c : UpgradeCondition) (h : UpgradeHistory)
    (uc : UpgradeConfig) : UpgradeConfig :=
  set_History
    (SetHistory (set_Conditions (SetCondition t1 t2 c (hist_Conditions h)).1 h) (History uc)) uc.

Lemma with_condition_same t1 t2 c h uc :
  GetHistory (History uc) (ucVersionOf uc) = Some h ->
  same_but_conditions uc (with_condition t1 t2 c h uc).
Proof.
  intros Hh. pose proof (GetHistory_Version _ _ _ Hh) as Hv. split; cbn; try done.
  - rewrite SetHistory_versions. cbn. by rewrite Hv, Hh.
  - intros v Hne. rewrite SetHistory_lookup. cbn. rewrite Hv. by case_bool_decide.
  - intros h' Hh'. rewrite Hh in Hh'. injection Hh' as <-. rewrite SetHistory_lookup. cbn.
    rewrite Hv, bool_decide_true by done. eauto.
Qed.

Lemma with_condition_lookup t1 t2 c h uc t :
  GetHistory (History uc) (ucVersionOf uc) = Some h ->
  conditionOf (with_condition t1 t2 c h uc) t =
    if bool_decide (t = cond_Type c)
    then Some (stored_condition t1 t2 (conditionOf uc (cond_Type c)) c)
    else conditionOf uc t.
Proof.
  intros Hh. pose proof (GetHistory_Version _ _ _ Hh) as Hv.
  unfold conditionOf. rewrite Hh. cbn.
  change (ucVersionOf (with_condition t1 t2 c h uc)) with (ucVersionOf uc).
  rewrite SetHistory_lookup. cbn. rewrite Hv, bool_decide_true by done. cbn.
  apply SetCondition_lookup.
Qed.

Lemma with_condition_wf t1 t2 c h uc :
  wf_histories (History uc) -> GetHistory (History uc) (ucVersionOf uc) = Some h ->
  wf_histories (History (with_condition t1 t2 c h uc)).
Proof.
  intros Hwf Hh. apply SetHistory_wf; [done|]. apply SetCondition_wf. eauto with muo.
Qed.

Lemma stored_condition_fields t1 t2 o c :
  cond_Type (stored_condition t1 t2 o c) = cond_Type c /\
  IsTrue (stored_condition t1 t2 o c) = IsTrue c /\
  IsFalse (stored_condition t1 t2 o c) = IsFalse c /\
  cond_CompleteTime (stored_condition t1 t2 o c) = cond_CompleteTime c /\
  cond_StartTime (stored_condition t1 t2 o c) = cond_StartTime c.
Proof. unfold stored_condition. destruct o; [case_bool_decide|]; done. Qed.

(** What each of the three condition setters does to a resource that has a
    history for its desired version. *)
Definition setter_post (s : actionStep) (uc : UpgradeConfig)
    (P : option UpgradeCondition -> option UpgradeCondition -> Prop)
    (o : outcome UpgradeConfig) : Prop :=
  exists uc', o = Done uc' /\ same_but_conditions uc uc' /\
    (wf_histories (History uc) -> wf_histories (History uc')) /\
    (forall t, t <> step_name s -> conditionOf uc' t = conditionOf uc t) /\
    P (conditionOf uc (step_name s)) (conditionOf uc' (step_name s)).

Lemma setter_post_with_condition s uc P h t1 t2 c :
  GetHistory (History uc) (ucVersionOf uc) = Some h ->
  cond_Type c = step_name s ->
  P (conditionOf uc (step_name s))
    (Some (stored_condition t1 t2 (conditionOf uc (step_name s)) c)) ->
  setter_post s uc P (Done (with_condition t1 t2 c h uc)).
Proof.
  intros Hh Hc HP. eexists; split_and!; [done|by apply with_condition_same|..].
  - intros. by apply with_condition_wf.
  - intros t Hne. rewrite with_condition_lookup by done. by rewrite Hc, bool_decide_false.
  - rewrite with_condition_lookup by done. by rewrite Hc, bool_decide_true.
Qed.

Lemma setter_post_unchanged s uc (P : option UpgradeCondition -> option UpgradeCondition -> Prop) :
  P (conditionOf uc (step_name s)) (conditionOf uc (step_name s)) ->
  setter_post s uc P (Done uc).
Proof. intros HP. eexists; split_and!; eauto using same_but_conditions_refl. Qed.

Lemma setConditionStart_wp s uc :
  is_Some (GetHistory (History uc) (ucVersionOf uc)) ->
  wp (setConditionStart s uc)
    (fun _ => setter_post s uc (fun old new =>
       match old with
       | Some c => new = Some c
       | None => is_in_progress new
       end /\ is_Some new)).
Proof.
  intros [h Hh]. unfold setConditionStart, SetCondition_now, now. rewrite Hh. wp_cbn.
  destruct (GetCondition (hist_Conditions h) (step_String s)) as [c|] eqn:E; wp_cbn.
  - apply setter_post_unchanged. unfold conditionOf. rewrite Hh. cbn.
    unfold step_String in E. rewrite E. eauto.
  - intros t t1 t2. apply setter_post_with_condition; [done..|].
    unfold conditionOf. rewrite Hh. cbn. unfold step_String in E. rewrite E.
    split; [|eauto]. eexists; split; [done|]. done.
Qed.

Lemma setConditionInProgress_wp s msg uc c :
  conditionOf uc (step_name s) = Some c ->
  wp (setConditionInProgress s msg uc)
    (fun _ => setter_post s uc (fun _ new => is_in_progress new)).
Proof.
  intros Hc. pose proof Hc as Hc'. unfold conditionOf in Hc'.
  destruct (GetHistory (History uc) (ucVersionOf uc)) as [h|] eqn:Hh; [|done]. cbn in Hc'.
  unfold setConditionInProgress, SetCondition_now, now. rewrite Hh. wp_cbn.
  unfold step_String. rewrite Hc'. wp_cbn. intros t1 t2.
  apply setter_post_with_condition; [done|..].
  - exact (GetCondition_Type _ _ _ Hc').
  - eexists; split; [done|].
    match goal with |- context [stored_condition ?a ?b ?o ?d] =>
      destruct (stored_condition_fields a b o d) as (_ & _ & -> & -> & _) end. done.
Qed.

Lemma setConditionComplete_wp s uc c :
  conditionOf uc (step_name s) = Some c ->
  wp (setConditionComplete s uc)
    (fun _ => setter_post s uc (fun _ new => is_complete new)).
Proof.
  intros Hc. pose proof Hc as Hc'. unfold conditionOf in Hc'.
  destruct (GetHistory (History uc) (ucVersionOf uc)) as [h|] eqn:Hh; [|done]. cbn in Hc'.
  unfold setConditionComplete, SetCondition_now, now. rewrite Hh. wp_cbn.
  unfold step_String. rewrite Hc'.
  assert (forall t1 t2 ct, setter_post s uc (fun _ new => is_complete new)
    (Done (with_condition t1 t2 (mkCondition (cond_Type c) ConditionTrue (LastProbeTime c)
      (LastTransitionTime c) (cond_StartTime c) (Some ct) (step_name s +:+ " done")
      (step_name s +:+ " is completed")) h uc))) as Hdone.
  { intros t1 t2 ct. apply setter_post_with_condition; [done|..].
    - exact (GetCondition_Type _ _ _ Hc').
    - eexists; split; [done|].
      match goal with |- context [stored_condition ?a ?b ?o ?d] =>
        destruct (stored_condition_fields a b o d) as (_ & -> & _ & -> & _) end.
      split; [done|by eexists]. }
  destruct (cond_CompleteTime c); wp_cbn; intros; apply Hdone.
Qed.

(** ** Lemmas: the runner *)

Lemma exec_bind_done {A B} (p : M A) (f : A -> M B) tr b :
  exec (p ≫= f) tr (Done b) <->
  exists a tr1 tr2, tr = tr1 ++ tr2 /\ exec p tr1 (Done a) /\ exec (f a) tr2 (Done b).
Proof. rewrite exec_bind. split; [intros [H|(s & [=] & _)]; exact H|by left]. Qed.

Lemma exec_Run_cons uc s rest tr x :
  exec (Run uc (s :: rest)) tr (Done x) <->
  exists uc1 t1 t2 r t3, tr = t1 ++ t2 ++ t3 /\ exec (setConditionStart s uc) t1 (Done uc1) /\
    exec (step_run s uc1) t2 (Done r) /\
    match r with
    | Ok true => exists uc2 t4 t5, t3 = t4 ++ t5 /\ exec (setConditionComplete s uc1) t4 (Done uc2) /\
                   exec (Run uc2 rest) t5 (Done x)
    | _ => exists uc2, exec (setConditionInProgress s (in_progress_message s r) uc1) t3 (Done uc2) /\
             x = (uc2, UpgradePhaseUpgrading, result_error r)
    end.
Proof.
  cbn [Run]. rewrite exec_bind_done. split.
  - intros (uc1 & t1 & t' & -> & H1 & (r & t2 & t3 & -> & H2 & H3)%exec_bind_done).
    exists uc1, t1, t2, r, t3. split_and!; [done..|].
    destruct r as [[|]|e]; apply exec_bind_done in H3;
      destruct H3 as (uc2 & t4 & t5 & -> & H4 & H5); [by exists uc2, t4, t5|..];
      cbn in H5; destruct H5 as [-> [= ->]]; rewrite app_nil_r; eauto.
  - intros (uc1 & t1 & t2 & r & t3 & -> & H1 & H2 & H3). exists uc1, t1, (t2 ++ t3).
    split_and!; [done..|]. apply exec_bind_done. exists r, t2, t3. split_and!; [done..|].
    destruct r as [[|]|e].
    + destruct H3 as (uc2 & t4 & t5 & -> & H4 & H5). apply exec_bind_done.
      by exists uc2, t4, t5.
    + destruct H3 as (uc2 & H4 & ->). apply exec_bind_done.
      exists uc2, t3, []. rewrite app_nil_r. done.
    + destruct H3 as (uc2 & H4 & ->). apply exec_bind_done.
      exists uc2, t3, []. rewrite app_nil_r. done.
Qed.

Lemma exec_Run_rel uc steps tr uc' ph err :
  exec (Run uc steps) tr (Done (uc', ph, err)) <-> exists n, run_rel uc steps tr uc' n ph err.
Proof.
  split.
  - revert uc tr. induction steps as [|s rest IH]; intros uc tr H.
    + destruct H as [-> [= -> -> ->]]. exists 0%nat. constructor.
    + apply exec_Run_cons in H as (uc1 & t1 & t2 & r & t3 & -> & H1 & H2 & H3).
      destruct r as [[|]|e].
      * destruct H3 as (uc2 & t4 & t5 & -> & H4 & [n Hn]%IH). exists (S n). by econstructor.
      * destruct H3 as (uc2 & H4 & [= -> -> ->]). exists 0%nat.
        by apply (run_stopped _ _ _ _ _ _ uc1 _ (Ok false)).
      * destruct H3 as (uc2 & H4 & [= -> -> ->]). exists 0%nat.
        by apply (run_stopped _ _ _ _ _ _ uc1 _ (Err e)).
  - intros [n H]. induction H as [uc|uc s rest t1 t2 t3 uc1 uc2 r H1 H2 Hr H3|
        uc s rest t1 t2 t3 t4 uc1 uc2 uc' n ph err H1 H2 H3 _ IH].
    + done.
    + apply exec_Run_cons. exists uc1, t1, t2, r, t3. split_and!; [done..|].
      destruct r as [[|]|e]; [done|eauto..].
    + apply exec_Run_cons. exists uc1, t1, t2, (Ok true), (t3 ++ t4). split_and!; [done..|].
      by exists uc2, t3, t4.
Qed.

Lemma same_but_conditions_has_history uc uc' :
  same_but_conditions uc uc' ->
  is_Some (GetHistory (History uc) (ucVersionOf uc)) ->
  is_Some (GetHistory (History uc') (ucVersionOf uc')).
Proof.
  intros H [h Hh]. rewrite (same_but_conditions_version _ _ H).
  destruct (sbc_desired _ _ H _ Hh) as [cs ->]. eauto.
Qed.

Lemma setter_post_done s uc P uc' :
  setter_post s uc P (Done uc') ->
  same_but_conditions uc uc' /\ (wf_histories (History uc) -> wf_histories (History uc')) /\
  (forall t, t <> step_name s -> conditionOf uc' t = conditionOf uc t) /\
  P (conditionOf uc (step_name s)) (conditionOf uc' (step_name s)).
Proof. intros (uc'' & [= ->] & H). exact H. Qed.

Lemma setConditionStart_exec s uc tr uc1 :
  is_Some (GetHistory (History uc) (ucVersionOf uc)) ->
  exec (setConditionStart s uc) tr (Done uc1) ->
  same_but_conditions uc uc1 /\ (wf_histories (History uc) -> wf_histories (History uc1)) /\
  (forall t, t <> step_name s -> conditionOf uc1 t = conditionOf uc t) /\
  is_Some (conditionOf uc1 (step_name s)).
Proof.
  intros Hh H. pose proof (proj1 (wp_exec _ _) (setConditionStart_wp s uc Hh) _ _ H) as Hs.
  apply setter_post_done in Hs. naive_solver.
Qed.

Lemma setConditionInProgress_exec s msg uc tr uc' :
  is_Some (conditionOf uc (step_name s)) ->
  exec (setConditionInProgress s msg uc) tr (Done uc') ->
  same_but_conditions uc uc' /\ (wf_histories (History uc) -> wf_histories (History uc')) /\
  (forall t, t <> step_name s -> conditionOf uc' t = conditionOf uc t) /\
  is_in_progress (conditionOf uc' (step_name s)).
Proof.
  intros [c Hc] H.
  exact (setter_post_done _ _ _ _
    (proj1 (wp_exec _ _) (setConditionInProgress_wp s msg uc c Hc) _ _ H)).
Qed.

Lemma setConditionComplete_exec s uc tr uc' :
  is_Some (conditionOf uc (step_name s)) ->
  exec (setConditionComplete s uc) tr (Done uc') ->
  same_but_conditions uc uc' /\ (wf_histories (History uc) -> wf_histories (History uc')) /\
  (forall t, t <> step_name s -> conditionOf uc' t = conditionOf uc t) /\
  is_complete (conditionOf uc' (step_name s)).
Proof.
  intros [c Hc] H.
  exact (setter_post_done _ _ _ _ (proj1 (wp_exec _ _) (setConditionComplete_wp s uc c Hc) _ _ H)).
Qed.

(** The verdict of the runner on one condition type. *)
Definition verdict (fs : option bool) (old new : option UpgradeCondition) : Prop :=
  match fs with
  | None => new = old
  | Some true => is_complete new
  | Some false => is_in_progress new
  end.

Lemma run_rel_conditions uc steps tr uc' n ph err :
  run_rel uc steps tr uc' n ph err ->
  is_Some (GetHistory (History uc) (ucVersionOf uc)) ->
  forall t, verdict (final_status steps n t) (conditionOf uc t) (conditionOf uc' t).
Proof.
  induction 1 as [uc|uc s rest t1 t2 t3 uc1 uc2 r H1 H2 Hr H3|
      uc s rest t1 t2 t3 t4 uc1 uc2 uc' n ph err H1 H2 H3 _ IH]; intros Hh t; [done|..].
  - destruct (setConditionStart_exec _ _ _ _ Hh H1) as (Hs1 & _ & Ho1 & Hn1).
    destruct (setConditionInProgress_exec _ _ _ _ _ Hn1 H3) as (_ & _ & Ho2 & Hp).
    cbn. case_bool_decide as Ht; [by subst|]. cbn. rewrite Ho2, Ho1 by congruence. done.
  - destruct (setConditionStart_exec _ _ _ _ Hh H1) as (Hs1 & _ & Ho1 & Hn1).
    destruct (setConditionComplete_exec _ _ _ _ Hn1 H3) as (Hs2 & _ & Ho2 & Hp).
    pose proof (same_but_conditions_has_history _ _ Hs2
      (same_but_conditions_has_history _ _ Hs1 Hh)) as Hh2.
    specialize (IH Hh2 t). cbn. destruct (final_status rest n t) as [b|]; [done|].
    cbn in IH. rewrite IH. case_bool_decide as Ht; [by subst|].
    cbn. rewrite Ho2, Ho1 by congruence. done.
Qed.

Lemma run_rel_same uc steps tr uc' n ph err :
  run_rel uc steps tr uc' n ph err ->
  is_Some (GetHistory (History uc) (ucVersionOf uc)) ->
  same_but_conditions uc uc' /\ (wf_histories (History uc) -> wf_histories (History uc')).
Proof.
  induction 1 as [uc|uc s rest t1 t2 t3 uc1 uc2 r H1 H2 Hr H3|
      uc s rest t1 t2 t3 t4 uc1 uc2 uc' n ph err H1 H2 H3 _ IH]; intros Hh.
  - eauto using same_but_conditions_refl.
  - destruct (setConditionStart_exec _ _ _ _ Hh H1) as (Hs1 & Hw1 & _ & Hn1).
    destruct (setConditionInProgress_exec _ _ _ _ _ Hn1 H3) as (Hs2 & Hw2 & _ & _).
    eauto using same_but_conditions_trans.
  - destruct (setConditionStart_exec _ _ _ _ Hh H1) as (Hs1 & Hw1 & _ & Hn1).
    destruct (setConditionComplete_exec _ _ _ _ Hn1 H3) as (Hs2 & Hw2 & _ & _).
    pose proof (same_but_conditions_has_history _ _ Hs2
      (same_but_conditions_has_history _ _ Hs1 Hh)) as Hh2.
    destruct (IH Hh2) as [Hs3 Hw3].
    split; [|auto]. eauto using same_but_conditions_trans.
Qed.

Lemma run_rel_phase uc steps tr uc' n ph err :
  run_rel uc steps tr uc' n ph err ->
  (n = length steps /\ ph = UpgradePhaseUpgraded /\ err = None) \/
  (n < length steps /\ ph = UpgradePhaseUpgrading).
Proof.
  induction 1 as [| |uc s rest t1 t2 t3 t4 uc1 uc2 uc' n ph err H1 H2 H3 _ IH]; cbn.
  - by left.
  - right. split; [lia|done].
  - destruct IH as [[-> ?]|[??]]; [by left|]. right. split; [lia|done].
Qed.

(** *** The steps that a run executes *)

(** The events of a trace other than clock readings. *)
Definition isNow {X} (e : Eff X) : bool := match e with Now => true | _ => false end.
Definition unclocked (tr : list (obs Eff)) : list (obs Eff) :=
  List.filter (fun ob => negb (isNow (ob_event ob))) tr.

Lemma unclocked_app t1 t2 : unclocked (t1 ++ t2) = unclocked t1 ++ unclocked t2.
Proof. apply List.filter_app. Qed.

(** A program that only reads the clock. *)
Lemma clock_only {A} (p : M A) tr o : all_ev (fun X e => isNow e = true) p -> exec p tr o -> unclocked tr = [].
Proof.
  intros Hp Hex. pose proof (all_ev_exec _ _ _ _ Hp Hex) as H. clear Hex.
  induction H as [|[X e x] tr Hob _ IH]; [done|].
  unfold unclocked in *. cbn [List.filter ob_event ob_type] in *. by rewrite Hob.
Qed.
Lemma setConditionStart_clock s uc : all_ev (fun X e => isNow e = true) (setConditionStart s uc).
Proof. unfold setConditionStart, SetCondition_now. ev_auto; done. Qed.
Lemma setConditionInProgress_clock s msg uc : all_ev (fun X e => isNow e = true) (setConditionInProgress s msg uc).
Proof. unfold setConditionInProgress, SetCondition_now. ev_auto; done. Qed.
Lemma setConditionComplete_clock s uc : all_ev (fun X e => isNow e = true) (setConditionComplete s uc).
Proof. unfold setConditionComplete, SetCondition_now. ev_auto; done. Qed.

(** One executed step: the resource it worked on, its events and its answer. *)
Record stepRun := mkStepRun {
  sr_step : actionStep; sr_uc : UpgradeConfig; sr_trace : list (obs Eff); sr_result : result bool }.

(** The conditions that the step [name] finds in [u], in a run that began at [uc]
    and has finished the steps [finished]: those are complete, its own is there (in
    progress when it is new) and the others are as before the run. *)
Definition prepared (uc : UpgradeConfig) (finished : list string) (name : string) (u : UpgradeConfig) : Prop :=
  is_Some (conditionOf u name) /\
  (conditionOf uc name = None -> name ∉ finished -> is_in_progress (conditionOf u name)) /\
  forall t, t <> name ->
    (t ∈ finished -> is_complete (conditionOf u t)) /\ (t ∉ finished -> conditionOf u t = conditionOf uc t).

(** The result of a run, from its last step. *)
Definition decides (steps : list actionStep) (runs : list stepRun) (ph : UpgradePhase) (err : option error) : Prop :=
  match sr_result <$> last runs with
  | Some (Ok false) => ph = UpgradePhaseUpgrading /\ err = None
  | Some (Err e) => ph = UpgradePhaseUpgrading /\ err = Some e
  | Some (Ok true) | None => length runs = length steps /\ ph = UpgradePhaseUpgraded /\ err = None
  end.

Lemma started_prepared s uc tr uc1 :
  is_Some (GetHistory (History uc) (ucVersionOf uc)) -> exec (setConditionStart s uc) tr (Done uc1) ->
  prepared uc [] (step_name s) uc1.
Proof.
  intros Hh H. pose proof (proj1 (wp_exec _ _) (setConditionStart_wp s uc Hh) _ _ H) as Hs.
  apply setter_post_done in Hs as (_ & _ & Ho & Hn & Hsome). split; [done|]. split.
  - intros Hnone _. by rewrite Hnone in Hn.
  - intros t Ht. split; [by intros ?%elem_of_nil|]. intros _. by apply Ho.
Qed.

(** A run that began one completed step earlier. *)
Lemma prepared_cons uc uc2 s finished name u :
  is_complete (conditionOf uc2 (step_name s)) ->
  (forall t, t <> step_name s -> conditionOf uc2 t = conditionOf uc t) ->
  prepared uc2 finished name u -> prepared uc (step_name s :: finished) name u.
Proof.
  intros Hc Ho (H1 & H2 & H3). split; [done|]. split.
  - intros Hnone [Hne Hnin]%not_elem_of_cons. apply H2; [|done]. by rewrite Ho.
  - intros t Ht. destruct (H3 t Ht) as [Hin Hnin]. destruct (decide (t ∈ finished)) as [Hd|Hd].
    + split; [by intros _; apply Hin|]. intros [_ []]%not_elem_of_cons. done.
    + rewrite (Hnin Hd). split.
      * intros [->|?]%elem_of_cons; [done|by destruct Hd].
      * intros [Hne _]%not_elem_of_cons. by apply Ho.
Qed.

Lemma run_rel_runs uc steps tr uc' n ph err :
  run_rel uc steps tr uc' n ph err ->
  is_Some (GetHistory (History uc) (ucVersionOf uc)) ->
  exists runs : list stepRun,
    map sr_step runs = take (length runs) steps /\
    unclocked tr = concat (map (fun r => unclocked (sr_trace r)) runs) /\
    (forall i r, runs !! i = Some r ->
       exec (step_run (sr_step r) (sr_uc r)) (sr_trace r) (Done (sr_result r)) /\
       (sr_result r = Ok true \/ S i = length runs) /\
       same_but_conditions uc (sr_uc r) /\
       prepared uc (map step_name (take i steps)) (step_name (sr_step r)) (sr_uc r)) /\
    decides steps runs ph err.
Proof.
  induction 1 as [uc|uc s rest t1 t2 t3 uc1 uc2 r H1 H2 Hr H3|
      uc s rest t1 t2 t3 t4 uc1 uc2 uc' n ph err H1 H2 H3 _ IH]; intros Hh; [by exists []|..].
  - exists [mkStepRun s uc1 t2 r]. pose proof (clock_only _ _ _ (setConditionStart_clock s uc) H1) as E1.
    pose proof (clock_only _ _ _ (setConditionInProgress_clock s _ uc1) H3) as E3.
    split; [done|]. split; [cbn; by rewrite !unclocked_app, E1, E3|]. split; [|destruct r as [[|]|e]; done].
    intros [|i] r' [= <-]. split_and!; [done|by right|by apply (setConditionStart_exec _ _ _ _ Hh H1)|].
    by eapply started_prepared.
  - destruct (setConditionStart_exec _ _ _ _ Hh H1) as (Hs1 & _ & Ho1 & Hn1).
    destruct (setConditionComplete_exec _ _ _ _ Hn1 H3) as (Hs2 & _ & Ho2 & Hc2).
    assert (same_but_conditions uc uc2) as Hs by eauto using same_but_conditions_trans.
    destruct (IH (same_but_conditions_has_history _ _ Hs Hh)) as (runs & Hsteps & Htr & Hruns & Hdec).
    pose proof (clock_only _ _ _ (setConditionStart_clock s uc) H1) as E1.
    pose proof (clock_only _ _ _ (setConditionComplete_clock s uc1) H3) as E3.
    exists (mkStepRun s uc1 t2 (Ok true) :: runs). split; [cbn; by rewrite Hsteps|].
    split; [cbn; by rewrite !unclocked_app, E1, E3, Htr|]. split.
    + intros [|i] r'; [intros [= <-]; split_and!; [done|by left|done|by eapply started_prepared]|].
      cbn. intros Hi. destruct (Hruns i r' Hi) as (Hex & Hlast & Hsame & Hprep). split_and!; [done| | |].
      * destruct Hlast as [?|<-]; [by left|by right].
      * by eapply same_but_conditions_trans.
      * eapply prepared_cons; [exact Hc2| |exact Hprep]. intros t Ht. by rewrite Ho2, Ho1.
    + unfold decides in *. destruct runs as [|r' runs]; [cbn in *; destruct Hdec as (<- & ?); done|].
      change (last (mkStepRun s uc1 t2 (Ok true) :: r' :: runs)) with (last (r' :: runs)).
      destruct (last (r' :: runs)) as [[? ? ? [[|]|e]]|]; cbn in *; [|done..|]; destruct Hdec as (<- & ?); done.
Qed.

(** ** Properties *)

(** C12: a run executes the steps in order and stops at the first that is not
    done: the events of the run, clock readings apart, are those of the executed
    steps one after the other; every executed step but the last answered
    [(true, nil)], and the last decides the phase and the error; each step works
    on the resource in which all the steps before it are recorded as complete,
    itself as started, and nothing else has changed. *)
Theorem Run_executes_steps_in_order uc steps tr uc' ph err :
  is_Some (GetHistory (History uc) (ucVersionOf uc)) ->
  exec (Run uc steps) tr (Done (uc', ph, err)) ->
  exists runs : list stepRun,
    map sr_step runs = take (length runs) steps /\
    unclocked tr = concat (map (fun r => unclocked (sr_trace r)) runs) /\
    (forall i r, runs !! i = Some r ->
       exec (step_run (sr_step r) (sr_uc r)) (sr_trace r) (Done (sr_result r)) /\
       (sr_result r = Ok true \/ S i = length runs) /\
       same_but_conditions uc (sr_uc r) /\
       prepared uc (map step_name (take i steps)) (step_name (sr_step r)) (sr_uc r)) /\
    decides steps runs ph err.
Proof. intros Hh [n Hn]%exec_Run_rel. by eapply run_rel_runs. Qed.

(** C11: after a run that stops at step [n], every condition of a done step is
    True with a completion time, the condition of the step that is not done is
    False without one, and the others are untouched; the phase is Upgraded
    exactly when all steps are done. *)
Theorem Run_records_every_step uc steps tr uc' ph err :
  is_Some (GetHistory (History uc) (ucVersionOf uc)) ->
  exec (Run uc steps) tr (Done (uc', ph, err)) ->
  exists n,
    ((n = length steps /\ ph = UpgradePhaseUpgraded /\ err = None) \/
     (n < length steps /\ ph = UpgradePhaseUpgrading)) /\
    forall t, verdict (final_status steps n t) (conditionOf uc t) (conditionOf uc' t).
Proof.
  intros Hh [n Hn]%exec_Run_rel. exists n.
  split; [by eapply run_rel_phase|]. by eapply run_rel_conditions.
Qed.

(** A run changes nothing but the conditions of the desired version's
    history: the spec, the other histories and the phase and times of the
    desired one are kept, and so is the uniqueness of versions and types. *)
Theorem Run_touches_only_conditions uc steps tr uc' ph err :
  is_Some (GetHistory (History uc) (ucVersionOf uc)) ->
  exec (Run uc steps) tr (Done (uc', ph, err)) ->
  same_but_conditions uc uc' /\ (wf_histories (History uc) -> wf_histories (History uc')).
Proof. intros Hh [n Hn]%exec_Run_rel. by eapply run_rel_same. Qed.

(** *** Witnesses *)

Definition demo_step (name : string) (r : result bool) : actionStep := Action name (fun _ => mret r).
Definition demo_steps : list actionStep :=
  [demo_step "step 1" (Ok true); demo_step "step 2" (Ok false); demo_step "step 3" (Ok true)].
Definition demo_history : UpgradeHistory :=
  mkHistory "4.15.1" "4.14.9" UpgradePhaseUpgrading [] (Some 0%Z) None None None.
Definition demo_uc : UpgradeConfig :=
  mkUpgradeConfig "managed-upgrade-config" "muo" "1"
    (mkSpec (mkUpdate "4.15.1" "stable-4.15" "") "2024-03-01T10:00:00Z" 60 OSD true)
    [demo_history].
Definition demo_env X (e : Eff X) (t : Z) : X * Z :=
  match e in Eff X return X * Z with
  | Now => (t, t + 1)%Z
  | e' => (default_resp e', t)
  end.
Definition demo_run := run demo_env (Run demo_uc demo_steps) 100%Z.
Definition demo_result : UpgradeConfig * UpgradePhase * option error :=
  match demo_run.1.2 with Done x => x | Crash _ => (demo_uc, UpgradePhaseFailed, None) end.

Lemma demo_exec : exec (Run demo_uc demo_steps) demo_run.1.1 (Done demo_result).
Proof. exact (run_exec demo_env (Run demo_uc demo_steps) 100%Z). Defined.

Lemma Run_records_every_step_witness :
  exists n,
    ((n = 3 /\ demo_result.1.2 = UpgradePhaseUpgraded /\ demo_result.2 = None) \/
     (n < 3 /\ demo_result.1.2 = UpgradePhaseUpgrading)) /\
    forall t, verdict (final_status demo_steps n t)
                (conditionOf demo_uc t) (conditionOf demo_result.1.1 t).
Proof.
  apply (Run_records_every_step demo_uc demo_steps demo_run.1.1
           demo_result.1.1 demo_result.1.2 demo_result.2).
  - exists demo_history. reflexivity.
  - exact demo_exec.
Defined.

(** The demo run executes two of its three steps. *)
Lemma Run_executes_steps_in_order_witness :
  exists runs : list stepRun,
    map sr_step runs = take (length runs) demo_steps /\
    unclocked demo_run.1.1 = concat (map (fun r => unclocked (sr_trace r)) runs) /\
    (forall i r, runs !! i = Some r ->
       exec (step_run (sr_step r) (sr_uc r)) (sr_trace r) (Done (sr_result r)) /\
       (sr_result r = Ok true \/ S i = length runs) /\
       same_but_conditions demo_uc (sr_uc r) /\
       prepared demo_uc (map step_name (take i demo_steps)) (step_name (sr_step r)) (sr_uc r)) /\
    decides demo_steps runs demo_result.1.2 demo_result.2.
Proof.
  apply (Run_executes_steps_in_order demo_uc demo_steps demo_run.1.1
           demo_result.1.1 demo_result.1.2 demo_result.2).
  - exists demo_history. reflexivity.
  - exact demo_exec.
Defined.

Lemma Run_touches_only_conditions_witness :
  same_but_conditions demo_uc demo_result.1.1 /\
  (wf_histories (History demo_uc) -> wf_histories (History demo_result.1.1)).
Proof.
  apply (Run_touches_only_conditions demo_uc demo_steps demo_run.1.1
           demo_result.1.1 demo_result.1.2 demo_result.2).
  - exists demo_history. reflexivity.
  - exact demo_exec.
Defined.

(** The run of the three demo steps, evaluated: step 1 is complete, step 2 in
    progress, step 3 has no condition. *)
Example demo_run_conditions :
  (map (fun c => (cond_Type c, cond_Status c))
     (from_option hist_Conditions [] (GetHistory (History demo_result.1.1) "4.15.1")),
   demo_result.1.2) =
  ([("step 2", ConditionFalse); ("step 1", ConditionTrue)], UpgradePhaseUpgrading).
Proof. vm_compute. reflexivity. Qed.
