(* ===== verification/DeepCopy.v ===== *)
(** * Deep copies on the heap (api/v1alpha1/zz_generated.deepcopy.go)

    The other files of the library treat an UpgradeConfig as a value.  The
    program holds it through pointers: the histories and the conditions are
    slices, which refer to arrays, and every time stamp of a history or of a
    condition is a pointer.  This file has the heap, the structs with their
    references, the copy functions as they are written, and what a deep copy
    shares with its original: nothing but the time stamps of the conditions,
    because [UpgradeCondition.DeepCopyInto] (upgradeconfig_types.go) is written
    by hand as an assignment.

    - [cell], [Heap], [HM]: the heap (one cell per array or time stamp) and
      programs over it; allocation, element access, [make].
    - [Obj]: a type of structs with references, the value it stands for, the
      cells it owns and the cells it shares; the value depends on those only.
    - [copies]: the specification of a copy function, proved once for the loop
      over a slice and then for every type of the API. *)

From S2P Require Import Prelude Api Effects.
From stdpp Require Import base gmap strings list.
From Stdlib Require Import ZArith Lia.

(** ** Metadata of the API machinery

    [metav1.TypeMeta], [ObjectMeta] and [ListMeta] are structs of a library;
    what they refer to is kept in cells of their own. *)
Class MetaTypes := {
  TypeMeta : Type;
  ObjectMeta : Type;
  ListMeta : Type;
  MetaCell : Type;
}.

Definition loc := positive.

(** A slice that is not nil: its array and its length.  Every slice of this API
    starts at the first element of its array. *)
Record slice (A : Type) := mkSlice { s_arr : loc; s_len : nat }.
Arguments mkSlice {A} _ _.
Arguments s_arr {A} _.
Arguments s_len {A} _.

(** A pointer to a struct: an array of one element. *)
Definition ptr_slice {A} (p : loc) : slice A := mkSlice p 1.

(** ** Structs *)

Record conditionStruct := mkConditionStruct {
  cs_Type : string;
  cs_Status : ConditionStatus;
  cs_LastProbeTime : option loc;
  cs_LastTransitionTime : option loc;
  cs_StartTime : option loc;
  cs_CompleteTime : option loc;
  cs_Reason : string;
  cs_Message : string;
}.

Record historyStruct := mkHistoryStruct {
  hs_Version : string;
  hs_PrecedingVersion : string;
  hs_Phase : UpgradePhase;
  hs_Conditions : option (slice conditionStruct);
  hs_StartTime : option loc;
  hs_CompleteTime : option loc;
  hs_WorkerStartTime : option loc;
  hs_WorkerCompleteTime : option loc;
}.

Record statusStruct := mkStatusStruct {
  st_History : option (slice historyStruct);
}.

Record configStruct {MT : MetaTypes} := mkConfigStruct {
  cf_TypeMeta : TypeMeta;
  cf_ObjectMeta : ObjectMeta;
  cf_Spec : UpgradeConfigSpec;
  cf_Status : statusStruct;
}.
Arguments configStruct : clear implicits.
Arguments configStruct {MT}.

Record listStruct {MT : MetaTypes} := mkListStruct {
  ls_TypeMeta : TypeMeta;
  ls_ListMeta : ListMeta;
  ls_Items : option (slice configStruct);
}.
Arguments listStruct : clear implicits.
Arguments listStruct {MT}.

Definition zeroConditionStruct : conditionStruct :=
  mkConditionStruct "" (ConditionStatusOther "") None None None None "" "".
Definition zeroHistoryStruct : historyStruct :=
  mkHistoryStruct "" "" (UpgradePhaseOther "") None None None None None.
Definition zeroStatusStruct : statusStruct := mkStatusStruct None.

(** ** The heap *)

Inductive cell {MT : MetaTypes} :=
| CTime (t : Time)
| CConditions (a : list conditionStruct)
| CHistories (a : list historyStruct)
| CStatuses (a : list statusStruct)
| CSpecs (a : list UpgradeConfigSpec)
| CUpdates (a : list Update)
| CConfigs (a : list configStruct)
| CLists (a : list listStruct)
| CMeta (c : MetaCell).
Arguments cell : clear implicits.
Arguments cell {MT}.

Notation Heap := (gmap loc cell).

(** The arrays of a type of elements. *)
Class Elem {MT : MetaTypes} (A : Type) := {
  arr : list A -> cell;
  get_arr : cell -> option (list A);
  get_arr_arr a : get_arr (arr a) = Some a;
  get_arr_Some c a : get_arr c = Some a -> c = arr a;
  arr_no_time a t : arr a <> CTime t;
}.

Ltac solve_elem := first [done | by intros [] ? H; inversion H].

#[export] Instance conditionStruct_elem {MT : MetaTypes} : Elem conditionStruct.
Proof.
  refine {| arr := CConditions; get_arr c := match c with CConditions a => Some a | _ => None end |};
    solve_elem.
Defined.
#[export] Instance historyStruct_elem {MT : MetaTypes} : Elem historyStruct.
Proof.
  refine {| arr := CHistories; get_arr c := match c with CHistories a => Some a | _ => None end |};
    solve_elem.
Defined.
#[export] Instance statusStruct_elem {MT : MetaTypes} : Elem statusStruct.
Proof.
  refine {| arr := CStatuses; get_arr c := match c with CStatuses a => Some a | _ => None end |};
    solve_elem.
Defined.
#[export] Instance spec_elem {MT : MetaTypes} : Elem UpgradeConfigSpec.
Proof.
  refine {| arr := CSpecs; get_arr c := match c with CSpecs a => Some a | _ => None end |};
    solve_elem.
Defined.
#[export] Instance update_elem {MT : MetaTypes} : Elem Update.
Proof.
  refine {| arr := CUpdates; get_arr c := match c with CUpdates a => Some a | _ => None end |};
    solve_elem.
Defined.
#[export] Instance configStruct_elem {MT : MetaTypes} : Elem configStruct.
Proof.
  refine {| arr := CConfigs; get_arr c := match c with CConfigs a => Some a | _ => None end |};
    solve_elem.
Defined.
#[export] Instance listStruct_elem {MT : MetaTypes} : Elem listStruct.
Proof.
  refine {| arr := CLists; get_arr c := match c with CLists a => Some a | _ => None end |};
    solve_elem.
Defined.

(** ** Programs over the heap *)

Definition HM {MT : MetaTypes} (A : Type) : Type := Heap -> M (A * Heap).

#[export] Instance HM_ret {MT : MetaTypes} : MRet HM := fun A a h => mret (a, h).
#[export] Instance HM_bind {MT : MetaTypes} : MBind HM :=
  fun A B f p h => prog_bind (fun r => f r.1 r.2) (p h).

(** A request to the outside. *)
Definition lift {MT : MetaTypes} {A} (p : M A) : HM A := fun h => prog_bind (fun a => Ret (a, h)) p.

(** A new cell. *)
Definition alloc {MT : MetaTypes} (c : cell) : HM loc :=
  fun h => let l := fresh (dom h) in Ret (l, <[l := c]> h).

Definition the_array {MT : MetaTypes} {A} {E : Elem A} (h : Heap) (l : loc) : option (list A) :=
  h !! l ≫= get_arr.

(** [a[i]] and [a[i] = x], out of range a panic. *)
Definition readElem {MT : MetaTypes} {A} {E : Elem A} (l : loc) (i : nat) : HM A :=
  fun h => match the_array h l ≫= (.!! i) with
           | Some x => Ret (x, h)
           | None => Panic "index out of range"
           end.
Definition writeElem {MT : MetaTypes} {A} {E : Elem A} (l : loc) (i : nat) (x : A) : HM unit :=
  fun h => match the_array h l with
           | Some a =>
               if decide (i < length a) then Ret (tt, <[l := arr (<[i := x]> a)]> h)
               else Panic "index out of range"
           | None => Panic "nil dereference"
           end.

(** [make([]T, n)]; [new(T)] for one element. *)
Definition makeArray {MT : MetaTypes} {A} {E : Elem A} (zero : A) (n : nat) : HM loc :=
  alloc (arr (repeat zero n)).

(** The elements of a slice, nil or not. *)
Definition elems {MT : MetaTypes} {A} {E : Elem A} (h : Heap) (s : option (slice A)) : option (list A) :=
  match s with
  | None => Some []
  | Some sl =>
      a ← the_array h (s_arr sl);
      if decide (s_len sl <= length a) then Some (take (s_len sl) a) else None
  end.

(** ** What the libraries provide *)

(** The deep copies of the API machinery: of a time stamp, of the metadata of
    an object and of a list.  Metadata stands for a value, in the cells that it
    refers to; a copy has the same value in new cells. *)
Class MetaLib {MT : MetaTypes} := {
  zeroTypeMeta : TypeMeta;
  zeroObjectMeta : ObjectMeta;
  zeroListMeta : ListMeta;
  OMValue : Type;
  LMValue : Type;
  omv_Name : OMValue -> string;
  omv_Namespace : OMValue -> string;
  omv_ResourceVersion : OMValue -> string;
  om_value : Heap -> ObjectMeta -> option OMValue;
  lm_value : Heap -> ListMeta -> option LMValue;
  om_cells : Heap -> ObjectMeta -> gset loc;
  lm_cells : Heap -> ListMeta -> gset loc;
  time_DeepCopy : loc -> HM loc;
  om_DeepCopyInto : ObjectMeta -> HM ObjectMeta;
  lm_DeepCopyInto : ListMeta -> HM ListMeta;
  om_local h h' m v :
    om_value h m = Some v ->
    om_cells h m ⊆ dom h /\
    ((forall l, l ∈ om_cells h m -> h' !! l = h !! l) ->
     om_value h' m = Some v /\ om_cells h' m = om_cells h m);
  lm_local h h' m v :
    lm_value h m = Some v ->
    lm_cells h m ⊆ dom h /\
    ((forall l, l ∈ lm_cells h m -> h' !! l = h !! l) ->
     lm_value h' m = Some v /\ lm_cells h' m = lm_cells h m);
  time_DeepCopy_spec h l t :
    h !! l = Some (CTime t) ->
    exists l', time_DeepCopy l h = Ret (l', <[l' := CTime t]> h) /\ l' ∉ dom h;
  om_DeepCopyInto_spec h m v :
    om_value h m = Some v ->
    exists m' h', om_DeepCopyInto m h = Ret (m', h') /\ h ⊆ h' /\
      om_value h' m' = Some v /\ om_cells h' m' ## dom h;
  lm_DeepCopyInto_spec h m v :
    lm_value h m = Some v ->
    exists m' h', lm_DeepCopyInto m h = Ret (m', h') /\ h ⊆ h' /\
      lm_value h' m' = Some v /\ lm_cells h' m' ## dom h;
}.

(** ** The copy functions *)

Section Copy.
Context {MT : MetaTypes}.

(** [for i := range *in { in[i].DeepCopyInto(&out[i]) }], for the [n]
    indices from [i] on. *)
Fixpoint copyElems {A} {E : Elem A} (DeepCopyInto : A -> HM A) (inp out : loc) (n i : nat) : HM unit :=
  match n with
  | 0 => mret tt
  | S n' =>
      x ← readElem inp i;
      y ← DeepCopyInto x;
      _ ← writeElem out i y;
      copyElems DeepCopyInto inp out n' (S i)
  end.

(** [make] and the loop. *)
Definition copyArray {A} {E : Elem A} (zero : A) (DeepCopyInto : A -> HM A) (s : slice A) : HM (slice A) :=
  out ← makeArray zero (s_len s);
  _ ← copyElems DeepCopyInto (s_arr s) out (s_len s) 0;
  mret (mkSlice out (s_len s)).

(** The same under [if in != nil]. *)
Definition copySlice {A} {E : Elem A} (zero : A) (DeepCopyInto : A -> HM A) (s : option (slice A))
    : HM (option (slice A)) :=
  match s with
  | None => mret None
  | Some s => out ← copyArray zero DeepCopyInto s; mret (Some out)
  end.

(** [DeepCopy] of a pointer: nil, or [out := new(T); in.DeepCopyInto(out)], where
    the structs are the only elements of their arrays. *)
Definition copyPointer {A} {E : Elem A} (zero : A) (DeepCopyInto : A -> HM A) (p : option loc)
    : HM (option loc) :=
  match p with
  | None => mret None
  | Some p => out ← copyArray zero DeepCopyInto (ptr_slice p); mret (Some (s_arr out))
  end.

Context {ML : MetaLib}.

(** [*cpy = *c]. *)
Definition UpgradeCondition_DeepCopyInto (c : conditionStruct) : HM conditionStruct := mret c.

Definition UpgradeCondition_DeepCopy : option loc -> HM (option loc) :=
  copyPointer zeroConditionStruct UpgradeCondition_DeepCopyInto.

(** The method of the slice type: it allocates for nil too. *)
Definition Conditions_DeepCopyInto (s : option (slice conditionStruct))
    : HM (option (slice conditionStruct)) :=
  match s with
  | None => out ← makeArray zeroConditionStruct 0; mret (Some (mkSlice out 0))
  | Some s => out ← copyArray zeroConditionStruct UpgradeCondition_DeepCopyInto s; mret (Some out)
  end.
Definition Conditions_DeepCopy (s : option (slice conditionStruct))
    : HM (option (slice conditionStruct)) :=
  match s with None => mret None | Some _ => Conditions_DeepCopyInto s end.

(** [if in.T != nil { out.T = in.T.DeepCopy() }]. *)
Definition copyTime (p : option loc) : HM (option loc) :=
  match p with None => mret None | Some l => l' ← time_DeepCopy l; mret (Some l') end.

Definition UpgradeHistory_DeepCopyInto (inp : historyStruct) : HM historyStruct :=
  conditions ← copySlice zeroConditionStruct UpgradeCondition_DeepCopyInto (hs_Conditions inp);
  startTime ← copyTime (hs_StartTime inp);
  completeTime ← copyTime (hs_CompleteTime inp);
  workerStartTime ← copyTime (hs_WorkerStartTime inp);
  workerCompleteTime ← copyTime (hs_WorkerCompleteTime inp);
  mret (mkHistoryStruct (hs_Version inp) (hs_PrecedingVersion inp) (hs_Phase inp) conditions
          startTime completeTime workerStartTime workerCompleteTime).

Definition UpgradeHistory_DeepCopy : option loc -> HM (option loc) :=
  copyPointer zeroHistoryStruct UpgradeHistory_DeepCopyInto.

Definition UpgradeHistories_DeepCopyInto (s : option (slice historyStruct))
    : HM (option (slice historyStruct)) :=
  match s with
  | None => out ← makeArray zeroHistoryStruct 0; mret (Some (mkSlice out 0))
  | Some s => out ← copyArray zeroHistoryStruct UpgradeHistory_DeepCopyInto s; mret (Some out)
  end.
Definition UpgradeHistories_DeepCopy (s : option (slice historyStruct))
    : HM (option (slice historyStruct)) :=
  match s with None => mret None | Some _ => UpgradeHistories_DeepCopyInto s end.

Definition UpgradeConfigStatus_DeepCopyInto (inp : statusStruct) : HM statusStruct :=
  history ← copySlice zeroHistoryStruct UpgradeHistory_DeepCopyInto (st_History inp);
  mret (mkStatusStruct history).

Definition UpgradeConfigStatus_DeepCopy : option loc -> HM (option loc) :=
  copyPointer zeroStatusStruct UpgradeConfigStatus_DeepCopyInto.

(** Structs without references: assignments. *)
Definition Update_DeepCopyInto (inp : Update) : HM Update := mret inp.
Definition Update_DeepCopy : option loc -> HM (option loc) :=
  copyPointer (mkUpdate "" "" "") Update_DeepCopyInto.
Definition UpgradeConfigSpec_DeepCopyInto (inp : UpgradeConfigSpec) : HM UpgradeConfigSpec := mret inp.
Definition UpgradeConfigSpec_DeepCopy : option loc -> HM (option loc) :=
  copyPointer zeroSpec UpgradeConfigSpec_DeepCopyInto.

Definition UpgradeConfig_DeepCopyInto (inp : configStruct) : HM configStruct :=
  meta ← om_DeepCopyInto (cf_ObjectMeta inp);
  status ← UpgradeConfigStatus_DeepCopyInto (cf_Status inp);
  mret (mkConfigStruct _ (cf_TypeMeta inp) meta (cf_Spec inp) status).

Definition zeroConfigStruct : configStruct :=
  mkConfigStruct _ zeroTypeMeta zeroObjectMeta zeroSpec zeroStatusStruct.
Definition UpgradeConfig_DeepCopy : option loc -> HM (option loc) :=
  copyPointer zeroConfigStruct UpgradeConfig_DeepCopyInto.

(** The [runtime.Object] is nil or the copy. *)
Definition UpgradeConfig_DeepCopyObject (inp : option loc) : HM (option loc) :=
  c ← UpgradeConfig_DeepCopy inp;
  match c with Some c => mret (Some c) | None => mret None end.

Definition UpgradeConfigList_DeepCopyInto (inp : listStruct) : HM listStruct :=
  meta ← lm_DeepCopyInto (ls_ListMeta inp);
  items ← copySlice zeroConfigStruct UpgradeConfig_DeepCopyInto (ls_Items inp);
  mret (mkListStruct _ (ls_TypeMeta inp) meta items).

Definition UpgradeConfigList_DeepCopy : option loc -> HM (option loc) :=
  copyPointer (mkListStruct _ zeroTypeMeta zeroListMeta None) UpgradeConfigList_DeepCopyInto.
Definition UpgradeConfigList_DeepCopyObject (inp : option loc) : HM (option loc) :=
  c ← UpgradeConfigList_DeepCopy inp;
  match c with Some c => mret (Some c) | None => mret None end.

End Copy.

(** ** Values, ownership and sharing *)

Definition agree {MT : MetaTypes} (h h' : Heap) (X : gset loc) : Prop :=
  forall l, l ∈ X -> h' !! l = h !! l.

(** A type of structs with references: [ld] is the value it stands for, [own]
    the cells that only it should refer to, [shr] the cells that copies share
    (time stamps), [sep] says that no cell is owned twice.  All of them depend
    only on the contents of these cells. *)
Class Obj {MT : MetaTypes} (A V : Type) := {
  ld : Heap -> A -> option V;
  own : Heap -> A -> gset loc;
  shr : Heap -> A -> gset loc;
  sep : Heap -> A -> Prop;
  obj_dom h x v : ld h x = Some v -> own h x ∪ shr h x ⊆ dom h;
  obj_shr h x v l : ld h x = Some v -> l ∈ shr h x -> exists t, h !! l = Some (CTime t);
  obj_local h h' x v :
    ld h x = Some v -> agree h h' (own h x ∪ shr h x) ->
    ld h' x = Some v /\ own h' x = own h x /\ shr h' x = shr h x /\ (sep h x -> sep h' x);
}.

(** What a copy function does: the heap only grows, the copy has the same value,
    owns new cells only, none of them twice, and shares what the original
    shares. *)
Definition copies {MT : MetaTypes} {A V} {O : Obj A V} (DeepCopyInto : A -> HM A) : Prop :=
  forall h x v, ld h x = Some v ->
  exists y h', DeepCopyInto x h = Ret (y, h') /\ h ⊆ h' /\ ld h' y = Some v /\ sep h' y /\
    own h' y ## dom h /\ shr h' y = shr h x.

Definition ptr_cells (p : option loc) : gset loc := match p with Some l => {[ l ]} | None => ∅ end.

Definition ld_time {MT : MetaTypes} (h : Heap) (p : option loc) : option (option Time) :=
  match p with
  | None => Some None
  | Some l => match h !! l with Some (CTime t) => Some (Some t) | _ => None end
  end.

(** ** The heap only grows, and reads are stable *)

Section Lemmas.
Context {MT : MetaTypes}.
Implicit Types (h : Heap) (l : loc).

Lemma sub_agree h h' X : h ⊆ h' -> X ⊆ dom h -> agree h h' X.
Proof.
  intros Hs HX l Hl. apply HX, elem_of_dom in Hl as [c Hc]. rewrite Hc.
  by eapply lookup_weaken.
Qed.

Lemma agree_sub h h' X Y : agree h h' X -> Y ⊆ X -> agree h h' Y.
Proof. intros H HY l Hl. apply H. set_solver. Qed.

Lemma alloc_fresh h : fresh (dom h) ∉ dom h.
Proof. apply is_fresh. Qed.

Lemma insert_fresh_sub h l c : l ∉ dom h -> h ⊆ <[l := c]> h.
Proof. intros Hl. apply insert_subseteq. by apply not_elem_of_dom. Qed.

Lemma the_array_Some {A} {E : Elem A} h l a :
  the_array h l = Some a <-> h !! l = Some (arr a).
Proof.
  unfold the_array. split.
  - intros (c & Hc & Ha)%bind_Some. by rewrite Hc, (get_arr_Some _ _ Ha).
  - intros ->. cbn. apply get_arr_arr.
Qed.

Lemma elems_dom {A} {E : Elem A} h (sl : slice A) xs :
  elems h (Some sl) = Some xs -> s_arr sl ∈ dom h.
Proof.
  cbn. intros (a & Ha%the_array_Some & _)%bind_Some. apply elem_of_dom. eauto.
Qed.

Lemma elems_local {A} {E : Elem A} h h' (sl : slice A) :
  h' !! s_arr sl = h !! s_arr sl -> elems h' (Some sl) = elems h (Some sl).
Proof. cbn. unfold the_array. by intros ->. Qed.

(** The value of an object survives changes outside of its cells. *)
Lemma ld_local {A V} {O : Obj A V} h h' x v :
  ld h x = Some v -> agree h h' (own h x ∪ shr h x) -> ld h' x = Some v.
Proof. intros H Ha. by apply (obj_local _ _ _ _ H Ha). Qed.

Lemma obj_sub {A V} {O : Obj A V} h h' x v :
  ld h x = Some v -> h ⊆ h' ->
  ld h' x = Some v /\ own h' x = own h x /\ shr h' x = shr h x /\ (sep h x -> sep h' x).
Proof. intros H Hs. apply (obj_local _ _ _ _ H), sub_agree; [done|]. by eapply obj_dom. Qed.

End Lemmas.

(** ** The objects of the API *)

Section Objects.
Context {MT : MetaTypes}.
Implicit Types (h : Heap).

Lemma ptr_time_dom h p t : ld_time h p = Some t -> ptr_cells p ⊆ dom h.
Proof.
  destruct p as [l|]; cbn; [|set_solver].
  destruct (h !! l) eqn:E; [|done]. intros _. apply singleton_subseteq_l, elem_of_dom. eauto.
Qed.

Lemma ptr_time_cell h p t l : ld_time h p = Some t -> l ∈ ptr_cells p -> exists t, h !! l = Some (CTime t).
Proof.
  destruct p as [l'|]; cbn; [|set_solver]. intros H ->%elem_of_singleton.
  destruct (h !! l') as [[u| | | | | | | |]|]; try done. by exists u.
Qed.

Lemma ld_time_local h h' p : agree h h' (ptr_cells p) -> ld_time h' p = ld_time h p.
Proof. destruct p as [l|]; cbn; [|done]. intros H. by rewrite (H l) by set_solver. Qed.

(** Structs without references. *)
#[export] Program Instance Update_obj : Obj Update Update :=
  {| ld h x := Some x; own h x := ∅; shr h x := ∅; sep h x := True |}.
Next Obligation. set_solver. Qed.
Next Obligation. set_solver. Qed.
Next Obligation. naive_solver. Qed.
#[export] Program Instance Spec_obj : Obj UpgradeConfigSpec UpgradeConfigSpec :=
  {| ld h x := Some x; own h x := ∅; shr h x := ∅; sep h x := True |}.
Next Obligation. set_solver. Qed.
Next Obligation. set_solver. Qed.
Next Obligation. naive_solver. Qed.

(** Conditions: the time stamps are shared. *)
Definition ld_condition (h : Heap) (c : conditionStruct) : option UpgradeCondition :=
  probe ← ld_time h (cs_LastProbeTime c);
  transition ← ld_time h (cs_LastTransitionTime c);
  start ← ld_time h (cs_StartTime c);
  complete ← ld_time h (cs_CompleteTime c);
  Some (mkCondition (cs_Type c) (cs_Status c) probe transition start complete
          (cs_Reason c) (cs_Message c)).
Definition condition_times (c : conditionStruct) : gset loc :=
  ptr_cells (cs_LastProbeTime c) ∪ ptr_cells (cs_LastTransitionTime c) ∪
  ptr_cells (cs_StartTime c) ∪ ptr_cells (cs_CompleteTime c).

#[export] Program Instance Condition_obj : Obj conditionStruct UpgradeCondition :=
  {| ld := ld_condition; own h x := ∅; shr h x := condition_times x; sep h x := True |}.
Next Obligation.
  intros h x v. unfold ld_condition. intros H.
  apply bind_Some in H as (? & H1 & H). apply bind_Some in H as (? & H2 & H).
  apply bind_Some in H as (? & H3 & H). apply bind_Some in H as (? & H4 & _).
  apply ptr_time_dom in H1, H2, H3, H4. unfold condition_times. set_solver.
Qed.
Next Obligation.
  intros h x v l. unfold ld_condition. intros H.
  apply bind_Some in H as (? & H1 & H). apply bind_Some in H as (? & H2 & H).
  apply bind_Some in H as (? & H3 & H). apply bind_Some in H as (? & H4 & _).
  unfold condition_times. rewrite !elem_of_union. intros [[[Hl|Hl]|Hl]|Hl]; eauto using ptr_time_cell.
Qed.
Next Obligation.
  intros h h' x v H Ha. split_and!; [|done..]. rewrite <- H. unfold ld_condition.
  by rewrite !(ld_time_local h h') by (eapply agree_sub; [exact Ha|]; unfold condition_times; set_solver).
Qed.

(** Slices own their array and what the elements own. *)
Section Slice.
Context {A V : Type} {E : Elem A} {O : Obj A V}.

Definition ld_slice (h : Heap) (s : option (slice A)) : option (list V) :=
  xs ← elems h s; mapM (ld h) xs.
Definition elements (h : Heap) (s : option (slice A)) : list A := default [] (elems h s).
Definition own_slice (h : Heap) (s : option (slice A)) : gset loc :=
  match s with
  | None => ∅
  | Some sl => {[ s_arr sl ]} ∪ ⋃ (own h <$> elements h s)
  end.
Definition shr_slice (h : Heap) (s : option (slice A)) : gset loc := ⋃ (shr h <$> elements h s).

(** No element owns the array, or a cell of another element. *)
Definition sep_slice (h : Heap) (s : option (slice A)) : Prop :=
  match s with
  | None => True
  | Some sl =>
      (forall i x, elements h s !! i = Some x -> sep h x /\ s_arr sl ∉ own h x) /\
      (forall i j x y, i <> j -> elements h s !! i = Some x -> elements h s !! j = Some y ->
         own h x ## own h y)
  end.

Lemma elements_Some h s xs : elems h s = Some xs -> elements h s = xs.
Proof. unfold elements. by intros ->. Qed.

Lemma elem_of_own h l (xs : list A) :
  l ∈ (⋃ (own h <$> xs) : gset loc) <-> exists x, x ∈ xs /\ l ∈ own h x.
Proof. rewrite elem_of_union_list. set_solver. Qed.
Lemma elem_of_shr h l (xs : list A) :
  l ∈ (⋃ (shr h <$> xs) : gset loc) <-> exists x, x ∈ xs /\ l ∈ shr h x.
Proof. rewrite elem_of_union_list. set_solver. Qed.

(** The elements that [ld_slice] reads. *)
Lemma ld_slice_Some h s vs :
  ld_slice h s = Some vs <->
  exists xs, elems h s = Some xs /\ Forall2 (fun x v => ld h x = Some v) xs vs.
Proof.
  unfold ld_slice. rewrite bind_Some. by setoid_rewrite mapM_Some.
Qed.

Lemma ld_elems_local h h' xs vs :
  Forall2 (fun x v => ld h x = Some v) xs vs ->
  agree h h' (⋃ (own h <$> xs) ∪ ⋃ (shr h <$> xs)) ->
  Forall2 (fun x v => ld h' x = Some v) xs vs /\
  own h' <$> xs = own h <$> xs /\ shr h' <$> xs = shr h <$> xs /\
  forall x, x ∈ xs -> own h' x = own h x /\ (sep h x -> sep h' x).
Proof.
  intros H. induction H as [|x v xs vs Hx _ IH]; intros Ha.
  { split_and!; [constructor|done|done|]. intros x Hx. by apply elem_of_nil in Hx. }
  destruct (obj_local h h' x v Hx) as (H1 & H2 & H3 & H4); [eapply agree_sub; [exact Ha|set_solver]|].
  destruct IH as (I1 & I2 & I3 & I4); [eapply agree_sub; [exact Ha|set_solver]|].
  split_and!; [by constructor|cbn; congruence|cbn; congruence|].
  intros y [->|Hy]%elem_of_cons; [done|by apply I4].
Qed.

#[export] Program Instance Slice_obj : Obj (option (slice A)) (list V) :=
  {| ld := ld_slice; own := own_slice; shr := shr_slice; sep := sep_slice |}.
Next Obligation.
  intros h s vs (xs & Hxs & HF)%ld_slice_Some.
  assert (Hd : ⋃ (own h <$> xs) ∪ ⋃ (shr h <$> xs) ⊆ dom h).
  { clear Hxs. induction HF as [|x v xs vs Hx _ IH]; [set_solver|].
    pose proof (obj_dom _ _ _ Hx). set_solver. }
  unfold own_slice, shr_slice. rewrite (elements_Some _ _ _ Hxs).
  destruct s as [sl|]; [|set_solver]. pose proof (elems_dom _ _ _ Hxs). set_solver.
Qed.
Next Obligation.
  intros h s vs l (xs & Hxs & HF)%ld_slice_Some. unfold shr_slice.
  rewrite (elements_Some _ _ _ Hxs), elem_of_shr. intros (x & [i Hx]%list_elem_of_lookup & Hl).
  destruct (Forall2_lookup_l _ _ _ _ _ HF Hx) as (v & _ & Hv). by eapply obj_shr.
Qed.
Next Obligation.
  intros h h' s vs (xs & Hxs & HF)%ld_slice_Some.
  unfold own_slice, shr_slice, sep_slice. rewrite (elements_Some _ _ _ Hxs). intros Ha.
  destruct s as [sl|].
  - destruct (ld_elems_local h h' xs vs HF) as (H1 & H2 & H3 & H4);
      [eapply agree_sub; [exact Ha|set_solver]|].
    assert (Hxs' : elems h' (Some sl) = Some xs)
      by (rewrite <- Hxs; apply elems_local, Ha; set_solver).
    rewrite (elements_Some _ _ _ Hxs'), H2, H3. split_and!; [|done|done|].
    { apply ld_slice_Some. eauto. }
    intros [S1 S2]. split.
    + intros i x Hx. destruct (S1 i x Hx), (H4 x) as [-> ?]; [by eapply list_elem_of_lookup_2|]. auto.
    + intros i j x y Hij Hx Hy.
      destruct (H4 x) as [-> _]; [by eapply list_elem_of_lookup_2|].
      destruct (H4 y) as [-> _]; [by eapply list_elem_of_lookup_2|]. eauto.
  - injection Hxs as <-. apply Forall2_nil_inv_l in HF as ->. by split_and!.
Qed.

End Slice.
End Objects.

(** ** The loop over a slice *)

Section CopySlice.
Context {MT : MetaTypes}.
Implicit Types (h : Heap) (l : loc).

(** One step of a program over the heap. *)
Lemma hm_bind {B C} (p : HM B) (f : B -> HM C) h b h1 :
  p h = Ret (b, h1) -> (p ≫= f) h = f b h1.
Proof. intros H. unfold mbind, HM_bind. by rewrite H. Qed.

Lemma alloc_spec (c : cell) h :
  exists l, alloc c h = Ret (l, <[l := c]> h) /\ l ∉ dom h.
Proof. eexists. split; [done|]. apply alloc_fresh. Qed.

Context {A V : Type} {E : Elem A} {O : Obj A V}.

Lemma readElem_spec h l (a : list A) i x :
  h !! l = Some (arr a) -> a !! i = Some x -> readElem l i h = Ret (x, h).
Proof. intros Ha%the_array_Some Hi. unfold readElem. rewrite Ha. cbn. by rewrite Hi. Qed.

Lemma writeElem_spec h l (a : list A) i x :
  h !! l = Some (arr a) -> i < length a ->
  writeElem l i x h = Ret (tt, <[l := arr (<[i := x]> a)]> h).
Proof.
  intros Ha%the_array_Some Hi. unfold writeElem. rewrite Ha. by rewrite decide_True.
Qed.

(** One iteration: the copy of an element goes to its place in the new array; the
    heap [h0] at the start of the loop stays intact. *)
Lemma copyElems_step (f : A -> HM A) (h0 h : Heap) (inp out : loc) (a pre rest : list A) n r x v :
  copies (V := V) f -> h0 !! inp = Some (arr a) -> out ∉ dom h0 -> ld h0 x = Some v -> h0 ⊆ h ->
  h !! out = Some (arr (pre ++ r :: rest)) -> a !! length pre = Some x ->
  exists y h2,
    copyElems f inp out (S n) (length pre) h = copyElems f inp out n (length (pre ++ [y])) h2 /\
    h0 ⊆ h2 /\ h2 !! out = Some (arr (pre ++ y :: rest)) /\ dom h ⊆ dom h2 /\
    (forall l, l ∈ dom h -> l <> out -> h2 !! l = h !! l) /\
    ld h2 y = Some v /\ sep h2 y /\ own h2 y ## dom h /\ shr h2 y = shr h0 x /\ out ∉ shr h2 y.
Proof.
  intros Hf Hin Hout Hx Hsub Ho Hi.
  destruct (obj_sub h0 h x v Hx Hsub) as (Hx1 & _ & Hs1 & _).
  destruct (Hf h x v Hx1) as (y & h1 & Hy & Hsub1 & Hld & Hsep & Hown & Hshr).
  assert (Ho1 : h1 !! out = Some (arr (pre ++ r :: rest))) by by eapply lookup_weaken.
  assert (Houtd : out ∈ dom h) by (apply elem_of_dom; eauto).
  assert (Houts : out ∉ shr h1 y) by (rewrite Hshr, Hs1; pose proof (obj_dom _ _ _ Hx); set_solver).
  exists y, (<[out := arr (pre ++ y :: rest)]> h1).
  destruct (obj_local h1 (<[out := arr (pre ++ y :: rest)]> h1) y v Hld) as (Y1 & Y2 & Y3 & Y4).
  { intros l Hl. rewrite lookup_insert_ne; [done|]. intros <-. set_solver. }
  rewrite Y2, Y3. split_and!; try done; [| |by rewrite lookup_insert_eq| | |by apply Y4|congruence].
  - cbn [copyElems].
    assert (Hin1 : h !! inp = Some (arr a)) by by eapply lookup_weaken.
    rewrite (hm_bind _ _ _ _ _ (readElem_spec h inp a (length pre) x Hin1 Hi)).
    rewrite (hm_bind _ _ _ _ _ Hy).
    rewrite (hm_bind _ _ _ _ _ (writeElem_spec h1 out _ (length pre) y Ho1
               ltac:(rewrite length_app; cbn; lia))).
    rewrite insert_app_r_alt, Nat.sub_diag by lia. by rewrite length_app, Nat.add_1_r.
  - apply insert_subseteq_r; [by apply not_elem_of_dom|]. by transitivity h.
  - rewrite dom_insert. apply subseteq_dom in Hsub1. set_solver.
  - intros l [c Hc]%elem_of_dom Hne. rewrite lookup_insert_ne, Hc by done. by eapply lookup_weaken.
Qed.

(** The loop: [ys] are copied; the copies own new cells and nothing twice. *)
Lemma copyElems_spec (f : A -> HM A) (h0 : Heap) (inp out : loc) (a xs : list A) vs :
  copies (V := V) f -> h0 !! inp = Some (arr a) -> out ∉ dom h0 ->
  Forall2 (fun x v => ld h0 x = Some v) xs vs ->
  forall h (pre rest : list A),
    h0 ⊆ h -> h !! out = Some (arr (pre ++ rest)) -> length rest = length xs ->
    (forall j x, xs !! j = Some x -> a !! (length pre + j) = Some x) ->
  exists ys h',
    copyElems f inp out (length xs) (length pre) h = Ret (tt, h') /\
    h0 ⊆ h' /\ (forall l, l ∈ dom h -> l <> out -> h' !! l = h !! l) /\
    h' !! out = Some (arr (pre ++ ys)) /\ length ys = length xs /\
    Forall2 (fun y v => ld h' y = Some v) ys vs /\
    (forall i y, ys !! i = Some y -> sep h' y /\ own h' y ## dom h) /\
    (forall i j y z, i <> j -> ys !! i = Some y -> ys !! j = Some z -> own h' y ## own h' z) /\
    shr h' <$> ys = shr h0 <$> xs.
Proof.
  intros Hf Hin Hout HF. induction HF as [|x v xs vs Hx _ IH]; intros h pre rest Hsub Ho Hlen Hidx.
  { destruct rest; [|done]. exists [], h. split_and!; try done. }
  destruct rest as [|r rest]; [done|].
  pose proof (Hidx 0 x eq_refl) as Hi. rewrite Nat.add_0_r in Hi.
  destruct (copyElems_step f h0 h inp out a pre rest (length xs) r x v Hf Hin Hout Hx Hsub Ho Hi)
    as (y & h2 & Hrun2 & Hsub2 & Ho2 & Hd2 & Hk2 & Hld & Hsep & Hown & Hshr & Houts).
  destruct (IH h2 (pre ++ [y]) rest) as (ys & h' & Hrun & I1 & I2 & I4 & I5 & I6 & I7 & I8 & I9);
    [done|by rewrite <- app_assoc|cbn in Hlen; lia| |].
  { intros j z Hj. rewrite length_app. cbn. rewrite <- Nat.add_assoc. apply (Hidx (S j) z Hj). }
  pose proof (obj_dom _ _ _ Hld) as Hyd. assert (Houtd : out ∈ dom h) by (apply elem_of_dom; eauto).
  destruct (obj_local h2 h' y v Hld) as (Y1 & Y2 & Y3 & Y4).
  { intros l Hl. apply I2; [by apply Hyd|]. intros ->. set_solver. }
  assert (Hnew : forall i z, ys !! i = Some z -> own h' y ## own h' z).
  { intros i z Hz. destruct (I7 i z Hz). rewrite Y2. set_solver. }
  exists (y :: ys), h'. split_and!.
  - by rewrite <- Hrun.
  - done.
  - intros l Hl Hne. rewrite I2 by auto. by apply Hk2.
  - by rewrite I4, <- app_assoc.
  - cbn. lia.
  - by constructor.
  - intros [|i] z; cbn; [intros [= <-]; rewrite Y2; auto|].
    intros Hz. destruct (I7 i z Hz). split; [done|]. set_solver.
  - intros [|i] [|j] z w Hij Hz Hw; cbn in *; [done| | |eapply (I8 i j); eauto].
    + injection Hz as <-. eauto.
    + injection Hw as <-. symmetry. eauto.
  - cbn. congruence.
Qed.

(** The value of the slice made by [copyArray]. *)
Lemma copyArray_spec (zero : A) (f : A -> HM A) h (sl : slice A) vs :
  copies (V := V) f -> ld h (Some sl) = Some vs ->
  exists out h',
    copyArray zero f sl h = Ret (mkSlice out (s_len sl), h') /\ h ⊆ h' /\
    ld h' (Some (mkSlice out (s_len sl))) = Some vs /\ sep h' (Some (mkSlice out (s_len sl))) /\
    own h' (Some (mkSlice out (s_len sl))) ## dom h /\
    shr h' (Some (mkSlice out (s_len sl))) = shr h (Some sl) /\ out ∉ dom h.
Proof.
  intros Hf (xs & Hxs & HF)%ld_slice_Some. destruct sl as [inp n]. cbn [s_len] in *.
  pose proof Hxs as Hxs0.
  cbn in Hxs. apply bind_Some in Hxs as (a & Ha%the_array_Some & Hxs).
  destruct (decide (n <= length a)) as [Hn|]; [|done]. injection Hxs as <-.
  destruct (alloc_spec (arr (repeat zero n)) h) as (out & Hal & Hout).
  assert (Hlen : length (take n a) = n) by (rewrite length_take; lia).
  destruct (copyElems_spec f h inp out a (take n a) vs Hf Ha Hout HF
              (<[out := arr (repeat zero n)]> h) [] (repeat zero n))
    as (ys & h' & Hrun & I1 & I2 & I4 & I5 & I6 & I7 & I8 & I9).
  { by apply insert_fresh_sub. }
  { by rewrite lookup_insert_eq. }
  { rewrite Hlen. apply repeat_length. }
  { intros j x Hj. apply lookup_take_Some in Hj. naive_solver. }
  rewrite Hlen in *. cbn in Hrun.
  assert (Hel : elems h' (Some (mkSlice out n)) = Some ys).
  { cbn. unfold the_array. rewrite I4. cbn. rewrite get_arr_arr. cbn.
    rewrite decide_True by lia. by rewrite take_ge by lia. }
  exists out, h'. split_and!.
  - unfold copyArray. cbn [s_len s_arr]. unfold makeArray.
    rewrite (hm_bind _ _ _ _ _ Hal). rewrite (hm_bind _ _ _ _ _ Hrun). done.
  - done.
  - apply ld_slice_Some. eauto.
  - change (sep_slice h' (Some (mkSlice out n))). unfold sep_slice.
    rewrite (elements_Some _ _ _ Hel). split; [|done].
    intros i x Hx. destruct (I7 i x Hx) as [? Hx']. split; [done|]. cbn.
    intros Hin. apply (Hx' out Hin). rewrite dom_insert. set_solver.
  - change (own_slice h' (Some (mkSlice out n)) ## dom h). unfold own_slice.
    rewrite (elements_Some _ _ _ Hel). intros l. cbn [s_arr].
    rewrite elem_of_union, elem_of_singleton, elem_of_own.
    intros [->|(x & [i Hi]%list_elem_of_lookup & Hl)] Hd; [done|].
    destruct (I7 i x Hi) as [_ Hx']. apply (Hx' l Hl). rewrite dom_insert. set_solver.
  - change (shr_slice h' (Some (mkSlice out n)) = shr_slice h (Some (mkSlice inp n))).
    unfold shr_slice. rewrite (elements_Some _ _ _ Hel), (elements_Some _ _ _ Hxs0).
    by rewrite I9.
  - done.
Qed.

Lemma copySlice_copies (zero : A) (f : A -> HM A) :
  copies (V := V) f -> copies (V := list V) (copySlice zero f).
Proof.
  intros Hf h [sl|] vs Hvs.
  - destruct (copyArray_spec zero f h sl vs Hf Hvs) as (out & h' & Hrun & H1 & H2 & H3 & H4 & H5 & _).
    exists (Some (mkSlice out (s_len sl))), h'. split_and!; try done.
    cbn. by rewrite (hm_bind _ _ _ _ _ Hrun).
  - by exists None, h.
Qed.

(** The methods of the slice types: the array of a nil slice is empty. *)
Lemma copyArrayOrEmpty_copies (zero : A) (f : A -> HM A) :
  copies (V := V) f ->
  copies (V := list V) (fun s =>
    match s with
    | None => out ← makeArray zero 0; mret (Some (mkSlice out 0))
    | Some s => out ← copyArray zero f s; mret (Some out)
    end).
Proof.
  intros Hf h [sl|] vs Hvs.
  - by apply (copySlice_copies zero f Hf h (Some sl)).
  - injection Hvs as <-. destruct (alloc_spec (arr (@nil A)) h) as (out & Hal & Hout).
    exists (Some (mkSlice out 0)), (<[out := arr []]> h).
    assert (Hel : elems (<[out := arr []]> h) (Some (mkSlice (A := A) out 0)) = Some []).
    { cbn. unfold the_array. rewrite lookup_insert_eq. cbn. by rewrite get_arr_arr. }
    split_and!.
    + by rewrite (hm_bind _ _ _ _ _ Hal).
    + by apply insert_fresh_sub.
    + apply ld_slice_Some. exists []. by split; [|constructor].
    + change (sep_slice (<[out := arr []]> h) (Some (mkSlice (A := A) out 0))). unfold sep_slice.
      rewrite (elements_Some _ _ _ Hel). by split.
    + change (own_slice (<[out := arr []]> h) (Some (mkSlice (A := A) out 0)) ## dom h).
      unfold own_slice. rewrite (elements_Some _ _ _ Hel). cbn. set_solver.
    + change (shr_slice (<[out := arr []]> h) (Some (mkSlice (A := A) out 0)) = ∅).
      unfold shr_slice. by rewrite (elements_Some _ _ _ Hel).
Qed.

End CopySlice.

(** ** The copies of the API types *)

Section Copies.
Context {MT : MetaTypes} {ML : MetaLib}.
Implicit Types (h : Heap).

Lemma UpgradeCondition_copies : copies UpgradeCondition_DeepCopyInto.
Proof. intros h c v Hv. by exists c, h. Qed.

Lemma Update_copies : copies Update_DeepCopyInto.
Proof. intros h c v Hv. by exists c, h. Qed.

Lemma UpgradeConfigSpec_copies : copies UpgradeConfigSpec_DeepCopyInto.
Proof. intros h c v Hv. by exists c, h. Qed.

(** A time stamp owns its cell. *)
#[export] Program Instance Time_obj : Obj (option loc) (option Time) :=
  {| ld := ld_time; own h p := ptr_cells p; shr h p := ∅; sep h p := True |}.
Next Obligation. intros h p v H. pose proof (ptr_time_dom _ _ _ H). set_solver. Qed.
Next Obligation. intros h p v l _ Hl. by apply not_elem_of_empty in Hl. Qed.
Next Obligation.
  intros h h' p v H Ha. split_and!; [|done..]. rewrite <- H. apply ld_time_local.
  eapply agree_sub; [exact Ha|set_solver].
Qed.

Lemma copyTime_copies : copies copyTime.
Proof.
  intros h [l|] v Hv; [|by exists None, h].
  cbn in Hv. destruct (h !! l) as [[t| | | | | | | |]|] eqn:E; try done. injection Hv as <-.
  destruct (time_DeepCopy_spec h l t E) as (l' & Hrun & Hl).
  exists (Some l'), (<[l' := CTime t]> h). split_and!; try done.
  - cbn. by rewrite (hm_bind _ _ _ _ _ Hrun).
  - by apply insert_fresh_sub.
  - cbn. by rewrite lookup_insert_eq.
  - cbn. set_solver.
Qed.

(** Histories own their conditions and their time stamps. *)
Definition ld_history (h : Heap) (x : historyStruct) : option UpgradeHistory :=
  cs ← ld (V := list UpgradeCondition) h (hs_Conditions x);
  t1 ← ld h (hs_StartTime x);
  t2 ← ld h (hs_CompleteTime x);
  t3 ← ld h (hs_WorkerStartTime x);
  t4 ← ld h (hs_WorkerCompleteTime x);
  Some (mkHistory (hs_Version x) (hs_PrecedingVersion x) (hs_Phase x) cs t1 t2 t3 t4).

Definition history_times (x : historyStruct) : gset loc :=
  ptr_cells (hs_StartTime x) ∪ ptr_cells (hs_CompleteTime x) ∪
  ptr_cells (hs_WorkerStartTime x) ∪ ptr_cells (hs_WorkerCompleteTime x).
Definition own_history (h : Heap) (x : historyStruct) : gset loc :=
  own (V := list UpgradeCondition) h (hs_Conditions x) ∪ history_times x.
Definition sep_history (h : Heap) (x : historyStruct) : Prop :=
  sep (V := list UpgradeCondition) h (hs_Conditions x).

Lemma ld_history_Some h x v :
  ld_history h x = Some v <->
  ld h (hs_Conditions x) = Some (hist_Conditions v) /\ ld h (hs_StartTime x) = Some (StartTime v) /\
  ld h (hs_CompleteTime x) = Some (CompleteTime v) /\
  ld h (hs_WorkerStartTime x) = Some (WorkerStartTime v) /\
  ld h (hs_WorkerCompleteTime x) = Some (WorkerCompleteTime v) /\
  hs_Version x = Version v /\ hs_PrecedingVersion x = PrecedingVersion v /\ hs_Phase x = Phase v.
Proof.
  unfold ld_history. split.
  - intros (? & H1 & (? & H2 & (? & H3 & (? & H4 & (? & H5 & [= <-])%bind_Some)%bind_Some)%bind_Some)%bind_Some)%bind_Some.
    by split_and!.
  - intros (-> & -> & -> & -> & -> & -> & -> & ->). by destruct v.
Qed.

#[export] Program Instance History_obj : Obj historyStruct UpgradeHistory :=
  {| ld := ld_history; own := own_history;
     shr h x := shr (V := list UpgradeCondition) h (hs_Conditions x); sep := sep_history |}.
Next Obligation.
  intros h x v (H1 & H2 & H3 & H4 & H5 & _)%ld_history_Some.
  apply obj_dom in H1, H2, H3, H4, H5. unfold own_history, history_times. cbn in *. set_solver.
Qed.
Next Obligation. intros h x v l (H1 & _)%ld_history_Some. by apply (obj_shr _ _ _ _ H1). Qed.
Next Obligation.
  intros h h' x v (H1 & H2 & H3 & H4 & H5 & H6)%ld_history_Some Ha.
  unfold own_history, history_times, sep_history in *.
  destruct (obj_local h h' _ _ H1) as (C1 & C2 & C3 & C4); [eapply agree_sub; [exact Ha|set_solver]|].
  eapply (ld_local h h') in H2, H3, H4, H5;
    [|eapply agree_sub; [exact Ha|cbn; set_solver]..].
  rewrite C2, C3. split_and!; [|done..]. by apply ld_history_Some.
Qed.


(** A copy in the course of a larger one that began in [h0]: what it makes is
    there whatever is allocated afterwards. *)
Definition copied {A V} {O : Obj A V} (h0 : Heap) (x : A) (v : V) (h' : Heap) (y : A) : Prop :=
  ld h' y = Some v /\ sep h' y /\ own h' y ## dom h0 /\ shr h' y = shr h0 x.

Lemma copied_sub {A V} {O : Obj A V} h0 (x : A) (v : V) h1 h2 y :
  copied h0 x v h1 y -> h1 ⊆ h2 -> copied h0 x v h2 y.
Proof.
  intros (H1 & H2 & H3 & H4) Hs. destruct (obj_sub h1 h2 y v H1 Hs) as (E1 & E2 & E3 & E4).
  unfold copied. rewrite E2, E3. auto.
Qed.

Lemma copies_within {A V} {O : Obj A V} (f : A -> HM A) h0 h (x : A) (v : V) :
  copies (V := V) f -> ld h0 x = Some v -> h0 ⊆ h ->
  exists y h', f x h = Ret (y, h') /\ h ⊆ h' /\ copied h0 x v h' y.
Proof.
  intros Hf Hx Hs. destruct (obj_sub h0 h x v Hx Hs) as (E1 & _ & E3 & _).
  destruct (Hf h x v E1) as (y & h' & H1 & H2 & H3 & H4 & H5 & H6).
  exists y, h'. split_and!; try done. unfold copied. split_and!; [done..| |congruence].
  apply subseteq_dom in Hs. set_solver.
Qed.

Lemma UpgradeHistory_copies : copies UpgradeHistory_DeepCopyInto.
Proof.
  intros h x v (H1 & H2 & H3 & H4 & H5 & H6 & H7 & H8)%ld_history_Some.
  destruct (copies_within (copySlice zeroConditionStruct UpgradeCondition_DeepCopyInto) h h _ _
    (copySlice_copies _ _ UpgradeCondition_copies) H1 ltac:(done)) as (cs & h1 & R1 & S1 & C1).
  destruct (copies_within _ h h1 _ _ copyTime_copies H2 ltac:(done)) as (t1 & h2 & R2 & S2 & C2).
  destruct (copies_within _ h h2 _ _ copyTime_copies H3 ltac:(by etrans)) as (t2 & h3 & R3 & S3 & C3).
  destruct (copies_within _ h h3 _ _ copyTime_copies H4 ltac:(by repeat (etrans; [eassumption|])))
    as (t3 & h4 & R4 & S4 & C4).
  destruct (copies_within _ h h4 _ _ copyTime_copies H5 ltac:(by repeat (etrans; [eassumption|])))
    as (t4 & h5 & R5 & S5 & C5).
  assert (h4 ⊆ h5 /\ h3 ⊆ h5 /\ h2 ⊆ h5 /\ h1 ⊆ h5) as (L4 & L3 & L2 & L1)
    by (split_and!; [done| | |]; repeat (etrans; [eassumption|]); done).
  apply (copied_sub _ _ _ _ h5) in C1 as (C11 & C12 & C13 & C14); [|done].
  apply (copied_sub _ _ _ _ h5) in C2 as (C21 & _ & C23 & _); [|done].
  apply (copied_sub _ _ _ _ h5) in C3 as (C31 & _ & C33 & _); [|done].
  apply (copied_sub _ _ _ _ h5) in C4 as (C41 & _ & C43 & _); [|done].
  destruct C5 as (C51 & _ & C53 & _).
  eexists _, h5. split_and!.
  - unfold UpgradeHistory_DeepCopyInto.
    rewrite (hm_bind _ _ _ _ _ R1), (hm_bind _ _ _ _ _ R2), (hm_bind _ _ _ _ _ R3),
      (hm_bind _ _ _ _ _ R4), (hm_bind _ _ _ _ _ R5). reflexivity.
  - by transitivity h1.
  - by apply ld_history_Some.
  - done.
  - cbn in C13, C23, C33, C43, C53 |- *. unfold own_history, history_times. cbn. set_solver.
  - done.
Qed.

Lemma Conditions_copies : copies (V := list UpgradeCondition) Conditions_DeepCopyInto.
Proof. exact (copyArrayOrEmpty_copies zeroConditionStruct _ UpgradeCondition_copies). Qed.
Lemma UpgradeHistories_copies : copies (V := list UpgradeHistory) UpgradeHistories_DeepCopyInto.
Proof. exact (copyArrayOrEmpty_copies zeroHistoryStruct _ UpgradeHistory_copies). Qed.

(** The status is its history. *)
#[export] Program Instance Status_obj : Obj statusStruct (list UpgradeHistory) :=
  {| ld h x := ld h (st_History x); own h x := own (V := list UpgradeHistory) h (st_History x);
     shr h x := shr (V := list UpgradeHistory) h (st_History x);
     sep h x := sep (V := list UpgradeHistory) h (st_History x) |}.
Next Obligation. intros h x v H. by apply (obj_dom _ _ _ H). Qed.
Next Obligation. intros h x v l H. by apply (obj_shr _ _ _ _ H). Qed.
Next Obligation. intros h h' x v H Ha. by apply (obj_local _ _ _ _ H). Qed.

Lemma UpgradeConfigStatus_copies : copies UpgradeConfigStatus_DeepCopyInto.
Proof.
  intros h x v H.
  destruct (copySlice_copies zeroHistoryStruct _ UpgradeHistory_copies h _ v H)
    as (y & h' & R & H1 & H2 & H3 & H4 & H5).
  exists (mkStatusStruct y), h'. split_and!; try done.
  unfold UpgradeConfigStatus_DeepCopyInto. by rewrite (hm_bind _ _ _ _ _ R).
Qed.

(** The resource: its metadata and the value that the rest of the library uses. *)
Record object := mkObject {
  obj_TypeMeta : TypeMeta;
  obj_ObjectMeta : OMValue;
  obj_Spec : UpgradeConfigSpec;
  obj_History : list UpgradeHistory;
}.
Definition object_config (o : object) : UpgradeConfig :=
  mkUpgradeConfig (omv_Name (obj_ObjectMeta o)) (omv_Namespace (obj_ObjectMeta o))
    (omv_ResourceVersion (obj_ObjectMeta o)) (obj_Spec o) (obj_History o).

Definition ld_config (h : Heap) (x : configStruct) : option object :=
  m ← om_value h (cf_ObjectMeta x);
  hs ← ld (V := list UpgradeHistory) h (cf_Status x);
  Some (mkObject (cf_TypeMeta x) m (cf_Spec x) hs).

Lemma ld_config_Some h x v :
  ld_config h x = Some v <->
  om_value h (cf_ObjectMeta x) = Some (obj_ObjectMeta v) /\
  ld h (cf_Status x) = Some (obj_History v) /\
  cf_TypeMeta x = obj_TypeMeta v /\ cf_Spec x = obj_Spec v.
Proof.
  unfold ld_config. split.
  - intros (? & H1 & (? & H2 & [= <-])%bind_Some)%bind_Some. by split_and!.
  - intros (-> & -> & -> & ->). by destruct v.
Qed.

(** No cell of the metadata belongs to the status. *)
#[export] Program Instance Config_obj : Obj configStruct object :=
  {| ld := ld_config;
     own h x := om_cells h (cf_ObjectMeta x) ∪ own (V := list UpgradeHistory) h (cf_Status x);
     shr h x := shr (V := list UpgradeHistory) h (cf_Status x);
     sep h x := om_cells h (cf_ObjectMeta x) ## own (V := list UpgradeHistory) h (cf_Status x) /\
                sep (V := list UpgradeHistory) h (cf_Status x) |}.
Next Obligation.
  intros h x v (H1 & H2 & _)%ld_config_Some. apply obj_dom in H2.
  destruct (om_local h h _ _ H1) as [H _]. set_solver.
Qed.
Next Obligation. intros h x v l (_ & H & _)%ld_config_Some. by apply (obj_shr _ _ _ _ H). Qed.
Next Obligation.
  intros h h' x v (H1 & H2 & H3 & H4)%ld_config_Some Ha.
  destruct (om_local h h' _ _ H1) as [_ [M1 M2]]; [intros l Hl; apply Ha; set_solver|].
  destruct (obj_local h h' _ _ H2) as (C1 & C2 & C3 & C4); [eapply agree_sub; [exact Ha|set_solver]|].
  rewrite M2, C2, C3. split_and!; [by apply ld_config_Some|done|done|naive_solver].
Qed.

Lemma UpgradeConfig_copies : copies UpgradeConfig_DeepCopyInto.
Proof.
  intros h x v (H1 & H2 & H3 & H4)%ld_config_Some.
  destruct (om_DeepCopyInto_spec h _ _ H1) as (m' & h1 & R1 & S1 & M1 & M2).
  destruct (copies_within _ h h1 _ _ UpgradeConfigStatus_copies H2 S1) as (st & h2 & R2 & S2 & C1 & C2 & C3 & C4).
  destruct (om_local h1 h2 m' _ M1) as [D M3].
  destruct M3 as [M3 M4]; [by apply sub_agree|].
  exists (mkConfigStruct _ (cf_TypeMeta x) m' (cf_Spec x) st), h2. split_and!.
  - unfold UpgradeConfig_DeepCopyInto. by rewrite (hm_bind _ _ _ _ _ R1), (hm_bind _ _ _ _ _ R2).
  - by transitivity h1.
  - by apply ld_config_Some.
  - cbn. rewrite M4.
    destruct (copies_within _ h1 h1 _ _ UpgradeConfigStatus_copies
      (proj1 (obj_sub h h1 _ _ H2 S1)) ltac:(done)) as (st' & h2' & R2' & _ & _ & _ & C3' & _).
    rewrite R2 in R2'. injection R2' as <- <-. cbn in *. set_solver.
  - cbn in *. rewrite M4. set_solver.
  - done.
Qed.

(** Lists of resources. *)
Record object_list := mkObjectList {
  ol_TypeMeta : TypeMeta; ol_ListMeta : LMValue; ol_Items : list object;
}.

Definition ld_list (h : Heap) (x : listStruct) : option object_list :=
  m ← lm_value h (ls_ListMeta x);
  os ← ld (V := list object) h (ls_Items x);
  Some (mkObjectList (ls_TypeMeta x) m os).

Lemma ld_list_Some h x v :
  ld_list h x = Some v <->
  lm_value h (ls_ListMeta x) = Some (ol_ListMeta v) /\
  ld h (ls_Items x) = Some (ol_Items v) /\ ls_TypeMeta x = ol_TypeMeta v.
Proof.
  unfold ld_list. split.
  - intros (? & H1 & (? & H2 & [= <-])%bind_Some)%bind_Some. by split_and!.
  - intros (-> & -> & ->). by destruct v.
Qed.

#[export] Program Instance List_obj : Obj listStruct object_list :=
  {| ld := ld_list;
     own h x := lm_cells h (ls_ListMeta x) ∪ own (V := list object) h (ls_Items x);
     shr h x := shr (V := list object) h (ls_Items x);
     sep h x := sep (V := list object) h (ls_Items x) |}.
Next Obligation.
  intros h x v (H1 & H2 & _)%ld_list_Some. apply obj_dom in H2.
  destruct (lm_local h h _ _ H1) as [H _]. set_solver.
Qed.
Next Obligation. intros h x v l (_ & H & _)%ld_list_Some. by apply (obj_shr _ _ _ _ H). Qed.
Next Obligation.
  intros h h' x v (H1 & H2 & H3)%ld_list_Some Ha.
  destruct (lm_local h h' _ _ H1) as [_ [M1 M2]]; [intros l Hl; apply Ha; set_solver|].
  destruct (obj_local h h' _ _ H2) as (C1 & C2 & C3 & C4); [eapply agree_sub; [exact Ha|set_solver]|].
  rewrite M2, C2, C3. split_and!; [by apply ld_list_Some|done..].
Qed.

Lemma UpgradeConfigList_copies : copies UpgradeConfigList_DeepCopyInto.
Proof.
  intros h x v (H1 & H2 & H3)%ld_list_Some.
  destruct (lm_DeepCopyInto_spec h _ _ H1) as (m' & h1 & R1 & S1 & M1 & M2).
  destruct (copies_within _ h h1 _ _ (copySlice_copies zeroConfigStruct _ UpgradeConfig_copies) H2 S1)
    as (os & h2 & R2 & S2 & C1 & C2 & C3 & C4).
  destruct (lm_local h1 h2 m' _ M1) as [D M3].
  destruct M3 as [M3 M4]; [by apply sub_agree|].
  exists (mkListStruct _ (ls_TypeMeta x) m' os), h2. split_and!.
  - unfold UpgradeConfigList_DeepCopyInto. by rewrite (hm_bind _ _ _ _ _ R1), (hm_bind _ _ _ _ _ R2).
  - by transitivity h1.
  - by apply ld_list_Some.
  - done.
  - cbn in *. rewrite M4. set_solver.
  - done.
Qed.

End Copies.

(** ** Pointers *)

Section Pointers.
Context {MT : MetaTypes} {A V : Type} {E : Elem A} {O : Obj A V}.

(** What a pointer stands for, owns and shares: the struct and its cell. *)
Definition ld_ptr (h : Heap) (p : loc) : option V :=
  vs ← ld (V := list V) h (Some (ptr_slice p)); head vs.
Definition own_ptr (h : Heap) (p : loc) : gset loc := own (V := list V) h (Some (ptr_slice p)).
Definition shr_ptr (h : Heap) (p : loc) : gset loc := shr (V := list V) h (Some (ptr_slice p)).
Definition sep_ptr (h : Heap) (p : loc) : Prop := sep (V := list V) h (Some (ptr_slice p)).

Lemma own_ptr_self h p : p ∈ own_ptr h p.
Proof. change (p ∈ own_slice h (Some (ptr_slice p))). apply elem_of_union_l. by apply elem_of_singleton. Qed.

Lemma ld_ptr_slice h p v : ld_ptr h p = Some v <-> ld h (Some (ptr_slice p)) = Some [v].
Proof.
  unfold ld_ptr. split; [|by intros ->].
  intros (vs & Hvs & Hv)%bind_Some. rewrite Hvs. f_equal.
  apply ld_slice_Some in Hvs as (xs & Hxs & HF%Forall2_length).
  cbn in Hxs. apply bind_Some in Hxs as (a & _ & Hxs). destruct (decide _); [|done].
  injection Hxs as <-. rewrite length_take in HF. cbn [ptr_slice s_len] in HF.
  destruct vs as [|? [|? ?]]; [done|cbn in Hv; congruence|cbn [length] in HF; lia].
Qed.

Lemma ptr_local h h' p v :
  ld_ptr h p = Some v -> agree h h' (own_ptr h p ∪ shr_ptr h p) ->
  ld_ptr h' p = Some v /\ own_ptr h' p = own_ptr h p /\ shr_ptr h' p = shr_ptr h p /\
  (sep_ptr h p -> sep_ptr h' p).
Proof.
  intros Hv%ld_ptr_slice Ha. destruct (obj_local h h' _ _ Hv Ha) as (H1 & H2 & H3 & H4).
  split_and!; [by apply ld_ptr_slice|done..].
Qed.

Lemma ptr_dom h p v : ld_ptr h p = Some v -> own_ptr h p ∪ shr_ptr h p ⊆ dom h.
Proof. intros Hv%ld_ptr_slice. by apply (obj_dom _ _ _ Hv). Qed.

Lemma copyPointer_spec (zero : A) (f : A -> HM A) h p v :
  copies (V := V) f -> ld_ptr h p = Some v ->
  exists q h', copyPointer zero f (Some p) h = Ret (Some q, h') /\ h ⊆ h' /\
    ld_ptr h' q = Some v /\ sep_ptr h' q /\ own_ptr h' q ## dom h /\ shr_ptr h' q = shr_ptr h p.
Proof.
  intros Hf Hv%ld_ptr_slice.
  destruct (copyArray_spec zero f h _ _ Hf Hv) as (q & h' & R & H1 & H2 & H3 & H4 & H5 & _).
  exists q, h'. split_and!; [|done|by apply ld_ptr_slice|done..].
  unfold copyPointer. by rewrite (hm_bind _ _ _ _ _ R).
Qed.

End Pointers.

(** A pointer to a resource, and to a list of them. *)
Notation ld_uc := (ld_ptr (A := configStruct) (V := object)).
Notation own_uc := (own_ptr (A := configStruct) (V := object)).
Notation shr_uc := (shr_ptr (A := configStruct) (V := object)).
Notation sep_uc := (sep_ptr (A := configStruct) (V := object)).

(** ** The deep copy of an UpgradeConfig *)

(** C14: [UpgradeConfig.DeepCopy] of a stored resource always returns a new pointer
    to an equal resource.  No existing cell is written; every array and every
    history time stamp of the copy is a new cell, none of them used twice, so
    that writing them does not reach the original, nor the writes to the
    original's own cells the copy.  What the two do share are the time stamps
    of the conditions, all of them: the hand-written
    [UpgradeCondition.DeepCopyInto] is an assignment. *)
Theorem deep_copy_separates {MT : MetaTypes} {ML : MetaLib} (h : Heap) (p : loc) (v : object) :
  ld_uc h p = Some v ->
  exists q h', UpgradeConfig_DeepCopy (Some p) h = Ret (Some q, h') /\
    ld_uc h' q = Some v /\ h ⊆ h' /\ sep_uc h' q /\
    own_uc h' q ## dom h /\ shr_uc h' q = shr_uc h p /\
    (forall l, l ∈ shr_uc h p -> exists t, h !! l = Some (CTime t)) /\
    (forall h2, (forall l, l ∉ own_uc h' q -> h2 !! l = h' !! l) -> ld_uc h2 p = Some v) /\
    (forall h2, (forall l, l ∉ own_uc h p \/ l ∈ shr_uc h p -> h2 !! l = h' !! l) ->
       ld_uc h2 q = Some v).
Proof.
  intros Hv. destruct (copyPointer_spec zeroConfigStruct _ h p v UpgradeConfig_copies Hv)
    as (q & h' & R & H1 & H2 & H3 & H4 & H5).
  exists q, h'. split_and!; try done; [|intros h2 Hw..].
  - intros l. apply ld_ptr_slice in Hv. by apply (obj_shr _ _ _ _ Hv).
  - eapply (ptr_local h); [done|]. intros l Hl. pose proof (ptr_dom h p v Hv l Hl) as Hd.
    rewrite Hw by set_solver. apply elem_of_dom in Hd as [c Hc]. rewrite Hc.
    by eapply lookup_weaken.
  - eapply (ptr_local h'); [done|]. intros l Hl. apply Hw.
    destruct (decide (l ∈ own_uc h p)); [|by left]. right.
    pose proof (ptr_dom h p v Hv). rewrite H5 in Hl. set_solver.
Qed.

(** ** A concrete library *)

(** Metadata with labels, of which the cell is the association list. *)
Record sampleObjectMeta := mkSampleMeta {
  sm_Name : string; sm_Namespace : string; sm_ResourceVersion : string; sm_Labels : option loc;
}.
#[export] Instance sample_types : MetaTypes :=
  {| TypeMeta := string; ObjectMeta := sampleObjectMeta; ListMeta := string;
     MetaCell := list (string * string) |}.

Definition sample_labels (h : Heap) (p : option loc) : option (list (string * string)) :=
  match p with
  | None => Some []
  | Some l => match h !! l with Some (CMeta c) => Some c | _ => None end
  end.
Definition sample_copy (m : sampleObjectMeta) : HM sampleObjectMeta :=
  fun h => match sm_Labels m with
           | None => Ret (m, h)
           | Some l =>
               match h !! l with
               | Some c => let l' := fresh (dom h) in
                   Ret (mkSampleMeta (sm_Name m) (sm_Namespace m) (sm_ResourceVersion m) (Some l'),
                        <[l' := c]> h)
               | None => Panic "nil dereference"
               end
           end.
Definition sample_time_copy (l : loc) : HM loc :=
  fun h => match h !! l with Some c => alloc c h | None => Panic "nil dereference" end.

Definition sample_om_value (h : Heap) (m : sampleObjectMeta)
    : option (string * string * string * list (string * string)) :=
  ls ← sample_labels h (sm_Labels m);
  Some (sm_Name m, sm_Namespace m, sm_ResourceVersion m, ls).

Lemma sample_om_local h h' m v :
  sample_om_value h m = Some v ->
  ptr_cells (sm_Labels m) ⊆ dom h /\
  ((forall l, l ∈ ptr_cells (sm_Labels m) -> h' !! l = h !! l) -> sample_om_value h' m = Some v).
Proof.
  unfold sample_om_value. intros (ls & Hls & Hv)%bind_Some. destruct m as [n ns rv [l|]]; cbn in *.
  - destruct (h !! l) as [c|] eqn:E; [|done]. split.
    + apply singleton_subseteq_l, elem_of_dom. eauto.
    + intros Ha. rewrite (Ha l), E by set_solver. by rewrite Hls.
  - injection Hls as <-. split; [set_solver|done].
Qed.

Lemma sample_copy_spec h m v :
  sample_om_value h m = Some v ->
  exists m' h', sample_copy m h = Ret (m', h') /\ h ⊆ h' /\
    sample_om_value h' m' = Some v /\ ptr_cells (sm_Labels m') ## dom h.
Proof.
  unfold sample_om_value, sample_copy. intros (ls & Hls & Hv)%bind_Some.
  destruct m as [n ns rv [l|]]; cbn in *.
  - destruct (h !! l) as [c|] eqn:E; [|done]. destruct c as [| | | | | | | |c]; try done.
    injection Hls as <-. eexists _, _. split_and!; [done| | |].
    + apply insert_fresh_sub, alloc_fresh.
    + cbn. by rewrite lookup_insert_eq.
    + cbn. pose proof (alloc_fresh h). set_solver.
  - injection Hls as <-. eexists _, _. split_and!; [done|done|by cbn|set_solver].
Qed.

#[export] Program Instance sample_lib : MetaLib :=
  {| zeroTypeMeta := ""; zeroObjectMeta := mkSampleMeta "" "" "" None; zeroListMeta := "";
     OMValue := string * string * string * list (string * string); LMValue := string;
     omv_Name v := v.1.1.1; omv_Namespace v := v.1.1.2; omv_ResourceVersion v := v.1.2;
     om_value := sample_om_value; lm_value h m := Some m;
     om_cells h m := ptr_cells (sm_Labels m); lm_cells h m := ∅;
     time_DeepCopy := sample_time_copy; om_DeepCopyInto := sample_copy;
     lm_DeepCopyInto m := mret m |}.
Next Obligation.
  intros h h' m v H. destruct (sample_om_local h h' m v H) as [H1 H2]. split; [done|]. auto.
Qed.
Next Obligation. intros h h' m v H. split; [set_solver|done]. Qed.
Next Obligation.
  intros h l t H. unfold sample_time_copy. rewrite H. eexists. split; [done|]. apply alloc_fresh.
Qed.
Next Obligation. apply sample_copy_spec. Qed.
Next Obligation. intros h m v H. exists m, h. split_and!; [done|done|done|set_solver]. Qed.

(** A stored resource with labels, one history and one condition. *)
Definition sample_config : Heap :=
  list_to_map [
    (1, CTime 10); (2, CTime 20); (3, CTime 30);
    (4, CConditions [mkConditionStruct "UpgradeCommenced" ConditionTrue (Some 1) (Some 2) None None "" ""]);
    (5, CHistories [mkHistoryStruct "4.2.0" "4.1.0" UpgradePhaseUpgrading
                      (Some (mkSlice 4 1)) (Some 3) None None None]);
    (6, CMeta [("app", "muo")]);
    (7, CConfigs [mkConfigStruct _ "UpgradeConfig" (mkSampleMeta "uc" "ns" "1" (Some 6)) zeroSpec
                    (mkStatusStruct (Some (mkSlice 5 1)))])]%positive%Z.
Definition sample_object : object :=
  mkObject "UpgradeConfig" ("uc", "ns", "1", [("app", "muo")]) zeroSpec
    [mkHistory "4.2.0" "4.1.0" UpgradePhaseUpgrading
       [mkCondition "UpgradeCommenced" ConditionTrue (Some 10%Z) (Some 20%Z) None None "" ""]
       (Some 30%Z) None None None].

(** The copy of the sample, and what a write through a time stamp of a condition
    of the copy does: the original changes. *)
Example deep_copy_separates_witness :
  ld_uc sample_config 7%positive = Some sample_object /\
  (exists q h', UpgradeConfig_DeepCopy (Some 7%positive) sample_config = Ret (Some q, h') /\
    ld_uc h' q = Some sample_object /\ q <> 7%positive) /\
  (exists q h', UpgradeConfig_DeepCopy (Some 7%positive) sample_config = Ret (Some q, h') /\
    1%positive ∈ shr_uc h' q /\
    obj_History <$> ld_uc (<[1%positive := CTime 99%Z]> h') 7%positive <>
      Some (obj_History sample_object)).
Proof.
  assert (H : ld_uc sample_config 7%positive = Some sample_object) by (vm_compute; reflexivity).
  destruct (deep_copy_separates sample_config 7%positive sample_object H)
    as (q & h' & R & H1 & H2 & _ & H3 & H4 & _).
  split; [exact H|]. split.
  - exists q, h'. split; [exact R|]. split; [exact H1|]. intros ->.
    apply (H3 7%positive); [|apply (bool_decide_unpack _); vm_compute; exact I].
    apply own_ptr_self.
  - exists q, h'. split; [exact R|]. split.
    + rewrite H4. apply (bool_decide_unpack _). vm_compute. exact I.
    + vm_compute in R. injection R as <- <-. apply (bool_decide_unpack _). vm_compute. exact I.
Defined.
