(* ===== verification/Aliasing.v ===== *)
(** * Updates through pointers (api/v1alpha1, pkg/upgradesteps)

    [GetHistory] and [GetCondition] return a pointer to a copy of a struct, whose
    slices still refer to the arrays of the resource; [SetCondition] and
    [SetHistory] write into these arrays when they find an entry, and make new
    ones when they do not.  This file has these operations and the step runner
    over the heap of [DeepCopy], and shows that they do what the operations on
    values do ([Api], [UpgradeSteps]), which all other theorems are about, provided that
    no cell of the resource is owned twice, and that a resource that was copied
    before is never touched.

    - [prog_rel]: two programs make the same requests and end in related
      results; [rel_exec] transfers the executions.
    - [step]: an object after writes to cells that it owns; the lemmas on it lift
      a step from a condition to the conditions, the history, the histories, the
      resource and the pointer.
    - [Inv]: a pointer stands for a value, and its cells are apart from a part
      of the heap that must not change. *)

From S2P Require Import Prelude Api Effects UpgradeSteps DeepCopy.
From stdpp Require Import base gmap strings list.
From Stdlib Require Import ZArith Lia.

(** ** Related programs *)

Inductive prog_rel {E : Type -> Type} {A B} (R : A -> B -> Prop) : prog E A -> prog E B -> Prop :=
| rel_ret a b : R a b -> prog_rel R (Ret a) (Ret b)
| rel_panic s t : prog_rel R (Panic s) (Panic t)
| rel_vis X (e : E X) k k' : (forall x, prog_rel R (k x) (k' x)) -> prog_rel R (Vis e k) (Vis e k').

Lemma rel_mono {E A B} (R R' : A -> B -> Prop) (p : prog E A) (q : prog E B) :
  prog_rel R p q -> (forall a b, R a b -> R' a b) -> prog_rel R' p q.
Proof. intros H HR. induction H; constructor; auto. Qed.

Lemma rel_bind {E A B A' B'} (R : A -> B -> Prop) (R' : A' -> B' -> Prop) (p : prog E A) (q : prog E B)
    (f : A -> prog E A') (g : B -> prog E B') :
  prog_rel R p q -> (forall a b, R a b -> prog_rel R' (f a) (g b)) ->
  prog_rel R' (prog_bind f p) (prog_bind g q).
Proof. intros H Hf. induction H; cbn; [by apply Hf|constructor..]; auto. Qed.

Lemma rel_map_r {E A B B'} (R : A -> B -> Prop) (R' : A -> B' -> Prop) (p : prog E A) (q : prog E B)
    (g : B -> B') :
  prog_rel R p q -> (forall a b, R a b -> R' a (g b)) ->
  prog_rel R' p (prog_bind (fun b => Ret (g b)) q).
Proof. intros H Hg. induction H; cbn; constructor; auto. Qed.

Lemma rel_flip {E A B} (R : A -> B -> Prop) (p : prog E A) (q : prog E B) :
  prog_rel R p q -> prog_rel (fun b a => R a b) q p.
Proof. intros H. induction H; by constructor. Qed.

(** The executions of related programs. *)
Definition outcome_rel {A B} (R : A -> B -> Prop) (o : outcome A) (o' : outcome B) : Prop :=
  match o, o' with Done a, Done b => R a b | Crash _, Crash _ => True | _, _ => False end.

Lemma rel_exec {E A B} (R : A -> B -> Prop) (p : prog E A) (q : prog E B) tr o :
  prog_rel R p q -> exec p tr o -> exists o', exec q tr o' /\ outcome_rel R o o'.
Proof.
  intros H. revert tr o. induction H as [a b Hab|s t|X e k k' _ IH]; intros tr o; cbn.
  - intros [-> ->]. by exists (Done b).
  - intros [-> ->]. by exists (Crash t).
  - intros (x & tr' & -> & Hex). destruct (IH x tr' o Hex) as (o' & ? & ?). exists o'. eauto 6.
Qed.

Lemma rel_refl {E A} (p : prog E A) : prog_rel eq p p.
Proof. induction p; by constructor. Qed.

(** ** Operations on conditions and histories *)

Section Ops.
Context {MT : MetaTypes} {ML : MetaLib}.

(** A nil dereference. *)
Definition hderef {A} (o : option A) : HM A :=
  match o with Some a => mret a | None => fun _ => Panic "nil dereference" end.

(** The elements that a [range] loop visits. *)
Definition range {A} {E : Elem A} (s : option (slice A)) : HM (list A) :=
  fun h => match elems h s with Some xs => Ret (xs, h) | None => Panic "nil dereference" end.

(** The pointer to the loop variable, a struct of its own, or nil. *)
Definition Conditions_GetCondition (conditions : option (slice conditionStruct)) (t : string)
    : HM (option conditionStruct) :=
  cs ← range conditions;
  mret (snd <$> list_find (fun condition => cs_Type condition = t) cs).

Definition UpgradeHistories_GetHistory (histories : option (slice historyStruct)) (version : string)
    : HM (option historyStruct) :=
  hs ← range histories;
  mret (snd <$> list_find (fun history => hs_Version history = version) hs).

Definition with_LastTransitionTime (p : option loc) (c : conditionStruct) : conditionStruct :=
  mkConditionStruct (cs_Type c) (cs_Status c) (cs_LastProbeTime c) p (cs_StartTime c)
    (cs_CompleteTime c) (cs_Reason c) (cs_Message c).
Definition with_LastProbeTime (p : option loc) (c : conditionStruct) : conditionStruct :=
  mkConditionStruct (cs_Type c) (cs_Status c) p (cs_LastTransitionTime c) (cs_StartTime c)
    (cs_CompleteTime c) (cs_Reason c) (cs_Message c).

(** [append([]T{x}, s...)]: a new array. *)
Definition prepend {A} {E : Elem A} (x : A) (s : option (slice A)) : HM (option (slice A)) :=
  xs ← range s;
  l ← alloc (arr (x :: xs));
  mret (Some (mkSlice l (S (length xs)))).

(** [SetCondition] after its two readings of the clock: the slice variable and
    the result. *)
Definition storeCondition (newCond : conditionStruct) (conditions : option (slice conditionStruct))
    : HM (option (slice conditionStruct) * bool) :=
  cs ← range conditions;
  match list_find (fun condition => cs_Type condition = cs_Type newCond) cs, conditions with
  | Some (i, condition), Some sl =>
      let newCond' :=
        if bool_decide (cs_Status condition = cs_Status newCond)
        then with_LastTransitionTime (cs_LastTransitionTime condition) newCond else newCond in
      let changed :=
        bool_decide (cs_Status condition <> cs_Status newCond) ||
        bool_decide (cs_Reason condition <> cs_Reason newCond) ||
        bool_decide (cs_Message condition <> cs_Message newCond) in
      _ ← writeElem (s_arr sl) i newCond';
      mret (Some sl, changed)
  | _, _ => conditions' ← prepend newCond conditions; mret (conditions', true)
  end.

Definition Conditions_SetCondition (newCond : conditionStruct) (conditions : option (slice conditionStruct))
    : HM (option (slice conditionStruct) * bool) :=
  t1 ← lift now;
  transition ← alloc (CTime t1);
  t2 ← lift now;
  probe ← alloc (CTime t2);
  storeCondition (with_LastProbeTime (Some probe) (with_LastTransitionTime (Some transition) newCond))
    conditions.

Definition UpgradeHistories_SetHistory (history : historyStruct) (histories : option (slice historyStruct))
    : HM (option (slice historyStruct)) :=
  hs ← range histories;
  match list_find (fun h => hs_Version h = hs_Version history) hs, histories with
  | Some (i, _), Some sl => _ ← writeElem (s_arr sl) i history; mret (Some sl)
  | _, _ => prepend history histories
  end.

Definition with_Conditions (cs : option (slice conditionStruct)) (x : historyStruct) : historyStruct :=
  mkHistoryStruct (hs_Version x) (hs_PrecedingVersion x) (hs_Phase x) cs (hs_StartTime x)
    (hs_CompleteTime x) (hs_WorkerStartTime x) (hs_WorkerCompleteTime x).
Definition with_History (hs : option (slice historyStruct)) (x : configStruct) : configStruct :=
  mkConfigStruct _ (cf_TypeMeta x) (cf_ObjectMeta x) (cf_Spec x) (mkStatusStruct hs).

(** ** The step runner (pkg/upgradesteps/runner.go) *)

(** [upgradeConfig.Status.History.GetHistory(upgradeConfig.Spec.Desired.Version)]. *)
Definition historyOf (upgradeConfig : loc) : HM (option historyStruct) :=
  uc ← readElem (A := configStruct) upgradeConfig 0;
  UpgradeHistories_GetHistory (st_History (cf_Status uc)) (desired_Version (Desired (cf_Spec uc))).

(** [upgradeConfig.Status.History.SetHistory( *history)]. *)
Definition storeHistory (history : historyStruct) (upgradeConfig : loc) : HM unit :=
  uc ← readElem (A := configStruct) upgradeConfig 0;
  hs ← UpgradeHistories_SetHistory history (st_History (cf_Status uc));
  writeElem upgradeConfig 0 (with_History hs uc).

(** [history.Conditions.SetCondition(c)] and [SetHistory( *history)]. *)
Definition recordCondition (c : conditionStruct) (history : historyStruct) (upgradeConfig : loc) : HM unit :=
  r ← Conditions_SetCondition c (hs_Conditions history);
  storeHistory (with_Conditions r.1 history) upgradeConfig.

Definition setConditionStartAt (step : actionStep) (upgradeConfig : loc) : HM unit :=
  o ← historyOf upgradeConfig;
  history ← hderef o;
  c ← Conditions_GetCondition (hs_Conditions history) (step_String step);
  match c with
  | None =>
      t ← lift now;
      start ← alloc (CTime t);
      recordCondition
        (mkConditionStruct (step_String step) ConditionFalse None None (Some start) None
           (step_String step +:+ " not done") (step_String step +:+ " has started"))
        history upgradeConfig
  | Some _ => mret tt
  end.

Definition setConditionInProgressAt (step : actionStep) (message : string) (upgradeConfig : loc) : HM unit :=
  o ← historyOf upgradeConfig;
  history ← hderef o;
  c ← Conditions_GetCondition (hs_Conditions history) (step_String step);
  match c with
  | Some c =>
      recordCondition
        (mkConditionStruct (cs_Type c) ConditionFalse (cs_LastProbeTime c) (cs_LastTransitionTime c)
           (cs_StartTime c) None (cs_Reason c) message)
        history upgradeConfig
  | None => mret tt
  end.

Definition setConditionCompleteAt (step : actionStep) (upgradeConfig : loc) : HM unit :=
  o ← historyOf upgradeConfig;
  history ← hderef o;
  c ← Conditions_GetCondition (hs_Conditions history) (step_String step);
  match c with
  | Some c =>
      complete ← match cs_CompleteTime c with
                 | None => t ← lift now; l ← alloc (CTime t); mret (Some l)
                 | Some l => mret (Some l)
                 end;
      recordCondition
        (mkConditionStruct (cs_Type c) ConditionTrue (cs_LastProbeTime c) (cs_LastTransitionTime c)
           (cs_StartTime c) complete (step_String step +:+ " done")
           (step_String step +:+ " is completed"))
        history upgradeConfig
  | None => mret tt
  end.

(** What a step reads of the resource. *)
Definition view (upgradeConfig : loc) : HM UpgradeConfig :=
  fun h => match ld_uc h upgradeConfig with
           | Some o => Ret (object_config o, h)
           | None => Panic "nil dereference"
           end.

(** [Run]: the phase and the error. *)
Fixpoint RunAt (upgradeConfig : loc) (steps : list actionStep) : HM (UpgradePhase * option error) :=
  match steps with
  | [] => mret (UpgradePhaseUpgraded, None)
  | step :: rest =>
      _ ← setConditionStartAt step upgradeConfig;
      uc ← view upgradeConfig;
      r ← lift (step_run step uc);
      match r with
      | Err err =>
          _ ← setConditionInProgressAt step (error_msg err) upgradeConfig;
          mret (UpgradePhaseUpgrading, Some err)
      | Ok false =>
          _ ← setConditionInProgressAt step (step_String step +:+ " still in progress") upgradeConfig;
          mret (UpgradePhaseUpgrading, None)
      | Ok true =>
          _ ← setConditionCompleteAt step upgradeConfig;
          RunAt upgradeConfig rest
      end
  end.

End Ops.

(** ** Steps of an object *)

(** [x] in [h] became [x'] in [h'], which stands for [v']: only cells that [x]
    owned were written, no time stamp, and [x'] owns cells of [x] and new ones. *)
Record step {MT : MetaTypes} {A V} {O : Obj A V} (h h' : Heap) (x x' : A) (v' : V) : Prop := {
  step_ld : ld h' x' = Some v';
  step_sep : sep h' x';
  step_own l : l ∈ own h' x' -> l ∈ dom h -> l ∈ own h x;
  step_frame l : l ∈ dom h -> l ∉ own h x -> h' !! l = h !! l;
  step_time l t : h !! l = Some (CTime t) -> h' !! l = Some (CTime t);
}.

Section Steps.
Context {MT : MetaTypes} {ML : MetaLib}.
Implicit Types (h : Heap) (l : loc).

(** Allocation before a step. *)
Lemma step_grow {A V} {O : Obj A V} h h1 h2 (x x' : A) (v v' : V) :
  ld h x = Some v -> h ⊆ h1 -> step h1 h2 x x' v' -> step h h2 x x' v'.
Proof.
  intros Hx Hs [H1 H2 H3 H4 H5]. destruct (obj_sub h h1 x v Hx Hs) as (_ & E & _).
  rewrite E in *. pose proof (subseteq_dom _ _ Hs) as Hd. split; [done|done| | |].
  - intros l Hl Hh. apply H3; [done|]. by apply Hd.
  - intros l Hl Hn. rewrite H4 by (auto || by apply Hd). apply elem_of_dom in Hl as [c Hc].
    rewrite Hc. by eapply lookup_weaken.
  - intros l t Ht. apply H5. by eapply lookup_weaken.
Qed.

(** An object that allocation made, next to one that does not change. *)
Lemma step_refl {A V} {O : Obj A V} h (x : A) (v : V) : ld h x = Some v -> sep h x -> step h h x x v.
Proof. intros H1 H2. by split. Qed.

Lemma ld_slice_elem {A V} {E : Elem A} {O : Obj A V} h (s : option (slice A)) (xs : list A) (vs : list V) i x :
  elems h s = Some xs -> ld h s = Some vs -> xs !! i = Some x ->
  exists v, vs !! i = Some v /\ ld h x = Some v.
Proof.
  intros Hxs (xs' & Hxs' & HF)%ld_slice_Some Hi. rewrite Hxs in Hxs'. injection Hxs' as <-.
  destruct (Forall2_lookup_l _ _ _ _ _ HF Hi) as (v & ? & ?). eauto.
Qed.

(** A step of the element [i] of a slice, from [x] to [y], which is then written
    back to its place. *)
Section SliceWrite.
Context {A V : Type} {E : Elem A} {O : Obj A V}.
Context (h h1 : Heap) (l : loc) (n : nat) (xs : list A) (vs : list V) (i : nat) (x y : A) (v' : V).
Hypothesis Hxs : elems h (Some (mkSlice l n)) = Some xs.
Hypothesis HF : Forall2 (fun x v => ld h x = Some v) xs vs.
Hypothesis Hsep : sep_slice h (Some (mkSlice l n)).
Hypothesis Hi : xs !! i = Some x.
Hypothesis Hstep : step h h1 x y v'.

Lemma sw_array :
  exists a, h !! l = Some (arr a) /\ h1 !! l = Some (arr a) /\ n <= length a /\ take n a = xs /\ i < n.
Proof.
  pose proof Hxs as H. cbn in H. apply bind_Some in H as (a & Ha%the_array_Some & H).
  destruct (decide (n <= length a)) as [Hn|]; [|done]. injection H as Hxa.
  exists a. split_and!; [done| |done|done|].
  - destruct Hsep as [S1 _]. rewrite (elements_Some _ _ _ Hxs) in S1.
    rewrite (step_frame _ _ _ _ _ Hstep); [done|apply elem_of_dom; eauto|by apply (S1 i x Hi)].
  - apply lookup_lt_Some in Hi. rewrite <- Hxa, length_take in Hi. lia.
Qed.

Lemma sw_apart (z : A) (w : V) l' :
  ld h z = Some w -> l' ∈ shr h z -> l' <> l.
Proof.
  intros Hz Hl ->. destruct (obj_shr _ _ _ _ Hz Hl) as [t Ht].
  destruct sw_array as (a & Ha & _). rewrite Ha in Ht. injection Ht as Ht.
  by apply arr_no_time in Ht.
Qed.

Definition sw_heap : Heap := default h1 (a ← the_array h1 l; Some (<[l := arr (<[i := y]> a)]> h1)).

Lemma sw_heap_eq a : h1 !! l = Some (arr a) -> sw_heap = <[l := arr (<[i := y]> a)]> h1.
Proof. intros Ha%the_array_Some. unfold sw_heap. by rewrite Ha. Qed.

Lemma sw_heap_other l' : l' <> l -> sw_heap !! l' = h1 !! l'.
Proof.
  intros Hne. destruct sw_array as (a & _ & Ha & _).
  rewrite (sw_heap_eq a Ha). by rewrite lookup_insert_ne.
Qed.

Lemma sw_new : ld sw_heap y = Some v' /\ own sw_heap y = own h1 y /\ sep sw_heap y.
Proof.
  destruct sw_array as (a & _ & Ha & _). destruct Hstep as [Y1 Y2 Y3 _ _].
  destruct Hsep as [S1 _]. rewrite (elements_Some _ _ _ Hxs) in S1. destruct (S1 i x Hi) as [_ Hlx].
  destruct (obj_local h1 sw_heap y v' Y1) as (Z1 & Z2 & _ & Z4); [|auto].
  intros l' Hl'. apply sw_heap_other. intros ->. apply elem_of_union in Hl' as [Hl'|Hl'].
  - apply Hlx, Y3; [done|]. apply (elems_dom _ _ _ Hxs).
  - destruct (obj_shr _ _ _ _ Y1 Hl') as [t Ht]. rewrite Ha in Ht. injection Ht as Ht.
    by apply arr_no_time in Ht.
Qed.

(** The other elements are as they were. *)
Lemma sw_other j z w :
  j <> i -> xs !! j = Some z -> ld h z = Some w ->
  ld sw_heap z = Some w /\ own sw_heap z = own h z /\ (sep h z -> sep sw_heap z).
Proof.
  intros Hj Hz Hw. destruct Hsep as [S1 S2]. rewrite (elements_Some _ _ _ Hxs) in S1, S2.
  destruct (obj_local h sw_heap z w Hw) as (W1 & W2 & _ & W4); [|done].
  intros l' Hl'. pose proof (obj_dom _ _ _ Hw l' Hl') as Hd.
  apply elem_of_union in Hl' as [Hl'|Hl'].
  - rewrite sw_heap_other by (intros ->; by apply (proj2 (S1 j z Hz))).
    apply (step_frame _ _ _ _ _ Hstep); [done|].
    pose proof (S2 i j x z (not_eq_sym Hj) Hi Hz). set_solver.
  - rewrite sw_heap_other by by eapply sw_apart.
    destruct (obj_shr _ _ _ _ Hw Hl') as [t Ht]. by rewrite Ht, (step_time _ _ _ _ _ Hstep l' t Ht).
Qed.

Lemma sw_elems : elems sw_heap (Some (mkSlice l n)) = Some (<[i := y]> xs).
Proof.
  destruct sw_array as (a & _ & Ha & Hn & Hxa & Hin). cbn. unfold the_array.
  rewrite (sw_heap_eq a Ha), lookup_insert_eq. cbn. rewrite get_arr_arr. cbn.
  rewrite length_insert, decide_True by done. by rewrite take_insert_lt, Hxa by done.
Qed.

Lemma sw_lookup j z :
  <[i := y]> xs !! j = Some z ->
  (j = i /\ z = y) \/
  (j <> i /\ xs !! j = Some z /\ exists w, vs !! j = Some w /\ ld sw_heap z = Some w /\
     own sw_heap z = own h z /\ own h z ⊆ dom h /\ (sep h z -> sep sw_heap z)).
Proof.
  intros Hz. destruct (decide (j = i)) as [->|Hj].
  - rewrite list_lookup_insert_eq in Hz by (by apply lookup_lt_Some in Hi). left. naive_solver.
  - rewrite list_lookup_insert_ne in Hz by done. right.
    destruct (Forall2_lookup_l _ _ _ _ _ HF Hz) as (w & Hw & Hld).
    destruct (sw_other j z w Hj Hz Hld) as (W1 & W2 & W3).
    split_and!; [done..|]. exists w. split_and!; try done.
    pose proof (obj_dom _ _ _ Hld). set_solver.
Qed.

Lemma sw_ld : ld sw_heap (Some (mkSlice l n)) = Some (<[i := v']> vs).
Proof.
  apply ld_slice_Some. exists (<[i := y]> xs). split; [exact sw_elems|].
  apply Forall2_same_length_lookup_2.
  { rewrite !length_insert. by eapply Forall2_length. }
  intros j z w Hz Hw. destruct (sw_lookup j z Hz) as [[-> ->]|(Hj & _ & w' & Hw' & Hld & _)].
  - rewrite list_lookup_insert_eq in Hw; [injection Hw as <-; apply sw_new|].
    rewrite <- (Forall2_length _ _ _ HF). by apply lookup_lt_Some in Hi.
  - rewrite list_lookup_insert_ne in Hw by done. congruence.
Qed.

Lemma sw_sep : sep_slice sw_heap (Some (mkSlice l n)).
Proof.
  destruct Hsep as [S1 S2]. unfold sep_slice.
  rewrite (elements_Some _ _ _ Hxs) in S1, S2. rewrite (elements_Some _ _ _ sw_elems).
  destruct sw_new as (Y1 & Y2 & Y3). destruct Hstep as [_ _ YO _ _]. split.
  - intros j z Hz. destruct (sw_lookup j z Hz) as [[-> ->]|(Hj & Hz' & w & _ & _ & W2 & _ & W4)].
    + rewrite Y2. split; [done|]. intros Hl. apply (proj2 (S1 i x Hi)), YO; [done|].
      apply (elems_dom _ _ _ Hxs).
    + rewrite W2. destruct (S1 j z Hz'). auto.
  - intros j k z w Hjk Hz Hw.
    destruct (sw_lookup j z Hz) as [[-> ->]|(Hj & Hz' & _ & _ & _ & W2 & W3 & _)];
      destruct (sw_lookup k w Hw) as [[-> ->]|(Hk & Hw' & _ & _ & _ & X2 & X3 & _)]; [done|..].
    + rewrite Y2, X2. intros l' H1 H2. apply (S2 i k x w Hjk Hi Hw' l'); auto.
    + rewrite Y2, W2. intros l' H1 H2. apply (S2 j i z x Hjk Hz' Hi l'); auto.
    + rewrite W2, X2. exact (S2 j k z w Hjk Hz' Hw').
Qed.

Lemma sw_own l' :
  l' ∈ own_slice sw_heap (Some (mkSlice l n)) -> l' ∈ dom h -> l' ∈ own_slice h (Some (mkSlice l n)).
Proof.
  unfold own_slice. rewrite (elements_Some _ _ _ sw_elems), (elements_Some _ _ _ Hxs). cbn [s_arr].
  rewrite !elem_of_union, !elem_of_own, !elem_of_singleton.
  intros [?|(z & [j Hz]%list_elem_of_lookup & Hl')] Hd; [by left|]. right.
  destruct (sw_lookup j z Hz) as [[-> ->]|(Hj & Hz' & _ & _ & _ & W2 & _)].
  - exists x. split; [by eapply list_elem_of_lookup_2|].
    apply (step_own _ _ _ _ _ Hstep); [|done]. by rewrite <- (proj1 (proj2 sw_new)).
  - exists z. split; [by eapply list_elem_of_lookup_2|]. by rewrite <- W2.
Qed.

Lemma sw_step :
  writeElem l i y h1 = Ret (tt, sw_heap) /\
  step h sw_heap (Some (mkSlice l n)) (Some (mkSlice l n)) (<[i := v']> vs).
Proof.
  destruct sw_array as (a & Ha0 & Ha & Hn & _ & Hin). split.
  { rewrite (sw_heap_eq a Ha). apply writeElem_spec; [done|lia]. }
  split; [exact sw_ld|exact sw_sep|exact sw_own| |].
  - cbn [own Slice_obj]. unfold own_slice. rewrite (elements_Some _ _ _ Hxs). cbn [s_arr].
    intros l'. rewrite elem_of_union, elem_of_own, elem_of_singleton. intros Hd Hl'.
    rewrite sw_heap_other by naive_solver. apply (step_frame _ _ _ _ _ Hstep); [done|].
    intros Hx. apply Hl'. right. exists x. split; [by eapply list_elem_of_lookup_2|done].
  - intros l' t Ht. rewrite sw_heap_other; [by apply (step_time _ _ _ _ _ Hstep)|].
    intros ->. rewrite Ha0 in Ht. injection Ht as Ht. by apply arr_no_time in Ht.
Qed.

End SliceWrite.

Lemma slice_write_step {A V} {E : Elem A} {O : Obj A V} h h1 (sl : slice A) xs vs i x y (v' : V) :
  elems h (Some sl) = Some xs -> ld h (Some sl) = Some vs -> sep h (Some sl) ->
  xs !! i = Some x -> step h h1 x y v' ->
  exists h2, writeElem (s_arr sl) i y h1 = Ret (tt, h2) /\
    step h h2 (Some sl) (Some sl) (<[i := v']> vs).
Proof.
  intros Hxs (xs' & Hxs' & HF)%ld_slice_Some Hsep Hi Hs. destruct sl as [l n].
  rewrite Hxs in Hxs'. injection Hxs' as <-.
  destruct (sw_step h h1 l n xs vs i x y v' Hxs HF Hsep Hi Hs). eauto.
Qed.


(** A step inside of an element, which is not written itself. *)
Lemma slice_inner_step {A V} {E : Elem A} {O : Obj A V} h h1 (sl : slice A) xs vs i x (v' : V) :
  elems h (Some sl) = Some xs -> ld h (Some sl) = Some vs -> sep h (Some sl) ->
  xs !! i = Some x -> step h h1 x x v' ->
  step h h1 (Some sl) (Some sl) (<[i := v']> vs).
Proof.
  intros Hxs (xs' & Hxs' & HF)%ld_slice_Some Hsep Hi Hs. destruct sl as [l n].
  rewrite Hxs in Hxs'. injection Hxs' as <-.
  destruct (sw_array h h1 l n xs i x x v' Hxs Hsep Hi Hs) as (a & _ & Ha & _ & Hxa & Hin).
  destruct (sw_step h h1 l n xs vs i x x v' Hxs HF Hsep Hi Hs) as [_ St].
  rewrite (sw_heap_eq h1 l i x a Ha), list_insert_id, insert_id in St; [done|done|].
  rewrite <- Hxa in Hi. by apply lookup_take_Some in Hi as [? _].
Qed.

(** The lifts to a history, to the resource, and to the pointer to it. *)
Lemma history_step h h1 (x : historyStruct) (v : UpgradeHistory) s' cs' :
  ld h x = Some v -> step h h1 (hs_Conditions x) s' cs' ->
  step h h1 x (with_Conditions s' x) (set_Conditions cs' v).
Proof.
  intros Hv [H1 H2 H3 H4 H5].
  pose proof Hv as (V1 & V2 & V3 & V4 & V5 & V6 & V7 & V8)%ld_history_Some.
  assert (Ht : forall p t, ld_time h p = Some t -> ld_time h1 p = Some t).
  { intros [q|] t; [|done]. cbn. destruct (h !! q) as [[u| | | | | | | |]|] eqn:E; try done.
    by rewrite (H5 q u E). }
  cbn in V2, V3, V4, V5. split.
  - apply ld_history_Some. cbn. split_and!; try done; by apply Ht.
  - exact H2.
  - intros l. cbn. unfold own_history. rewrite !elem_of_union. cbn [with_Conditions hs_Conditions].
    intros [Hl|Hl] Hd; [left; by apply H3|by right].
  - intros l Hd. cbn. unfold own_history. intros Hn. apply H4; [done|]. set_solver.
  - done.
Qed.

Definition object_with_History (hs : list UpgradeHistory) (o : object) : object :=
  mkObject (obj_TypeMeta o) (obj_ObjectMeta o) (obj_Spec o) hs.

Lemma config_step h h1 (x : configStruct) (o : object) s' hs' :
  ld h x = Some o -> sep h x -> step h h1 (st_History (cf_Status x)) s' hs' ->
  step h h1 x (with_History s' x) (object_with_History hs' o).
Proof.
  intros (V1 & V2 & V3 & V4)%ld_config_Some [S1 S2] [H1 H2 H3 H4 H5].
  destruct (om_local h h1 _ _ V1) as [Hd [M1 M2]].
  { intros l Hl. apply H4; [by apply (proj1 (om_local h h _ _ V1))|]. intros Ho. by apply (S1 l). }
  split.
  - by apply ld_config_Some.
  - cbn [sep Config_obj with_History cf_ObjectMeta cf_Status]. split; [|exact H2]. rewrite M2.
    intros l Hl Ho. apply (S1 l Hl), H3; [exact Ho|]. by apply Hd.
  - intros l. cbn [own Config_obj with_History cf_ObjectMeta cf_Status]. rewrite !elem_of_union, M2.
    intros [Hl|Hl] Hl'; [by left|right; by apply H3].
  - intros l Hl Hn. apply H4; [done|]. intros Ho. apply Hn. cbn [own Config_obj]. set_solver.
  - done.
Qed.

Lemma read_ptr {A V} {E : Elem A} {O : Obj A V} h p (v : V) :
  ld_ptr h p = Some v -> sep_ptr h p ->
  exists x : A, readElem p 0 h = Ret (x, h) /\ elems h (Some (ptr_slice p)) = Some [x] /\
    ld h x = Some v /\ sep h x /\ p ∉ own h x.
Proof.
  intros (xs & Hxs & HF)%ld_ptr_slice%ld_slice_Some Hsep.
  apply Forall2_cons_inv_r in HF as (x & xs' & Hx & HF & ->).
  apply Forall2_nil_inv_r in HF as ->. exists x.
  change (sep_slice h (Some (ptr_slice p))) in Hsep. destruct Hsep as [S1 _].
  rewrite (elements_Some _ _ _ Hxs) in S1. split_and!; [|done|done|by apply (S1 0 x)..].
  cbn in Hxs. apply bind_Some in Hxs as (a & Ha & Hxs). destruct (decide _); [|done].
  injection Hxs as Hxs. unfold readElem. rewrite Ha. destruct a; [done|]. cbn in *. congruence.
Qed.

Lemma ptr_step {A V} {E : Elem A} {O : Obj A V} h h1 p (x y : A) (v v' : V) :
  ld_ptr h p = Some v -> sep_ptr h p -> elems h (Some (ptr_slice p)) = Some [x] -> step h h1 x y v' ->
  exists h2, writeElem p 0 y h1 = Ret (tt, h2) /\
    step h h2 (Some (ptr_slice p)) (Some (ptr_slice p)) [v'].
Proof.
  intros Hv%ld_ptr_slice Hs Hx Hst.
  destruct (slice_write_step h h1 (ptr_slice p) [x] [v] 0 x y v' Hx Hv Hs eq_refl Hst) as (h2 & ? & ?).
  by exists h2.
Qed.

End Steps.

(** ** First matches *)

Section Find.

Lemma list_find_Forall2 {A B} (R : A -> B -> Prop) (P : A -> Prop) (Q : B -> Prop)
    `{!forall x, Decision (P x)} `{!forall x, Decision (Q x)} xs vs :
  Forall2 R xs vs -> (forall x v, R x v -> P x <-> Q v) ->
  match list_find P xs with
  | Some (i, x) => exists v, vs !! i = Some v /\ R x v /\ list_find Q vs = Some (i, v)
  | None => list_find Q vs = None
  end.
Proof.
  intros HF HR. induction HF as [|x v xs vs Hx _ IH]; [done|]. cbn.
  destruct (decide (P x)) as [HP|HP].
  - exists v. split_and!; [done..|]. rewrite decide_True by by apply (HR x v). done.
  - rewrite (decide_False (P := Q v)) by by rewrite <- (HR x v).
    destruct (list_find P xs) as [[i z]|]; cbn.
    + destruct IH as (w & ? & ? & ->). by exists w.
    + by rewrite IH.
Qed.

Lemma GetHistory_find hs v : GetHistory hs v = snd <$> list_find (fun h => Version h = v) hs.
Proof.
  induction hs as [|h hs IH]; [done|]. cbn. destruct (decide (Version h = v)).
  - by rewrite bool_decide_true.
  - rewrite bool_decide_false, IH by done. by destruct (list_find _ hs) as [[]|].
Qed.

Lemma GetCondition_find cs t : GetCondition cs t = snd <$> list_find (fun c => cond_Type c = t) cs.
Proof.
  induction cs as [|c cs IH]; [done|]. cbn. destruct (decide (cond_Type c = t)).
  - by rewrite bool_decide_true.
  - rewrite bool_decide_false, IH by done. by destruct (list_find _ cs) as [[]|].
Qed.

Lemma SetHistory_find hs h i h' :
  list_find (fun h' => Version h' = Version h) hs = Some (i, h') -> SetHistory h hs = <[i := h]> hs.
Proof.
  intros H. unfold SetHistory. enough (replaceHistory h hs = Some (<[i := h]> hs)) as -> by done.
  revert i H. induction hs as [|g hs IH]; intros i; cbn; [done|].
  destruct (decide (Version g = Version h)).
  - intros [= <- <-]. by rewrite bool_decide_true.
  - rewrite bool_decide_false by done. destruct (list_find _ hs) as [[j z]|]; [|done].
    intros [= <- <-]. by rewrite (IH j eq_refl).
Qed.

Lemma replaceCondition_find c cs :
  replaceCondition c cs =
  match list_find (fun o => cond_Type o = cond_Type c) cs with
  | Some (i, o) =>
      Some (<[i := if bool_decide (cond_Status o = cond_Status c)
                   then stampTimes (LastTransitionTime o) (LastProbeTime c) c else c]> cs,
            bool_decide (cond_Status o <> cond_Status c) ||
            bool_decide (cond_Reason o <> cond_Reason c) ||
            bool_decide (cond_Message o <> cond_Message c))
  | None => None
  end.
Proof.
  induction cs as [|d cs IH]; [done|]. cbn. destruct (decide (cond_Type d = cond_Type c)).
  - by rewrite bool_decide_true.
  - rewrite bool_decide_false, IH by done. by destruct (list_find _ cs) as [[]|].
Qed.

End Find.

(** ** Refinement of the operations *)

Section Refinement.
Context {MT : MetaTypes} {ML : MetaLib}.
Implicit Types (h : Heap) (l : loc).

Lemma range_spec {A} {E : Elem A} h (s : option (slice A)) xs :
  elems h s = Some xs -> range s h = Ret (xs, h).
Proof. intros H. unfold range. by rewrite H. Qed.

Lemma conditions_sep h (s : option (slice conditionStruct)) : sep (V := list UpgradeCondition) h s.
Proof.
  destruct s as [sl|]; [|done]. split; [intros i x _; split; [done|]; cbn; set_solver|].
  intros i j x y _ _ _. cbn. set_solver.
Qed.

Lemma condition_step h (x y : conditionStruct) c : ld h y = Some c -> step h h x y c.
Proof. intros H. split; [done|done| |done|done]. intros l Hl. by apply not_elem_of_empty in Hl. Qed.

(** A new array in front of the old conditions. *)
Lemma prepend_step h (s : option (slice conditionStruct)) cs nc c :
  ld h s = Some cs -> ld h nc = Some c ->
  exists s' h', prepend nc s h = Ret (s', h') /\ h ⊆ h' /\ step h h' s s' (c :: cs).
Proof.
  intros (xs & Hxs & HF)%ld_slice_Some Hc.
  destruct (alloc_spec (arr (nc :: xs)) h) as (l & Hal & Hl).
  set (h' := <[l := arr (nc :: xs)]> h).
  assert (Hsub : h ⊆ h') by by apply insert_fresh_sub.
  assert (Hel : elems h' (Some (mkSlice (A := conditionStruct) l (S (length xs)))) = Some (nc :: xs)).
  { cbn. unfold the_array, h'. rewrite lookup_insert_eq. cbn.
    rewrite decide_True by lia. by rewrite firstn_all. }
  exists (Some (mkSlice l (S (length xs)))), h'. split.
  { unfold prepend. rewrite (hm_bind _ _ _ _ _ (range_spec h s xs Hxs)).
    by rewrite (hm_bind _ _ _ _ _ Hal). }
  split; [done|]. split.
  - apply ld_slice_Some. exists (nc :: xs). split; [done|].
    constructor; [by apply (obj_sub h h')|]. eapply Forall2_impl; [exact HF|].
    intros x v Hx. by apply (obj_sub h h' x v Hx).
  - apply conditions_sep.
  - intros l' Hl' Hd. exfalso. cbn [own Slice_obj] in Hl'. unfold own_slice in Hl'.
    rewrite elem_of_union, elem_of_own, elem_of_singleton in Hl'. cbn [s_arr] in Hl'.
    destruct Hl' as [->|(x & _ & Hx)]; [done|]. by apply not_elem_of_empty in Hx.
  - intros l' Hd _. unfold h'. rewrite lookup_insert_ne; [done|]. by intros <-.
  - intros l' t Ht. by eapply lookup_weaken.
Qed.

Lemma ld_condition_Some h x c :
  ld_condition h x = Some c <->
  ld_time h (cs_LastProbeTime x) = Some (LastProbeTime c) /\
  ld_time h (cs_LastTransitionTime x) = Some (LastTransitionTime c) /\
  ld_time h (cs_StartTime x) = Some (cond_StartTime c) /\
  ld_time h (cs_CompleteTime x) = Some (cond_CompleteTime c) /\
  cs_Type x = cond_Type c /\ cs_Status x = cond_Status c /\
  cs_Reason x = cond_Reason c /\ cs_Message x = cond_Message c.
Proof.
  unfold ld_condition. split.
  - intros (? & H1 & (? & H2 & (? & H3 & (? & H4 & [= <-])%bind_Some)%bind_Some)%bind_Some)%bind_Some.
    by split_and!.
  - intros (-> & -> & -> & -> & -> & -> & -> & ->). by destruct c.
Qed.

(** [SetCondition] after its readings of the clock: the slice variable keeps its
    array when the condition is there, and otherwise nothing is written. *)
Lemma storeCondition_step h s cs nc c :
  ld h s = Some cs -> ld h nc = Some c ->
  exists s' b h', storeCondition nc s h = Ret ((s', b), h') /\
    (default (c :: cs, true) (replaceCondition c cs)).2 = b /\
    step h h' s s' (default (c :: cs, true) (replaceCondition c cs)).1 /\
    match replaceCondition c cs with Some _ => s' = s | None => h ⊆ h' end.
Proof.
  intros Hs Hc. pose proof Hs as (xs & Hxs & HF)%ld_slice_Some.
  pose proof Hc as (C1 & C2 & C3 & C4 & C5 & C6 & C7 & C8)%ld_condition_Some.
  unfold storeCondition. rewrite (hm_bind _ _ _ _ _ (range_spec h s xs Hxs)), replaceCondition_find.
  pose proof (list_find_Forall2 (fun x v => ld h x = Some v) (fun x => cs_Type x = cs_Type nc)
    (fun v => cond_Type v = cond_Type c) xs cs HF) as HL.
  destruct (list_find _ xs) as [[i x]|] eqn:Ef; cbn beta iota in HL.
  - destruct HL as (o & Ho & Hx & ->).
    { intros x' v' (_ & _ & _ & _ & -> & _)%ld_condition_Some. by rewrite C5. }
    apply list_find_Some in Ef as (Hi & _).
    destruct s as [sl|]; [|injection Hxs as <-; done]. cbn [default fst snd from_option id].
    pose proof Hx as (O1 & O2 & O3 & O4 & O5 & O6 & O7 & O8)%ld_condition_Some.
    rewrite O6, O7, O8, C6, C7, C8.
    set (nc' := if bool_decide (cond_Status o = cond_Status c) then _ else nc).
    destruct (slice_write_step h h sl xs cs i x nc'
      (if bool_decide (cond_Status o = cond_Status c)
       then stampTimes (LastTransitionTime o) (LastProbeTime c) c else c)
      Hxs Hs (conditions_sep h _) Hi) as (h' & R & St).
    { apply condition_step. subst nc'. case_bool_decide; [|done].
      apply ld_condition_Some. by split_and!. }
    eexists _, _, h'. split_and!; [by rewrite (hm_bind _ _ _ _ _ R)|done..].
  - rewrite HL by (intros x' v' (_ & _ & _ & _ & -> & _)%ld_condition_Some; by rewrite C5).
    destruct (prepend_step h s cs nc c Hs Hc) as (s' & h' & R & Hsub & St).
    eexists _, _, h'. split_and!; [by rewrite (hm_bind _ _ _ _ _ R)|done..].
Qed.

(** [SetCondition] on the slice and on the value. *)
Lemma Conditions_SetCondition_rel h s cs nc c :
  ld h s = Some cs -> ld h nc = Some c ->
  prog_rel (fun r ts =>
      let c' := stampTimes (Some ts.1) (Some ts.2) c in
      step h r.2 s r.1.1 (SetCondition ts.1 ts.2 c cs).1 /\
      match replaceCondition c' cs with Some _ => r.1.1 = s | None => h ⊆ r.2 end)
    (Conditions_SetCondition nc s h) (t1 ← now; t2 ← now; mret (t1, t2)).
Proof.
  intros Hs Hc. constructor. intros t1. cbn.
  set (l1 := fresh (dom h)). set (h1 := <[l1 := CTime t1]> h). constructor. intros t2. cbn.
  set (l2 := fresh (dom h1)). set (h2 := <[l2 := CTime t2]> h1).
  assert (S1 : h ⊆ h1) by apply insert_fresh_sub, alloc_fresh.
  assert (S2 : h1 ⊆ h2) by apply insert_fresh_sub, alloc_fresh.
  assert (S : h ⊆ h2) by by transitivity h1.
  set (nc' := with_LastProbeTime (Some l2) (with_LastTransitionTime (Some l1) nc)).
  assert (Hc' : ld h2 nc' = Some (stampTimes (Some t1) (Some t2) c)).
  { destruct (obj_sub h h2 nc c Hc S) as ((C1 & C2 & C3 & C4 & C5)%ld_condition_Some & _).
    assert (E1 : h2 !! l1 = Some (CTime t1))
      by (eapply lookup_weaken; [|exact S2]; apply lookup_insert_eq).
    apply ld_condition_Some. cbn. rewrite E1. unfold h2 at 1. rewrite lookup_insert_eq.
    split_and!; try done; naive_solver. }
  destruct (storeCondition_step h2 s cs nc' _ (proj1 (obj_sub h h2 s cs Hs S)) Hc')
    as (s' & b & h' & R & _ & St & Hcase).
  match goal with |- prog_rel ?R _ ?q => change (prog_rel R (storeCondition nc' s h2) q) end.
  rewrite R. constructor. cbn [fst snd]. unfold SetCondition. split.
  - eapply step_grow; [exact Hs|exact S|]. by destruct (replaceCondition _ cs) as [[]|].
  - destruct (replaceCondition _ cs); [done|by transitivity h2].
Qed.


(** ** The history of the desired version, in the resource at [p] *)

Notation version_of o := (desired_Version (Desired (obj_Spec o))).

(** The struct [hst] is the first with the version, at index [i]; it stands for
    [hv]. *)
Definition at_history (h : Heap) (p : loc) (o : object) (i : nat) (hst : historyStruct)
    (hv : UpgradeHistory) : Prop :=
  ld_uc h p = Some o /\ sep_uc h p /\
  list_find (fun g => Version g = version_of o) (obj_History o) = Some (i, hv) /\
  ld h hst = Some hv /\
  exists x sl hxs, elems h (Some (ptr_slice p)) = Some [x] /\
    st_History (cf_Status x) = Some sl /\ elems h (Some sl) = Some hxs /\
    list_find (fun g => hs_Version g = version_of o) hxs = Some (i, hst).

Lemma GetHistory_spec h s hs v :
  ld h s = Some hs ->
  match list_find (fun g => Version g = v) hs with
  | Some (i, hv) => exists xs hst, elems h s = Some xs /\ ld h hst = Some hv /\
      list_find (fun g => hs_Version g = v) xs = Some (i, hst) /\
      UpgradeHistories_GetHistory s v h = Ret (Some hst, h)
  | None => UpgradeHistories_GetHistory s v h = Ret (None, h)
  end.
Proof.
  intros (xs & Hxs & HF)%ld_slice_Some.
  pose proof (list_find_Forall2 (fun x v => ld h x = Some v) (fun g => hs_Version g = v)
    (fun g => Version g = v) xs hs HF) as HL.
  assert (HV : forall x g, ld h x = Some g -> hs_Version x = v <-> Version g = v)
    by (intros x g (_ & _ & _ & _ & _ & -> & _)%ld_history_Some; done).
  specialize (HL HV). unfold UpgradeHistories_GetHistory.
  rewrite (hm_bind _ _ _ _ _ (range_spec h s xs Hxs)).
  destruct (list_find _ xs) as [[i x]|] eqn:Ef; cbn beta iota in HL.
  - destruct HL as (hv & _ & Hx & ->). by exists xs, x.
  - by rewrite HL.
Qed.

Lemma historyOf_spec h p o :
  ld_uc h p = Some o -> sep_uc h p ->
  match list_find (fun g => Version g = version_of o) (obj_History o) with
  | Some (i, hv) => exists hst, historyOf p h = Ret (Some hst, h) /\ at_history h p o i hst hv
  | None => historyOf p h = Ret (None, h)
  end.
Proof.
  intros Ho Hsep. destruct (read_ptr h p o Ho Hsep) as (x & R & Hx & Hld & _).
  pose proof Hld as (_ & V2 & _ & V4)%ld_config_Some.
  unfold historyOf. rewrite (hm_bind _ _ _ _ _ R), V4.
  pose proof (GetHistory_spec h (st_History (cf_Status x)) (obj_History o) (version_of o) V2) as HG.
  destruct (list_find _ (obj_History o)) as [[i hv]|] eqn:Ef; [|done].
  destruct HG as (xs & hst & H1 & H2 & H3 & H4). exists hst. split; [done|].
  destruct (st_History (cf_Status x)) as [sl|] eqn:Es; [|injection H1 as <-; done].
  unfold at_history. split_and!; [done..|]. exists x, sl, xs. by split_and!.
Qed.

(** [SetHistory] with a step of this history. *)
Lemma storeHistory_step h h1 p o i hst hv hst' hv' :
  at_history h p o i hst hv -> step h h1 hst hst' hv' -> hs_Version hst' = hs_Version hst ->
  exists h', storeHistory hst' p h1 = Ret (tt, h') /\
    step h h' (Some (ptr_slice p)) (Some (ptr_slice p))
      [object_with_History (<[i := hv']> (obj_History o)) o].
Proof.
  intros (Ho & Hsep & _ & _ & x & sl & hxs & Hx & Hsl & Hhxs & Hfind) St Hver.
  destruct (read_ptr h p o Ho Hsep) as (x' & R & Hx' & Hld & Sx & Hp).
  rewrite Hx in Hx'. injection Hx' as <-.
  pose proof Hld as (_ & V2 & _)%ld_config_Some. pose proof Sx as [_ Sst].
  cbn [ld sep Status_obj] in V2, Sst. rewrite Hsl in V2, Sst.
  pose proof Hfind as (Hi & Hv & _)%list_find_Some.
  assert (Hown : own h hst ⊆ own_slice h (Some sl)).
  { unfold own_slice. rewrite (elements_Some _ _ _ Hhxs). intros l Hl.
    apply elem_of_union_r, elem_of_own. exists hst. split; [by eapply list_elem_of_lookup_2|done]. }
  assert (Hpd : h1 !! p = h !! p).
  { apply (step_frame _ _ _ _ _ St); [apply (elems_dom _ _ _ Hx)|]. intros Hl. apply Hp.
    cbn [own Config_obj Status_obj]. rewrite Hsl. apply elem_of_union_r. by apply Hown. }
  assert (Hsd : h1 !! s_arr sl = h !! s_arr sl).
  { apply (step_frame _ _ _ _ _ St); [apply (elems_dom _ _ _ Hhxs)|].
    destruct Sst as [S1 _]. rewrite (elements_Some _ _ _ Hhxs) in S1. by apply (S1 i hst). }
  destruct (slice_write_step h h1 sl hxs _ i hst hst' hv' Hhxs V2 Sst Hi St) as (h2 & R2 & St2).
  rewrite <- Hsl in St2 at 1.
  pose proof (config_step h h2 x o _ _ Hld Sx St2) as St3.
  destruct (ptr_step h h2 p x _ o _ Ho Hsep Hx St3) as (h3 & R3 & St4).
  exists h3. split; [|done]. unfold storeHistory.
  assert (R1 : readElem p 0 h1 = Ret (x, h1)).
  { unfold readElem, the_array in *. rewrite Hpd. destruct (h !! p ≫= get_arr) as [a|]; [|done].
    cbn in *. destruct (a !! 0); [|done]. injection R as <-. done. }
  rewrite (hm_bind _ _ _ _ _ R1). unfold UpgradeHistories_SetHistory at 1. rewrite Hsl.
  erewrite hm_bind; [exact R3|].
  rewrite <- (elems_local h h1 sl Hsd) in Hhxs.
  rewrite (hm_bind _ _ _ _ _ (range_spec h1 (Some sl) hxs Hhxs)).
  rewrite Hver, Hv, Hfind. by rewrite (hm_bind _ _ _ _ _ R2).
Qed.

(** A condition of this history is set and the history written back. *)
Lemma recordCondition_rel h p o i hst hv ha nc c :
  at_history h p o i hst hv -> h ⊆ ha -> ld ha nc = Some c ->
  prog_rel (fun r cs => step h r.2 (Some (ptr_slice p)) (Some (ptr_slice p))
                          [object_with_History (<[i := set_Conditions cs hv]> (obj_History o)) o])
    (recordCondition nc hst p ha) (SetCondition_now c (hist_Conditions hv)).
Proof.
  intros Hat Hsub Hc. pose proof Hat as (_ & _ & _ & Hhv & _).
  pose proof (proj1 (obj_sub h ha _ _ Hhv Hsub)) as Hhv'.
  pose proof Hhv' as (Hcs & _)%ld_history_Some.
  refine (rel_bind _ _ _ (t1 ← now; t2 ← now; mret (t1, t2)) _
    (fun ts => Ret (SetCondition ts.1 ts.2 c (hist_Conditions hv)).1)
    (Conditions_SetCondition_rel ha (hs_Conditions hst) _ nc c Hcs Hc) _).
  intros [[s' b] h1] [t1 t2] [St _]. cbn [fst snd] in *.
  pose proof (step_grow _ _ _ _ _ _ _ Hhv Hsub (history_step ha h1 hst hv s' _ Hhv' St)) as St'.
  destruct (storeHistory_step h h1 p o i hst hv _ _ Hat St' eq_refl) as (h' & R & St2).
  rewrite R. by constructor.
Qed.

(** ** The invariant of the resource at [p] *)

(** It stands for [uc], with the metadata [m]; its cells are apart from the heap
    [h0], which is intact. *)
Definition Inv (h0 : Heap) (p : loc) (m : TypeMeta * OMValue) (h : Heap) (uc : UpgradeConfig) : Prop :=
  exists o, ld_uc h p = Some o /\ sep_uc h p /\ own_uc h p ## dom h0 /\ h0 ⊆ h /\
    object_config o = uc /\ (obj_TypeMeta o, obj_ObjectMeta o) = m.

Lemma Inv_step h0 p m h h' o o' :
  ld_uc h p = Some o -> sep_uc h p -> own_uc h p ## dom h0 -> h0 ⊆ h ->
  (obj_TypeMeta o, obj_ObjectMeta o) = m -> (obj_TypeMeta o', obj_ObjectMeta o') = m ->
  step h h' (Some (ptr_slice p)) (Some (ptr_slice p)) [o'] ->
  Inv h0 p m h' (object_config o').
Proof.
  intros Ho Hsep Hown Hsub Hm Hm' [H1 H2 H3 H4 H5]. exists o'.
  split_and!; [by apply ld_ptr_slice|exact H2| | |done|done].
  - intros l Hl Hd. apply (Hown l); [|done]. apply H3; [done|].
    by apply (subseteq_dom _ _ Hsub).
  - apply map_subseteq_spec. intros l c Hc. pose proof (elem_of_dom_2 _ _ _ Hc) as Hd.
    rewrite H4; [by eapply lookup_weaken|by apply (subseteq_dom _ _ Hsub)|].
    intros Hl. by apply (Hown l).
Qed.

Lemma GetCondition_spec h s cs t :
  ld h s = Some cs ->
  exists r, Conditions_GetCondition s t h = Ret (r, h) /\
    match GetCondition cs t, r with
    | Some c, Some x => ld h x = Some c
    | None, None => True
    | _, _ => False
    end.
Proof.
  intros (xs & Hxs & HF)%ld_slice_Some. unfold Conditions_GetCondition.
  rewrite (hm_bind _ _ _ _ _ (range_spec h s xs Hxs)), GetCondition_find.
  pose proof (list_find_Forall2 (fun x v => ld h x = Some v) (fun g => cs_Type g = t)
    (fun g => cond_Type g = t) xs cs HF) as HL. eexists. split; [done|].
  assert (HV : forall x g, ld h x = Some g -> cs_Type x = t <-> cond_Type g = t)
    by (intros x g (_ & _ & _ & _ & -> & _)%ld_condition_Some; done).
  specialize (HL HV). destruct (list_find _ xs) as [[i x]|]; cbn beta iota in HL.
  - destruct HL as (c & _ & Hx & ->). done.
  - by rewrite HL.
Qed.

Definition Inv_result (h0 : Heap) (p : loc) (m : TypeMeta * OMValue) (r : unit * Heap)
    (uc : UpgradeConfig) : Prop := Inv h0 p m r.2 uc.

(** The update that the three functions of the runner end in. *)
Lemma recordCondition_Inv h0 p m h o i hst hv ha nc c :
  own_uc h p ## dom h0 -> h0 ⊆ h -> (obj_TypeMeta o, obj_ObjectMeta o) = m ->
  at_history h p o i hst hv -> h ⊆ ha -> ld ha nc = Some c ->
  prog_rel (Inv_result h0 p m) (recordCondition nc hst p ha)
    (cs ← SetCondition_now c (hist_Conditions hv);
     mret (set_History (SetHistory (set_Conditions cs hv) (History (object_config o))) (object_config o))).
Proof.
  intros Hown Hsub Hm Hat Hha Hc. pose proof Hat as (Ho & Hsep & Hf & _).
  refine (rel_map_r _ _ _ _ (fun cs => set_History (SetHistory (set_Conditions cs hv) _) _)
    (recordCondition_rel h p o i hst hv ha nc c Hat Hha Hc) _).
  intros [u h'] cs St. unfold Inv_result. cbn [snd] in *.
  pose proof Hf as (_ & Hv & _)%list_find_Some.
  rewrite (SetHistory_find _ _ i hv) by (cbn; by rewrite Hv).
  exact (Inv_step h0 p m h h' o (object_with_History _ o) Ho Hsep Hown Hsub Hm Hm St).
Qed.

(** The prologue of the three functions. *)
Lemma with_condition_rel h0 p m h uc t
    (f : historyStruct -> option conditionStruct -> HM unit)
    (g : UpgradeHistory -> option UpgradeCondition -> M UpgradeConfig) :
  Inv h0 p m h uc ->
  (forall o i hst hv x, own_uc h p ## dom h0 -> h0 ⊆ h -> (obj_TypeMeta o, obj_ObjectMeta o) = m ->
     object_config o = uc -> at_history h p o i hst hv ->
     match GetCondition (hist_Conditions hv) t, x with
     | Some c, Some x => ld h x = Some c
     | None, None => True
     | _, _ => False
     end ->
     prog_rel (Inv_result h0 p m) (f hst x h) (g hv (GetCondition (hist_Conditions hv) t))) ->
  prog_rel (Inv_result h0 p m)
    ((o ← historyOf p; history ← hderef o;
      c ← Conditions_GetCondition (hs_Conditions history) t; f history c) h)
    (history ← deref (GetHistory (History uc) (ucVersionOf uc));
     g history (GetCondition (hist_Conditions history) t)).
Proof.
  intros (o & Ho & Hsep & Hown & Hsub & <- & Hm) Hfg.
  pose proof (historyOf_spec h p o Ho Hsep) as HH.
  rewrite GetHistory_find. change (ucVersionOf (object_config o)) with (version_of o).
  change (History (object_config o)) with (obj_History o).
  destruct (list_find _ (obj_History o)) as [[i hv]|] eqn:Ef.
  - destruct HH as (hst & R & Hat). rewrite (hm_bind _ _ _ _ _ R).
    pose proof Hat as (_ & _ & _ & (Hcs & _)%ld_history_Some & _).
    destruct (GetCondition_spec h _ _ t Hcs) as (r & R2 & Hr).
    rewrite (hm_bind (hderef (Some hst)) _ h hst h eq_refl), (hm_bind _ _ _ _ _ R2).
    apply (Hfg o i); done.
  - rewrite (hm_bind _ _ _ _ _ HH). constructor.
Qed.

Lemma setConditionStartAt_rel h0 p m h uc s :
  Inv h0 p m h uc -> prog_rel (Inv_result h0 p m) (setConditionStartAt s p h) (setConditionStart s uc).
Proof.
  intros HI.
  refine (with_condition_rel h0 p m h uc (step_String s) _
    (fun hv c => match c with None => _ | Some _ => mret uc end) HI _).
  intros o i hst hv x Hown Hsub Hm Huc Hat Hx.
  destruct (GetCondition _ _) as [c|], x as [x|]; try done; [by constructor|].
  constructor. intros t. rewrite <- Huc.
  eapply (recordCondition_Inv h0 p m h o i hst hv _ _ _ Hown Hsub Hm Hat).
  - apply insert_fresh_sub, alloc_fresh.
  - apply ld_condition_Some. cbn. by rewrite lookup_insert_eq.
Qed.

Lemma setConditionInProgressAt_rel h0 p m h uc s msg :
  Inv h0 p m h uc ->
  prog_rel (Inv_result h0 p m) (setConditionInProgressAt s msg p h) (setConditionInProgress s msg uc).
Proof.
  intros HI.
  refine (with_condition_rel h0 p m h uc (step_String s) _
    (fun hv c => match c with Some c => _ | None => mret uc end) HI _).
  intros o i hst hv x Hown Hsub Hm Huc Hat Hx.
  destruct (GetCondition _ _) as [c|], x as [x|]; try done; [|by constructor].
  rewrite <- Huc. eapply (recordCondition_Inv h0 p m h o i hst hv _ _ _ Hown Hsub Hm Hat); [done|].
  apply ld_condition_Some in Hx as (H1 & H2 & H3 & H4 & H5 & H6 & H7 & H8).
  by apply ld_condition_Some.
Qed.

Lemma setConditionCompleteAt_rel h0 p m h uc s :
  Inv h0 p m h uc ->
  prog_rel (Inv_result h0 p m) (setConditionCompleteAt s p h) (setConditionComplete s uc).
Proof.
  intros HI.
  refine (with_condition_rel h0 p m h uc (step_String s) _
    (fun hv c => match c with Some c => _ | None => mret uc end) HI _).
  intros o i hst hv x Hown Hsub Hm Huc Hat Hx.
  destruct (GetCondition _ _) as [c|], x as [x|]; try done; [|by constructor].
  pose proof Hx as (H1 & H2 & H3 & H4 & H5 & H6 & H7 & H8)%ld_condition_Some.
  rewrite <- Huc. destruct (cs_CompleteTime x) as [l|] eqn:El; cbn in H4.
  - destruct (h !! l) as [[t| | | | | | | |]|] eqn:Eh; try done. injection H4 as H4. rewrite <- H4.
    eapply (recordCondition_Inv h0 p m h o i hst hv h _ _ Hown Hsub Hm Hat); [done|].
    apply ld_condition_Some. cbn. by rewrite Eh.
  - injection H4 as H4. rewrite <- H4. constructor. intros t.
    eapply (recordCondition_Inv h0 p m h o i hst hv _ _ _ Hown Hsub Hm Hat).
    + apply insert_fresh_sub, alloc_fresh.
    + pose proof (insert_fresh_sub h _ (CTime t) (alloc_fresh h)) as Hs.
      destruct (obj_sub _ _ _ _ Hx Hs) as ((G1 & G2 & G3 & _)%ld_condition_Some & _).
      apply ld_condition_Some. cbn. rewrite lookup_insert_eq. by split_and!.
Qed.


(** A condition of this history is overwritten in place, and the history not
    written back. *)
Lemma inner_condition_step h h1 p o i hst hv cs :
  at_history h p o i hst hv -> step h h1 (hs_Conditions hst) (hs_Conditions hst) cs ->
  step h h1 (Some (ptr_slice p)) (Some (ptr_slice p))
    [object_with_History (<[i := set_Conditions cs hv]> (obj_History o)) o].
Proof.
  intros (Ho & Hsep & _ & Hhv & x & sl & hxs & Hx & Hsl & Hhxs & Hfind) St.
  destruct (read_ptr h p o Ho Hsep) as (x' & _ & Hx' & Hld & Sx & _).
  rewrite Hx in Hx'. injection Hx' as <-.
  pose proof Hld as (_ & V2 & _)%ld_config_Some. pose proof Sx as [_ Sst].
  cbn [ld sep Status_obj] in V2, Sst. rewrite Hsl in V2, Sst.
  pose proof Hfind as (Hi & _ & _)%list_find_Some.
  pose proof (history_step h h1 hst hv _ cs Hhv St) as St1.
  replace (with_Conditions (hs_Conditions hst) hst) with hst in St1 by by destruct hst.
  pose proof (slice_inner_step h h1 sl hxs _ i hst _ Hhxs V2 Sst Hi St1) as St2.
  rewrite <- Hsl in St2 at 1. pose proof (config_step h h1 x o _ _ Hld Sx St2) as St3.
  replace (with_History (Some sl) x) with x in St3 by (by destruct x as [? ? ? [?]]; cbn in *; subst).
  apply ld_ptr_slice in Ho. exact (slice_inner_step h h1 _ [x] [o] 0 x _ Hx Ho Hsep eq_refl St3).
Qed.

(** ** The runner *)

Lemma lift_rel {A} (q : M A) h : prog_rel (fun r a => r = (a, h)) (lift q h) q.
Proof. unfold lift. induction q; cbn; by constructor. Qed.

Lemma Inv_view h0 p m h uc : Inv h0 p m h uc -> view p h = Ret (uc, h).
Proof. intros (o & Ho & _ & _ & _ & <- & _). unfold view. by rewrite Ho. Qed.

(** The phase and the error agree, and the resource stands for the result. *)
Definition run_result (h0 : Heap) (p : loc) (m : TypeMeta * OMValue)
    (r : UpgradePhase * option error * Heap) (v : UpgradeConfig * UpgradePhase * option error) : Prop :=
  Inv h0 p m r.2 v.1.1 /\ r.1 = (v.1.2, v.2).

Lemma RunAt_rel h0 p m steps h uc :
  Inv h0 p m h uc -> prog_rel (run_result h0 p m) (RunAt p steps h) (Run uc steps).
Proof.
  revert h uc. induction steps as [|s steps IH]; intros h uc HI; [by constructor|].
  refine (rel_bind _ _ _ _ _ _ (setConditionStartAt_rel h0 p m h uc s HI) _).
  intros [[] h1] uc1 HI1. unfold Inv_result in HI1. cbn [fst snd] in *.
  rewrite (hm_bind _ _ _ _ _ (Inv_view _ _ _ _ _ HI1)).
  refine (rel_bind _ _ _ _ _ _ (lift_rel (step_run s uc1) h1) _). intros ? r ->. cbn [fst snd].
  destruct r as [[]|err].
  - refine (rel_bind _ _ _ _ _ _ (setConditionCompleteAt_rel h0 p m h1 uc1 s HI1) _).
    intros [[] h2] uc2 HI2. by apply IH.
  - refine (rel_bind _ _ _ _ _ _ (setConditionInProgressAt_rel h0 p m h1 uc1 s _ HI1) _).
    intros [[] h2] uc2 HI2. by constructor.
  - refine (rel_bind _ _ _ _ _ _ (setConditionInProgressAt_rel h0 p m h1 uc1 s _ HI1) _).
    intros [[] h2] uc2 HI2. by constructor.
Qed.

(** What a deep copy establishes. *)
Lemma copy_Inv h p o q h1 :
  ld_uc h p = Some o -> UpgradeConfig_DeepCopy (Some p) h = Ret (Some q, h1) ->
  Inv h q (obj_TypeMeta o, obj_ObjectMeta o) h1 (object_config o).
Proof.
  intros Ho R. destruct (copyPointer_spec zeroConfigStruct _ h p o UpgradeConfig_copies Ho)
    as (q' & h' & R' & H1 & H2 & H3 & H4 & H5).
  unfold UpgradeConfig_DeepCopy in R. rewrite R' in R. injection R as -> ->.
  by exists o.
Qed.

(** A resource of the heap that is intact. *)
Lemma Inv_old h0 p m h uc p0 o : Inv h0 p m h uc -> ld_uc h0 p0 = Some o -> ld_uc h p0 = Some o.
Proof.
  intros (_ & _ & _ & _ & Hsub & _) Ho.
  by apply (ptr_local h0 h p0 o Ho), sub_agree, (ptr_dom _ _ _ Ho).
Qed.

End Refinement.
