(* ===== verification/Scheduler.v ===== *)
(** * The scheduler (pkg/scheduler/scheduler.go)

    [IsReadyToUpgrade] classifies the clock against the time the UpgradeConfig
    is scheduled at and against the upgrade window. *)

From stdpp Require Import base gmap strings list.
From Stdlib Require Import ZArith Lia Ascii.
From S2P Require Import Prelude GoTime Api Effects.
Local Open Scope Z_scope.

(** ** The scheduler *)

Record SchedulerResult := mkSchedulerResult {
  IsReady : bool;
  IsBreached : bool;
  TimeUntilUpgrade : Duration;
}.

Definition IsReadyToUpgrade (upgradeConfig : UpgradeConfig) (timeOut : Duration) : M SchedulerResult :=
  match parseRFC3339 (UpgradeAt (Spec upgradeConfig)) with
  | Err _ => mret (mkSchedulerResult false false 0)
  | Ok upgradeTime =>
      now ← now;
      mret (if After now upgradeTime then
              if After (TimeAdd upgradeTime timeOut) now
              then mkSchedulerResult true false 0
              else mkSchedulerResult true true 0
            else
              let pendingTime := TimeSub upgradeTime now in
              mkSchedulerResult false false pendingTime)
  end.

(** ** Properties *)

(** The scheduler reads the clock once and reports ready exactly when the
    clock is after the scheduled time, breached exactly when it has also
    reached the end of the window, and otherwise the (saturated) time left; an
    unparsable schedule is never ready. *)
Theorem IsReadyToUpgrade_correct uc timeOut tr o :
  exec (IsReadyToUpgrade uc timeOut) tr o ->
  exists r, o = Done r /\
  match parseRFC3339 (UpgradeAt (Spec uc)) with
  | Err _ => tr = [] /\ r = mkSchedulerResult false false 0
  | Ok t => exists now, tr = [Obs Now now] /\
      (IsReady r = true <-> t < now) /\
      (IsBreached r = true <-> t < now /\ t + timeOut <= now) /\
      (IsReady r = true -> TimeUntilUpgrade r = 0) /\
      (IsReady r = false -> TimeUntilUpgrade r = Z.min maxDuration (t - now) /\ 0 <= TimeUntilUpgrade r)
  end.
Proof.
  unfold IsReadyToUpgrade. destruct (parseRFC3339 _) as [t|e].
  - revert tr o. apply wp_exec. unfold now. wp_cbn. intros n. eexists; split; [done|].
    exists n. split; [done|]. unfold After, TimeAdd, TimeSub, maxDuration, minDuration.
    destruct (Z.ltb_spec t n); [destruct (Z.ltb_spec n (t + timeOut))|]; cbn [IsReady IsBreached TimeUntilUpgrade];
      split_and!; intros; lia.
  - intros [-> ->]. eauto.
Qed.

(** *** Witnesses *)

Definition demo_schedule : UpgradeConfig :=
  mkUpgradeConfig "managed-upgrade-config" "muo" "1"
    (mkSpec (mkUpdate "4.15.1" "stable-4.15" "") "1970-01-01T00:00:10Z" 60 OSD true) [].

Lemma IsReadyToUpgrade_correct_witness :
  exists r, Done (mkSchedulerResult true false 0) = Done r /\
  match parseRFC3339 "1970-01-01T00:00:10Z" with
  | Err _ => [Obs Now (11 * Second)] = [] /\ r = mkSchedulerResult false false 0
  | Ok t => exists now, [Obs Now (11 * Second)] = [Obs Now now] /\
      (IsReady r = true <-> t < now) /\
      (IsBreached r = true <-> t < now /\ t + Hour <= now) /\
      (IsReady r = true -> TimeUntilUpgrade r = 0) /\
      (IsReady r = false -> TimeUntilUpgrade r = Z.min maxDuration (t - now) /\ 0 <= TimeUntilUpgrade r)
  end.
Proof.
  apply (IsReadyToUpgrade_correct demo_schedule Hour).
  exists (11 * Second), []. split; [reflexivity|]. split; [reflexivity|].
  vm_compute. reflexivity.
Defined.
