(* ===== verification/SpecProvider.v ===== *)
(** * Upgrade spec providers (pkg/specprovider, pkg/localprovider, pkg/ocmprovider)

    A spec provider answers which upgrade the cluster should perform: the local
    provider repeats the specs of the UpgradeConfigs on the cluster, the OCM
    provider turns the next occurring upgrade policy into a spec.  The builder
    chooses between them from the configuration. *)

From stdpp Require Import base gmap strings list pretty.
From Stdlib Require Import ZArith Lia.
From S2P Require Import Prelude GoTime Api Effects Config Interfaces.

Definition UPGRADECONFIG_CR_NAME : string := "managed-upgrade-config".

(** The [SpecProvider] interface: what a client may rely on is that asking
    for specs changes nothing and returns. *)
Class SpecProvider := {
  provider_Get : M (result (list UpgradeConfigSpec));
  provider_Get_reads : all_ev reads provider_Get;
  provider_Get_no_panic : no_panic provider_Get;
}.
Arguments provider_Get : clear implicits.

Class SpecProviderBuilder := {
  provider_New : M (result SpecProvider);
  provider_New_reads : all_ev reads provider_New;
  provider_New_no_panic : no_panic provider_New;
}.
#[export] Hint Resolve provider_Get_reads provider_Get_no_panic
  provider_New_reads provider_New_no_panic : muo.

(** ** Local provider *)

Module Local.

Definition fetchUpgradeConfigs : M (result (list UpgradeConfig)) :=
  ns ←? GetOperatorNamespace;
  call (ListUpgradeConfigs ns UPGRADECONFIG_CR_NAME).

(** Completed UpgradeConfigs, and those without a history, are ignored. *)
Fixpoint readSpecFromConfig (ucl : list UpgradeConfig) : list UpgradeConfigSpec :=
  match ucl with
  | [] => []
  | u :: rest =>
      match GetHistory (History u) (ucVersionOf u) with
      | Some history =>
          if bool_decide (Phase history <> UpgradePhaseUpgraded)
          then Spec u :: readSpecFromConfig rest else readSpecFromConfig rest
      | None => readSpecFromConfig rest
      end
  end.

Definition localProvider_Get : M (result (list UpgradeConfigSpec)) :=
  instances ←? fetchUpgradeConfigs;
  mret (Ok (readSpecFromConfig instances)).

Record LocalProviderConfig := mkLocalProviderConfig { LocalConfigName : string }.

#[global] Instance LocalProviderConfig_IsValid : ConfigValidator LocalProviderConfig := fun lp =>
  if negb (String.eqb (LocalConfigName lp) UPGRADECONFIG_CR_NAME)
  then Some (ErrText ("please use " +:+ UPGRADECONFIG_CR_NAME +:+ " as the upgrade config name"))
  else None.

Lemma localProvider_Get_reads : all_ev reads localProvider_Get.
Proof. unfold localProvider_Get, fetchUpgradeConfigs. ev_auto; done. Qed.
Lemma localProvider_Get_no_panic : no_panic localProvider_Get.
Proof. unfold localProvider_Get, fetchUpgradeConfigs, GetOperatorNamespace. np_auto. Qed.

Definition localProvider : SpecProvider :=
  {| provider_Get := localProvider_Get; provider_Get_reads := localProvider_Get_reads; provider_Get_no_panic := localProvider_Get_no_panic |}.

End Local.

(** ** OCM provider *)

Module Ocm.

Record OcmProviderConfig := mkOcmProviderConfig { OcmBaseUrl : string }.

Section Ocm.
Context `{!Semver} `{!UrlParse}.

Definition OCM_AGENT_SERVICE_URL : string := "ocm-agent.openshift-ocm-agent-operator.svc.cluster.local".
Definition OCM_AGENT_SERVICE_PORT : string := "8081".

#[global] Instance OcmProviderConfig_IsValid : ConfigValidator OcmProviderConfig := fun cfg =>
  match url_Parse (OcmBaseUrl cfg) with
  | Err _ => Some (ErrText "OCM Base URL is not a parseable URL")
  | Ok _ => None
  end.

(** A URL that does not parse is [nil]; taking its [String()] then panics. *)
Definition GetOCMBaseURL (cfg : OcmProviderConfig) : option string :=
  match url_Parse (OcmBaseUrl cfg) with Ok u => Some u | Err _ => None end.

(** The OCM client, through the in-cluster agent when the URL names it. *)
Definition newOcmClient (ocmBaseUrl : option string) : M (result unit) :=
  u ← deref ocmBaseUrl;
  if Contains u (OCM_AGENT_SERVICE_URL +:+ ":" +:+ OCM_AGENT_SERVICE_PORT)
  then call (NewClient "ocmagent") else call (NewClient "ocm").

(** [NextRun()] as an instant. *)
Definition NextRun (p : UpgradePolicy) : Time := time_of (policy_NextRun p).

(** [Items().Get(0)] of an empty list is a nil policy, whose accessors give
    zero values. *)
Definition zeroPolicy : UpgradePolicy := mkUpgradePolicy "" "" (mkCivil 1 1 1 0 0 0 0 0).

Definition getNextOccurringUpgradePolicy (items : list UpgradePolicy) : UpgradePolicy :=
  fold_left (fun next uP => if Before (NextRun uP) (NextRun next) then uP else next)
    items (default zeroPolicy (items !! 0)).

Definition isActionableUpgradePolicy (up : UpgradePolicy) (state : UpgradePolicyState) : bool :=
  let v := ToLower (ps_Value state) in
  if String.eqb v "pending" then false
  else if String.eqb v "completed" then false
  else if String.eqb v "cancelled" then false
  else if Nat.eqb (String.length (policy_Version up)) 0 then false
  else true.

(** The channel of the target version; for EUS the next even minor. *)
Definition inferUpgradeChannelFromChannelGroup (channelGroup toVersion : string) : result string :=
  let channelGroup := if String.eqb channelGroup "" then "stable" else channelGroup in
  match semver_Parse toVersion with
  | Err _ => Err (ErrText ("invalid semantic TO version: " +:+ toVersion))
  | Ok toSV =>
      let minorVersion := Minor toSV in
      let minorVersion :=
        if String.eqb channelGroup "eus" then
          if negb (minorVersion mod 2 =? 0)%Z then ((minorVersion + 1) mod 2 ^ 64)%Z else minorVersion
        else minorVersion in
      Ok (channelGroup +:+ "-" +:+ pretty (Major toSV) +:+ "." +:+ pretty minorVersion)
  end.

Definition buildUpgradeConfigSpecs (upgradePolicy : UpgradePolicy) (cluster : OcmCluster)
    (upgradeType : UpgradeType) : result (list UpgradeConfigSpec) :=
  let capacityReservation := true in
  match inferUpgradeChannelFromChannelGroup (ocm_ChannelGroup cluster) (policy_Version upgradePolicy) with
  | Err _ => Err (ErrText ("unable to determine channel from channel group '" +:+ ocm_ChannelGroup cluster +:+
      "' and version '" +:+ policy_Version upgradePolicy +:+ "' for policy ID '" +:+
      policy_ID upgradePolicy +:+ "'"))
  | Ok upgradeChannel =>
      Ok [mkSpec (mkUpdate (policy_Version upgradePolicy) upgradeChannel "")
            (formatRFC3339 (policy_NextRun upgradePolicy))
            (wrap32 (ocm_NodeDrainGracePeriod cluster)) upgradeType capacityReservation]
  end.

Definition ocmProvider_Get (upgradeType : UpgradeType) : M (result (list UpgradeConfigSpec)) :=
  r ← call OcmGetCluster;
  match r with
  | Err err =>
      if is_sentinel ErrClusterIdNotFound err then mret (Err err)
      else mret (Err (ErrSentinel ErrProviderUnavailable))
  | Ok cluster =>
      if String.eqb (ocm_ID cluster) "" then mret (Err (ErrSentinel ErrClusterIdNotFound))
      else
        r ← call (OcmGetUpgradePolicies (ocm_ID cluster));
        match r with
        | Err _ => mret (Err (ErrSentinel ErrRetrievingPolicies))
        | Ok (total, items) =>
            if (0 <? total)%Z then
              let nextOccurringUpgradePolicy := getNextOccurringUpgradePolicy items in
              policyState ←? call (OcmGetPolicyState (policy_ID nextOccurringUpgradePolicy) (ocm_ID cluster));
              if negb (isActionableUpgradePolicy nextOccurringUpgradePolicy policyState) then mret (Ok [])
              else
                mret match buildUpgradeConfigSpecs nextOccurringUpgradePolicy cluster upgradeType with
                     | Err _ => Err (ErrSentinel ErrProcessingPolicies)
                     | Ok specs => Ok specs
                     end
            else mret (Ok [])
        end
  end.

Lemma ocmProvider_Get_reads ut : all_ev reads (ocmProvider_Get ut).
Proof. unfold ocmProvider_Get. ev_auto; done. Qed.
Lemma ocmProvider_Get_no_panic ut : no_panic (ocmProvider_Get ut).
Proof. unfold ocmProvider_Get. np_auto. Qed.

Definition ocmProvider (ut : UpgradeType) : SpecProvider :=
  {| provider_Get := ocmProvider_Get ut; provider_Get_reads := ocmProvider_Get_reads ut; provider_Get_no_panic := ocmProvider_Get_no_panic ut |}.

(** [ocmprovider.New] *)
Definition ocmProvider_New (upgradeType : UpgradeType) (ocmBaseUrl : option string) : M (result SpecProvider) :=
  _ ←? newOcmClient ocmBaseUrl;
  mret (Ok (ocmProvider upgradeType)).

End Ocm.
End Ocm.

(** ** The builder *)

Record SpecProviderConfig := mkSpecProviderConfig { cfg_UpgradeType : string; Source : string }.

Definition parse_UpgradeType (s : string) : UpgradeType :=
  if String.eqb s "OSD" then OSD else if String.eqb s "ARO" then ARO else UpgradeTypeOther s.

#[export] Instance SpecProviderConfig_IsValid : ConfigValidator SpecProviderConfig := fun cfg =>
  if String.eqb (Source cfg) "" then Some (ErrSentinel ErrNoSpecProviderConfig)
  else if negb (String.eqb (ToUpper (Source cfg)) "OCM" || String.eqb (ToUpper (Source cfg)) "LOCAL")
  then Some (ErrSentinel ErrInvalidSpecProvider)
  else match parse_UpgradeType (cfg_UpgradeType cfg) with
       | ARO | OSD => None
       | UpgradeTypeOther s => if String.eqb s "" then None else Some (ErrSentinel ErrInvalidSpecProvider)
       end.

Definition GetUpgradeType (cfg : SpecProviderConfig) : UpgradeType :=
  if Nat.eqb (String.length (cfg_UpgradeType cfg)) 0 then ARO
  else parse_UpgradeType (cfg_UpgradeType cfg).

Section Builder.
Context `{!Semver} `{!UrlParse}.
Context `{!Yaml SpecProviderConfig} `{!Yaml Local.LocalProviderConfig} `{!Yaml Ocm.OcmProviderConfig}.

Definition readSpecProviderConfig : M (result SpecProviderConfig) := readConfig.
Definition readOcmProviderConfig : M (result Ocm.OcmProviderConfig) := readConfig.
Definition readLocalProviderConfig : M (result Local.LocalProviderConfig) := readConfig.

Definition specProvider_New : M (result SpecProvider) :=
  cfg ←? readSpecProviderConfig;
  if String.eqb (ToUpper (Source cfg)) "OCM" then
    providerCfg ←? readOcmProviderConfig;
    Ocm.ocmProvider_New (GetUpgradeType cfg) (Ocm.GetOCMBaseURL providerCfg)
  else if String.eqb (ToUpper (Source cfg)) "LOCAL" then
    _ ←? readLocalProviderConfig;
    mret (Ok Local.localProvider)
  else mret (Err (ErrSentinel ErrInvalidSpecProvider)).

Lemma specProvider_New_reads : all_ev reads specProvider_New.
Proof.
  unfold specProvider_New, Ocm.ocmProvider_New, Ocm.newOcmClient.
  ev_auto; try apply readConfig_reads; done.
Qed.

(** The base URL of a validated configuration is not nil. *)
Lemma specProvider_New_no_panic : no_panic specProvider_New.
Proof.
  unfold specProvider_New. apply no_panic_bindr; [apply readConfig_no_panic|]. intros cfg.
  destruct (String.eqb _ "OCM"); [|unfold readLocalProviderConfig; np_auto].
  apply no_panic_wp_iff, wp_bindr, wp_exec. intros tr o (r & -> & Hv)%readConfig_valid.
  destruct r as [c|e]; [|by eexists]. apply no_panic_wp.
  unfold IsValid, Ocm.OcmProviderConfig_IsValid in Hv. unfold Ocm.ocmProvider_New, Ocm.newOcmClient, Ocm.GetOCMBaseURL.
  destruct (url_Parse (Ocm.OcmBaseUrl c)); [|done]. cbn [deref]. np_auto.
Qed.

Definition specProviderBuilder : SpecProviderBuilder :=
  {| provider_New := specProvider_New; provider_New_reads := specProvider_New_reads; provider_New_no_panic := specProvider_New_no_panic |}.

End Builder.

(** ** Lemmas on policies and channels *)

Section Policies.
Context `{!Semver} `{!UrlParse}.

(** The next occurring policy is one of the policies with the earliest next
    run, the first of them in the list. *)
Lemma getNextOccurringUpgradePolicy_spec items :
  items <> [] ->
  Ocm.getNextOccurringUpgradePolicy items ∈ items /\
  forall r, r ∈ items -> (Ocm.NextRun (Ocm.getNextOccurringUpgradePolicy items) <= Ocm.NextRun r)%Z.
Proof.
  intros Hne. destruct items as [|p items]; [done|]. unfold Ocm.getNextOccurringUpgradePolicy.
  change (default Ocm.zeroPolicy ((p :: items) !! 0)) with p.
  destruct (fold_earliest Ocm.NextRun (p :: items) p) as (H1 & _ & H3). split; [|done].
  destruct H1 as [->|?]; [by left|done].
Qed.

(** What the OCM provider answers: nothing, or the spec of a next occurring,
    actionable policy of this cluster. *)
Definition policy_spec (upgradeType : UpgradeType) (tr : list (obs Eff)) (specs : list UpgradeConfigSpec) : Prop :=
  exists cluster total items state channel,
    let p := Ocm.getNextOccurringUpgradePolicy items in
    tr = [Obs OcmGetCluster (Ok cluster);
          Obs (OcmGetUpgradePolicies (ocm_ID cluster)) (Ok (total, items));
          Obs (OcmGetPolicyState (policy_ID p) (ocm_ID cluster)) (Ok state)] /\
    ocm_ID cluster <> "" /\ (0 < total)%Z /\ policy_Version p <> "" /\
    ToLower (ps_Value state) ∉ ["pending"; "completed"; "cancelled"] /\
    Ocm.inferUpgradeChannelFromChannelGroup (ocm_ChannelGroup cluster) (policy_Version p) = Ok channel /\
    specs = [mkSpec (mkUpdate (policy_Version p) channel "") (formatRFC3339 (policy_NextRun p))
               (wrap32 (ocm_NodeDrainGracePeriod cluster)) upgradeType true].

Lemma isActionable_spec p st :
  Ocm.isActionableUpgradePolicy p st = true <->
  policy_Version p <> "" /\ ToLower (ps_Value st) ∉ ["pending"; "completed"; "cancelled"].
Proof.
  unfold Ocm.isActionableUpgradePolicy. rewrite !not_elem_of_cons.
  destruct (String.eqb_spec (ToLower (ps_Value st)) "pending"); [naive_solver|].
  destruct (String.eqb_spec (ToLower (ps_Value st)) "completed"); [naive_solver|].
  destruct (String.eqb_spec (ToLower (ps_Value st)) "cancelled"); [naive_solver|].
  pose proof (not_elem_of_nil (ToLower (ps_Value st))).
  destruct (policy_Version p); cbn; naive_solver.
Qed.

Lemma ocm_Get_wp ut :
  wp (Ocm.ocmProvider_Get ut) (fun tr o => exists r, o = Done r /\
    match r with Ok [] => True | Ok specs => policy_spec ut tr specs | Err _ => True end).
Proof.
  unfold Ocm.ocmProvider_Get. wp_cbn. intros [cluster|e]; [|destruct (is_sentinel _ _); wp_cbn; by eexists].
  destruct (String.eqb_spec (ocm_ID cluster) ""); [by eexists|]. wp_cbn.
  intros [[total items]|e]; [|wp_cbn; by eexists].
  destruct (Z.ltb_spec 0 total); [|wp_cbn; by eexists]. wp_cbn. intros [st|e]; wp_cbn; [|by eexists].
  destruct (Ocm.isActionableUpgradePolicy _ st) eqn:Ha; cbn [negb]; wp_cbn; [|by eexists].
  apply isActionable_spec in Ha as [Hv Hs]. eexists; split; [done|].
  unfold Ocm.buildUpgradeConfigSpecs.
  destruct (Ocm.inferUpgradeChannelFromChannelGroup _ _) as [ch|] eqn:Hc; [|done].
  exists cluster, total, items, st, ch. done.
Qed.

(** ** Properties *)

(** C16: when the OCM provider answers with specs it is the single spec of the
    policy with the earliest next run, whose state is not pending, completed or
    cancelled and whose version is not empty; the schedule text it writes
    parses back to exactly the policy's next run and the drain timeout is in
    the range of its 32-bit field. *)
Theorem ocm_spec_is_next_policy ut tr spec specs :
  exec (Ocm.ocmProvider_Get ut) tr (Done (Ok (spec :: specs))) ->
  policy_spec ut tr (spec :: specs) /\ specs = [] /\
  in_int 32 (PDBForceDrainTimeout spec) /\
  forall cluster total items,
    Obs (OcmGetUpgradePolicies (ocm_ID cluster)) (Ok (total, items)) ∈ tr -> items <> [] ->
    let p := Ocm.getNextOccurringUpgradePolicy items in
    p ∈ items /\ (forall q, q ∈ items -> (Ocm.NextRun p <= Ocm.NextRun q)%Z) /\
    (valid_civil (policy_NextRun p) -> parseRFC3339 (UpgradeAt spec) = Ok (Ocm.NextRun p)).
Proof.
  intros Hex. assert (policy_spec ut tr (spec :: specs)) as Hp.
  { pose proof (proj1 (wp_exec _ _) (ocm_Get_wp ut) _ _ Hex) as (r & [= <-] & Hr). done. }
  split; [done|]. destruct Hp as (cluster & total & items & st & ch & -> & _ & _ & _ & _ & _ & [= -> ->]).
  split; [done|]. split; [by apply wrap_range|]. cbn [UpgradeAt].
  intros cluster' total' items' Hin Hne.
  assert (items' = items) as ->.
  { rewrite !elem_of_cons, elem_of_nil in Hin. destruct Hin as [Hin|[Hin|[Hin|[]]]]; try discriminate Hin.
    apply (f_equal (fun o : obs Eff => match ob_event o in Eff X return X -> list UpgradePolicy with
      | OcmGetUpgradePolicies _ => fun r => match r with Ok (_, l) => l | Err _ => [] end
      | _ => fun _ => [] end (ob_resp o))) in Hin. exact Hin. }
  destruct (getNextOccurringUpgradePolicy_spec items Hne) as [H1 H2].
  split; [done|]. split; [done|]. intros Hv. by apply parseRFC3339_format.
Qed.

(** The channel is the channel group (stable when empty), the major and
    the minor version; only for EUS is an odd minor version replaced by the
    next even one. *)
Theorem inferred_channel `{!SemverLaws} channelGroup toVersion sv :
  semver_Parse toVersion = Ok sv ->
  exists group minor,
    Ocm.inferUpgradeChannelFromChannelGroup channelGroup toVersion =
      Ok (group +:+ "-" +:+ pretty (Major sv) +:+ "." +:+ pretty minor) /\
    group = (if decide (channelGroup = "") then "stable" else channelGroup) /\
    (group <> "eus" -> minor = Minor sv) /\
    (group = "eus" -> Z.even minor = true /\
       (minor = Minor sv \/ minor = (Minor sv + 1)%Z \/ Minor sv = (2 ^ 64 - 1)%Z /\ minor = 0%Z)).
Proof.
  intros Hp. unfold Ocm.inferUpgradeChannelFromChannelGroup. rewrite Hp.
  set (group := if String.eqb channelGroup "" then "stable" else channelGroup).
  exists group. eexists. split; [reflexivity|]. split.
  { subst group. destruct (String.eqb_spec channelGroup ""), (decide (channelGroup = "")); done. }
  pose proof (uint64_Minor sv) as Hb.
  destruct (String.eqb_spec group "eus") as [->|Hne]; [|by split].
  split; [done|]. intros _. destruct (Z.eqb_spec (Minor sv mod 2) 0) as [He|Ho]; cbn [negb].
  - split; [|by left]. apply Z.even_spec. exists (Minor sv / 2)%Z. lia.
  - destruct (decide (Minor sv = 2 ^ 64 - 1)%Z) as [E|E].
    + rewrite E. split; [reflexivity|]. right. right. done.
    + rewrite Z.mod_small by lia. split; [|by right; left].
      apply Z.even_spec. exists ((Minor sv + 1) / 2)%Z. lia.
Qed.

End Policies.

(** An UpgradeConfig whose desired version has a history not yet Upgraded. *)
Definition unfinished (u : UpgradeConfig) : Prop :=
  exists h, GetHistory (History u) (ucVersionOf u) = Some h /\ Phase h <> UpgradePhaseUpgraded.

#[export] Instance unfinished_dec u : Decision (unfinished u).
Proof.
  unfold unfinished. destruct (GetHistory _ _) as [h|].
  - destruct (decide (Phase h = UpgradePhaseUpgraded)) as [E|E]; [right|left]; [|eauto].
    by intros (? & [= <-] & ?).
  - right. by intros (? & ? & _).
Defined.

Lemma readSpecFromConfig_filter ucs : Local.readSpecFromConfig ucs = map Spec (filter unfinished ucs).
Proof.
  induction ucs as [|u ucs IH]; [done|]. cbn [Local.readSpecFromConfig].
  assert (unfinished u <-> match GetHistory (History u) (ucVersionOf u) with
      | Some h => Phase h <> UpgradePhaseUpgraded | None => False end) as Hu.
  { unfold unfinished. destruct (GetHistory _ _); naive_solver. }
  destruct (GetHistory _ _) as [h|]; [case_bool_decide|].
  - rewrite filter_cons_True by tauto. cbn [map]. by rewrite IH.
  - rewrite filter_cons_False by tauto. done.
  - rewrite filter_cons_False by tauto. done.
Qed.

(** The local provider answers, in order, the specs of the UpgradeConfigs
    of the operator's namespace whose desired version has a history that is
    not yet Upgraded. *)
Theorem local_specs_unfinished tr specs :
  exec Local.localProvider_Get tr (Done (Ok specs)) ->
  exists ns ucs, tr = [Obs (LookupEnv "OPERATOR_NAMESPACE") (Some ns);
                       Obs (ListUpgradeConfigs ns UPGRADECONFIG_CR_NAME) (Ok ucs)] /\
    specs = map Spec (filter unfinished ucs).
Proof.
  intros ([ns|] & t & -> & H); cbn in H; [|by destruct H].
  destruct H as ([ucs|e] & t' & -> & H); cbn in H; destruct H as [-> [= ->]].
  exists ns, ucs. split; [done|]. apply readSpecFromConfig_filter.
Qed.

(** *** Witnesses *)

Definition demo_policies : list UpgradePolicy :=
  [mkUpgradePolicy "p1" "4.15.3" (mkCivil 2024 3 2 10 0 0 0 0);
   mkUpgradePolicy "p2" "4.15.1" (mkCivil 2024 3 1 10 0 0 0 0)].
Definition demo_ocm_env X (e : Eff X) (u : unit) : X * unit :=
  match e in Eff X return X * unit with
  | OcmGetCluster => (Ok (mkOcmCluster "c1" "eus" 60), u)
  | OcmGetUpgradePolicies _ => (Ok (2%Z, demo_policies), u)
  | OcmGetPolicyState _ _ => (Ok (mkPolicyState "scheduled" ""), u)
  | ListUpgradeConfigs _ _ =>
      (Ok [mkUpgradeConfig "managed-upgrade-config" "muo" "1"
             (mkSpec (mkUpdate "4.15.1" "stable-4.15" "") "2024-03-01T10:00:00Z" 60 OSD true)
             [mkHistory "4.15.1" "" UpgradePhaseNew [] None None None None]], u)
  | e' => (default_resp e', u)
  end.
Definition demo_spec : UpgradeConfigSpec :=
  mkSpec (mkUpdate "4.15.1" "eus-4.16" "") "2024-03-01T10:00:00Z" 60 OSD true.
Definition demo_ocm_run := run demo_ocm_env (@Ocm.ocmProvider_Get plainSemver OSD) tt.

Lemma demo_ocm_exec : exec (@Ocm.ocmProvider_Get plainSemver OSD) demo_ocm_run.1.1 (Done (Ok [demo_spec])).
Proof.
  assert (demo_ocm_run.1.2 = Done (Ok [demo_spec])) as <- by (vm_compute; reflexivity).
  exact (run_exec demo_ocm_env (@Ocm.ocmProvider_Get plainSemver OSD) tt).
Qed.

Lemma ocm_spec_is_next_policy_witness :
  @policy_spec plainSemver OSD demo_ocm_run.1.1 [demo_spec] /\ in_int 32 (PDBForceDrainTimeout demo_spec).
Proof.
  destruct (@ocm_spec_is_next_policy plainSemver OSD demo_ocm_run.1.1 demo_spec [] demo_ocm_exec)
    as (H1 & _ & H3 & _).
  split; [exact H1|exact H3].
Defined.

Lemma inferred_channel_witness :
  exists group minor,
    @Ocm.inferUpgradeChannelFromChannelGroup plainSemver "eus" "4.15.1" =
      Ok (group +:+ "-" +:+ pretty 4%Z +:+ "." +:+ pretty minor) /\ Z.even minor = true.
Proof.
  destruct (@inferred_channel plainSemver plainSemverLaws "eus" "4.15.1"
              (exist _ (4, 15, 1)%Z eq_refl) eq_refl) as (g & m & H1 & H2 & _ & H4).
  exists g, m. split; [exact H1|]. apply H4. rewrite H2. reflexivity.
Defined.

Lemma local_specs_unfinished_witness :
  exists ns ucs, (run demo_ocm_env Local.localProvider_Get tt).1.1 =
    [Obs (LookupEnv "OPERATOR_NAMESPACE") (Some ns); Obs (ListUpgradeConfigs ns UPGRADECONFIG_CR_NAME) (Ok ucs)] /\
    [mkSpec (mkUpdate "4.15.1" "stable-4.15" "") "2024-03-01T10:00:00Z" 60 OSD true] = map Spec (filter unfinished ucs).
Proof.
  apply local_specs_unfinished. exact (run_exec demo_ocm_env Local.localProvider_Get tt).
Defined.
