(* ===== verification/ClusterVersion.v ===== *)
(** * The ClusterVersion client (pkg/clusterversion/cv.go)

    Reading the cluster version and setting the desired update: which upgrade
    source an UpgradeConfig selects, when an upgrade has commenced or
    completed, the patches that start it, and the versions derived from the
    ClusterVersion's own history. *)

From S2P Require Import Prelude GoSort Api Effects.
From stdpp Require Import base gmap strings list.
From Stdlib Require Import ZArith Lia.

(** ** Reading the cluster version *)

Definition GetClusterVersion : M (result ClusterVersion) := call GetCV.

Inductive UpgradeSource := UpgradeWithImage | UpgradeWithChannelVersion.

Definition checkUpgradeSource (uc : UpgradeConfig) : result UpgradeSource :=
  let d := Desired (Spec uc) in
  if negb (String.eqb (desired_Image d) "") then Ok UpgradeWithImage
  else if negb (String.eqb (desired_Channel d) "") && negb (String.eqb (desired_Version d) "")
  then Ok UpgradeWithChannelVersion
  else Err (ErrText "cannot find the correct upgrade spec source").

Definition isEqualVersion (cv : ClusterVersion) (uc : UpgradeConfig) : bool :=
  match cv_DesiredUpdate cv with
  | Some du => String.eqb (du_Version du) (desired_Version (Desired (Spec uc)))
  | None => false
  end.

Definition isEqualImage (cv : ClusterVersion) (uc : UpgradeConfig) : bool :=
  match cv_DesiredUpdate cv with
  | Some du => String.eqb (du_Image du) (desired_Image (Desired (Spec uc)))
  | None => false
  end.

Definition HasUpgradeCommenced (uc : UpgradeConfig) : M (result bool) :=
  clusterVersion ←? GetClusterVersion;
  mret match checkUpgradeSource uc with
       | Err err => Err err
       | Ok UpgradeWithImage => if negb (isEqualImage clusterVersion uc) then Ok false else Ok true
       | Ok UpgradeWithChannelVersion =>
           if negb (isEqualVersion clusterVersion uc) then Ok false else Ok true
       end.

Definition GetClusterId : M string :=
  r ← GetClusterVersion;
  mret match r with
       | Err _ => "unknown"
       | Ok cv => if String.eqb (cv_ClusterID cv) "" then "unknown" else cv_ClusterID cv
       end.

(** ** Setting the desired update *)

Definition image_patch (image : string) : string :=
  "{" +:+ quoted "spec" +:+ ":{" +:+ quoted "desiredUpdate" +:+ ":{" +:+ quoted "image" +:+ ":" +:+
  quoted image +:+ "," +:+ quoted "version" +:+ ":null}}}".
Definition channel_patch (channel : string) : string :=
  "{" +:+ quoted "spec" +:+ ":{" +:+ quoted "channel" +:+ ":" +:+ quoted channel +:+ "}}".
Definition version_patch (version : string) (image : string) : string :=
  "{" +:+ quoted "spec" +:+ ":{" +:+ quoted "desiredUpdate" +:+ ":{" +:+ quoted "version" +:+ ":" +:+
  quoted version +:+ "," +:+ quoted "image" +:+ ":" +:+
  (if String.eqb image "" then "null" else quoted image) +:+ "}}}".

Definition set_Overrides (o : list string) (cv : ClusterVersion) : ClusterVersion :=
  mkClusterVersion (cv_ClusterID cv) (cv_Channel cv) (cv_Upstream cv) (cv_DesiredUpdate cv) o
    (cv_Desired_Version cv) (cv_History cv) (AvailableUpdates cv) (ConditionalUpdates cv)
    (cv_Conditions cv).

Definition runUpgradeWithImage (cv : ClusterVersion) (uc : UpgradeConfig) : M (result bool) :=
  let desired := Desired (Spec uc) in
  if match cv_DesiredUpdate cv with
     | None => true
     | Some du => negb (String.eqb (du_Image du) (desired_Image desired))
     end
  then
    _ ←? call (PatchCV cv (image_patch (desired_Image desired)));
    mret (Ok true)
  else mret (Ok true).

(** The two loops over the known updates: availability and the image to set,
    the last matching conditional update wins. *)
Definition findUpdate (cv : ClusterVersion) (version : string) : bool * string :=
  let available :=
    existsb (fun u => String.eqb (rel_Version u) version && negb (String.eqb (rel_Image u) ""))
      (AvailableUpdates cv) in
  fold_left (fun '(available, image) u =>
      if String.eqb (rel_Version u) version && negb (String.eqb (rel_Image u) "")
      then (true, rel_Image u) else (available, image))
    (ConditionalUpdates cv) (available, "").

Definition runUpgradeWithChannelVersion (cv : ClusterVersion) (uc : UpgradeConfig) : M (result bool) :=
  let desired := Desired (Spec uc) in
  cv ←? (if negb (String.eqb (cv_Channel cv) (desired_Channel desired)) then
           _ ←? call (PatchCV cv (channel_patch (desired_Channel desired)));
           GetClusterVersion
         else mret (Ok cv));
  let '(updateAvailable, image) := findUpdate cv (desired_Version desired) in
  if negb updateAvailable then mret (Ok false)
  else
    let cv := set_Overrides [] cv in
    _ ←? call (PatchCV cv (version_patch (desired_Version desired) image));
    mret (Ok true).

Definition EnsureDesiredConfig (uc : UpgradeConfig) : M (result bool) :=
  clusterVersion ←? GetClusterVersion;
  match checkUpgradeSource uc with
  | Err err => mret (Err err)
  | Ok UpgradeWithImage => runUpgradeWithImage clusterVersion uc
  | Ok UpgradeWithChannelVersion => runUpgradeWithChannelVersion clusterVersion uc
  end.

(** ** Operators and histories *)

(** Degraded is True, or Available is False. *)
Definition degraded_condition (c : StatusCondition) : bool :=
  (String.eqb (sc_Type c) "Degraded" && bool_decide (sc_Status c = ConditionTrue)) ||
  (String.eqb (sc_Type c) "Available" && bool_decide (sc_Status c = ConditionFalse)).

(** The names of the degraded operators; the inner loop breaks at the first
    bad condition, so an operator is listed once. *)
Fixpoint degradedOperators (items : list ClusterOperator) : list string :=
  match items with
  | [] => []
  | co :: rest =>
      if existsb degraded_condition (co_Conditions co)
      then co_Name co :: degradedOperators rest else degradedOperators rest
  end.

Definition HasDegradedOperators : M (result (list string)) :=
  items ←? call ListClusterOperators;
  mret (Ok (degradedOperators items)).

Definition HasUpgradeCompleted (cv : ClusterVersion) (uc : UpgradeConfig) : bool :=
  fold_left (fun isCompleted c =>
      if String.eqb (uh_Version c) (desired_Version (Desired (Spec uc)))
      then if bool_decide (uh_State c = CompletedUpdate) then true else isCompleted
      else isCompleted)
    (cv_History cv) false.

Fixpoint precedingIn (hs : list UpdateHistory) (desired : string) : option string :=
  match hs with
  | [] => None
  | h :: rest =>
      if bool_decide (uh_State h = CompletedUpdate) && negb (String.eqb (uh_Version h) "") &&
         negb (String.eqb (uh_Version h) desired)
      then Some (uh_Version h) else precedingIn rest desired
  end.

Definition GetPrecedingVersion (clusterVersion : ClusterVersion) (uc : UpgradeConfig) : string :=
  if String.eqb (cv_Desired_Version clusterVersion) (desired_Version (Desired (Spec uc))) then
    match precedingIn (cv_History clusterVersion) (desired_Version (Desired (Spec uc))) with
    | Some v => v
    | None => cv_Desired_Version clusterVersion
    end
  else cv_Desired_Version clusterVersion.

(** [clusterversion.GetHistory] *)
Fixpoint cv_GetHistory (hs : list UpdateHistory) (version : string) : option UpdateHistory :=
  match hs with
  | [] => None
  | history :: rest =>
      if String.eqb (uh_Version history) version then Some history else cv_GetHistory rest version
  end.

(** The loop of [GetCurrentVersion]; comparing with a missing completion time
    dereferences a nil pointer. *)
Fixpoint latestCompleted (hs : list UpdateHistory) (gotVersion : string)
    (latestCompletionTime : option Time) : M string :=
  match hs with
  | [] => mret gotVersion
  | history :: rest =>
      match uh_State history with
      | CompletedUpdate =>
          match latestCompletionTime with
          | None => latestCompleted rest (uh_Version history) (CompletionTime history)
          | Some latest =>
              t ← deref (CompletionTime history);
              if After t latest
              then latestCompleted rest (uh_Version history) (CompletionTime history)
              else latestCompleted rest gotVersion latestCompletionTime
          end
      | _ => latestCompleted rest gotVersion latestCompletionTime
      end
  end.

Definition GetCurrentVersion (clusterVersion : ClusterVersion) : M (result string) :=
  gotVersion ← latestCompleted (cv_History clusterVersion) "" None;
  mret (if String.eqb gotVersion "" then Err (ErrText "failed to get current version")
        else Ok gotVersion).

(** Completion times as pointers: the index of the history entry they belong
    to (pointer identity), with the time. *)
Fixpoint completedTimes (i : nat) (hs : list UpdateHistory) : list (nat * option Time) :=
  match hs with
  | [] => []
  | h :: rest =>
      match uh_State h with
      | CompletedUpdate => (i, CompletionTime h) :: completedTimes (S i) rest
      | _ => completedTimes (S i) rest
      end
  end.

Fixpoint derefTimes (l : list (nat * option Time)) : M (list (nat * Time)) :=
  match l with
  | [] => mret []
  | (i, o) :: rest => t ← deref o; rest' ← derefTimes rest; mret ((i, t) :: rest')
  end.

(** The second latest completed version: the completion times are sorted from
    latest to earliest (every element takes part in a comparison, so a missing
    time panics) and the entry owning the second one is looked up.  Go sorts up
    to twelve elements by insertion; in a longer history only the order of
    entries with equal completion times may differ from the one chosen here. *)
Definition GetCurrentVersionMinusOne (clusterVersion : ClusterVersion) : M (result string) :=
  let times := completedTimes 0 (cv_History clusterVersion) in
  if Nat.leb (length times) 1 then mret (Err (ErrText "cluster has only one version available"))
  else
    times ← derefTimes times;
    let sorted := insertionSort (less_of (fun a b => After a.2 b.2)) times in
    mret match sorted !! 1 with
         | Some (i, _) =>
             match cv_History clusterVersion !! i with
             | Some h => if String.eqb (uh_Version h) "" then Err (ErrText "failed to get current version - 1")
                         else Ok (uh_Version h)
             | None => Err (ErrText "failed to get current version - 1")
             end
         | None => Err (ErrText "failed to get current version - 1")
         end.

(** ** Lemmas *)

Lemma HasUpgradeCommenced_reads uc : all_ev reads (HasUpgradeCommenced uc).
Proof. unfold HasUpgradeCommenced, GetClusterVersion. ev_auto; try done. Qed.

Lemma GetClusterId_reads : all_ev reads GetClusterId.
Proof. unfold GetClusterId, GetClusterVersion. ev_auto; try done. Qed.

Lemma latestCompleted_reads hs v o : all_ev reads (latestCompleted hs v o).
Proof. revert v o. induction hs as [|h hs IH]; intros v o; cbn; ev_auto. Qed.

Lemma GetCurrentVersion_reads cv : all_ev reads (GetCurrentVersion cv).
Proof. unfold GetCurrentVersion. ev_auto; try apply latestCompleted_reads. Qed.

Lemma HasDegradedOperators_reads : all_ev reads HasDegradedOperators.
Proof. unfold HasDegradedOperators. ev_auto; try done. Qed.

Lemma GetClusterVersion_reads : all_ev reads GetClusterVersion.
Proof. unfold GetClusterVersion. ev_auto; try done. Qed.

#[export] Hint Resolve HasUpgradeCommenced_reads GetClusterId_reads GetCurrentVersion_reads
  HasDegradedOperators_reads GetClusterVersion_reads : muo.

(** The answer of [HasUpgradeCommenced] on a cluster version. *)
Definition commenced_in (cv : ClusterVersion) (uc : UpgradeConfig) : bool :=
  match checkUpgradeSource uc with
  | Ok UpgradeWithImage => isEqualImage cv uc
  | Ok UpgradeWithChannelVersion => isEqualVersion cv uc
  | Err _ => false
  end.

Lemma HasUpgradeCommenced_exec uc tr o :
  exec (HasUpgradeCommenced uc) tr o ->
  exists r, tr = [Obs GetCV r] /\
  match r with
  | Err e => o = Done (Err e)
  | Ok cv => match checkUpgradeSource uc with
             | Err e => o = Done (Err e)
             | Ok _ => o = Done (Ok (commenced_in cv uc))
             end
  end.
Proof.
  revert tr o. apply wp_exec. unfold HasUpgradeCommenced, GetClusterVersion. wp_cbn.
  intros [cv|e]; wp_cbn; eexists; (split; [done|]); [|done].
  unfold commenced_in.
  destruct (checkUpgradeSource uc) as [[|]|e];
    [destruct (isEqualImage cv uc)|destruct (isEqualVersion cv uc)|]; done.
Qed.

(** A release of the wanted version with an image. *)
Definition known_release (version : string) (u : Release) : Prop :=
  rel_Version u = version /\ rel_Image u <> "".

Lemma release_test version u :
  (String.eqb (rel_Version u) version && negb (String.eqb (rel_Image u) "")) = true <->
  known_release version u.
Proof.
  unfold known_release. rewrite andb_true_iff, negb_true_iff, String.eqb_eq, String.eqb_neq. done.
Qed.

Lemma findUpdate_fold version l b img :
  (b = false -> img = "") ->
  forall b' img',
  fold_left (fun '(available, image) u =>
      if String.eqb (rel_Version u) version && negb (String.eqb (rel_Image u) "")
      then (true, rel_Image u) else (available, image)) l (b, img) = (b', img') ->
  (b' = true <-> b = true \/ exists u, u ∈ l /\ known_release version u) /\
  ((img' = img /\ ~ exists u, u ∈ l /\ known_release version u) \/
   exists u, u ∈ l /\ known_release version u /\ img' = rel_Image u).
Proof.
  revert b img. induction l as [|u l IH]; intros b img Hb b' img'; cbn [fold_left].
  - intros [= <- <-]. split; [|left; split; [done|]; intros (u & H%elem_of_nil & _); done].
    split; [by left|]. intros [H|(u & H%elem_of_nil & _)]; done.
  - destruct (String.eqb (rel_Version u) version && negb (String.eqb (rel_Image u) "")) eqn:E.
    + intros H. assert (known_release version u) as Hu by by apply release_test.
      destruct (IH true (rel_Image u) ltac:(done) _ _ H) as [H1 H2]. split.
      * rewrite H1. split; [|by left]. intros _. right. exists u. set_solver.
      * destruct H2 as [[-> _]|(w & Hw & Hr & ->)]; right; [exists u|exists w]; set_solver.
    + intros H. assert (~ known_release version u) as Hu.
      { rewrite <- release_test. by rewrite E. }
      destruct (IH b img Hb _ _ H) as [H1 H2]. split.
      * rewrite H1. split; (intros [?|(w & Hw & Hr)]; [by left|right; exists w]); [set_solver|].
        apply elem_of_cons in Hw as [->|Hw]; [done|set_solver].
      * destruct H2 as [[-> Hno]|(w & Hw & Hr & ->)]; [left|right; exists w; set_solver].
        split; [done|]. intros (w & Hw & Hr). apply elem_of_cons in Hw as [->|Hw]; [done|].
        apply Hno. eauto.
Qed.

Lemma findUpdate_spec cv version :
  ((findUpdate cv version).1 = true <->
   exists u, u ∈ AvailableUpdates cv ++ ConditionalUpdates cv /\ known_release version u) /\
  (((findUpdate cv version).2 = "" /\
    ~ exists u, u ∈ ConditionalUpdates cv /\ known_release version u) \/
   exists u, u ∈ ConditionalUpdates cv /\ known_release version u /\
     (findUpdate cv version).2 = rel_Image u).
Proof.
  unfold findUpdate.
  match goal with |- context [fold_left ?f ?l (?b, ?i)] =>
    destruct (fold_left f l (b, i)) as [b' img'] eqn:E; set (b0 := b) in * end.
  destruct (findUpdate_fold version _ b0 "" ltac:(done) _ _ E) as [H1 H2].
  split; [|exact H2]. cbn [fst]. rewrite H1. subst b0. rewrite existsb_exists. split.
  - intros [(u & Hu & Ht%release_test)|(u & Hu & Hr)]; exists u; split; try done;
      apply elem_of_app; [left; by apply list_elem_of_In|by right].
  - intros (u & [Hu|Hu]%elem_of_app & Hr); [left|right; eauto].
    exists u. split; [by apply list_elem_of_In|]. by apply release_test.
Qed.

(** *** The trace of [EnsureDesiredConfig] *)

(** The desired update is in place at the end of a trace: it was there
    already (image), or the last event is the accepted patch, computed from a
    release known to the last cluster version read (channel and version). *)
Definition update_in_place (uc : UpgradeConfig) (tr : list (obs Eff)) : Prop :=
  let d := Desired (Spec uc) in
  match checkUpgradeSource uc with
  | Ok UpgradeWithImage =>
      (exists cv, tr = [Obs GetCV (Ok cv)] /\ isEqualImage cv uc = true) \/
      (exists cv cv', tr = [Obs GetCV (Ok cv); Obs (PatchCV cv (image_patch (desired_Image d))) (Ok cv')])
  | Ok UpgradeWithChannelVersion =>
      exists tr' cv cv' image u,
        tr = tr' ++ [Obs GetCV (Ok cv);
                     Obs (PatchCV (set_Overrides [] cv) (version_patch (desired_Version d) image)) (Ok cv')] /\
        (tr' = [] /\ cv_Channel cv = desired_Channel d \/
         exists cv0 cv1, tr' = [Obs GetCV (Ok cv0); Obs (PatchCV cv0 (channel_patch (desired_Channel d))) (Ok cv1)]) /\
        u ∈ AvailableUpdates cv ++ ConditionalUpdates cv /\ known_release (desired_Version d) u /\
        image = (findUpdate cv (desired_Version d)).2
  | Err _ => False
  end.

(** The version is not known: the last read cluster version lists no release
    of it, and at most the channel was patched. *)
Definition update_unknown (uc : UpgradeConfig) (tr : list (obs Eff)) : Prop :=
  let d := Desired (Spec uc) in
  checkUpgradeSource uc = Ok UpgradeWithChannelVersion /\
  exists tr' cv, tr = tr' ++ [Obs GetCV (Ok cv)] /\
    (tr' = [] \/
     exists cv0 cv1, tr' = [Obs GetCV (Ok cv0); Obs (PatchCV cv0 (channel_patch (desired_Channel d))) (Ok cv1)]) /\
    ~ exists u, u ∈ AvailableUpdates cv ++ ConditionalUpdates cv /\ known_release (desired_Version d) u.

(** After the last read, with the channel in place. *)
Lemma set_version_wp uc pre cv :
  checkUpgradeSource uc = Ok UpgradeWithChannelVersion ->
  (pre = [] /\ cv_Channel cv = desired_Channel (Desired (Spec uc)) \/
   exists cv0 cv1, pre = [Obs GetCV (Ok cv0);
     Obs (PatchCV cv0 (channel_patch (desired_Channel (Desired (Spec uc))))) (Ok cv1)]) ->
  let '(updateAvailable, image) := findUpdate cv (desired_Version (Desired (Spec uc))) in
  wp (if negb updateAvailable then mret (Ok false)
      else
        let cv := set_Overrides [] cv in
        _ ←? call (PatchCV cv (version_patch (desired_Version (Desired (Spec uc))) image));
        mret (Ok true) : M (result bool))
    (fun tr o => exists r, o = Done r /\
       match r with
       | Ok true => update_in_place uc (pre ++ Obs GetCV (Ok cv) :: tr)
       | Ok false => update_unknown uc (pre ++ Obs GetCV (Ok cv) :: tr)
       | Err _ => True
       end).
Proof.
  intros Hsrc Hpre.
  destruct (findUpdate_spec cv (desired_Version (Desired (Spec uc)))) as [Hav _].
  destruct (findUpdate _ _) as [[|] image] eqn:E; cbn [fst] in Hav; cbn [negb]; wp_cbn.
  - intros [cv'|e]; wp_cbn; (eexists; split; [done|]); [|done].
    unfold update_in_place. rewrite Hsrc. destruct Hav as [Hav _].
    destruct (Hav eq_refl) as (u & Hu & Hk).
    exists pre, cv, cv', image, u. split; [done|]. split; [done|]. rewrite E. done.
  - eexists; split; [done|]. split; [done|]. exists pre, cv. split; [done|]. split.
    + destruct Hpre as [[? _]|?]; [by left|by right].
    + intros Hu. by apply Hav in Hu.
Qed.

Lemma runUpgradeWithChannelVersion_wp uc cv :
  checkUpgradeSource uc = Ok UpgradeWithChannelVersion ->
  wp (runUpgradeWithChannelVersion cv uc) (fun tr o => exists r, o = Done r /\
    match r with
    | Ok true => update_in_place uc (Obs GetCV (Ok cv) :: tr)
    | Ok false => update_unknown uc (Obs GetCV (Ok cv) :: tr)
    | Err _ => True
    end).
Proof.
  intros Hsrc. unfold runUpgradeWithChannelVersion. apply wp_bindr.
  destruct (String.eqb_spec (cv_Channel cv) (desired_Channel (Desired (Spec uc)))) as [Hc|Hc];
    cbn [negb]; wp_cbn.
  - pose proof (set_version_wp uc [] cv Hsrc (or_introl (conj eq_refl Hc))) as H.
    destruct (findUpdate _ _) as [b img]. exact H.
  - intros [cv1|e]; wp_cbn; [|eexists; done].
    intros [cv'|e]; wp_cbn; [|eexists; done].
    pose proof (set_version_wp uc _ cv' Hsrc (or_intror (ex_intro _ cv (ex_intro _ cv1 eq_refl)))) as H.
    destruct (findUpdate _ _) as [b img]. exact H.
Qed.

(** *** Versions from the history of the cluster *)

(** Every completed entry has a completion time and a version, which the API
    guarantees. *)
Definition complete_entries (cv : ClusterVersion) : Prop :=
  Forall (fun h => uh_State h = CompletedUpdate -> is_Some (CompletionTime h) /\ uh_Version h <> "")
    (cv_History cv).

(** [h] is a completed entry with completion time [t]. *)
Definition completed_at (h : UpdateHistory) (t : Time) : Prop :=
  uh_State h = CompletedUpdate /\ CompletionTime h = Some t.

Lemma latestCompleted_spec hs v o :
  Forall (fun h => uh_State h = CompletedUpdate -> is_Some (CompletionTime h) /\ uh_Version h <> "") hs ->
  exists v', latestCompleted hs v o = Ret v' /\
  ((v' = v /\ forall h t, h ∈ hs -> completed_at h t -> exists t0, o = Some t0 /\ (t <= t0)%Z) \/
   exists h t, h ∈ hs /\ completed_at h t /\ v' = uh_Version h /\
     (forall t0, o = Some t0 -> (t0 < t)%Z) /\
     (forall h' t', h' ∈ hs -> completed_at h' t' -> (t' <= t)%Z)).
Proof.
  revert v o. induction hs as [|h hs IH]; intros v o Hall; cbn.
  { eexists; split; [done|]. left. split; [done|]. intros h t Hh. by apply elem_of_nil in Hh. }
  apply Forall_cons in Hall as [Hh Hall].
  destruct (uh_State h) eqn:Es; [destruct Hh as [[t Ht] _]; [done|]| |].
  2,3: destruct (IH v o Hall) as (v' & Hv' & Hc); exists v'; (split; [done|]);
    destruct Hc as [[-> Hc]|(h1 & t1 & Hin & Hc1 & -> & Ho & Hm)]; [left|right];
    [split; [done|]; intros h' t' [->|Hin]%elem_of_cons [Hc' ?]; [congruence|by eapply Hc]
    |exists h1, t1; split_and!; try done; [by right|];
     intros h' t' [->|Hin']%elem_of_cons [Hc' ?]; [congruence|by eapply Hm]].
  assert (completed_at h t) as Hat by done.
  assert (forall h' t', h' ∈ h :: hs -> completed_at h' t' -> t' = t \/ h' ∈ hs) as Hcase.
  { intros h' t' [->|Hin]%elem_of_cons [_ Hc']; [left; congruence|by right]. }
  assert (forall w t0, (o = None \/ exists t1, o = Some t1 /\ (t1 < t)%Z) -> t0 = t -> w = uh_Version h ->
    exists v', latestCompleted hs w (Some t0) = Ret v' /\
     exists h1 t1, h1 ∈ h :: hs /\ completed_at h1 t1 /\ v' = uh_Version h1 /\
       (forall t2, o = Some t2 -> (t2 < t1)%Z) /\
       (forall h' t', h' ∈ h :: hs -> completed_at h' t' -> (t' <= t1)%Z)) as Hnew.
  { intros w t0 Ho -> ->. destruct (IH (uh_Version h) (Some t) Hall) as (v' & Hv' & Hc).
    exists v'. split; [done|]. destruct Hc as [[-> Hc]|(h1 & t1 & Hin & Hc1 & -> & Hlt & Hm)].
    - exists h, t. split_and!; [by left|done|done| |].
      + intros t2 ->. destruct Ho as [?|(? & [= ->] & ?)]; done.
      + intros h' t' Hin Hc'. destruct (Hcase h' t' Hin Hc') as [->|Hin']; [lia|].
        destruct (Hc _ _ Hin' Hc') as (? & [= <-] & ?). done.
    - exists h1, t1. specialize (Hlt _ eq_refl). split_and!; [by right|done|done| |].
      + intros t2 ->. destruct Ho as [?|(? & [= ->] & ?)]; [done|lia].
      + intros h' t' Hin' Hc'. destruct (Hcase h' t' Hin' Hc') as [->|?]; [lia|by eapply Hm]. }
  rewrite Ht. destruct o as [t0|]; cbn.
  - unfold After. destruct (Z.ltb_spec t0 t) as [Hlt|Hle].
    + destruct (Hnew (uh_Version h) t) as (v' & ? & ?); [right; eauto|done|done|]. exists v'. eauto.
    + destruct (IH v (Some t0) Hall) as (v' & Hv' & Hc). exists v'. split; [done|].
      destruct Hc as [[-> Hc]|(h1 & t1 & Hin & Hc1 & -> & Hlt & Hm)]; [left|right].
      * split; [done|]. intros h' t' Hin' Hc'.
        destruct (Hcase h' t' Hin' Hc') as [->|?]; [eauto|by eapply Hc].
      * exists h1, t1. split_and!; [by right|done|done|done|]. intros h' t' Hin' Hc'.
        specialize (Hlt _ eq_refl). destruct (Hcase h' t' Hin' Hc') as [->|?]; [lia|by eapply Hm].
  - destruct (Hnew (uh_Version h) t) as (v' & ? & ?); [by left|done|done|]. exists v'. eauto.
Qed.

(** Under [complete_entries] the times are all there: the sorted list pairs
    the completed entries with their times. *)
Lemma completedTimes_elem i hs k o :
  (k, o) ∈ completedTimes i hs <->
  exists h, i <= k /\ hs !! (k - i) = Some h /\ uh_State h = CompletedUpdate /\ CompletionTime h = o.
Proof.
  revert i. induction hs as [|h hs IH]; intros i; cbn.
  { split; [intros H; by apply elem_of_nil in H|intros (? & _ & ? & _); done]. }
  assert ((k, o) ∈ completedTimes (S i) hs <->
    exists h', S i <= k /\ (h :: hs) !! (k - i) = Some h' /\ uh_State h' = CompletedUpdate /\
      CompletionTime h' = o) as IH'.
  { rewrite IH. split; intros (h' & Hle & Hh & ?); exists h'; (split; [done|]); (split; [|done]);
      replace (k - i) with (S (k - S i)) in * by lia; done. }
  assert (k = i \/ i <= k <-> i <= k) as Hk by lia.
  split.
  - intros H. assert ((k, o) = (i, CompletionTime h) /\ uh_State h = CompletedUpdate \/
      (k, o) ∈ completedTimes (S i) hs) as [[[= -> ->] Hs]|Hin].
    { destruct (uh_State h) eqn:Es; [apply elem_of_cons in H as [H|H]|..]; eauto. }
    + exists h. rewrite Nat.sub_diag. done.
    + apply IH' in Hin as (h' & ? & ?). exists h'. split; [lia|done].
  - intros (h' & Hle & Hh & Hs & Ho). destruct (decide (k = i)) as [->|Hne].
    + rewrite Nat.sub_diag in Hh. injection Hh as ->. rewrite Hs, <- Ho. by left.
    + assert ((k, o) ∈ completedTimes (S i) hs) as Hin.
      { apply IH'. exists h'. split_and!; [lia|done..]. }
      destruct (uh_State h); [by right|done..].
Qed.

Lemma completedTimes_NoDup i hs : NoDup (map fst (completedTimes i hs)).
Proof.
  revert i. induction hs as [|h hs IH]; intros i; cbn; [constructor|].
  destruct (uh_State h); [|done..]. cbn. constructor; [|done].
  intros H. apply list_elem_of_fmap in H as ([k o] & -> & Hin).
  apply completedTimes_elem in Hin as (h' & Hle & _). cbn in Hle. lia.
Qed.

Lemma derefTimes_some l :
  Forall (fun p : nat * option Time => is_Some p.2) l ->
  exists l', derefTimes l = Ret l' /\ l = map (fun p => (p.1, Some p.2)) l'.
Proof.
  induction l as [|[i o] l IH]; [by exists []|]. intros [[t Ht] Hl]%Forall_cons. cbn in *. subst o.
  destruct (IH Hl) as (l' & -> & ->). exists ((i, t) :: l'). done.
Qed.

Definition later (a b : nat * Time) : bool := After a.2 b.2.

Lemma later_asym a b : later a b = true -> later b a = false.
Proof. unfold later, After. rewrite Z.ltb_lt, Z.ltb_ge. lia. Qed.
Lemma later_trans a b c : later b a = false -> later c b = false -> later c a = false.
Proof. unfold later, After. rewrite !Z.ltb_ge. lia. Qed.

(** The completed entry with the second latest completion time: one entry is
    at least as late, every other one at most as late. *)
Definition second_latest (cv : ClusterVersion) (h : UpdateHistory) : Prop :=
  exists (i j : nat) h1 t1 t, i <> j /\
    cv_History cv !! i = Some h1 /\ completed_at h1 t1 /\
    cv_History cv !! j = Some h /\ completed_at h t /\ (t <= t1)%Z /\
    forall (k : nat) h' t', k <> i -> cv_History cv !! k = Some h' -> completed_at h' t' -> (t' <= t)%Z.

Lemma GetCurrentVersionMinusOne_sorted cv :
  complete_entries cv ->
  exists ts, completedTimes 0 (cv_History cv) = map (fun p => (p.1, Some p.2)) ts /\
    derefTimes (completedTimes 0 (cv_History cv)) = Ret ts /\
    insertionSort (less_of (fun a b => After a.2 b.2)) ts = isort later ts /\
    (forall k t, (k, t) ∈ ts <-> exists h, cv_History cv !! k = Some h /\ completed_at h t) /\
    NoDup (map fst ts).
Proof.
  intros Hall. destruct (derefTimes_some (completedTimes 0 (cv_History cv))) as (ts & Hd & Hts).
  - apply Forall_forall. intros [k o] (h & _ & Hh & Hs & <-)%completedTimes_elem. cbn.
    unfold complete_entries in Hall. rewrite Forall_forall in Hall. apply Hall; [|done].
    by eapply list_elem_of_lookup_2.
  - exists ts. split_and!; [done|done|apply insertionSort_isort| |].
    + intros k t. assert ((k, t) ∈ ts <-> (k, Some t) ∈ completedTimes 0 (cv_History cv)) as ->.
      { rewrite Hts, list_elem_of_fmap. split; [by exists (k, t)|].
        by intros ([k' t'] & [= -> ->] & ?). }
      rewrite completedTimes_elem, Nat.sub_0_r. unfold completed_at.
      split; [intros (h & _ & ?)|intros (h & ? & ? & ?)]; exists h; [done|].
      split_and!; [lia|done..].
    + pose proof (completedTimes_NoDup 0 (cv_History cv)) as Hnd. rewrite Hts, map_map in Hnd. exact Hnd.
Qed.

(** ** Properties *)

(** C15: [EnsureDesiredConfig] always returns; when it answers true the desired
    update is in place: it already was, or the last thing done is the accepted
    patch naming it, for a release that the last cluster version read lists
    with an image, in the desired channel; when it answers false the desired
    version is not listed and only the channel can have been patched. *)
Theorem EnsureDesiredConfig_correct uc tr o :
  exec (EnsureDesiredConfig uc) tr o ->
  exists r, o = Done r /\
    match r with
    | Ok true => update_in_place uc tr
    | Ok false => update_unknown uc tr
    | Err _ => True
    end.
Proof.
  revert tr o. apply wp_exec. unfold EnsureDesiredConfig, GetClusterVersion. wp_cbn.
  intros [cv|e]; wp_cbn; [|by eexists].
  destruct (checkUpgradeSource uc) as [[|]|e] eqn:Hsrc; [|by apply runUpgradeWithChannelVersion_wp|wp_cbn; by eexists].
  unfold runUpgradeWithImage.
  assert (match cv_DesiredUpdate cv with
          | None => true | Some du => negb (String.eqb (du_Image du) (desired_Image (Desired (Spec uc))))
          end = negb (isEqualImage cv uc)) as -> by (unfold isEqualImage; by destruct (cv_DesiredUpdate cv)).
  destruct (isEqualImage cv uc) eqn:Ei; cbn [negb]; wp_cbn.
  - eexists; split; [done|]. unfold update_in_place. rewrite Hsrc. left. eauto.
  - intros [cv'|e]; wp_cbn; (eexists; split; [done|]); [|done].
    unfold update_in_place. rewrite Hsrc. right. eauto.
Qed.

(** On a history whose completed entries carry a completion time and a
    version, the current version is that of the completed entry with the
    latest completion time, and an error exactly when nothing is completed. *)
Theorem GetCurrentVersion_latest cv :
  complete_entries cv ->
  exists r, GetCurrentVersion cv = Ret r /\
  match r with
  | Ok v => exists h t, h ∈ cv_History cv /\ completed_at h t /\ v = uh_Version h /\
      forall h' t', h' ∈ cv_History cv -> completed_at h' t' -> (t' <= t)%Z
  | Err _ => forall h, h ∈ cv_History cv -> uh_State h <> CompletedUpdate
  end.
Proof.
  intros Hall. unfold GetCurrentVersion.
  destruct (latestCompleted_spec (cv_History cv) "" None Hall) as (v & -> & Hv). cbn.
  eexists; split; [done|]. unfold complete_entries in Hall. rewrite Forall_forall in Hall.
  destruct Hv as [[-> Hno]|(h & t & Hin & Hc & -> & _ & Hm)].
  - intros h Hin Hs. destruct (Hall h Hin Hs) as [[t Ht] _].
    by destruct (Hno h t Hin (conj Hs Ht)) as (? & ? & _).
  - destruct (Hall h Hin (proj1 Hc)) as [_ Hne].
    destruct (String.eqb_spec (uh_Version h) ""); [done|]. exists h, t. done.
Qed.

(** The current version minus one is the completed version with the second
    latest completion time, and an error exactly when fewer than two upgrades
    completed. *)
Theorem GetCurrentVersionMinusOne_second cv :
  complete_entries cv ->
  exists r, GetCurrentVersionMinusOne cv = Ret r /\
  match r with
  | Ok v => exists h, second_latest cv h /\ v = uh_Version h
  | Err _ => ~ exists i j h t h' t', i <> j /\ cv_History cv !! i = Some h /\ completed_at h t /\
      cv_History cv !! j = Some h' /\ completed_at h' t'
  end.
Proof.
  intros Hall. destruct (GetCurrentVersionMinusOne_sorted cv Hall) as (ts & Hts & Hd & Hs & Hel & Hnd).
  unfold GetCurrentVersionMinusOne. rewrite Hd, Hts, length_map. cbn [mbind prog_mbind prog_bind].
  rewrite Hs. pose proof (isort_perm later ts) as Hp.
  pose proof (Permutation_length Hp) as Hlen.
  pose proof (fun i j a b => isort_order later ts i j a b later_asym later_trans) as Hord.
  destruct (Nat.leb_spec (length ts) 1) as [Hle|Hgt]; (eexists; split; [done|]).
  - intros (i & j & h & t & h' & t' & Hij & Hi & Hc & Hj & Hc').
    assert ((i, t) ∈ ts) as H1 by (apply Hel; eauto).
    assert ((j, t') ∈ ts) as H2 by (apply Hel; eauto).
    destruct ts as [|p [|]]; cbn in Hle; [by apply elem_of_nil in H1| |lia].
    apply list_elem_of_singleton in H1, H2. congruence.
  - destruct (isort later ts) as [|[i t1] [|[j t] rest]] eqn:Esort; [cbn in Hlen; lia..|]. cbn.
    assert (forall k t0, (k, t0) ∈ (i, t1) :: (j, t) :: rest <-> (k, t0) ∈ ts) as Hin.
    { intros k t0. rewrite !list_elem_of_In. split; apply Permutation_in; first [exact Hp|exact (Permutation_sym Hp)]. }
    destruct (proj1 (Hel i t1)) as (h1 & Hi & Hc1); [apply Hin; by left|].
    destruct (proj1 (Hel j t)) as (h & Hj & Hc); [apply Hin; right; by left|].
    rewrite Hj. unfold complete_entries in Hall. rewrite Forall_forall in Hall.
    destruct (Hall h) as [_ Hne]; [by eapply list_elem_of_lookup_2|apply Hc|].
    destruct (String.eqb_spec (uh_Version h) ""); [done|].
    exists h. split; [|done].
    assert (NoDup (map fst ((i, t1) :: (j, t) :: rest))) as Hnd'.
    { rewrite NoDup_ListNoDup in *. eapply Permutation_NoDup; [|exact Hnd]. by apply Permutation_map, Permutation_sym. }
    cbn in Hnd'. apply NoDup_cons in Hnd' as [Hni _].
    exists i, j, h1, t1, t. split_and!; try done.
    + intros ->. apply Hni. by left.
    + specialize (Hord 0 1 (i, t1) (j, t) ltac:(lia) eq_refl eq_refl).
      unfold later, After in Hord. cbn in Hord. apply Z.ltb_ge in Hord. lia.
    + intros k h' t' Hk Hh' Hc'.
      assert ((k, t') ∈ (i, t1) :: (j, t) :: rest) as Hkin by (apply Hin, Hel; eauto).
      apply list_elem_of_lookup in Hkin as [q Hn].
      destruct q as [|[|q]]; cbn in Hn; [congruence|injection Hn as -> ->; lia|].
      pose proof (Hord 1 (S (S q)) (j, t) (k, t') ltac:(lia) eq_refl Hn) as Hord'.
      unfold later, After in Hord'. cbn in Hord'. apply Z.ltb_ge in Hord'. lia.
Qed.

(** *** Witnesses *)

(** A cluster at 4.14.9 that knows of 4.15.1 through a conditional update. *)
Definition demo_cv : ClusterVersion :=
  mkClusterVersion "1234" "stable-4.14" "" None ["override"] "4.14.9"
    [mkUpdateHistory PartialUpdate "4.14.10" 40%Z None;
     mkUpdateHistory CompletedUpdate "4.14.9" 30%Z (Some 35%Z);
     mkUpdateHistory CompletedUpdate "4.13.2" 10%Z (Some 15%Z);
     mkUpdateHistory CompletedUpdate "4.14.1" 20%Z (Some 25%Z)]
    [] [mkRelease "4.15.1" "quay.io/ocp@sha256:15"] [].

Definition demo_target : UpgradeConfig :=
  mkUpgradeConfig "managed-upgrade-config" "muo" "1"
    (mkSpec (mkUpdate "4.15.1" "stable-4.15" "") "2024-03-01T10:00:00Z" 60 OSD true) [].

Definition demo_cv_env X (e : Eff X) (u : unit) : X * unit :=
  match e in Eff X return X * unit with
  | GetCV => (Ok demo_cv, u)
  | PatchCV cv _ => (Ok cv, u)
  | e' => (default_resp e', u)
  end.
Definition demo_ensure := run demo_cv_env (EnsureDesiredConfig demo_target) tt.

Lemma EnsureDesiredConfig_correct_witness :
  length demo_ensure.1.1 = 4 /\
  exists r, demo_ensure.1.2 = Done r /\
    match r with
    | Ok true => update_in_place demo_target demo_ensure.1.1
    | Ok false => update_unknown demo_target demo_ensure.1.1
    | Err _ => True
    end.
Proof.
  split; [reflexivity|].
  exact (EnsureDesiredConfig_correct demo_target demo_ensure.1.1 demo_ensure.1.2
           (run_exec demo_cv_env (EnsureDesiredConfig demo_target) tt)).
Defined.

Example demo_ensure_true : demo_ensure.1.2 = Done (Ok true).
Proof. reflexivity. Qed.

Lemma demo_cv_complete : complete_entries demo_cv.
Proof. repeat constructor; done. Qed.

Lemma GetCurrentVersion_latest_witness :
  GetCurrentVersion demo_cv = Ret (Ok "4.14.9") /\
  exists r, GetCurrentVersion demo_cv = Ret r /\
  match r with
  | Ok v => exists h t, h ∈ cv_History demo_cv /\ completed_at h t /\ v = uh_Version h /\
      forall h' t', h' ∈ cv_History demo_cv -> completed_at h' t' -> (t' <= t)%Z
  | Err _ => forall h, h ∈ cv_History demo_cv -> uh_State h <> CompletedUpdate
  end.
Proof. split; [reflexivity|]. exact (GetCurrentVersion_latest demo_cv demo_cv_complete). Defined.

Lemma GetCurrentVersionMinusOne_second_witness :
  GetCurrentVersionMinusOne demo_cv = Ret (Ok "4.14.1") /\
  exists r, GetCurrentVersionMinusOne demo_cv = Ret r /\
  match r with
  | Ok v => exists h, second_latest demo_cv h /\ v = uh_Version h
  | Err _ => ~ exists i j h t h' t', i <> j /\ cv_History demo_cv !! i = Some h /\ completed_at h t /\
      cv_History demo_cv !! j = Some h' /\ completed_at h' t'
  end.
Proof. split; [reflexivity|]. exact (GetCurrentVersionMinusOne_second demo_cv demo_cv_complete). Defined.
