(* ===== verification/Metrics.v ===== *)
(** * Metrics (pkg/metrics/metrics.go)

    The gauges of the operator as events ([GaugeSet] with the labels in the
    order the vector declares them, [GaugeReset] for a whole vector), the
    Prometheus queries and their answers, and a store semantics of the gauges
    against which the resets are stated. *)

From stdpp Require Import base gmap strings list pretty.
From Stdlib Require Import ZArith Lia.
From S2P Require Import Prelude GoTime Api Effects.

(** ** Names *)

Definition metricsTag : string := "upgradeoperator".
Definition nameLabel : string := "upgradeconfig_name".
Definition eventLabel : string := "event".
Definition nodeLabel : string := "node_name".
Definition alertsLabel : string := "alerts".
Definition failedReason : string := "reason".
Definition StateLabel : string := "state".
Definition VersionLabel : string := "version".
Definition PrecedingVersionLabel : string := "preceding_version".
Definition StreamLabel : string := "stream".
Definition ClusterIdLabel : string := "_id".

Definition MetricsQueryFailed : string := "healthcheck_query_failed".
Definition CriticalAlertsFiring : string := "critical_alerts_firing".
Definition ClusterOperatorsDegraded : string := "cluster_operators_degraded".
Definition ClusterOperatorsStatusFailed : string := "cluster_operator_status_failed".
Definition DefaultWorkerMachinepoolNotFound : string := "default_worker_machinepool_not_found".
Definition ClusterNodeQueryFailed : string := "cluster_node_query_failed".
Definition ClusterNodesManuallyCordoned : string := "cluster_node_manually_cordoned".
Definition ClusterNodesTaintedUnschedulable : string := "cluster_node_taint_unschedulable".
Definition ClusterInvalidPDB : string := "cluster_invalid_pdb".
Definition ClusterInvalidPDBConf : string := "cluster_invalid_pdb_configuration".
Definition PDBQueryFailed : string := "pdb_query_failed".
Definition DvoClientCreationFailed : string := "dvo_client_creation_failed".
Definition DvoMetricsQueryFailed : string := "dvo_metrics_query_failed".

Definition pagingAlerts : list string :=
  ["UpgradeConfigValidationFailedSRE"; "UpgradeClusterCheckFailedSRE";
   "UpgradeControlPlaneUpgradeTimeoutSRE"; "UpgradeNodeUpgradeTimeoutSRE";
   "UpgradeNodeDrainFailedSRE"].

(** ** The gauge vectors: full name and label names *)

Record GaugeVec := mkGaugeVec { gv_Name : string; gv_Labels : list string }.

Definition tagged (name : string) : string := metricsTag +:+ "_" +:+ name.

Definition metricValidationFailed := mkGaugeVec (tagged "upgradeconfig_validation_failed") [nameLabel].
Definition metricScalingFailed := mkGaugeVec (tagged "scaling_failed") [nameLabel].
Definition metricUpgradeWindowBreached := mkGaugeVec (tagged "upgrade_window_breached") [nameLabel].
Definition metricUpgradeControlPlaneTimeout :=
  mkGaugeVec (tagged "controlplane_timeout") [nameLabel; VersionLabel].
Definition metricHealthcheckFailed :=
  mkGaugeVec (tagged "healthcheck_failed") [nameLabel; StateLabel; VersionLabel; failedReason].
Definition metricUpgradeWorkerTimeout := mkGaugeVec (tagged "worker_timeout") [nameLabel; VersionLabel].
Definition metricNodeDrainFailed := mkGaugeVec (tagged "node_drain_timeout") [nodeLabel].
Definition metricUpgradeNotification :=
  mkGaugeVec (tagged "upgrade_notification") [nameLabel; eventLabel; VersionLabel].
Definition metricUpgradeResult :=
  mkGaugeVec (tagged "upgrade_result")
    [nameLabel; PrecedingVersionLabel; StreamLabel; VersionLabel; alertsLabel].
Definition metricUpgradeNotificationFailed :=
  mkGaugeVec "upgrade_notification_failed" [nameLabel; eventLabel].
Definition metricUpgradeConfigSyncTimestamp :=
  mkGaugeVec (tagged "upgradeconfig_sync_timestamp") [nameLabel].
Definition timestamp_vec (name : string) : GaugeVec :=
  mkGaugeVec (tagged name) [ClusterIdLabel; nameLabel; VersionLabel].
Definition upgradeStartedTimestamp := timestamp_vec "upgrade_started_timestamp".
Definition upgradeCompletedTimestamp := timestamp_vec "upgrade_completed_timestamp".
Definition controlplaneUpgradeStartedTimestamp := timestamp_vec "controlplane_upgrade_started_timestamp".
Definition controlplaneUpgradeCompletedTimestamp := timestamp_vec "controlplane_upgrade_completed_timestamp".
Definition workernodeUpgradeStartedTimestamp := timestamp_vec "workernode_upgrade_started_timestamp".
Definition workernodeUpgradeCompletedTimestamp := timestamp_vec "workernode_upgrade_completed_timestamp".

Definition ephemeralMetrics : list GaugeVec :=
  [metricValidationFailed; metricScalingFailed; metricUpgradeWindowBreached;
   metricUpgradeControlPlaneTimeout; metricHealthcheckFailed; metricUpgradeWorkerTimeout;
   metricNodeDrainFailed; metricUpgradeNotification; metricUpgradeConfigSyncTimestamp;
   metricUpgradeNotificationFailed; upgradeStartedTimestamp; upgradeCompletedTimestamp;
   controlplaneUpgradeStartedTimestamp; controlplaneUpgradeCompletedTimestamp;
   workernodeUpgradeStartedTimestamp; workernodeUpgradeCompletedTimestamp].
Definition persistentMetrics : list GaugeVec := [metricUpgradeResult].
Definition metricsList : list GaugeVec := ephemeralMetrics ++ persistentMetrics.

(** [vec.With(labels).Set(v)] and [vec.Reset()].  The values are given in the
    order of the vector's label names. *)
Definition setGauge (m : GaugeVec) (values : list string) (v : Z) : M unit :=
  call (GaugeSet (gv_Name m) (zip (gv_Labels m) values) v).
Definition resetGauge (m : GaugeVec) : M unit := call (GaugeReset (gv_Name m)).

(** ** Updates *)

Definition UpdateMetricValidationFailed (upgradeConfigName : string) : M unit :=
  setGauge metricValidationFailed [upgradeConfigName] 1.
Definition UpdateMetricValidationSucceeded (upgradeConfigName : string) : M unit :=
  setGauge metricValidationFailed [upgradeConfigName] 0.
Definition UpdateMetricHealthcheckSucceeded (upgradeConfigName reason version state : string) : M unit :=
  setGauge metricHealthcheckFailed [upgradeConfigName; state; version; reason] 0.
Definition UpdateMetricHealthcheckFailed (upgradeConfigName reason version state : string) : M unit :=
  setGauge metricHealthcheckFailed [upgradeConfigName; state; version; reason] 1.
Definition UpdateMetricScalingFailed (upgradeConfigName : string) : M unit :=
  setGauge metricScalingFailed [upgradeConfigName] 1.
Definition UpdateMetricScalingSucceeded (upgradeConfigName : string) : M unit :=
  setGauge metricScalingFailed [upgradeConfigName] 0.
Definition UpdateMetricUpgradeConfigSyncTimestamp (name : string) (time : Time) : M unit :=
  setGauge metricUpgradeConfigSyncTimestamp [name] (Unix time).
Definition UpdateMetricUpgradeControlPlaneTimeout (upgradeConfigName version : string) : M unit :=
  setGauge metricUpgradeControlPlaneTimeout [upgradeConfigName; version] 1.
Definition ResetMetricUpgradeControlPlaneTimeout (upgradeConfigName version : string) : M unit :=
  setGauge metricUpgradeControlPlaneTimeout [upgradeConfigName; version] 0.
Definition UpdateMetricUpgradeWorkerTimeout (upgradeConfigName version : string) : M unit :=
  setGauge metricUpgradeWorkerTimeout [upgradeConfigName; version] 1.
Definition ResetMetricUpgradeWorkerTimeout (upgradeConfigName version : string) : M unit :=
  setGauge metricUpgradeWorkerTimeout [upgradeConfigName; version] 0.
Definition UpdateMetricNodeDrainFailed (nodeName : string) : M unit :=
  setGauge metricNodeDrainFailed [nodeName] 1.
Definition ResetMetricNodeDrainFailed (nodeName : string) : M unit :=
  setGauge metricNodeDrainFailed [nodeName] 0.
Definition ResetAllMetricNodeDrainFailed : M unit := resetGauge metricNodeDrainFailed.
Definition UpdateMetricUpgradeWindowNotBreached (upgradeConfigName : string) : M unit :=
  setGauge metricUpgradeWindowBreached [upgradeConfigName] 0.
Definition UpdateMetricUpgradeWindowBreached (upgradeConfigName : string) : M unit :=
  setGauge metricUpgradeWindowBreached [upgradeConfigName] 1.
Definition UpdateMetricNotificationEventSent (upgradeConfigName event version : string) : M unit :=
  setGauge metricUpgradeNotification [upgradeConfigName; event; version] 1.
Definition UpdatemetricUpgradeNotificationFailed (upgradeConfigName event : string) : M unit :=
  setGauge metricUpgradeNotificationFailed [upgradeConfigName; event] 1.
Definition UpdatemetricUpgradeNotificationSucceeded (upgradeConfigName event : string) : M unit :=
  setGauge metricUpgradeNotificationFailed [upgradeConfigName; event] 0.
Definition UpdateMetricUpgradeStartedTimestamp (cluster_id name version : string) (time : Time) : M unit :=
  setGauge upgradeStartedTimestamp [cluster_id; name; version] (Unix time).
Definition UpdateMetricUpgradeCompletedTimestamp (cluster_id name version : string) (time : Time) : M unit :=
  setGauge upgradeCompletedTimestamp [cluster_id; name; version] (Unix time).
Definition UpdateMetricControlplaneUpgradeStartedTimestamp (cluster_id name version : string) (time : Time)
    : M unit :=
  setGauge controlplaneUpgradeStartedTimestamp [cluster_id; name; version] (Unix time).
Definition UpdateMetricControlplaneUpgradeCompletedTimestamp (cluster_id name version : string) (time : Time)
    : M unit :=
  setGauge controlplaneUpgradeCompletedTimestamp [cluster_id; name; version] (Unix time).
Definition UpdateMetricWorkernodeUpgradeStartedTimestamp (cluster_id name version : string) (time : Time)
    : M unit :=
  setGauge workernodeUpgradeStartedTimestamp [cluster_id; name; version] (Unix time).
Definition UpdateMetricWorkernodeUpgradeCompletedTimestamp (cluster_id name version : string) (time : Time)
    : M unit :=
  setGauge workernodeUpgradeCompletedTimestamp [cluster_id; name; version] (Unix time).

Definition UpdateMetricUpgradeResult (name precedingVersion version stream : string) (alerts : list string)
    : M unit :=
  let val := if Nat.ltb 0 (length alerts) then 0%Z else 1%Z in
  setGauge metricUpgradeResult [name; precedingVersion; stream; version; Join alerts ","] val.

(** ** Resets *)

Fixpoint resetAll (ms : list GaugeVec) : M unit :=
  match ms with
  | [] => mret tt
  | m :: rest => resetGauge m ≫= fun _ => resetAll rest
  end.

Definition ResetEphemeralMetrics : M unit := resetAll ephemeralMetrics.

Definition failureMetricsList : list GaugeVec :=
  [metricValidationFailed; metricScalingFailed; metricUpgradeControlPlaneTimeout;
   metricHealthcheckFailed; metricUpgradeWorkerTimeout; metricNodeDrainFailed;
   metricUpgradeNotification; metricUpgradeNotificationFailed; upgradeStartedTimestamp].
Definition ResetFailureMetrics : M unit := resetAll failureMetricsList.

(** ** Queries: the answer is the list of metric label maps *)

Definition Query (query : string) : M (result (list (gmap string string))) := call (PromQuery query).

Definition label_eq (l v : string) : string := l +:+ "=" +:+ quoted v.

Definition IsMetricNotificationEventSentSet (upgradeConfigName event version : string) : M (result bool) :=
  cpMetrics ←? Query (metricsTag +:+ "_upgrade_notification{" +:+
      label_eq nameLabel upgradeConfigName +:+ "," +:+ label_eq eventLabel event +:+ "," +:+
      label_eq VersionLabel version +:+ "}");
  mret (Ok (Nat.ltb 0 (length cpMetrics))).

Definition IsClusterVersionAtVersion (version : string) : M (result bool) :=
  cpMetrics ←? Query ("cluster_version{" +:+ label_eq "version" version +:+ "," +:+
      label_eq "type" "current" +:+ "}");
  mret (Ok (Nat.ltb 0 (length cpMetrics))).

Definition AlertsFromUpgrade (upgradeStart upgradeEnd : Time) : M (result (list string)) :=
  t ← now;
  let timeSinceUpgrade := Truncate (TimeSub t upgradeEnd) Second in
  let upgradeDuration := TimeSub upgradeEnd upgradeStart in
  cpMetrics ←? Query ("sum by (alertname) (max_over_time(ALERTS{" +:+ label_eq "alertstate" "firing" +:+
      "," +:+ label_eq "severity" "critical" +:+ ",alertname=~" +:+ quoted (Join pagingAlerts "|") +:+
      "}[" +:+ Duration_String upgradeDuration +:+ "] offset " +:+ Duration_String timeSinceUpgrade +:+ "))");
  mret (Ok (map (fun metric => default "" (metric !! "alertname")) cpMetrics)).

Definition IsAlertFiring (alert : string) (checkedNS ignoredNS : list string) : M (result bool) :=
  cpMetrics ←? Query ("ALERTS{" +:+ label_eq "alertstate" "firing" +:+ "," +:+ label_eq "alertname" alert +:+
      ",namespace=~" +:+ quoted ("^$|" +:+ Join checkedNS "|") +:+
      ",namespace!=" +:+ quoted (Join ignoredNS "|") +:+ "}");
  mret (Ok (Nat.ltb 0 (length cpMetrics))).

(** ** Gauge events only *)

(** Events on gauges of the given vectors. *)
Definition gauge_of (ms : list GaugeVec) X (e : Eff X) : Prop :=
  match e with
  | GaugeSet m _ _ | GaugeReset m => m ∈ map gv_Name ms
  | _ => False
  end.
Definition gauge_event X (e : Eff X) : Prop :=
  match e with GaugeSet _ _ _ | GaugeReset _ => True | _ => False end.

Lemma gauge_event_reads X e : gauge_event X e -> reads X e.
Proof. by destruct e. Qed.

Lemma setGauge_reads m vs v : all_ev reads (setGauge m vs v).
Proof. split; [done|]. intros []. exact I. Qed.
Lemma resetGauge_reads m : all_ev reads (resetGauge m).
Proof. split; [done|]. intros []. exact I. Qed.
Lemma resetAll_reads ms : all_ev reads (resetAll ms).
Proof. induction ms as [|m ms IH]; [exact I|]. cbn. split; [done|]. intros []. exact IH. Qed.
#[export] Hint Resolve setGauge_reads resetGauge_reads resetAll_reads : muo.

(** ** The gauge store

    The registry of the process: per vector, the values per label set. *)

Notation gauges := (gmap string (gmap (list (string * string)) Z)) (only parsing).

Definition gauge_apply (g : gauges) (ob : obs Eff) : gauges :=
  match ob_event ob with
  | GaugeSet m ls v => <[m := <[ls := v]> (default ∅ (g !! m))]> g
  | GaugeReset m => <[m := ∅]> g
  | _ => g
  end.
Definition gauges_after (tr : list (obs Eff)) (g : gauges) : gauges := foldl gauge_apply g tr.

(** The value of a gauge. *)
Definition gauge_value (m : GaugeVec) (values : list string) (g : gauges) : option Z :=
  default ∅ (g !! gv_Name m) !! zip (gv_Labels m) values.

Lemma gauges_after_app tr1 tr2 g : gauges_after (tr1 ++ tr2) g = gauges_after tr2 (gauges_after tr1 g).
Proof. apply foldl_app. Qed.

Lemma setGauge_exec m vs v tr o :
  exec (setGauge m vs v) tr o -> tr = [Obs (GaugeSet (gv_Name m) (zip (gv_Labels m) vs) v) tt] /\ o = Done tt.
Proof. intros ([] & t & -> & -> & ->). done. Qed.

Lemma resetAll_exec ms tr o :
  exec (resetAll ms) tr o -> tr = map (fun m => Obs (GaugeReset (gv_Name m)) tt) ms /\ o = Done tt.
Proof.
  revert tr. induction ms as [|m ms IH]; intros tr.
  - intros [-> ->]. done.
  - intros ([] & t & -> & H). destruct (IH _ H) as [-> ->]. done.
Qed.

Lemma gauges_after_resets ms g n :
  gauges_after (map (fun m => Obs (GaugeReset (gv_Name m)) tt) ms) g !! n =
  if bool_decide (n ∈ map gv_Name ms) then Some ∅ else g !! n.
Proof.
  revert g. induction ms as [|m ms IH]; intros g; [done|].
  cbn [map gauges_after foldl gauge_apply ob_event]. unfold gauges_after in IH. rewrite IH.
  destruct (bool_decide_reflect (n ∈ map gv_Name ms)) as [H|H].
  - rewrite bool_decide_true by by right. done.
  - destruct (decide (gv_Name m = n)) as [<-|Hne].
    + rewrite lookup_insert_eq, bool_decide_true by by left. done.
    + rewrite lookup_insert_ne by done. rewrite bool_decide_false; [done|].
      intros [?|?]%elem_of_cons; congruence.
Qed.

(** The selector under which Prometheus finds a gauge. *)
Definition selector_text (m : GaugeVec) (values : list string) : string :=
  gv_Name m +:+ "{" +:+ Join (map (fun '(l, v) => label_eq l v) (zip (gv_Labels m) values)) "," +:+ "}".

Lemma sentSet_exec name event version tr o :
  exec (IsMetricNotificationEventSentSet name event version) tr o ->
  exists r, tr = [Obs (PromQuery (selector_text metricUpgradeNotification [name; event; version])) r] /\
    o = Done match r with Ok l => Ok (bool_decide (l <> [])) | Err e => Err e end.
Proof.
  intros (r & t & -> & H). exists r. split.
  - destruct r as [l|e]; cbn in H; destruct H as [-> _]; do 2 f_equal;
    unfold selector_text, label_eq; cbn [gv_Name gv_Labels metricUpgradeNotification zip zip_with map];
    unfold tagged, Join; cbn [String.concat]; rewrite !string_app_assoc; done.
  - destruct r as [l|e]; cbn in H; destruct H as [_ ->]; [|done]. do 2 f_equal. by destruct l.
Qed.

Lemma gauges_after_no_gauge tr g :
  Forall (fun ob : obs Eff => no_gauge _ (ob_event ob)) tr -> gauges_after tr g = g.
Proof.
  intros H. revert g. induction H as [|[X e r] tr He _ IH]; intros g; [done|].
  cbn [gauges_after foldl]. change (foldl gauge_apply ?g0 tr) with (gauges_after tr g0). rewrite IH.
  unfold gauge_apply. cbn in He |- *. by destruct e.
Qed.

(** ** Properties *)

(** Publishing an upgrade's result and clearing the ephemeral (or the
    failure) metrics leaves every cleared vector empty and the result in
    place, 1 exactly when no alert fired. *)
Theorem upgrade_result_survives_resets name preceding version stream alerts tr1 tr2 o1 o2 g :
  exec (UpdateMetricUpgradeResult name preceding version stream alerts) tr1 o1 ->
  exec ResetEphemeralMetrics tr2 o2 \/ exec ResetFailureMetrics tr2 o2 ->
  let g' := gauges_after (tr1 ++ tr2) g in
  gauge_value metricUpgradeResult [name; preceding; stream; version; Join alerts ","] g' =
    Some (if decide (alerts = []) then 1 else 0)%Z /\
  (forall m values, m ∈ failureMetricsList -> gauge_value m values g' = None) /\
  (forall m values, exec ResetEphemeralMetrics tr2 o2 -> m ∈ ephemeralMetrics ->
     gauge_value m values g' = None).
Proof.
  intros H1 H2. apply setGauge_exec in H1 as [-> ->]. cbn zeta. unfold gauge_value.
  rewrite gauges_after_app. set (g1 := gauges_after [_] g).
  assert (default ∅ (g1 !! gv_Name metricUpgradeResult) !!
    zip (gv_Labels metricUpgradeResult) [name; preceding; stream; version; Join alerts ","] =
    Some (if decide (alerts = []) then 1 else 0)%Z) as Hg1.
  { subst g1. cbn [gauges_after foldl gauge_apply ob_event]. rewrite lookup_insert_eq.
    cbn [default from_option]. unfold id. rewrite lookup_insert_eq. by destruct alerts. }
  assert (forall (ms : list GaugeVec) m, m ∈ ms -> gv_Name m ∈ map gv_Name ms) as Hin.
  { intros ms m Hm. apply list_elem_of_fmap. eauto. }
  split_and!.
  - assert (forall ms, bool_decide (gv_Name metricUpgradeResult ∈ map gv_Name ms) = false ->
      gauges_after (map (fun m => Obs (GaugeReset (gv_Name m)) tt) ms) g1 !! gv_Name metricUpgradeResult =
      g1 !! gv_Name metricUpgradeResult) as Hkeep.
    { intros ms Hms. by rewrite gauges_after_resets, Hms. }
    destruct H2 as [H|H]; apply resetAll_exec in H as [-> _]; rewrite Hkeep; done.
  - intros m values Hm. destruct H2 as [H|H]; apply resetAll_exec in H as [-> _];
      rewrite gauges_after_resets, bool_decide_true; try done; [|by apply Hin].
    assert (forall x, x ∈ failureMetricsList -> x ∈ ephemeralMetrics) as Hsub; [|by apply Hin, Hsub].
    apply Forall_forall. unfold failureMetricsList, ephemeralMetrics.
    repeat constructor; repeat (by left || right).
  - intros m values He Hm. apply resetAll_exec in He as [-> _].
    rewrite gauges_after_resets, bool_decide_true; [done|by apply Hin].
Qed.

(** The question whether a notification was sent asks Prometheus for
    exactly the gauge that recording the notification sets. *)
Theorem notification_query_matches_gauge name event version tr o tr' o' :
  exec (UpdateMetricNotificationEventSent name event version) tr o ->
  exec (IsMetricNotificationEventSentSet name event version) tr' o' ->
  tr = [Obs (GaugeSet (gv_Name metricUpgradeNotification)
              (zip (gv_Labels metricUpgradeNotification) [name; event; version]) 1) tt] /\
  exists r, tr' = [Obs (PromQuery (selector_text metricUpgradeNotification [name; event; version])) r] /\
    o' = Done match r with Ok l => Ok (bool_decide (l <> [])) | Err e => Err e end.
Proof.
  intros [-> _]%setGauge_exec H%sentSet_exec. by split.
Qed.

(** *** Witnesses *)

Lemma upgrade_result_survives_resets_witness :
  let tr1 := trace_of (UpdateMetricUpgradeResult "muc" "4.14.9" "4.15.1" "stable" []) in
  let tr2 := trace_of ResetEphemeralMetrics in
  let g' := gauges_after (tr1 ++ tr2) ∅ in
  gauge_value metricUpgradeResult ["muc"; "4.14.9"; "stable"; "4.15.1"; ""] g' = Some 1%Z.
Proof.
  exact (proj1 (upgrade_result_survives_resets "muc" "4.14.9" "4.15.1" "stable" [] _ _ _ _ ∅
    (default_exec _) (or_introl (default_exec ResetEphemeralMetrics)))).
Defined.

Lemma notification_query_matches_gauge_witness :
  length (trace_of (IsMetricNotificationEventSentSet "muc" "StateStarted" "4.15.1")) = 1 /\
  exists r, trace_of (IsMetricNotificationEventSentSet "muc" "StateStarted" "4.15.1") =
    [Obs (PromQuery (selector_text metricUpgradeNotification ["muc"; "StateStarted"; "4.15.1"])) r].
Proof.
  split; [reflexivity|].
  destruct (notification_query_matches_gauge "muc" "StateStarted" "4.15.1" _ _ _ _
    (default_exec (UpdateMetricNotificationEventSent "muc" "StateStarted" "4.15.1"))
    (default_exec (IsMetricNotificationEventSentSet "muc" "StateStarted" "4.15.1"))) as (_ & r & Hr & _).
  exists r. exact Hr.
Defined.
