(* ===== verification/UpgradeConfigManager.v ===== *)
(** * The UpgradeConfig manager (pkg/upgradeconfigmanager)

    [Refresh] makes the UpgradeConfig on the cluster follow the specs of the
    provider.  It is proved to implement [sync_spec] on an API server that
    stores the resource, and, in every environment, to create only after the
    server said that there is none.  The sync loop is a step relation. *)

From stdpp Require Import base gmap strings list.
From Stdlib Require Import ZArith Lia SpecFloat.
From S2P Require Import Prelude GoTime Api Effects Config Metrics SpecProvider.

(** ** Configuration (config.go) *)

Record UpgradeConfigManagerConfig := mkUpgradeConfigManagerConfig { WatchIntervalMinutes : Z }.

#[export] Instance UpgradeConfigManagerConfig_IsValid : ConfigValidator UpgradeConfigManagerConfig :=
  fun cfg => if (WatchIntervalMinutes cfg <=? 0)%Z then Some (ErrSentinel ErrNoConfigManagerDefined) else None.

Definition GetWatchInterval (cfg : UpgradeConfigManagerConfig) : Duration :=
  dur_mul (WatchIntervalMinutes cfg) Minute.

(** ** Reading the UpgradeConfig *)

Definition ucm_Get : M (result UpgradeConfig) :=
  r ← GetOperatorNamespace;
  match r with
  | Err _ => mret (Err (ErrSentinel ErrMissingOperatorNamespace))
  | Ok ns =>
      r ← call (GetUpgradeConfig UPGRADECONFIG_CR_NAME ns);
      mret match r with
           | Err err => if IsNotFound err then Err (ErrSentinel ErrUpgradeConfigNotFound)
                        else Err (ErrSentinel ErrRetrievingUpgradeConfigs)
           | Ok instance => Ok instance
           end
  end.

(** The [UpgradeConfigManager] as the other components use it: reading. *)
Class UpgradeConfigManager := {
  manager_Get : M (result UpgradeConfig);
  manager_Get_reads : all_ev reads manager_Get;
  manager_Get_no_panic : no_panic manager_Get;
  manager_Get_no_gauge : all_ev no_gauge manager_Get;
}.
Arguments manager_Get : clear implicits.
#[export] Hint Resolve manager_Get_reads manager_Get_no_panic manager_Get_no_gauge : muo.

Lemma ucm_Get_reads : all_ev reads ucm_Get.
Proof. unfold ucm_Get. ev_auto; done. Qed.
Lemma ucm_Get_no_panic : no_panic ucm_Get.
Proof. unfold ucm_Get, GetOperatorNamespace. np_auto. Qed.
Lemma ucm_Get_no_gauge : all_ev no_gauge ucm_Get.
Proof. unfold ucm_Get, GetOperatorNamespace. ev_auto; done. Qed.
#[export] Hint Resolve ucm_Get_reads ucm_Get_no_panic : muo.

Definition upgradeConfigManager : UpgradeConfigManager :=
  {| manager_Get := ucm_Get; manager_Get_reads := ucm_Get_reads;
     manager_Get_no_panic := ucm_Get_no_panic; manager_Get_no_gauge := ucm_Get_no_gauge |}.

(** ** Re-creating the UpgradeConfig *)

Definition set_ResourceVersion (v : string) (uc : UpgradeConfig) : UpgradeConfig :=
  mkUpgradeConfig (uc_Name uc) (uc_Namespace uc) v (Spec uc) (History uc).

Definition errTimeout : error := ErrText "context deadline exceeded".

(** The poll for the deletion: every five seconds, a first time at once, until
    it is confirmed or fails, or the minute has passed; [attempts] is the
    number of polls that the waiting library makes after the first. *)
Fixpoint confirmDeleted (attempts : nat) : M (option error) :=
  r ← ucm_Get;
  match r with
  | Err err => if is_sentinel ErrUpgradeConfigNotFound err then mret None else mret (Some err)
  | Ok _ =>
      match attempts with
      | O => mret (Some errTimeout)
      | S n => _ ← call (Sleep (5 * Second)); confirmDeleted n
      end
  end.

Section Refresh.
Context (attempts : nat).

Definition recreateUpgradeConfigOnChange (foundUpgradeConfig : bool)
    (existingUpgradeConfig newUpgradeConfig : UpgradeConfig) : M (option error) :=
  let create : M (option error) :=
    let newUpgradeConfig := set_ResourceVersion "" newUpgradeConfig in
    r ← call (CreateUpgradeConfig newUpgradeConfig);
    mret match r with
         | Err err => Some (ErrText ("unable to apply UpgradeConfig changes: " +:+ error_msg err))
         | Ok _ => None
         end in
  if foundUpgradeConfig then
    r ← call (DeleteUpgradeConfig existingUpgradeConfig (Some 0%Z));
    match r with
    | Err err =>
        if is_sentinel ErrUpgradeConfigNotFound err then create
        else mret (Some (ErrSentinel ErrRemovingUpgradeConfig))
    | Ok _ =>
        c ← confirmDeleted attempts;
        match c with
        | Some err =>
            mret (Some (ErrText ("unable to confirm deletion of current UpgradeConfig: " +:+ error_msg err)))
        | None => create
        end
    end
  else create.

(** ** Refresh *)

Context `{!SpecProviderBuilder}.

Definition Refresh : M (result bool) :=
  r ← GetOperatorNamespace;
  match r with
  | Err _ => mret (Err (ErrSentinel ErrMissingOperatorNamespace))
  | Ok operatorNS =>
      r ← ucm_Get;
      found ←? (mret match r with
                     | Ok uc => Ok (uc, true)
                     | Err err => if is_sentinel ErrUpgradeConfigNotFound err
                                  then Ok (zeroUpgradeConfig, false) else Err err
                     end : M (result (UpgradeConfig * bool)));
      let '(currentUpgradeConfig, foundUpgradeConfig) := found in
      r ← provider_New;
      match r with
      | Err err => if is_sentinel ErrNoSpecProviderConfig err then mret (Err (ErrSentinel ErrNotConfigured))
                   else mret (Err err)
      | Ok pp =>
          r ← provider_Get pp;
          match r with
          | Err _ => mret (Err (ErrSentinel ErrProviderSpecPull))
          | Ok [] =>
              if foundUpgradeConfig then
                r ← call (DeleteUpgradeConfig currentUpgradeConfig None);
                mret match r with
                     | Err _ => Err (ErrSentinel ErrRemovingUpgradeConfig)
                     | Ok _ => Ok true
                     end
              else mret (Ok false)
          | Ok (upgradeConfigSpec :: _) =>
              let replacementUpgradeConfig :=
                mkUpgradeConfig UPGRADECONFIG_CR_NAME operatorNS "" upgradeConfigSpec [] in
              if bool_decide (Spec replacementUpgradeConfig <> Spec currentUpgradeConfig) then
                e ← recreateUpgradeConfigOnChange foundUpgradeConfig currentUpgradeConfig
                      replacementUpgradeConfig;
                mret match e with Some err => Err err | None => Ok true end
              else mret (Ok false)
          end
      end
  end.

End Refresh.

Lemma confirmDeleted_reads n : all_ev reads (confirmDeleted n).
Proof.
  induction n as [|n IH]; cbn [confirmDeleted]; (apply all_ev_bind; [apply ucm_Get_reads|]); intros [uc|e]; ev_auto; done.
Qed.

(** A refresh creates and deletes; it updates nothing that is stored. *)
Lemma Refresh_no_rewrite attempts {providers : SpecProviderBuilder} : all_ev no_rewrite (Refresh attempts).
Proof.
  assert (forall {A} (p : M A), all_ev reads p -> all_ev no_rewrite p) as H.
  { intros A p Hp. eapply all_ev_impl; [|exact Hp]. intros X e He. by apply no_uc_write_no_rewrite, reads_no_uc_write. }
  pose proof (H _ _ GetOperatorNamespace_reads). pose proof (H _ _ ucm_Get_reads). pose proof (H _ _ provider_New_reads).
  pose proof (fun pp => H _ _ (@provider_Get_reads pp)). pose proof (fun n => H _ _ (confirmDeleted_reads n)).
  unfold Refresh, recreateUpgradeConfigOnChange. cbn zeta. ev_auto; done.
Qed.

(** ** The upgrade in progress *)

(** The phase of the last history of the desired version. *)
Definition getCurrentUpgradeConfigPhase (uc : UpgradeConfig) : UpgradePhase :=
  match fold_left (fun found h => if String.eqb (Version h) (ucVersionOf uc) then Some h else found)
          (History uc) None with
  | None => UpgradePhaseUnknown
  | Some history => Phase history
  end.

Definition upgradeInProgress (uc : UpgradeConfig) : M (result bool) :=
  let phase := getCurrentUpgradeConfigPhase uc in
  let history := GetHistory (History uc) (ucVersionOf uc) in
  if bool_decide (phase = UpgradePhaseUpgrading) &&
     match history with Some h => existsb IsTrue (hist_Conditions h) | None => false end
  then mret (Ok true)
  else
    r ← call GetCV;
    match r with
    | Err _ => mret (Err (ErrText "can't determine cluster version"))
    | Ok version =>
        mret (Ok (existsb (fun condition => String.eqb (sc_Type condition) "Progressing" &&
                                            bool_decide (sc_Status condition = ConditionTrue))
                    (cv_Conditions version)))
    end.

(** ** The sync loop *)

(** Binary64 arithmetic of the jitter. *)
Definition float64 (z : Z) : spec_float := binary_normalize 53 1024 z 0 false.
Definition fmul : spec_float -> spec_float -> spec_float := SFmul 53 1024.
Definition fadd : spec_float -> spec_float -> spec_float := SFadd 53 1024.
Definition fsub : spec_float -> spec_float -> spec_float := SFsub 53 1024.

(** [int64(math.Floor(f))] and [int64(math.Ceil(f))]. *)
Definition ffloor (f : spec_float) : Z :=
  match f with
  | S754_finite s m e =>
      let v := if s then Z.neg m else Z.pos m in
      if (0 <=? e)%Z then (v * 2 ^ e)%Z else (v / 2 ^ (- e))%Z
  | _ => 0%Z
  end.
Definition fceil (f : spec_float) : Z := (- ffloor (SFopp f))%Z.

(** The constant 0.1. *)
Definition JITTER_FACTOR : spec_float := S754_finite false 7205759403792794 (-56).

Definition INITIAL_SYNC_DURATION : Duration := Minute.

Definition durationWithJitter (t : Duration) (factor : spec_float) : M Duration :=
  seed ← now;
  let min := ffloor (fmul (float64 t) (fsub (float64 1) factor)) in
  let max := fceil (fmul (float64 t) (fadd (float64 1) factor)) in
  if (max - min <=? 0)%Z then Panic "invalid argument to Int63n"
  else r ← call (Int63n seed (max - min)); mret (r + min)%Z.

(** The back-off counter (github.com/jpillora/backoff). *)
Class Backoff := {
  Counter : Type;
  backoff_Duration : Counter -> Duration * Counter;
  backoff_Reset : Counter -> Counter;
}.

Section Sync.
Context (attempts : nat) `{!SpecProviderBuilder} `{!Backoff} `{!Yaml UpgradeConfigManagerConfig}.

Definition readConfigManagerConfig : M (result UpgradeConfigManagerConfig) := readConfig.

(** The wait for a configuration: [None] when it is still missing after the
    given number of minutes. *)
Fixpoint awaitConfig (minutes : nat) : M (option UpgradeConfigManagerConfig) :=
  r ← readConfigManagerConfig;
  match r with
  | Ok cfg => mret (Some cfg)
  | Err _ =>
      _ ← call (Sleep Minute);
      match minutes with O => mret None | S n => awaitConfig n end
  end.

Record SyncState := mkSyncState { backoffCounter : Counter; duration : Duration }.

(** The timer case of the select. *)
Definition onTimer (cfg : UpgradeConfigManagerConfig) (st : SyncState) : M SyncState :=
  r ← Refresh attempts;
  match r with
  | Err _ =>
      let '(waitDuration, b) := backoff_Duration (backoffCounter st) in
      d ← durationWithJitter waitDuration JITTER_FACTOR;
      mret (mkSyncState b d)
  | Ok _ =>
      let b := backoff_Reset (backoffCounter st) in
      t ← now;
      _ ← UpdateMetricUpgradeConfigSyncTimestamp UPGRADECONFIG_CR_NAME t;
      d ← durationWithJitter (GetWatchInterval cfg) JITTER_FACTOR;
      mret (mkSyncState b d)
  end.

(** The loop of [StartSync]: the [break] of the stop case leaves the select,
    not the loop. *)
Inductive SelectCase := TimerFired | StopRequested.
Inductive sync_step (cfg : UpgradeConfigManagerConfig) : SyncState -> SelectCase -> SyncState -> Prop :=
| sync_timer st tr st' :
    exec (onTimer cfg st) tr (Done st') -> sync_step cfg st TimerFired st'
| sync_stop st : sync_step cfg st StopRequested st.

End Sync.

(** ** Lemmas: creation only after the resource is known to be absent *)

(** The lookup of an UpgradeConfig answered that there is none. *)
Definition lookup_absent (ob : obs Eff) : bool :=
  match ob_event ob in Eff X return X -> bool with
  | GetUpgradeConfig _ _ => fun r => match r with Err e => IsNotFound e | Ok _ => false end
  | _ => fun _ => false
  end (ob_resp ob).

(** After an observation: a lookup says it is absent, a creation or deletion
    makes that unknown again. *)
Definition absent_next (absent : bool) (ob : obs Eff) : bool :=
  match ob_event ob with
  | CreateUpgradeConfig _ | DeleteUpgradeConfig _ _ => false
  | _ => absent || lookup_absent ob
  end.
Definition absent_after (absent : bool) (tr : list (obs Eff)) : bool := foldl absent_next absent tr.

Definition is_create (ob : obs Eff) : bool :=
  match ob_event ob with CreateUpgradeConfig _ => true | _ => false end.

(** Every creation happens when the resource is known to be absent. *)
Fixpoint guarded (absent : bool) (tr : list (obs Eff)) : Prop :=
  match tr with
  | [] => True
  | ob :: tr' => (is_create ob = true -> absent = true) /\ guarded (absent_next absent ob) tr'
  end.

(** The API server answers a deletion with its own errors, never with the
    variable of this package. *)
Definition delete_answer (ob : obs Eff) : Prop :=
  match ob_event ob in Eff X return X -> Prop with
  | DeleteUpgradeConfig _ _ => fun r =>
      match r with Err e => is_sentinel ErrUpgradeConfigNotFound e = false | Ok _ => True end
  | _ => fun _ => True
  end (ob_resp ob).

Lemma guarded_app b t1 t2 : guarded b (t1 ++ t2) <-> guarded b t1 /\ guarded (absent_after b t1) t2.
Proof.
  revert b. induction t1 as [|ob t1 IH]; intros b; cbn; [tauto|]. rewrite IH. tauto.
Qed.

Lemma absent_after_app b t1 t2 : absent_after b (t1 ++ t2) = absent_after (absent_after b t1) t2.
Proof. apply foldl_app. Qed.

Lemma reads_guarded b tr :
  Forall (fun ob : obs Eff => reads _ (ob_event ob)) tr ->
  guarded b tr /\ (b = true -> absent_after b tr = true).
Proof.
  intros H. revert b. induction H as [|ob tr Hob _ IH]; intros b; [done|].
  assert (is_create ob = false /\ (b = true -> absent_next b ob = true)) as [Hc Hn].
  { destruct ob as [X e r]. unfold reads in Hob. cbn in Hob. unfold is_create, absent_next. cbn.
    destruct e; cbn in Hob |- *; try discriminate Hob; split; try done; intros ->; done. }
  destruct (IH (absent_next b ob)) as [H1 H2]. cbn [guarded absent_after foldl]. rewrite Hc.
  split; [by split|]. intros Hb. by apply H2, Hn.
Qed.

Lemma guarded_true tr : guarded false tr -> guarded true tr.
Proof.
  assert (forall b b', (b = true -> b' = true) -> guarded b tr -> guarded b' tr) as H; [|by apply H].
  induction tr as [|ob tr IH]; intros b b' Hb; cbn; [done|]. intros [Hc Hg]. split; [auto|].
  revert Hg. apply IH. unfold absent_next. destruct (ob_event ob); try done; destruct b; cbn;
    rewrite ?(Hb eq_refl); try done; intros ->; by rewrite orb_true_r.
Qed.

Lemma ucm_Get_wp :
  wp ucm_Get (fun tr o => exists r, o = Done r /\ Forall (fun ob : obs Eff => reads _ (ob_event ob)) tr /\
    (r = Err (ErrSentinel ErrUpgradeConfigNotFound) -> forall b, absent_after b tr = true) /\
    match r with Err e => exists x, e = ErrSentinel x | Ok _ => True end).
Proof.
  unfold ucm_Get, GetOperatorNamespace. wp_cbn. intros [ns|]; wp_cbn.
  - intros [uc|e]; wp_cbn.
    + eexists; split; [done|]. split; [by repeat constructor|]. done.
    + eexists; split; [done|]. split; [by repeat constructor|].
      destruct (IsNotFound e) eqn:E; (split; [|by eexists]); [|done].
      intros _ b. cbn. unfold absent_next, lookup_absent. cbn. rewrite E. by destruct b.
  - eexists; split; [done|]. split; [by repeat constructor|]. split; [done|by eexists].
Qed.

Lemma confirmDeleted_wp n :
  wp (confirmDeleted n) (fun tr o => exists e, o = Done e /\
    Forall (fun ob : obs Eff => reads _ (ob_event ob)) tr /\
    (e = None -> forall b, absent_after b tr = true)).
Proof.
  induction n as [|n IH]; cbn [confirmDeleted]; apply wp_bind; (eapply wp_mono; [apply ucm_Get_wp|]);
    intros tr o (r & -> & Hr & Ha & Hx); destruct r as [uc|e].
  - wp_cbn. rewrite app_nil_r. eexists; split; [done|]. by split.
  - destruct Hx as [x ->]. cbn [is_sentinel].
    destruct (bool_decide_reflect (ErrUpgradeConfigNotFound = x)) as [<-|]; wp_cbn;
      rewrite app_nil_r; eexists; (split; [done|]); (split; [done|]); auto; discriminate.
  - wp_cbn. intros []. eapply wp_mono; [exact IH|]. intros tr' o' (e & -> & Hr' & Ha').
    eexists; split; [done|]. split.
    + apply Forall_app. split; [done|]. by constructor.
    + intros -> b. rewrite absent_after_app. cbn. by apply Ha'.
  - destruct Hx as [x ->]. cbn [is_sentinel].
    destruct (bool_decide_reflect (ErrUpgradeConfigNotFound = x)) as [<-|]; wp_cbn;
      rewrite app_nil_r; eexists; (split; [done|]); (split; [done|]); auto; discriminate.
Qed.

Lemma create_wp (found : bool) pre new Q :
  (forall r tr', tr' = pre ++ [Obs (CreateUpgradeConfig new) r] ->
     Q tr' (Done match r with
             | Err err => Some (ErrText ("unable to apply UpgradeConfig changes: " +:+ error_msg err))
             | Ok _ => None end)) ->
  wp (r ← call (CreateUpgradeConfig new);
      mret match r with
           | Err err => Some (ErrText ("unable to apply UpgradeConfig changes: " +:+ error_msg err))
           | Ok _ => None
           end : M (option error))
     (fun tr o => Q (pre ++ tr) o).
Proof. intros H. wp_cbn. intros r. by apply H. Qed.

Lemma recreate_wp attempts (found : bool) cur new :
  wp (recreateUpgradeConfigOnChange attempts found cur new) (fun tr o =>
    exists e, o = Done e /\ (Forall delete_answer tr -> guarded (negb found) tr) /\
    (Forall delete_answer tr -> e = None ->
     mutations tr = (if found then [Obs (DeleteUpgradeConfig cur (Some 0%Z)) (Ok tt)] else []) ++
                    [Obs (CreateUpgradeConfig (set_ResourceVersion "" new)) (Ok tt)])).
Proof.
  unfold recreateUpgradeConfigOnChange. destruct found.
  - wp_cbn. intros [[]|e].
    + cbn [mbind prog_mbind prog_bind]. apply wp_bind. eapply wp_mono; [apply confirmDeleted_wp|].
      intros tr o (e & -> & Hr & Ha). destruct (reads_guarded false tr Hr) as [Hg _].
      destruct e as [err|]; wp_cbn.
      * rewrite app_nil_r. eexists; split; [done|]. split; [|done]. intros _. cbn. by split.
      * intros r. eexists; split; [done|]. split.
        -- intros _. cbn. split; [done|]. rewrite guarded_app. split; [exact Hg|].
           split; [|done]. intros _. by apply Ha.
        -- intros _ Hn. destruct r as [[]|]; [|done].
           change (Obs ?e ?x :: tr ++ ?l) with ([Obs e x] ++ tr ++ l).
           rewrite !mutations_app, (mutations_reads tr Hr). done.
    + cbn [mbind prog_mbind prog_bind]. destruct (is_sentinel ErrUpgradeConfigNotFound e) eqn:E; wp_cbn.
      * intros r. eexists; split; [done|].
        split; intros [Hd _]%Forall_cons; unfold delete_answer in Hd; cbn in Hd; congruence.
      * eexists; split; [done|]. split; [|done]. intros _. by split.
  - wp_cbn. intros r. eexists; split; [done|]. split; [done|]. intros _ Hn. by destruct r as [[]|].
Qed.

Section RefreshSafety.
Context (attempts : nat) `{!SpecProviderBuilder}.

(** What the outcome of a refresh says about its mutations. *)
Definition refresh_effects (r : result bool) (ms : list (obs Eff)) : Prop :=
  match r with
  | Ok false => ms = []
  | Ok true =>
      (exists cur, ms = [Obs (DeleteUpgradeConfig cur None) (Ok tt)]) \/
      (exists new, ms = [Obs (CreateUpgradeConfig new) (Ok tt)] /\ uc_Name new = UPGRADECONFIG_CR_NAME) \/
      (exists cur new, ms = [Obs (DeleteUpgradeConfig cur (Some 0%Z)) (Ok tt);
                             Obs (CreateUpgradeConfig new) (Ok tt)] /\ uc_Name new = UPGRADECONFIG_CR_NAME)
  | Err _ => True
  end.

(** The part of [Refresh] after the reads of the trace [pre]. *)
Lemma act_on_specs_wp pre ns (cur : UpgradeConfig) (found : bool) r :
  Forall (fun ob : obs Eff => reads _ (ob_event ob)) pre ->
  (found = false -> absent_after false pre = true) ->
  wp (match r with
      | Err _ => mret (Err (ErrSentinel ErrProviderSpecPull))
      | Ok [] =>
          if found then
            r ← call (DeleteUpgradeConfig cur None);
            mret match r with
                 | Err _ => Err (ErrSentinel ErrRemovingUpgradeConfig)
                 | Ok _ => Ok true
                 end
          else mret (Ok false)
      | Ok (upgradeConfigSpec :: _) =>
          let replacementUpgradeConfig := mkUpgradeConfig UPGRADECONFIG_CR_NAME ns "" upgradeConfigSpec [] in
          if bool_decide (Spec replacementUpgradeConfig <> Spec cur) then
            e ← recreateUpgradeConfigOnChange attempts found cur replacementUpgradeConfig;
            mret match e with Some err => Err err | None => Ok true end
          else mret (Ok false)
      end : M (result bool))
    (fun tr o => exists r, o = Done r /\
      (Forall delete_answer (pre ++ tr) -> guarded false (pre ++ tr) /\ refresh_effects r (mutations (pre ++ tr)))).
Proof.
  intros Hr Habs. destruct (reads_guarded false pre Hr) as [Hg _]. pose proof (mutations_reads _ Hr) as Hm.
  destruct r as [[|sp specs]|e].
  - destruct found; wp_cbn.
    + intros r. eexists; split; [done|]. intros _. rewrite guarded_app, mutations_app, Hm.
      split; [by repeat split|]. destruct r as [[]|]; [|done]. left. by eexists.
    + rewrite app_nil_r. eexists; split; [done|]. done.
  - cbn zeta. destruct (bool_decide _).
    + apply wp_bind. eapply wp_mono; [apply recreate_wp|]. intros tr o (e & -> & Hgr & Hmr). wp_cbn.
      rewrite app_nil_r. eexists; split; [done|]. intros [_ Hd]%Forall_app.
      rewrite guarded_app, mutations_app, Hm. split.
      * split; [done|]. destruct found; cbn [negb] in Hgr.
        -- destruct (absent_after false pre); [|by apply Hgr]. specialize (Hgr Hd).
           by apply guarded_true.
        -- rewrite Habs by done. by apply Hgr.
      * destruct e as [err|]; [done|]. rewrite Hmr by done.
        destruct found; [right; right; exists cur|right; left]; eexists; (split; [done|]); done.
    + wp_cbn. rewrite app_nil_r. eexists; split; [done|]. done.
  - wp_cbn. rewrite app_nil_r. eexists; split; [done|]. done.
Qed.

Lemma Refresh_wp :
  wp (Refresh attempts) (fun tr o => exists r, o = Done r /\
    (Forall delete_answer tr -> guarded false tr /\ refresh_effects r (mutations tr))).
Proof.
  unfold Refresh. apply wp_bind.
  eapply wp_mono; [apply reads_wp; eauto with muo|]. intros t1 o (Hr1 & r & ->).
  assert (forall pre (err : error), Forall (fun ob : obs Eff => reads _ (ob_event ob)) pre ->
    exists r, Done (Err err : result bool) = Done r /\
    (Forall delete_answer pre -> guarded false pre /\ refresh_effects r (mutations pre))) as Hearly.
  { intros pre err Hr. eexists; split; [done|]. intros _. split; [|done]. by apply reads_guarded. }
  destruct r as [ns|e]; [|wp_cbn; apply Hearly; by rewrite app_nil_r].
  apply wp_bind. eapply wp_mono; [apply ucm_Get_wp|].
  intros t2 o (r & -> & Hr2 & Habs & Hx). apply wp_bindr.
  destruct (match r with Ok uc => Ok (uc, true) | Err err => if is_sentinel ErrUpgradeConfigNotFound err
              then Ok (zeroUpgradeConfig, false) else Err err end) as [[cur found]|err] eqn:Ef;
    wp_cbn; [|apply Hearly; rewrite app_nil_r; by apply Forall_app].
  assert (found = false -> absent_after false (t1 ++ t2) = true) as Hfound.
  { intros ->. rewrite absent_after_app. apply Habs.
    destruct r as [uc|e]; [congruence|]. destruct Hx as [x ->].
    cbn in Ef. destruct (bool_decide_reflect (ErrUpgradeConfigNotFound = x)) as [<-|]; [done|congruence]. }
  assert (Forall (fun ob : obs Eff => reads _ (ob_event ob)) (t1 ++ t2)) as Hr12 by by apply Forall_app.
  clear Habs Hx Ef r Hr1 Hr2.
  apply wp_bind. eapply wp_mono; [apply reads_wp; eauto with muo|]. intros t3 o (Hr3 & p & ->).
  destruct p as [pp|err]; [|destruct (is_sentinel _ _); wp_cbn; apply Hearly;
    rewrite app_nil_r, app_assoc; by apply Forall_app].
  apply wp_bind. eapply wp_mono; [apply reads_wp; eauto with muo|]. intros t4 o (Hr4 & r & ->).
  pose proof (act_on_specs_wp ((t1 ++ t2) ++ t3 ++ t4) ns cur found r) as Hact.
  eapply wp_mono; [apply Hact|].
  - rewrite !Forall_app in *. tauto.
  - intros Hf. rewrite !absent_after_app in *. specialize (Hfound Hf).
    apply (reads_guarded _ _ Hr4), (reads_guarded _ _ Hr3), Hfound.
  - intros tr o. rewrite <- !app_assoc. done.
Qed.

End RefreshSafety.

(** ** Refinement: an API server that stores the resource *)

(** What a refresh promises: the answer and the new content of the cluster. *)
Definition sync_spec (ns : string) (specs : list UpgradeConfigSpec) (stored : option UpgradeConfig)
    : bool * option UpgradeConfig :=
  match specs with
  | [] => (bool_decide (is_Some stored), None)
  | sp :: _ =>
      if bool_decide (sp = from_option Spec zeroSpec stored) then (false, stored)
      else (true, Some (mkUpgradeConfig UPGRADECONFIG_CR_NAME ns "" sp []))
  end.

Section ApiServer.
Context (ns : string) (other : forall X, Eff X -> X).

Definition notFound {A} : result A := Err (ErrApi true "not found").

(** The operator runs in [ns]; every other event is answered by [other]. *)
Definition api_server X (e : Eff X) (s : option UpgradeConfig) : X * option UpgradeConfig :=
  match e in Eff X return X * option UpgradeConfig with
  | LookupEnv _ => (Some ns, s)
  | GetUpgradeConfig _ _ => (match s with Some uc => Ok uc | None => notFound end, s)
  | ListUpgradeConfigs _ _ => (Ok (option_list s), s)
  | UpdateUpgradeConfig uc | StatusUpdate uc =>
      match s with Some _ => (Ok uc, Some uc) | None => (notFound, s) end
  | DeleteUpgradeConfig _ _ => match s with Some _ => (Ok tt, None) | None => (notFound, s) end
  | CreateUpgradeConfig uc =>
      match s with Some _ => (Err (ErrApi false "already exists"), s) | None => (Ok tt, Some uc) end
  | e' => (other _ e', s)
  end.

Lemma api_server_reads X (e : Eff X) s : reads X e -> (api_server X e s).2 = s.
Proof. unfold reads. by destruct e. Qed.

Context (attempts : nat) `{!SpecProviderBuilder}.

Notation result_of p s := (run api_server p s).1.2.
Notation state_of p s := (run api_server p s).2.

Lemma recreate_run uc_new s :
  let p := recreateUpgradeConfigOnChange attempts (bool_decide (is_Some s)) (default zeroUpgradeConfig s) uc_new in
  result_of p s = Done None /\ state_of p s = Some (set_ResourceVersion "" uc_new).
Proof. destruct s as [uc|]; [|done]. by destruct attempts. Qed.

Lemma Refresh_run specs pp s :
  result_of provider_New s = Done (Ok pp) -> result_of (provider_Get pp) s = Done (Ok specs) ->
  result_of (Refresh attempts) s = Done (Ok (sync_spec ns specs s).1) /\
  state_of (Refresh attempts) s = (sync_spec ns specs s).2.
Proof.
  intros Hnew Hget. unfold Refresh.
  pose proof (run_reads api_server provider_New s api_server_reads provider_New_reads) as Hs1.
  pose proof (run_reads api_server (provider_Get pp) s api_server_reads (provider_Get_reads (SpecProvider := pp))) as Hs2.
  set (cur := default zeroUpgradeConfig s). set (found := bool_decide (is_Some s)).
  match goal with |- context [GetOperatorNamespace ≫= ?k] =>
    destruct (run_bind_done api_server GetOperatorNamespace k s (Ok ns) s eq_refl eq_refl) as [-> ->] end.
  match goal with |- context [ucm_Get ≫= ?k] =>
    destruct (run_bind_done api_server ucm_Get k s
      match s with Some uc => Ok uc | None => Err (ErrSentinel ErrUpgradeConfigNotFound) end s) as [-> ->];
    [by destruct s..|] end.
  assert (match match s with Some uc => Ok uc | None => Err (ErrSentinel ErrUpgradeConfigNotFound) end with
      | Ok uc => Ok (uc, true)
      | Err err => if is_sentinel ErrUpgradeConfigNotFound err then Ok (zeroUpgradeConfig, false) else Err err
      end = Ok (cur, found)) as -> by by destruct s.
  cbn [bindr mbind prog_mbind prog_bind mret prog_ret].
  match goal with |- context [provider_New ≫= ?k] =>
    destruct (run_bind_done api_server provider_New k s _ s Hnew Hs1) as [-> ->] end.
  match goal with |- context [provider_Get pp ≫= ?k] =>
    destruct (run_bind_done api_server (provider_Get pp) k s _ s Hget Hs2) as [-> ->] end.
  destruct specs as [|sp specs]; [by destruct s|]. cbn zeta. cbn [Spec].
  assert (Spec cur = from_option Spec zeroSpec s) as -> by by destruct s.
  unfold sync_spec. destruct (bool_decide_reflect (sp = from_option Spec zeroSpec s)) as [E|E].
  - rewrite bool_decide_false by tauto. done.
  - rewrite bool_decide_true by done. unfold found, cur.
    match goal with |- context [recreateUpgradeConfigOnChange _ _ _ ?u ≫= ?k] =>
      destruct (recreate_run u s) as [R1 R2];
      destruct (run_bind_done api_server _ k s _ _ R1 R2) as [-> ->] end. done.
Qed.

End ApiServer.

(** ** Properties *)

(** C17: on an API server that stores the resource, a refresh implements
    [sync_spec] for whatever specs the provider answers: no spec removes the
    UpgradeConfig, a spec that differs from the stored one replaces it by a
    fresh resource with that spec and an empty history, an equal spec changes
    nothing, and the answer says whether anything changed. *)
Theorem Refresh_refines_sync_spec ns other attempts `{!SpecProviderBuilder} specs pp stored :
  (run (api_server ns other) provider_New stored).1.2 = Done (Ok pp) ->
  (run (api_server ns other) (provider_Get pp) stored).1.2 = Done (Ok specs) ->
  (run (api_server ns other) (Refresh attempts) stored).1.2 = Done (Ok (sync_spec ns specs stored).1) /\
  (run (api_server ns other) (Refresh attempts) stored).2 = (sync_spec ns specs stored).2 /\
  (head specs <> Some zeroSpec ->
   sync_spec ns specs (sync_spec ns specs stored).2 = (false, (sync_spec ns specs stored).2)).
Proof.
  intros Hnew Hget. destruct (Refresh_run ns other attempts specs pp stored Hnew Hget) as [H1 H2].
  split; [exact H1|]. split; [exact H2|]. intros Hz. unfold sync_spec.
  destruct specs as [|sp specs]; [done|].
  destruct (bool_decide_reflect (sp = from_option Spec zeroSpec stored)) as [E|E]; cbn [snd].
  - by rewrite bool_decide_true.
  - cbn. by rewrite bool_decide_true.
Qed.

(** C18: in every environment a refresh returns, an UpgradeConfig is created
    only when, since the last creation or deletion, a lookup has answered that
    there is none; [false] means that nothing was changed, [true] that the
    UpgradeConfig was deleted, created, or deleted and created. *)
Theorem Refresh_creates_only_when_absent attempts `{!SpecProviderBuilder} tr o :
  Forall delete_answer tr ->
  exec (Refresh attempts) tr o ->
  exists r, o = Done r /\ guarded false tr /\ refresh_effects r (mutations tr).
Proof.
  intros Hd Hex. destruct (proj1 (wp_exec _ _) (Refresh_wp attempts) _ _ Hex) as (r & -> & Hr).
  exists r. split; [done|]. by apply Hr.
Qed.

(** A server that answers the deletion with NotFound is not recognised as
    having deleted the resource: the re-creation is abandoned with the error
    for a failed removal, and nothing is created. *)
Theorem recreate_gives_up_when_already_deleted attempts cur new msg tr o :
  exec (recreateUpgradeConfigOnChange attempts true cur new) tr o ->
  head tr = Some (Obs (DeleteUpgradeConfig cur (Some 0%Z)) (Err (ErrApi true msg))) ->
  tr = [Obs (DeleteUpgradeConfig cur (Some 0%Z)) (Err (ErrApi true msg))] /\
  o = Done (Some (ErrSentinel ErrRemovingUpgradeConfig)).
Proof.
  intros (r & t & -> & H). cbn [head]. intros Heq.
  assert (r = Err (ErrApi true msg)) as ->.
  { apply (f_equal (fun o => match o with Some ob => match ob_event ob in Eff X return X -> option error with
      | DeleteUpgradeConfig _ _ => fun r => match r with Err e => Some e | Ok _ => None end
      | _ => fun _ => None end (ob_resp ob) | None => None end)) in Heq. cbn in Heq.
    destruct r as [[]|e]; congruence. }
  cbn in H. by destruct H as [-> ->].
Qed.

(** The sync loop never ends: also after a stop request the loop has a next state, with the
    counter and the duration unchanged by the request. *)
Lemma sync_loop_never_stops attempts `{!SpecProviderBuilder} `{!Backoff} cfg st :
  (exists st', sync_step attempts cfg st StopRequested st') /\
  forall st', sync_step attempts cfg st StopRequested st' -> st' = st.
Proof.
  split; [exists st; constructor|]. intros st' Hst. by inversion Hst.
Qed.

(** When histories have unique versions, the phase that the manager reads
    (from the last match) is that of the history that the rest of the code
    reads (the first match). *)
Theorem current_phase_is_history_phase uc :
  wf_histories (History uc) ->
  getCurrentUpgradeConfigPhase uc =
    match GetHistory (History uc) (ucVersionOf uc) with Some h => Phase h | None => UpgradePhaseUnknown end.
Proof.
  intros [Hnd _]. unfold getCurrentUpgradeConfigPhase. set (v := ucVersionOf uc).
  assert (forall hs acc, NoDup (map Version hs) ->
    fold_left (fun found h => if String.eqb (Version h) v then Some h else found) hs acc =
    match GetHistory hs v with Some h => Some h | None => acc end) as ->; [|by destruct (GetHistory _ _)|done].
  clear. induction hs as [|h hs IH]; intros acc; cbn; [done|]. intros [Hn Hnd]%NoDup_cons.
  rewrite IH by done. destruct (String.eqb_spec (Version h) v) as [E|E].
  - rewrite bool_decide_true by done. subst v. rewrite (proj2 (GetHistory_None _ _)); congruence.
  - rewrite bool_decide_false by done. done.
Qed.

(** *** Witnesses *)

Definition demo_other X (e : Eff X) : X := default_resp e.
Definition demo_stored : UpgradeConfig :=
  mkUpgradeConfig UPGRADECONFIG_CR_NAME "muo" "7"
    (mkSpec (mkUpdate "4.14.2" "stable-4.14" "") "2024-01-01T10:00:00Z" 60 OSD true)
    [mkHistory "4.14.2" "" UpgradePhaseUpgraded [] None None None None].

(** A provider with a fixed answer. *)
Definition fixedProvider (specs : list UpgradeConfigSpec) : SpecProvider :=
  {| provider_Get := mret (Ok specs); provider_Get_reads := I; provider_Get_no_panic := I |}.
Definition fixedBuilder (specs : list UpgradeConfigSpec) : SpecProviderBuilder :=
  {| provider_New := mret (Ok (fixedProvider specs)); provider_New_reads := I; provider_New_no_panic := I |}.

Lemma Refresh_refines_sync_spec_witness :
  (run (api_server "muo" demo_other) (@Refresh 12 (fixedBuilder [demo_spec])) (Some demo_stored)).2 =
  Some (mkUpgradeConfig UPGRADECONFIG_CR_NAME "muo" "" demo_spec []).
Proof.
  exact (proj1 (proj2 (@Refresh_refines_sync_spec "muo" demo_other 12 (fixedBuilder [demo_spec])
    [demo_spec] (fixedProvider [demo_spec]) (Some demo_stored) eq_refl eq_refl))).
Defined.

Lemma Refresh_creates_only_when_absent_witness :
  let tr := (run (api_server "muo" demo_other) (@Refresh 12 (fixedBuilder [demo_spec])) (Some demo_stored)).1.1 in
  length (mutations tr) = 2 /\ guarded false tr.
Proof.
  split; [reflexivity|].
  destruct (@Refresh_creates_only_when_absent 12 (fixedBuilder [demo_spec])
    (run (api_server "muo" demo_other) (@Refresh 12 (fixedBuilder [demo_spec])) (Some demo_stored)).1.1
    (run (api_server "muo" demo_other) (@Refresh 12 (fixedBuilder [demo_spec])) (Some demo_stored)).1.2)
    as (r & _ & Hg & _).
  - repeat constructor.
  - apply run_exec.
  - exact Hg.
Defined.

Definition deleted_trace : list (obs Eff) :=
  [Obs (DeleteUpgradeConfig demo_stored (Some 0%Z)) (Err (ErrApi true "gone"))].
Lemma recreate_gives_up_when_already_deleted_witness :
  deleted_trace = [Obs (DeleteUpgradeConfig demo_stored (Some 0%Z)) (Err (ErrApi true "gone"))] /\
  @Done (option error) (Some (ErrSentinel ErrRemovingUpgradeConfig)) = Done (Some (ErrSentinel ErrRemovingUpgradeConfig)).
Proof.
  apply (recreate_gives_up_when_already_deleted 12 demo_stored demo_stored "gone").
  - eexists _, []. split; [reflexivity|]. split; reflexivity.
  - reflexivity.
Defined.

Lemma current_phase_is_history_phase_witness :
  getCurrentUpgradeConfigPhase demo_stored = UpgradePhaseUpgraded.
Proof.
  refine (current_phase_is_history_phase demo_stored _).
  split; repeat constructor; apply not_elem_of_nil.
Defined.

(** The first sync happens between 54 and 66 seconds after the start; the
    rounding of the binary product shows in the exclusive upper bound. *)
Example initial_jitter :
  (ffloor (fmul (float64 INITIAL_SYNC_DURATION) (fsub (float64 1) JITTER_FACTOR)),
   fceil (fmul (float64 INITIAL_SYNC_DURATION) (fadd (float64 1) JITTER_FACTOR))) =
  (54 * Second, 66 * Second + 1)%Z.
Proof. vm_compute. reflexivity. Qed.
