(* ===== verification/Notifier.v ===== *)
(** * Notifiers (pkg/notifier)

    The upgrade states that the operator reports, the OCM notifier that maps
    them to upgrade policy states and refuses invalid transitions, the service
    logs it posts, and the log notifier.  Clients use the class [Notifier]. *)

From stdpp Require Import base gmap strings list.
From Stdlib Require Import ZArith Lia.
From S2P Require Import Prelude GoTime Api Effects Config Interfaces SpecProvider UpgradeConfigManager.

(** ** States *)

Inductive MuoState :=
| MuoStatePending | MuoStateStarted | MuoStateCompleted | MuoStateDelayed | MuoStateFailed
| MuoStateCancelled | MuoStateScheduled | MuoStateScaleSkipped | MuoStateSkipped
| MuoStateHealthCheckSL | MuoStatePreHealthCheckSL | MuoStateControlPlaneUpgradeStartedSL
| MuoStateControlPlaneUpgradeFinishedSL | MuoStateWorkerPlaneUpgradeFinishedSL.

#[export] Instance MuoState_eq_dec : EqDecision MuoState.
Proof. solve_decision. Defined.

Definition toString (s : MuoState) : string :=
  match s with
  | MuoStatePending => "StatePending" | MuoStateStarted => "StateStarted"
  | MuoStateCompleted => "StateCompleted" | MuoStateDelayed => "StateDelayed"
  | MuoStateFailed => "StateFailed" | MuoStateCancelled => "StateCancelled"
  | MuoStateScheduled => "StateScheduled" | MuoStateScaleSkipped => "StateScaleSkipped"
  | MuoStateSkipped => "StateSkipped" | MuoStateHealthCheckSL => "StateHealthCheckSL"
  | MuoStatePreHealthCheckSL => "StatePreHealthCheckSL"
  | MuoStateControlPlaneUpgradeStartedSL => "StateControlPlaneStartedSL"
  | MuoStateControlPlaneUpgradeFinishedSL => "StateControlPlaneFinishedSL"
  | MuoStateWorkerPlaneUpgradeFinishedSL => "StateWorkerPlaneFinishedSL"
  end.

(** States of an OCM upgrade policy are texts. *)
Definition OcmStatePending : string := "pending".
Definition OcmStateStarted : string := "started".
Definition OcmStateDelayed : string := "delayed".
Definition OcmStateFailed : string := "failed".
Definition OcmStateCompleted : string := "completed".
Definition OcmStateCancelled : string := "cancelled".
Definition OcmStateScheduled : string := "scheduled".

Definition stateMap : list (MuoState * string) :=
  [(MuoStatePending, OcmStatePending); (MuoStateCancelled, OcmStateCancelled);
   (MuoStateStarted, OcmStateStarted); (MuoStateCompleted, OcmStateCompleted);
   (MuoStateDelayed, OcmStateDelayed); (MuoStateFailed, OcmStateFailed);
   (MuoStateScheduled, OcmStateScheduled); (MuoStateSkipped, OcmStateDelayed);
   (MuoStateScaleSkipped, OcmStateDelayed)].

Definition SeverityInfo : string := "Info".
Definition serviceLogMap : list (MuoState * ServiceLog) :=
  [(MuoStateControlPlaneUpgradeStartedSL,
     mkServiceLog SeverityInfo "Cluster is starting with control and worker plane upgrade" "");
   (MuoStateControlPlaneUpgradeFinishedSL,
     mkServiceLog SeverityInfo "Cluster has finished control plane upgrade" "");
   (MuoStateWorkerPlaneUpgradeFinishedSL,
     mkServiceLog SeverityInfo "Cluster has finished with worker plane upgrade" "");
   (MuoStateHealthCheckSL,
     mkServiceLog SeverityInfo "Cluster has encountered healthcheck failure during upgrade" "");
   (MuoStatePreHealthCheckSL,
     mkServiceLog SeverityInfo "Cluster has encountered pre-upgrade healthcheck failure" "")].

Definition upgrade_healthcheck_kcs : string := "https://access.redhat.com/solutions/7081505".

(** [m[k]] of a Go map with a zero value; maps are lists without duplicate
    keys, in the order in which [range] happens to visit them. *)
Fixpoint assoc {V} (k : MuoState) (m : list (MuoState * V)) : option V :=
  match m with
  | [] => None
  | (k', v) :: rest => if bool_decide (k' = k) then Some v else assoc k rest
  end.

(** The first state, in iteration order, that maps to the OCM state. *)
Fixpoint mapState (os : string) (dict : list (MuoState * string)) : option MuoState :=
  match dict with
  | [] => None
  | (k, v) :: rest => if String.eqb v os then Some k else mapState os rest
  end.

Definition mapSLState (ms : MuoState) (dict : list (MuoState * ServiceLog)) : option ServiceLog :=
  assoc ms dict.

Definition validateStateTransition (from to : MuoState) : bool :=
  match from with
  | MuoStatePending => false
  | MuoStateScheduled => match to with MuoStateStarted => true | _ => false end
  | MuoStateStarted =>
      match to with
      | MuoStateScaleSkipped | MuoStateDelayed | MuoStateCompleted | MuoStateFailed => true
      | _ => false
      end
  | MuoStateScaleSkipped =>
      match to with
      | MuoStateDelayed | MuoStateFailed | MuoStateSkipped | MuoStateCompleted => true
      | _ => false
      end
  | MuoStateDelayed =>
      match to with MuoStateCompleted | MuoStateFailed | MuoStateSkipped => true | _ => false end
  | MuoStateSkipped =>
      match to with MuoStateCompleted | MuoStateFailed => true | _ => false end
  | MuoStateCompleted => false
  | MuoStateFailed => false
  | _ => false
  end.

(** ** The interface *)

Class Notifier := {
  NotifyState : MuoState -> string -> M (option error);
  NotifyState_no_panic s d : no_panic (NotifyState s d);
  NotifyState_events s d : all_ev notifier_event (NotifyState s d);
}.
Arguments NotifyState : clear implicits.
Lemma NotifyState_no_gauge `{!Notifier} s d : all_ev no_gauge (NotifyState _ s d).
Proof. eapply all_ev_impl; [|apply NotifyState_events]. by intros X e [? _]. Qed.
#[export] Hint Resolve NotifyState_no_panic NotifyState_no_gauge NotifyState_events : muo.

(** The log notifier only writes to the log. *)
Definition logNotifier_NotifyState (value : MuoState) (description : string) : M (option error) := mret None.
Definition logNotifier : Notifier :=
  {| NotifyState := logNotifier_NotifyState; NotifyState_no_panic _ _ := I; NotifyState_events _ _ := I |}.

(** ** The OCM notifier *)

Section OcmNotifier.
Context `{!UpgradeConfigManager}.
(** The order in which the run visits [stateMap]. *)
Context (order : list (MuoState * string)).

Definition getPolicyIdForUpgradeConfig (clusterId : string) : M (result string) :=
  uc ←? manager_Get _;
  policies ←? call (OcmGetUpgradePolicies clusterId);
  mret match List.find (fun policy =>
               String.eqb (policy_Version policy) (ucVersionOf uc) &&
               String.eqb (formatRFC3339 (policy_NextRun policy)) (UpgradeAt (Spec uc))) policies.2 with
       | Some policy => Ok (policy_ID policy)
       | None => Err (ErrText "no policy matches the current UpgradeConfig")
       end.

(** The state the policy is in, as the operator reads it back. *)
Definition currentMuoState (currentState : UpgradePolicyState) : option MuoState :=
  if String.eqb (ps_Value currentState) OcmStateDelayed then
    if Contains (ps_Description currentState) "retry" then Some MuoStateDelayed else Some MuoStateSkipped
  else mapState (ps_Value currentState) order.

(** The service log of an [SL] state, when the feature gate is on. *)
Definition sendServiceLog (notifications : bool) (state : MuoState) (description : string)
    : M (option error) :=
  if notifications then
    if HasSuffix (toString state) "SL" then
      match mapSLState state serviceLogMap with
      | None => mret (Some (ErrText ("failed to map the servicelog state for MUO state " +:+ toString state)))
      | Some slState =>
          let slState :=
            if bool_decide (state = MuoStateHealthCheckSL) || bool_decide (state = MuoStatePreHealthCheckSL)
            then mkServiceLog (sl_Severity slState) (sl_Summary slState) upgrade_healthcheck_kcs
            else slState in
          r ← call (OcmPostServiceLog slState description);
          mret match r with
               | Err err => Some (ErrText ("failed to send servicelog notification: " +:+ error_msg err))
               | Ok _ => None
               end
      end
    else mret None
  else mret None.

Definition ocmNotifier_NotifyState (notifications : bool) (state : MuoState) (description : string)
    : M (option error) :=
  r ← call OcmGetCluster;
  match r with
  | Err err => mret (Some (ErrText ("failed to retrieve internal ocm cluster ID: " +:+ error_msg err)))
  | Ok cluster =>
      e ← sendServiceLog notifications state description;
      match e with
      | Some err => mret (Some err)
      | None =>
          r ← getPolicyIdForUpgradeConfig (ocm_ID cluster);
          match r with
          | Err err => mret (Some (ErrText ("can't determine policy ID to notify for: " +:+ error_msg err)))
          | Ok policyId =>
              r ← call (OcmGetPolicyState policyId (ocm_ID cluster));
              match r with
              | Err err => mret (Some (ErrText ("can't determine policy state: " +:+ error_msg err)))
              | Ok currentState =>
                  match currentMuoState currentState with
                  | None => mret (Some (ErrText "failed to convert OCM state"))
                  | Some muoCurrent =>
                      if negb (validateStateTransition muoCurrent state) then mret None
                      else
                        r ← call (OcmSetState (default "" (assoc state stateMap)) description
                                    policyId (ocm_ID cluster));
                        mret match r with
                             | Err err => Some (ErrText ("can't send notification: " +:+ error_msg err))
                             | Ok _ => None
                             end
                  end
              end
          end
      end
  end.

Lemma getPolicyId_no_panic c : no_panic (getPolicyIdForUpgradeConfig c).
Proof. unfold getPolicyIdForUpgradeConfig. np_auto. Qed.
Lemma getPolicyId_events c : all_ev notifier_event (getPolicyIdForUpgradeConfig c).
Proof.
  apply reads_notifier_event; unfold getPolicyIdForUpgradeConfig; ev_auto; done.
Qed.
Lemma sendServiceLog_no_panic b st d : no_panic (sendServiceLog b st d).
Proof. unfold sendServiceLog. np_auto. Qed.
Lemma sendServiceLog_events b st d : all_ev notifier_event (sendServiceLog b st d).
Proof. unfold sendServiceLog. ev_auto; (split; [done|by right]). Qed.
#[local] Hint Resolve getPolicyId_no_panic getPolicyId_events sendServiceLog_no_panic
  sendServiceLog_events : muo.

Lemma ocmNotifier_no_panic b st d : no_panic (ocmNotifier_NotifyState b st d).
Proof. unfold ocmNotifier_NotifyState. np_auto. Qed.
Lemma ocmNotifier_events b st d : all_ev notifier_event (ocmNotifier_NotifyState b st d).
Proof.
  unfold ocmNotifier_NotifyState. ev_auto; eauto with muo; (split; [done|by left + by right]).
Qed.

Definition ocmNotifier (notifications : bool) : Notifier :=
  {| NotifyState := ocmNotifier_NotifyState notifications;
     NotifyState_no_panic := ocmNotifier_no_panic notifications;
     NotifyState_events := ocmNotifier_events notifications |}.

End OcmNotifier.

(** ** Configuration and the builder *)

Record NotifierConfig := mkNotifierConfig { notifier_Source : string }.
#[export] Instance NotifierConfig_IsValid : ConfigValidator NotifierConfig := fun cfg =>
  if String.eqb (notifier_Source cfg) "" then None
  else if String.eqb (ToUpper (notifier_Source cfg)) "OCM" then None
  else if String.eqb (ToUpper (notifier_Source cfg)) "LOCAL" then None
  else Some (ErrSentinel ErrNoNotifierConfigured).

Record OcmNotifierConfig := mkOcmNotifierConfig { notifier_OcmBaseUrl : string }.
#[export] Instance OcmNotifierConfig_IsValid `{!UrlParse} : ConfigValidator OcmNotifierConfig := fun cfg =>
  match url_Parse (notifier_OcmBaseUrl cfg) with
  | Err _ => Some (ErrText "OCM Base URL is not a parseable URL")
  | Ok _ => None
  end.
Definition notifier_GetOCMBaseURL `{!UrlParse} (cfg : OcmNotifierConfig) : option string :=
  match url_Parse (notifier_OcmBaseUrl cfg) with Ok u => Some u | Err _ => None end.

Record OcmFeatureConfig := mkOcmFeatureConfig { OCMFeatureGate_Enabled : list string }.
#[export] Instance OcmFeatureConfig_IsValid : ConfigValidator OcmFeatureConfig := fun _ => None.

Definition isOCMFeatureEnabled (cfg : OcmFeatureConfig) (feature : string) : bool :=
  existsb (fun f => String.eqb f feature) (OCMFeatureGate_Enabled cfg).

Section Builder.
Context `{!UrlParse} `{!UpgradeConfigManager}.
Context `{!Yaml NotifierConfig} `{!Yaml OcmNotifierConfig} `{!Yaml OcmFeatureConfig}.
Context (order : list (MuoState * string)).

Definition readNotifierConfig : M (result NotifierConfig) := readConfig.
Definition readOcmNotifierConfig : M (result OcmNotifierConfig) := readConfig.
Definition readOcmFeatureGate : M (result OcmFeatureConfig) := readConfig.

(** [NewOCMNotifier] *)
Definition NewOCMNotifier (ocmBaseUrl : option string) (isEnabled : bool) : M (result Notifier) :=
  _ ←? Ocm.newOcmClient ocmBaseUrl;
  mret (Ok (ocmNotifier order isEnabled)).

(** [notifierBuilder.New] *)
Definition notifier_New : M (result Notifier) :=
  cfg ←? readNotifierConfig;
  featCfg ←? readOcmFeatureGate;
  let notificationsEnabled := isOCMFeatureEnabled featCfg ServiceLogNotificationFeatureGate in
  if String.eqb (ToUpper (notifier_Source cfg)) "OCM" then
    ocmCfg ←? readOcmNotifierConfig;
    NewOCMNotifier (notifier_GetOCMBaseURL ocmCfg) notificationsEnabled
  else mret (Ok logNotifier).

End Builder.

(** ** Lemmas *)

(** The position of a state in an upgrade. *)
Definition state_rank (s : MuoState) : nat :=
  match s with
  | MuoStateScheduled => 0 | MuoStateStarted => 1 | MuoStateScaleSkipped => 2
  | MuoStateDelayed => 3 | MuoStateSkipped => 4 | MuoStateCompleted | MuoStateFailed => 5
  | _ => 6
  end.

Lemma transition_rank a b : validateStateTransition a b = true -> state_rank a < state_rank b <= 5.
Proof. destruct a, b; cbn; (discriminate || lia). Qed.

Lemma mapState_elem os order k : mapState os order = Some k -> (k, os) ∈ order.
Proof.
  induction order as [|[k' v] order IH]; cbn; [done|].
  destruct (String.eqb_spec v os) as [->|]; [intros [= ->]; by left|]. intros H. right. by apply IH.
Qed.

Lemma mapState_Some os order k : (k, os) ∈ order -> is_Some (mapState os order).
Proof.
  induction order as [|[k' v] order IH]; cbn; [intros H; by apply elem_of_nil in H|].
  intros [[= -> ->]|H]%elem_of_cons; [rewrite String.eqb_refl; by eexists|].
  destruct (String.eqb v os); [by eexists|by apply IH].
Qed.

(** Whatever the iteration order, every OCM state but [delayed] is read back
    as the one state that is reported as it. *)
Lemma mapState_unique order s os :
  order ≡ₚ stateMap -> os <> OcmStateDelayed -> (mapState os order = Some s <-> (s, os) ∈ stateMap).
Proof.
  intros Hp Hne. split.
  - intros H%mapState_elem. rewrite list_elem_of_In in *. by eapply Permutation_in.
  - intros Hin. assert ((s, os) ∈ order) as Hino.
    { rewrite list_elem_of_In in *. eapply Permutation_in; [|exact Hin]. by symmetry. }
    destruct (mapState_Some _ _ _ Hino) as [k Hk]. rewrite Hk. f_equal.
    apply mapState_elem in Hk. assert ((k, os) ∈ stateMap) as Hkin.
    { rewrite list_elem_of_In in *. by eapply Permutation_in. }
    clear -Hne Hin Hkin. unfold stateMap in *. rewrite !elem_of_cons in *.
    rewrite !elem_of_nil in *. unfold OcmStateDelayed in *.
    repeat destruct Hin as [Hin|Hin]; try done; injection Hin as -> ->; try done;
      repeat destruct Hkin as [Hkin|Hkin]; try done; congruence.
Qed.

(** *** What a successful notification did *)

Section Correct.
Context `{!UpgradeConfigManager} (order : list (MuoState * string)).

(** The policy is the one the UpgradeConfig was made from. *)
Definition policy_of (uc : UpgradeConfig) (p : UpgradePolicy) : Prop :=
  policy_Version p = ucVersionOf uc /\ formatRFC3339 (policy_NextRun p) = UpgradeAt (Spec uc).

(** The trace of a notification that did not fail: the state read back
    decides whether the policy's state is set. *)
Definition notified (notifications : bool) (state : MuoState) (description : string)
    (tr : list (obs Eff)) : Prop :=
  exists cluster tsl tm uc total policies p cur from tset,
    tr = [Obs OcmGetCluster (Ok cluster)] ++ tsl ++ (tm ++
         [Obs (OcmGetUpgradePolicies (ocm_ID cluster)) (Ok (total, policies))]) ++
         [Obs (OcmGetPolicyState (policy_ID p) (ocm_ID cluster)) (Ok cur)] ++ tset /\
    exec (manager_Get _) tm (Done (Ok uc)) /\ p ∈ policies /\ policy_of uc p /\
    currentMuoState order cur = Some from /\
    tsl = (if notifications && HasSuffix (toString state) "SL" then
             match mapSLState state serviceLogMap with
             | Some sl => [Obs (OcmPostServiceLog
                 (if decide (state = MuoStateHealthCheckSL \/ state = MuoStatePreHealthCheckSL)
                  then mkServiceLog (sl_Severity sl) (sl_Summary sl) upgrade_healthcheck_kcs else sl)
                 description) (Ok tt)]
             | None => []
             end else []) /\
    tset = (if validateStateTransition from state
            then [Obs (OcmSetState (default "" (assoc state stateMap)) description (policy_ID p) (ocm_ID cluster))
                    (Ok tt)]
            else []).

Lemma getPolicyId_wp clusterId :
  wp (getPolicyIdForUpgradeConfig clusterId) (fun tr o => forall pid, o = Done (Ok pid) ->
    exists tm uc total policies p, tr = tm ++ [Obs (OcmGetUpgradePolicies clusterId) (Ok (total, policies))] /\
      exec (manager_Get _) tm (Done (Ok uc)) /\ p ∈ policies /\ policy_of uc p /\ pid = policy_ID p).
Proof.
  unfold getPolicyIdForUpgradeConfig. apply wp_bindr, wp_exec.
  intros tm [[uc|e]|s] Hm; [|intros pid; discriminate..].
  wp_cbn. intros [[total policies]|e]; wp_cbn; [|intros pid; discriminate].
  intros pid. cbn [snd]. destruct (List.find _ policies) as [p|] eqn:E; [|discriminate]. intros [= <-].
  apply find_some in E as [Hin [Hv Ht]%andb_prop]. apply String.eqb_eq in Hv, Ht.
  exists tm, uc, total, policies, p. split_and!; try done. by apply list_elem_of_In.
Qed.

Lemma sendServiceLog_wp notifications state description :
  wp (sendServiceLog notifications state description) (fun tr o => o = Done None ->
    tr = (if notifications && HasSuffix (toString state) "SL" then
             match mapSLState state serviceLogMap with
             | Some sl => [Obs (OcmPostServiceLog
                 (if decide (state = MuoStateHealthCheckSL \/ state = MuoStatePreHealthCheckSL)
                  then mkServiceLog (sl_Severity sl) (sl_Summary sl) upgrade_healthcheck_kcs else sl)
                 description) (Ok tt)]
             | None => []
             end else [])).
Proof.
  unfold sendServiceLog. destruct notifications; [|done].
  destruct (HasSuffix (toString state) "SL") eqn:E; [|done]. cbn [andb].
  destruct (mapSLState state serviceLogMap) as [sl|] eqn:Em; [|done].
  assert (bool_decide (state = MuoStateHealthCheckSL) || bool_decide (state = MuoStatePreHealthCheckSL) =
    if decide (state = MuoStateHealthCheckSL \/ state = MuoStatePreHealthCheckSL) then true else false) as ->.
  { destruct state; reflexivity. }
  wp_cbn. intros [[]|e] Hn; [|done]. by destruct (decide _).
Qed.

Lemma ocmNotifier_wp notifications state description :
  wp (ocmNotifier_NotifyState order notifications state description)
    (fun tr o => o = Done None -> notified notifications state description tr).
Proof.
  unfold ocmNotifier_NotifyState. wp_cbn. intros [cluster|e]; [|done].
  apply wp_bind. eapply wp_mono; [apply sendServiceLog_wp|].
  intros tsl [[err|]|s] Hsl; [done| |done]. specialize (Hsl eq_refl).
  apply wp_bind. eapply wp_mono; [apply getPolicyId_wp|].
  intros tp [[pid|err]|s] Hp; [|done..].
  destruct (Hp pid eq_refl) as (tm & uc & total & policies & p & -> & Hm & Hin & Hpol & ->). clear Hp.
  wp_cbn. intros [cur|e]; [|done]. destruct (currentMuoState order cur) as [from|] eqn:Hc; [|done].
  assert (forall tset, tset = (if validateStateTransition from state
            then [Obs (OcmSetState (default "" (assoc state stateMap)) description (policy_ID p) (ocm_ID cluster))
                    (Ok tt)] else []) ->
    notified notifications state description
      (Obs OcmGetCluster (Ok cluster) :: tsl ++ (tm ++ [Obs (OcmGetUpgradePolicies (ocm_ID cluster))
         (Ok (total, policies))]) ++ Obs (OcmGetPolicyState (policy_ID p) (ocm_ID cluster)) (Ok cur) :: tset))
    as Hdone.
  { intros tset Ht. exists cluster, tsl, tm, uc, total, policies, p, cur, from, tset. done. }
  destruct (validateStateTransition from state); cbn [negb]; wp_cbn.
  - intros [[]|e] Hn; [|done]. by apply Hdone.
  - intros _. by apply Hdone.
Qed.

End Correct.

(** ** Properties *)

(** A sequence of reports, each accepted in the state before it. *)
Fixpoint accepted (from : MuoState) (path : list MuoState) : Prop :=
  match path with
  | [] => True
  | s :: rest => validateStateTransition from s = true /\ accepted s rest
  end.

(** C20: accepted reports only move an upgrade forward: no state is reported
    twice, at most five reports are accepted, and nothing follows a completed
    or failed upgrade. *)
Theorem accepted_reports_progress from path :
  accepted from path ->
  NoDup (from :: path) /\ length path <= 5 /\
  (from = MuoStateCompleted \/ from = MuoStateFailed -> path = []).
Proof.
  assert (forall path from, accepted from path ->
    (forall s, s ∈ path -> state_rank from < state_rank s) /\ NoDup path /\
    (path <> [] -> length path + state_rank from <= 5)) as H.
  { clear. induction path as [|s path IH]; intros from; cbn.
    - intros _. split; [intros s H; by apply elem_of_nil in H|]. split; [constructor|done].
    - intros [Hv Ha]. destruct (IH s Ha) as (Hr & Hnd & Hl). apply transition_rank in Hv. split_and!.
      + intros t [->|Ht]%elem_of_cons; [lia|]. specialize (Hr t Ht). lia.
      + constructor; [|done]. intros Hs. specialize (Hr s Hs). lia.
      + intros _. destruct path; [cbn; lia|]. specialize (Hl ltac:(done)). cbn in *. lia. }
  intros Ha. destruct (H path from Ha) as (Hr & Hnd & Hl). split_and!.
  - constructor; [|done]. intros Hs. specialize (Hr from Hs). lia.
  - destruct path; [cbn; lia|]. specialize (Hl ltac:(done)). lia.
  - intros Hf. destruct path as [|s path]; [done|]. destruct Ha as [Hv _]. by destruct Hf as [-> | ->].
Qed.

(** C19: a notification that succeeds posted a service log exactly when the
    state is a service-log state and the feature is on, found the policy with
    the version and the schedule of the UpgradeConfig, read its state, and set
    it exactly when the transition from the state it read is valid, to the
    mapped state with the given description; otherwise it did nothing. *)
Theorem ocm_notification_correct `{!UpgradeConfigManager} order notifications state description tr o :
  exec (ocmNotifier_NotifyState order notifications state description) tr o ->
  (exists e, o = Done e) /\ (o = Done None -> notified order notifications state description tr).
Proof.
  intros Hex. split; [eapply no_panic_exec; [apply ocmNotifier_no_panic|exact Hex]|].
  exact (proj1 (wp_exec _ _) (ocmNotifier_wp order notifications state description) _ _ Hex).
Qed.

(** C22: whatever the order in which the state map is visited, a state that was
    set is read back as itself, except the two that share [delayed] with
    [MuoStateDelayed]: those are told apart by the word retry in the
    description, and a skipped scale-up is read back as [MuoStateSkipped]. *)
Theorem reported_state_read_back order state v description :
  order ≡ₚ stateMap -> assoc state stateMap = Some v ->
  currentMuoState order (mkPolicyState v description) = Some
    (if decide (v = OcmStateDelayed) then
       if Contains description "retry" then MuoStateDelayed else MuoStateSkipped
     else state).
Proof.
  intros Hp Ha. unfold currentMuoState. cbn [ps_Value ps_Description].
  destruct (String.eqb_spec v OcmStateDelayed) as [->|Hne].
  - rewrite decide_True by done. by destruct (Contains description "retry").
  - rewrite decide_False by done. apply mapState_unique; [done..|].
    clear -Ha. unfold stateMap in *. cbn in Ha. rewrite !elem_of_cons.
    destruct state; cbn in Ha; try discriminate Ha; injection Ha as <-; tauto.
Qed.

(** *** Witnesses *)

Lemma accepted_reports_progress_witness :
  accepted MuoStateScheduled [MuoStateStarted; MuoStateScaleSkipped; MuoStateDelayed; MuoStateSkipped; MuoStateCompleted] /\
  NoDup [MuoStateScheduled; MuoStateStarted; MuoStateScaleSkipped; MuoStateDelayed; MuoStateSkipped; MuoStateCompleted].
Proof.
  split; [repeat split|].
  refine (proj1 (accepted_reports_progress MuoStateScheduled
    [MuoStateStarted; MuoStateScaleSkipped; MuoStateDelayed; MuoStateSkipped; MuoStateCompleted] _)).
  repeat split.
Defined.

Definition demo_notify_uc : UpgradeConfig :=
  mkUpgradeConfig UPGRADECONFIG_CR_NAME "muo" "1" demo_spec [].
Definition demo_manager : UpgradeConfigManager :=
  {| manager_Get := mret (Ok demo_notify_uc); manager_Get_reads := I;
     manager_Get_no_panic := I; manager_Get_no_gauge := I |}.
Definition demo_notify_env X (e : Eff X) (u : unit) : X * unit :=
  match e in Eff X return X * unit with
  | OcmSetState _ _ _ _ => (Ok tt, u)
  | OcmPostServiceLog _ _ => (Ok tt, u)
  | e' => demo_ocm_env _ e' u
  end.
Definition demo_notify_run :=
  run demo_notify_env (@ocmNotifier_NotifyState demo_manager stateMap true MuoStateStarted "started") tt.

Lemma ocm_notification_correct_witness :
  length demo_notify_run.1.1 = 4 /\
  @notified demo_manager stateMap true MuoStateStarted "started" demo_notify_run.1.1.
Proof.
  split; [vm_compute; reflexivity|].
  refine (proj2 (@ocm_notification_correct demo_manager stateMap true MuoStateStarted "started"
    demo_notify_run.1.1 demo_notify_run.1.2 _) _).
  - exact (run_exec demo_notify_env _ tt).
  - vm_compute. reflexivity.
Defined.

Lemma reported_state_read_back_witness :
  currentMuoState (rev stateMap) (mkPolicyState "completed" "") = Some MuoStateCompleted.
Proof.
  refine (reported_state_read_back (rev stateMap) MuoStateCompleted "completed" "" _ eq_refl).
  symmetry. apply Permutation_rev.
Defined.
