(* ===== verification/EventManager.v ===== *)
(** * The event manager (pkg/eventmanager/eventmanager.go)

    [Notify] and [NotifyResult] send each upgrade state at most once per
    UpgradeConfig and version: they ask the metrics whether it was sent,
    describe the state from the conditions of the UpgradeConfig, call the
    notifier and record the outcome.  The proofs use the notifier and the
    UpgradeConfig manager through their classes only. *)

From stdpp Require Import base gmap strings list.
From Stdlib Require Import ZArith Lia.
From S2P Require Import Prelude GoTime Api Effects Config Interfaces Metrics SpecProvider UpgradeConfigManager.
From S2P Require Import Notifier.

(** ** Descriptions *)

Definition UPGRADE_PRECHECK_FAILED_DESC (version : string) : string :=
  "Cluster upgrade to version " +:+ version +:+ " was cancelled as the cluster did not pass its pre-upgrade verification checks. Automated upgrades will be retried on their next scheduling cycle. If you have manually scheduled an upgrade instead, it must now be rescheduled".

Definition UPGRADE_PREHEALTHCHECK_FAILED_DESC (version : string) : string :=
  "Cluster upgrade to version " +:+ version +:+ " was cancelled during the Pre-Health Check step. Health alerts are firing in the cluster which could impact the upgrade's operation, so the upgrade did not proceed. Automated upgrades will be retried on their next scheduling cycle. If you have manually scheduled an upgrade instead, it must now be rescheduled".

Definition UPGRADE_EXTDEPCHECK_FAILED_DESC (version : string) : string :=
  "Cluster upgrade to version " +:+ version +:+ " was cancelled during the External Dependency Availability Check step. A required external dependency of the upgrade was unavailable, so the upgrade did not proceed. Automated upgrades will be retried on their next scheduling cycle. If you have manually scheduled an upgrade instead, it must now be rescheduled".

Definition UPGRADE_SCALE_FAILED_DESC (version : string) : string :=
  "Cluster upgrade to version " +:+ version +:+ " was cancelled during the Scale-Up Worker Node step. A temporary additional worker node was unable to be created to temporarily house workloads, so the upgrade did not proceed. Automated upgrades will be retried on their next scheduling cycle. If you have manually scheduled an upgrade instead, it must now be rescheduled".

Definition UPGRADE_SCALE_SKIP_DESC (version : string) : string :=
  "Cluster upgrade to version " +:+ version +:+ " has skipped Scale-Up additional Worker Node step for compute capacity reservation. This is an informational notification and no action is required by you".

Definition UPGRADE_DEFAULT_DELAY_DESC (version : string) : string :=
  "Cluster upgrade to version " +:+ version +:+ " is experiencing a delay whilst it performs necessary pre-upgrade procedures. The upgrade will continue to retry. This is an informational notification and no action is required".

Definition UPGRADE_PREHEALTHCHECK_DELAY_DESC (version : string) : string :=
  "Cluster upgrade to version " +:+ version +:+ " is experiencing a delay as health alerts are firing in the cluster which could impact the upgrade's operation. The upgrade will continue to retry. This is an informational notification and no action is required by you".

Definition UPGRADE_EXTDEPCHECK_DELAY_DESC (version : string) : string :=
  "Cluster upgrade to version " +:+ version +:+ " is experiencing a delay as an external dependency of the upgrade is currently unavailable. The upgrade will continue to retry. This is an informational notification and no action is required by you".

Definition UPGRADE_SCALE_DELAY_DESC (version : string) : string :=
  "Cluster upgrade to version " +:+ version +:+ " is experiencing a delay attempting to scale up an additional worker node. The upgrade will continue to retry. This is an informational notification and no action is required by you".

Definition UPGRADE_SCALE_DELAY_SKIP_DESC (version : string) : string :=
  "Cluster upgrade to version " +:+ version +:+ " has experienced an issue during capacity reservation efforts. This could be caused by cloud service provider quota limitations or temporary connectivity issues to/from the new worker node. The upgrade will continue without extra compute. This is an informational notification and no action is required by you".

Definition UPGRADE_HEALTHCHECK_DELAY_DESC (version result : string) : string :=
  "Cluster upgrade to version " +:+ version +:+ " may experience a delay as following healthcheck(s): " +:+ result +:+ " are failing for the cluster which could impact the upgrade's operation.".

Definition UPGRADE_PREHEALTHCHECK_WARNING_DESC (version result : string) : string :=
  "Cluster upgrade to version " +:+ version +:+ " has been scheduled for more than 2 hours, cluster pre-upgrade health check has identified the following points which may impact the upgrade process: " +:+ result +:+ ". Please take actions to review and fix the issues before the upgrade begins to have seamless upgrade experience".

Definition UPGRADE_CONTROL_PLANE_STARTED_DESC (version : string) : string :=
  "Cluster upgrade to version " +:+ version +:+ " is starting with control and worker plane upgrade. This is an informational notification and no action is required".

Definition UPGRADE_CONTROL_PLANE_FINISHED_DESC (version : string) : string :=
  "Cluster upgrade to version " +:+ version +:+ " has finished control plane upgrade. This is an informational notification and no action is required".

Definition UPGRADE_WORKER_PLANE_FINISHED_DESC (version : string) : string :=
  "Cluster upgrade to version " +:+ version +:+ " has finished worker plane upgrade. This is an informational notification and no action is required.".

(** The first condition that is False. *)
Fixpoint firstFalse (cs : list UpgradeCondition) : option UpgradeCondition :=
  match cs with
  | [] => None
  | condition :: rest => if IsFalse condition then Some condition else firstFalse rest
  end.

Definition incompleteCondition (uc : UpgradeConfig) : option UpgradeCondition :=
  match GetHistory (History uc) (ucVersionOf uc) with
  | None => None
  | Some history => firstFalse (hist_Conditions history)
  end.

Definition createFailureDescription (uc : UpgradeConfig) : string :=
  let description := UPGRADE_PRECHECK_FAILED_DESC (ucVersionOf uc) in
  match incompleteCondition uc with
  | None => description
  | Some failedCondition =>
      let t := cond_Type failedCondition in
      if String.eqb t IsClusterUpgradable then cond_Message failedCondition
      else if String.eqb t UpgradePreHealthCheck then UPGRADE_PREHEALTHCHECK_FAILED_DESC (ucVersionOf uc)
      else if String.eqb t ExtDepAvailabilityCheck then UPGRADE_EXTDEPCHECK_FAILED_DESC (ucVersionOf uc)
      else if String.eqb t UpgradeScaleUpExtraNodes then UPGRADE_SCALE_FAILED_DESC (ucVersionOf uc)
      else description
  end.

Definition createDelayedDescription (uc : UpgradeConfig) : string :=
  let description := UPGRADE_DEFAULT_DELAY_DESC (ucVersionOf uc) in
  match incompleteCondition uc with
  | None => description
  | Some delayedCondition =>
      let t := cond_Type delayedCondition in
      if String.eqb t UpgradePreHealthCheck then UPGRADE_PREHEALTHCHECK_DELAY_DESC (ucVersionOf uc)
      else if String.eqb t ExtDepAvailabilityCheck then UPGRADE_EXTDEPCHECK_DELAY_DESC (ucVersionOf uc)
      else if String.eqb t UpgradeScaleUpExtraNodes then UPGRADE_SCALE_DELAY_DESC (ucVersionOf uc)
      else description
  end.

(** The switch of [Notify]. *)
Definition notifyDescription (state : MuoState) (uc : UpgradeConfig) : option string :=
  let version := ucVersionOf uc in
  match state with
  | MuoStateStarted => Some ("Cluster is currently being upgraded to version " +:+ version)
  | MuoStateScaleSkipped => Some (UPGRADE_SCALE_SKIP_DESC version)
  | MuoStateDelayed => Some (createDelayedDescription uc)
  | MuoStateSkipped => Some (UPGRADE_SCALE_DELAY_SKIP_DESC version)
  | MuoStateCompleted => Some ("Cluster has been successfully upgraded to version " +:+ version)
  | MuoStateFailed => Some (createFailureDescription uc)
  | MuoStateControlPlaneUpgradeStartedSL => Some (UPGRADE_CONTROL_PLANE_STARTED_DESC version)
  | MuoStateControlPlaneUpgradeFinishedSL => Some (UPGRADE_CONTROL_PLANE_FINISHED_DESC version)
  | MuoStateWorkerPlaneUpgradeFinishedSL => Some (UPGRADE_WORKER_PLANE_FINISHED_DESC version)
  | _ => None
  end.

(** The switch of [NotifyResult]. *)
Definition resultDescription (state : MuoState) (uc : UpgradeConfig) (res : string) : option string :=
  match state with
  | MuoStateHealthCheckSL => Some (UPGRADE_HEALTHCHECK_DELAY_DESC (ucVersionOf uc) res)
  | MuoStatePreHealthCheckSL => Some (UPGRADE_PREHEALTHCHECK_WARNING_DESC (ucVersionOf uc) res)
  | _ => None
  end.

(** ** The interface of the event manager *)

Class EventManager := {
  em_Notify : MuoState -> M (option error);
  em_NotifyResult : MuoState -> string -> M (option error);
  em_Notify_no_panic s : no_panic (em_Notify s);
  em_NotifyResult_no_panic s r : no_panic (em_NotifyResult s r);
  em_Notify_tells s : all_ev only_tells (em_Notify s);
  em_NotifyResult_tells s r : all_ev only_tells (em_NotifyResult s r);
}.
Arguments em_Notify : clear implicits.
Arguments em_NotifyResult : clear implicits.
#[export] Hint Resolve em_Notify_no_panic em_NotifyResult_no_panic em_Notify_tells em_NotifyResult_tells : muo.

Section EventManager.
Context `{!UpgradeConfigManager} `{!Notifier}.

(** The common opening: the UpgradeConfig, unless there is none or the state
    was already sent for it ([None]: nothing to do). *)
Definition pendingConfig (state : MuoState) : M (result (option UpgradeConfig)) :=
  r ← manager_Get _;
  match r with
  | Err err =>
      if is_sentinel ErrUpgradeConfigNotFound err then mret (Ok None)
      else mret (Err (ErrText ("unable to find UpgradeConfig: " +:+ error_msg err)))
  | Ok uc =>
      r ← IsMetricNotificationEventSentSet (uc_Name uc) (toString state) (ucVersionOf uc);
      mret match r with
           | Err err => Err (ErrText ("can't check cluster metric NotificationSent: " +:+ error_msg err))
           | Ok true => Ok None
           | Ok false => Ok (Some uc)
           end
  end.

Definition cannotSend (state : MuoState) (err : error) : error :=
  ErrText ("can't send notification '" +:+ toString state +:+ "': " +:+ error_msg err).
Definition notImplemented (state : MuoState) : error :=
  ErrText ("state " +:+ toString state +:+ " not yet implemented").

Definition Notify (state : MuoState) : M (option error) :=
  r ← pendingConfig state;
  match r with
  | Err e => mret (Some e)
  | Ok None => mret None
  | Ok (Some uc) =>
      match notifyDescription state uc with
      | None => mret (Some (notImplemented state))
      | Some description =>
          r ← NotifyState _ state description;
          match r with
          | Some err =>
              _ ← UpdatemetricUpgradeNotificationFailed (uc_Name uc) (toString state);
              mret (Some (cannotSend state err))
          | None =>
              _ ← UpdatemetricUpgradeNotificationSucceeded (uc_Name uc) (toString state);
              _ ← UpdateMetricNotificationEventSent (uc_Name uc) (toString state) (ucVersionOf uc);
              mret None
          end
      end
  end.

Definition NotifyResult (state : MuoState) (res : string) : M (option error) :=
  r ← pendingConfig state;
  match r with
  | Err e => mret (Some e)
  | Ok None => mret None
  | Ok (Some uc) =>
      match resultDescription state uc res with
      | None => mret (Some (notImplemented state))
      | Some description =>
          r ← NotifyState _ state description;
          match r with
          | Some err => mret (Some (cannotSend state err))
          | None =>
              _ ← UpdateMetricNotificationEventSent (uc_Name uc) (toString state) (ucVersionOf uc);
              mret None
          end
      end
  end.

Lemma setGauge_no_panic m vs v : no_panic (setGauge m vs v).
Proof. by intros []. Qed.
Lemma sentSet_no_panic n e v : no_panic (IsMetricNotificationEventSentSet n e v).
Proof. unfold IsMetricNotificationEventSentSet, Query. np_auto. Qed.
#[local] Hint Resolve setGauge_no_panic sentSet_no_panic : muo.

Lemma pendingConfig_no_panic st : no_panic (pendingConfig st).
Proof. unfold pendingConfig. np_auto. Qed.
#[local] Hint Resolve pendingConfig_no_panic : muo.

Lemma Notify_no_panic st : no_panic (Notify st).
Proof.
  unfold Notify, UpdatemetricUpgradeNotificationFailed, UpdatemetricUpgradeNotificationSucceeded,
    UpdateMetricNotificationEventSent. np_auto.
Qed.
Lemma NotifyResult_no_panic st r : no_panic (NotifyResult st r).
Proof. unfold NotifyResult, UpdateMetricNotificationEventSent. np_auto. Qed.

Lemma pendingConfig_tells st : all_ev only_tells (pendingConfig st).
Proof.
  unfold pendingConfig, IsMetricNotificationEventSentSet, Query.
  apply all_ev_bind; [eapply all_ev_impl; [apply reads_only_tells|apply manager_Get_reads]|]. intros r. ev_auto; done.
Qed.
Lemma NotifyState_tells st d : all_ev only_tells (NotifyState _ st d).
Proof. eapply all_ev_impl; [apply notifier_event_only_tells|apply NotifyState_events]. Qed.
Lemma setGauge_tells m vs v : all_ev only_tells (setGauge m vs v).
Proof. eapply all_ev_impl; [apply reads_only_tells|apply setGauge_reads]. Qed.
#[local] Hint Resolve pendingConfig_tells NotifyState_tells setGauge_tells : muo.

Lemma Notify_tells st : all_ev only_tells (Notify st).
Proof.
  unfold Notify, UpdatemetricUpgradeNotificationFailed, UpdatemetricUpgradeNotificationSucceeded,
    UpdateMetricNotificationEventSent. ev_auto.
Qed.
Lemma NotifyResult_tells st r : all_ev only_tells (NotifyResult st r).
Proof. unfold NotifyResult, UpdateMetricNotificationEventSent. ev_auto. Qed.

Definition eventManager : EventManager :=
  {| em_Notify := Notify; em_NotifyResult := NotifyResult;
     em_Notify_no_panic := Notify_no_panic; em_NotifyResult_no_panic := NotifyResult_no_panic;
     em_Notify_tells := Notify_tells; em_NotifyResult_tells := NotifyResult_tells |}.

End EventManager.

(** ** Lemmas *)

Section Correct.
Context `{!UpgradeConfigManager} `{!Notifier}.

Definition sent_query (uc : UpgradeConfig) (st : MuoState) : string :=
  selector_text metricUpgradeNotification [uc_Name uc; toString st; ucVersionOf uc].

(** The gauge of a sent notification is set in the store. *)
Definition sent_for (uc : UpgradeConfig) (st : MuoState) (g : gauges) : Prop :=
  gauge_value metricUpgradeNotification [uc_Name uc; toString st; ucVersionOf uc] g = Some 1%Z.

(** Nothing to do: no UpgradeConfig, or the state was already sent for it. *)
Definition nothing_to_send (st : MuoState) (tr : list (obs Eff)) : Prop :=
  exec (manager_Get _) tr (Done (Err (ErrSentinel ErrUpgradeConfigNotFound))) \/
  exists uc tm l, exec (manager_Get _) tm (Done (Ok uc)) /\ l <> [] /\
    tr = tm ++ [Obs (PromQuery (sent_query uc st)) (Ok l)].

Lemma pendingConfig_wp st :
  wp (pendingConfig st) (fun tr o => exists r, o = Done r /\
    Forall (fun ob : obs Eff => no_gauge _ (ob_event ob)) tr /\
    match r with
    | Ok None => nothing_to_send st tr
    | Ok (Some uc) => exists tm, exec (manager_Get _) tm (Done (Ok uc)) /\
        tr = tm ++ [Obs (PromQuery (sent_query uc st)) (Ok [])]
    | Err _ => True
    end).
Proof.
  unfold pendingConfig. apply wp_bind, wp_exec. intros tm o Hm.
  destruct (no_panic_exec _ _ _ manager_Get_no_panic Hm) as [r ->].
  pose proof (all_ev_exec _ _ _ _ manager_Get_no_gauge Hm) as Hg.
  destruct r as [uc|e].
  - apply wp_bind, wp_exec. intros tq o (q & -> & ->)%sentSet_exec.
    assert (Forall (fun ob : obs Eff => no_gauge _ (ob_event ob)) (tm ++ [Obs (PromQuery (sent_query uc st)) q]))
      as Hall by (apply Forall_app; split; [done|by repeat constructor]).
    destruct q as [l|e]; [destruct (bool_decide_reflect (l <> [])) as [Hl|Hl]|]; wp_cbn;
      rewrite ?app_nil_r; eexists; (split; [done|]); (split; [done|]); [|eexists; split; [done|]|done].
    + right. exists uc, tm, l. done.
    + assert (l = []) as -> by (destruct l; [done|by destruct Hl]). done.
  - destruct (is_sentinel ErrUpgradeConfigNotFound e) eqn:E; wp_cbn; rewrite app_nil_r;
      eexists; (split; [done|]); (split; [done|]); [|done].
    left. destruct e; try discriminate E. cbn in E. by apply bool_decide_eq_true in E as <-.
Qed.

(** A gauge of another vector does not change the value. *)
Lemma gauge_set_other m m' vs vs' v g :
  gv_Name m <> gv_Name m' ->
  gauge_value m vs (gauge_apply g (Obs (GaugeSet (gv_Name m') (zip (gv_Labels m') vs') v) tt)) =
  gauge_value m vs g.
Proof.
  intros Hne. unfold gauge_value, gauge_apply. cbn. by rewrite lookup_insert_ne by congruence.
Qed.

Lemma gauge_set_same m vs v g :
  gauge_value m vs (gauge_apply g (Obs (GaugeSet (gv_Name m) (zip (gv_Labels m) vs) v) tt)) = Some v.
Proof.
  unfold gauge_value, gauge_apply. cbn. rewrite lookup_insert_eq. cbn. by rewrite lookup_insert_eq.
Qed.

Definition sent_correct (describe : UpgradeConfig -> option string) (st : MuoState)
    (tr : list (obs Eff)) (r : option error) : Prop :=
  forall g : gauges,
  match r with
  | Some _ => forall vs, gauge_value metricUpgradeNotification vs (gauges_after tr g) =
                         gauge_value metricUpgradeNotification vs g
  | None => nothing_to_send st tr \/
      exists uc d tm tn tg, exec (manager_Get _) tm (Done (Ok uc)) /\ describe uc = Some d /\
        exec (NotifyState _ st d) tn (Done None) /\
        tr = tm ++ [Obs (PromQuery (sent_query uc st)) (Ok [])] ++ tn ++ tg /\
        Forall (fun ob : obs Eff => gauge_event _ (ob_event ob)) tg /\
        sent_for uc st (gauges_after tr g)
  end.

Lemma Notify_wp st :
  wp (Notify st) (fun tr o => exists r, o = Done r /\ sent_correct (notifyDescription st) st tr r).
Proof.
  unfold Notify. apply wp_bind. eapply wp_mono; [apply pendingConfig_wp|].
  intros tp o (r & -> & Hg & Hr). destruct r as [[uc|]|e]; [|wp_cbn; rewrite app_nil_r..].
  - destruct (notifyDescription st uc) as [d|] eqn:Hd; wp_cbn; [|rewrite app_nil_r].
    + apply wp_bind, wp_exec. intros tn o Hn.
      destruct (no_panic_exec _ _ _ (NotifyState_no_panic st d) Hn) as [rn ->].
      pose proof (all_ev_exec _ _ _ _ (NotifyState_no_gauge st d) Hn) as Hgn.
      destruct rn as [err|].
      * wp_cbn. intros []. eexists; split; [done|]. intros g vs.
        rewrite app_assoc, gauges_after_app, (gauges_after_no_gauge (tp ++ tn)) by by apply Forall_app.
        apply gauge_set_other. discriminate.
      * wp_cbn. intros [] []. eexists; split; [done|]. intros g. right.
        destruct Hr as (tm & Hm & ->).
        eexists uc, d, tm, tn, _. split; [done|]. split; [done|]. split; [done|].
        rewrite <- app_assoc. split; [reflexivity|]. split; [by repeat constructor|].
        unfold sent_for. rewrite !app_assoc, gauges_after_app. apply gauge_set_same.
    + eexists; split; [done|]. intros g vs. by rewrite gauges_after_no_gauge.
  - eexists; split; [done|]. intros g. by left.
  - eexists; split; [done|]. intros g vs. by rewrite gauges_after_no_gauge.
Qed.

Lemma NotifyResult_wp st res :
  wp (NotifyResult st res) (fun tr o => exists r, o = Done r /\
    sent_correct (fun uc => resultDescription st uc res) st tr r).
Proof.
  unfold NotifyResult. apply wp_bind. eapply wp_mono; [apply pendingConfig_wp|].
  intros tp o (r & -> & Hg & Hr). destruct r as [[uc|]|e]; [|wp_cbn; rewrite app_nil_r..].
  - destruct (resultDescription st uc res) as [d|] eqn:Hd; wp_cbn; [|rewrite app_nil_r].
    + apply wp_bind, wp_exec. intros tn o Hn.
      destruct (no_panic_exec _ _ _ (NotifyState_no_panic st d) Hn) as [rn ->].
      pose proof (all_ev_exec _ _ _ _ (NotifyState_no_gauge st d) Hn) as Hgn.
      destruct rn as [err|].
      * wp_cbn. eexists; split; [done|]. intros g vs. rewrite app_nil_r.
        by rewrite gauges_after_no_gauge by by apply Forall_app.
      * wp_cbn. intros []. eexists; split; [done|]. intros g. right.
        destruct Hr as (tm & Hm & ->).
        eexists uc, d, tm, tn, _. split; [done|]. split; [done|]. split; [done|].
        rewrite <- app_assoc. split; [reflexivity|]. split; [by repeat constructor|].
        unfold sent_for. rewrite !app_assoc, gauges_after_app. apply gauge_set_same.
    + eexists; split; [done|]. intros g vs. by rewrite gauges_after_no_gauge.
  - eexists; split; [done|]. intros g. by left.
  - eexists; split; [done|]. intros g vs. by rewrite gauges_after_no_gauge.
Qed.

End Correct.

Lemma delayed_description_retry uc : Contains (createDelayedDescription uc) "retry" = true.
Proof.
  unfold createDelayedDescription. destruct (incompleteCondition uc) as [c|]; [|by apply Contains_app_r, Contains_app_r].
  repeat match goal with |- context [if ?b then _ else _] => destruct b end; by apply Contains_app_r, Contains_app_r.
Qed.

(** ** Properties *)

(** C21: a notification (with or without a result) is sent at most once: when
    the sent gauge is found, or there is no UpgradeConfig, nothing is done;
    otherwise it succeeds exactly by calling the notifier with the description
    of the state and recording the gauge, and a failure never marks it sent. *)
Theorem Notify_sends_once `{!UpgradeConfigManager} `{!Notifier} st res tr o :
  (exec (Notify st) tr o ->
   exists r, o = Done r /\ sent_correct (notifyDescription st) st tr r) /\
  (exec (NotifyResult st res) tr o ->
   exists r, o = Done r /\ sent_correct (fun uc => resultDescription st uc res) st tr r).
Proof.
  split; intros Hex.
  - exact (proj1 (wp_exec _ _) (Notify_wp st) _ _ Hex).
  - exact (proj1 (wp_exec _ _) (NotifyResult_wp st res) _ _ Hex).
Qed.

(** Every delay is described with the promise to retry, so it is read back
    from OCM as a delay, whatever step is delayed and whatever the iteration
    order of the state map. *)
Theorem delay_read_back_as_delayed order uc d :
  order ≡ₚ stateMap -> notifyDescription MuoStateDelayed uc = Some d ->
  currentMuoState order (mkPolicyState OcmStateDelayed d) = Some MuoStateDelayed.
Proof.
  intros _ [= <-]. unfold currentMuoState. cbn [ps_Value ps_Description].
  by rewrite String.eqb_refl, delayed_description_retry.
Qed.

(** The description of a skipped scale-up does not mention a retry: the state
    is read back as [MuoStateSkipped], and a later delay is refused although
    the transition from [MuoStateScaleSkipped] allows it. *)
Lemma scale_skip_hides_delay :
  let uc := mkUpgradeConfig "managed-upgrade-config" "muo" "1" demo_spec [] in
  exists d, notifyDescription MuoStateScaleSkipped uc = Some d /\
    currentMuoState stateMap (mkPolicyState OcmStateDelayed d) = Some MuoStateSkipped /\
    validateStateTransition MuoStateSkipped MuoStateDelayed = false /\
    validateStateTransition MuoStateScaleSkipped MuoStateDelayed = true.
Proof. eexists. split; [reflexivity|]. by vm_compute. Qed.

(** *** Witnesses *)

Definition demo_em_env X (e : Eff X) (u : unit) : X * unit :=
  match e in Eff X return X * unit with
  | PromQuery _ => (Ok [], u)
  | e' => demo_notify_env _ e' u
  end.
Definition demo_em_run :=
  run demo_em_env (@Notify demo_manager (@ocmNotifier demo_manager stateMap true) MuoStateStarted) tt.

Lemma Notify_sends_once_witness :
  length demo_em_run.1.1 = 7 /\
  exists r, demo_em_run.1.2 = Done r /\
    @sent_correct demo_manager (@ocmNotifier demo_manager stateMap true)
      (notifyDescription MuoStateStarted) MuoStateStarted demo_em_run.1.1 r.
Proof.
  split; [vm_compute; reflexivity|].
  refine (proj1 (@Notify_sends_once demo_manager (@ocmNotifier demo_manager stateMap true)
    MuoStateStarted "" demo_em_run.1.1 demo_em_run.1.2) _).
  exact (run_exec demo_em_env _ tt).
Defined.

Lemma delay_read_back_as_delayed_witness :
  currentMuoState stateMap (mkPolicyState OcmStateDelayed (createDelayedDescription demo_notify_uc)) =
  Some MuoStateDelayed.
Proof.
  exact (delay_read_back_as_delayed stateMap demo_notify_uc _ (Permutation_refl _) eq_refl).
Defined.
