(* ===== verification/Machinery.v ===== *)
(** * Machinery (pkg/machinery)

    Whether a machine config pool is upgrading, and what the taints and
    annotations of a node say about it. *)

From stdpp Require Import base gmap strings list.
From Stdlib Require Import ZArith Lia.
From S2P Require Import Prelude GoTime Api Effects.

Record UpgradingResult := mkUpgradingResult {
  IsUpgrading : bool; UpdatedCount : Z; ur_MachineCount : Z }.

Definition machinery_IsUpgrading (nodeType : string) : M (result UpgradingResult) :=
  configPool ←? call (GetMachineConfigPool nodeType);
  mret (Ok (mkUpgradingResult (negb (MachineCount configPool =? UpdatedMachineCount configPool)%Z)
              (UpdatedMachineCount configPool) (MachineCount configPool))).

Definition MasterLabel : string := "node-role.kubernetes.io/master".
Definition TaintEffectNoSchedule : string := "NoSchedule".
Definition TaintNodeUnschedulable : string := "node.kubernetes.io/unschedulable".
Definition TaintNodeMemoryPressure : string := "node.kubernetes.io/memory-pressure".
Definition TaintNodeDiskPressure : string := "node.kubernetes.io/disk-pressure".
Definition TaintNodePIDPressure : string := "node.kubernetes.io/pid-pressure".
Definition MachineConfigDaemonStateAnnotationKey : string := "machineconfiguration.openshift.io/state".
Definition MachineConfigDaemonStateWorking : string := "Working".

Definition noScheduleTaint (key : string) (n : Taint) : bool :=
  String.eqb (taint_Effect n) TaintEffectNoSchedule && String.eqb (taint_Key n) key.

Record IsCordonedResult := mkIsCordonedResult { IsCordoned : bool; AddedAt : option Time }.

(** The last matching taint gives the time. *)
Definition IsNodeCordoned (node : Node) : IsCordonedResult :=
  if Unschedulable node && Nat.ltb 0 (length (Taints node)) then
    fold_left (fun res n => if noScheduleTaint TaintNodeUnschedulable n
                            then mkIsCordonedResult true (TimeAdded n) else res)
      (Taints node) (mkIsCordonedResult false None)
  else mkIsCordonedResult false None.

Definition IsNodeUpgrading (node : Node) : bool :=
  String.eqb (default "" (node_Annotations node !! MachineConfigDaemonStateAnnotationKey))
    MachineConfigDaemonStateWorking.

Definition hasTaint (key : string) (node : Node) : bool :=
  if Nat.ltb 0 (length (Taints node)) then existsb (noScheduleTaint key) (Taints node) else false.

Definition HasMemoryPressure (node : Node) : bool := hasTaint TaintNodeMemoryPressure node.
Definition HasDiskPressure (node : Node) : bool := hasTaint TaintNodeDiskPressure node.
Definition HasPidPressure (node : Node) : bool := hasTaint TaintNodePIDPressure node.

(** ** Lemmas *)

Lemma machinery_IsUpgrading_reads t : all_ev reads (machinery_IsUpgrading t).
Proof. unfold machinery_IsUpgrading. ev_auto; done. Qed.
Lemma machinery_IsUpgrading_no_panic t : no_panic (machinery_IsUpgrading t).
Proof. unfold machinery_IsUpgrading. np_auto. Qed.
#[export] Hint Resolve machinery_IsUpgrading_reads machinery_IsUpgrading_no_panic : muo.

Lemma hasTaint_spec key node :
  hasTaint key node = true <->
  exists t, t ∈ Taints node /\ taint_Effect t = TaintEffectNoSchedule /\ taint_Key t = key.
Proof.
  unfold hasTaint. assert ((if Nat.ltb 0 (length (Taints node)) then existsb (noScheduleTaint key) (Taints node)
    else false) = existsb (noScheduleTaint key) (Taints node)) as -> by by destruct (Taints node).
  rewrite existsb_exists. unfold noScheduleTaint. split; intros (t & Ht & H); exists t.
  - apply andb_prop in H as [He Hk]. apply String.eqb_eq in He, Hk. by rewrite list_elem_of_In.
  - destruct H as [-> ->]. rewrite !String.eqb_refl. by apply list_elem_of_In in Ht.
Qed.

(** A node is cordoned when it is unschedulable and tainted as such; the time
    is that of the last such taint. *)
Lemma IsNodeCordoned_spec node :
  (IsCordoned (IsNodeCordoned node) = true <->
   Unschedulable node = true /\ hasTaint TaintNodeUnschedulable node = true) /\
  (IsCordoned (IsNodeCordoned node) = false -> AddedAt (IsNodeCordoned node) = None).
Proof.
  unfold IsNodeCordoned. destruct (Unschedulable node); cbn [andb]; [|by split; [split; [|intros []]|]].
  assert (hasTaint TaintNodeUnschedulable node = existsb (noScheduleTaint TaintNodeUnschedulable) (Taints node))
    as -> by (unfold hasTaint; by destruct (Taints node)).
  destruct (Taints node) as [|t ts]; [by split; [split; [|intros []]|]|]. cbn [Nat.ltb Nat.leb length].
  assert (forall l res, IsCordoned (fold_left (fun res n => if noScheduleTaint TaintNodeUnschedulable n
      then mkIsCordonedResult true (TimeAdded n) else res) l res) =
      (IsCordoned res || existsb (noScheduleTaint TaintNodeUnschedulable) l) /\
      (IsCordoned res = false -> AddedAt res = None ->
       IsCordoned (fold_left (fun res n => if noScheduleTaint TaintNodeUnschedulable n
        then mkIsCordonedResult true (TimeAdded n) else res) l res) = false ->
       AddedAt (fold_left (fun res n => if noScheduleTaint TaintNodeUnschedulable n
        then mkIsCordonedResult true (TimeAdded n) else res) l res) = None)) as H.
  { clear. induction l as [|n l IH]; intros res; cbn [fold_left existsb]; [by rewrite orb_false_r|].
    destruct (noScheduleTaint TaintNodeUnschedulable n); cbn.
    - destruct (IH (mkIsCordonedResult true (TimeAdded n))) as [-> _]. cbn. by rewrite orb_true_r.
    - apply IH. }
  destruct (H (t :: ts) (mkIsCordonedResult false None)) as [H1 H2]. split; [|by apply H2].
  rewrite H1. cbn [IsCordoned orb]. tauto.
Qed.
