(* ===== verification/Drain.v ===== *)
(** * Node drain strategies (pkg/pod, pkg/drain)

    Pods that block a drain are deleted, or lose their finalizers, once the
    node has been cordoned for the wait of a strategy; a drain has failed when
    its deadline passed and no strategy is left.  The strategies are values of
    the interface [DrainStrategy]; [timedStrategies] is the list the builder
    makes from the configuration and the pod disruption budgets. *)

From stdpp Require Import base gmap strings list.
From Stdlib Require Import ZArith Lia.
From S2P Require Import Prelude GoSort GoTime Api Effects Config Interfaces Metrics SpecProvider.
From S2P Require Import UpgradeConfigManager Notifier Machinery.

(** ** Pods (pkg/pod/pod.go) *)

(** A predicate may panic ([None]): a namespace pattern that does not compile. *)
Definition PodPredicate : Type := Pod -> option bool.

(** The conjunction of predicates, evaluated up to the first that fails. *)
Fixpoint matchAll (predicates : list PodPredicate) (pod : Pod) : option bool :=
  match predicates with
  | [] => Some true
  | p :: rest => match p pod with
                 | None => None
                 | Some false => Some false
                 | Some true => matchAll rest pod
                 end
  end.

Fixpoint FilterPods (podList : list Pod) (predicates : list PodPredicate) : option (list Pod) :=
  match podList with
  | [] => Some []
  | pod :: rest =>
      match matchAll predicates pod with
      | None => None
      | Some b => match FilterPods rest predicates with
                  | None => None
                  | Some filtered => Some (if b then pod :: filtered else filtered)
                  end
      end
  end.

Definition GetPodList (n : Node) (filters : list PodPredicate) : M (result (list Pod)) :=
  allPods ←? call (ListPods ("spec.nodeName=" +:+ node_Name n));
  filtered ← deref (FilterPods allPods filters);
  mret (Ok filtered).

Record DeleteResult := mkDeleteResult { del_Message : string; NumMarkedForDeletion : nat }.

(** [multierror.Append(err, me)] puts the newest error first. *)

Fixpoint deletePodsLoop (pl : list Pod) (ignoreAlreadyDeleting : bool) (grace : option Z)
    (me : list error) (marked : list string) : M (list error * list string) :=
  match pl with
  | [] => mret (me, marked)
  | p :: rest =>
      if negb ignoreAlreadyDeleting || bool_decide (pod_DeletionTimestamp p = None) then
        r ← call (DeletePod p grace);
        match r with
        | Err err => deletePodsLoop rest ignoreAlreadyDeleting grace (err :: me) marked
        | Ok _ => deletePodsLoop rest ignoreAlreadyDeleting grace me (marked ++ [pod_Name p])
        end
      else deletePodsLoop rest ignoreAlreadyDeleting grace me marked
  end.

Definition DeletePods (pl : list Pod) (ignoreAlreadyDeleting : bool) (grace : option Z)
    : M (DeleteResult * option error) :=
  r ← deletePodsLoop pl ignoreAlreadyDeleting grace [] [];
  let '(me, marked) := r in
  mret (mkDeleteResult ("Pod(s) " +:+ Join marked "," +:+ " have been marked for deletion") (length marked),
        errorOrNil me).

Definition set_Finalizers (f : list string) (p : Pod) : Pod :=
  mkPod (pod_Name p) (pod_Namespace p) (NodeName p) (pod_Labels p) (OwnerKinds p) f (pod_DeletionTimestamp p).

Record RemoveFinalizersResult := mkRemoveFinalizersResult { rem_Message : string; NumRemoved : nat }.

Fixpoint removeFinalizersLoop (pl : list Pod) (me : list error) (removed : list string)
    : M (list error * list string) :=
  match pl with
  | [] => mret (me, removed)
  | p :: rest =>
      if negb (Nat.eqb (length (Finalizers p)) 0) then
        r ← call (UpdatePod (set_Finalizers [] p));
        match r with
        | Err err => removeFinalizersLoop rest (err :: me) removed
        | Ok _ => removeFinalizersLoop rest me (removed ++ [pod_Name p])
        end
      else removeFinalizersLoop rest me removed
  end.

Definition RemoveFinalizersFromPod (pl : list Pod) : M (RemoveFinalizersResult * option error) :=
  r ← removeFinalizersLoop pl [] [];
  let '(me, removed) := r in
  mret (mkRemoveFinalizersResult ("Finalizers removed for pods: " +:+ Join removed ",") (length removed),
        errorOrNil me).

(** ** Predicates (pod_predicates.go) *)

Definition containsMatchLabel (p : Pod) (pdbList : list PodDisruptionBudget) : bool :=
  existsb (fun pdb =>
      match pdb_Selector pdb with
      | None => false
      | Some matchLabels =>
          existsb (fun '(mlKey, mlValue) =>
              match pod_Labels p !! mlKey with
              | Some lValue => String.eqb lValue mlValue
              | None => false
              end) matchLabels
      end) pdbList.

Definition isPdbPod (pdbList : list PodDisruptionBudget) : PodPredicate :=
  fun p => Some (containsMatchLabel p pdbList).
Definition isNotPdbPod (pdbList : list PodDisruptionBudget) : PodPredicate :=
  fun p => Some (negb (containsMatchLabel p pdbList)).
Definition isOnNode (node : Node) : PodPredicate := fun p => Some (String.eqb (NodeName p) (node_Name node)).
Definition isDaemonSet (p : Pod) : bool := existsb (fun k => String.eqb k "DaemonSet") (OwnerKinds p).
Definition isNotDaemonSet : PodPredicate := fun p => Some (negb (isDaemonSet p)).
Definition hasFinalizers : PodPredicate := fun p => Some (Nat.ltb 0 (length (Finalizers p))).
Definition hasNoFinalizers : PodPredicate := fun p => Some (Nat.eqb (length (Finalizers p)) 0).
Definition isTerminating : PodPredicate := fun p => Some (bool_decide (is_Some (pod_DeletionTimestamp p))).

Section Drain.
Context `{!Regexp}.

Fixpoint containsIgnoredNamespace (p : Pod) (ignoredNamespacePatterns : list string) : option bool :=
  match ignoredNamespacePatterns with
  | [] => Some true
  | nsPattern :: rest =>
      match regexp_match nsPattern (pod_Namespace p) with
      | None => None
      | Some true => Some false
      | Some false => containsIgnoredNamespace p rest
      end
  end.
Definition isAllowedNamespace (ignoredNamespacePatterns : list string) : PodPredicate :=
  fun p => containsIgnoredNamespace p ignoredNamespacePatterns.

(** ** Strategies *)

Record DrainStrategyResult := mkDrainStrategyResult { dr_Message : string; HasExecuted : bool }.

Record DrainStrategy := mkDrainStrategy {
  strategy_Execute : Node -> M (result DrainStrategyResult);
  strategy_IsValid : Node -> M (result bool);
}.

Definition targetPods (filters : list PodPredicate) (node : Node) : M (result bool) :=
  pods ←? GetPodList node filters;
  mret (Ok (Nat.ltb 0 (length pods))).

Definition podDeletionStrategy (filters : list PodPredicate) : DrainStrategy := {|
  strategy_Execute node :=
    podsToDelete ←? GetPodList node ([isOnNode node] ++ filters);
    r ← DeletePods podsToDelete true (Some 0%Z);
    let '(res, err) := r in
    mret match err with
         | Some e => Err e
         | None => Ok (mkDrainStrategyResult (del_Message res) (Nat.ltb 0 (NumMarkedForDeletion res)))
         end;
  strategy_IsValid node := targetPods ([isOnNode node] ++ filters) node;
|}.

Definition stuckTerminatingStrategy (filters : list PodPredicate) : DrainStrategy := {|
  strategy_Execute node :=
    podsStuckTerminating ←? GetPodList node ([isOnNode node; hasNoFinalizers; isTerminating] ++ filters);
    r ← DeletePods podsStuckTerminating false (Some 0%Z);
    let '(res, err) := r in
    mret match err with
         | Some e => Err e
         | None => Ok (mkDrainStrategyResult (del_Message res) (Nat.ltb 0 (NumMarkedForDeletion res)))
         end;
  strategy_IsValid node := targetPods ([isOnNode node; hasNoFinalizers; isTerminating] ++ filters) node;
|}.

Definition removeFinalizersStrategy (filters : list PodPredicate) : DrainStrategy := {|
  strategy_Execute node :=
    podsWithFinalizers ←? GetPodList node ([isOnNode node; hasFinalizers] ++ filters);
    r ← RemoveFinalizersFromPod podsWithFinalizers;
    let '(res, err) := r in
    mret match err with
         | Some e => Err e
         | None => Ok (mkDrainStrategyResult (rem_Message res) (Nat.ltb 0 (NumRemoved res)))
         end;
  strategy_IsValid node := targetPods ([isOnNode node; hasFinalizers] ++ filters) node;
|}.

Record timedStrategy := newTimedStrategy {
  GetName : string; GetDescription : string; GetWaitDuration : Duration; GetStrategy : DrainStrategy }.

(** Reads the clock only when there is a time. *)
Definition isAfter (t : option Time) (d : Duration) : M bool :=
  match t with
  | None => mret false
  | Some t => n ← now; mret (Before (TimeAdd t d) n)
  end.

(** The comparison looks at the original slice, not at the one being sorted. *)
Definition sortDuration (ts : list timedStrategy) : list timedStrategy :=
  insertionSort (fun _ i j =>
      match ts !! i, ts !! j with
      | Some a, Some b => (GetWaitDuration a <? GetWaitDuration b)%Z
      | _, _ => false
      end) ts.

(** ** Configuration (config.go) *)

Record NodeDrain := mkNodeDrain {
  DisableDrainStrategies : bool;
  Timeout : Z;
  ExpectedNodeDrainTime : Z;
  IgnoredNamespacePatterns : list string;
}.
Definition GetTimeOutDuration (nd : NodeDrain) : Duration := dur_mul (Timeout nd) Minute.
Definition GetExpectedDrainDuration (nd : NodeDrain) : Duration := dur_mul (ExpectedNodeDrainTime nd) Minute.

(** ** The node drain strategy (nodeDrainStrategy.go) *)

Definition defaultPodDeleteName : string := "DELETE".
Definition pdbPodDeleteName : string := "PDB-DELETE".
Definition defaultPodFinalizerRemovalName : string := "DEFAULT-FINALIZER".
Definition pdbPodFinalizerRemovalName : string := "PDB-FINALIZER".
Definition stuckTerminatingPodName : string := "POD-STUCK-TERMINATING".

Record osdDrainStrategy := mkOsdDrainStrategy {
  cfg : NodeDrain;
  timedDrainStrategies : list timedStrategy;
  ds_uc : UpgradeConfig;
  ds_notifier : Notifier;
}.

(** An entry of the result: the parts of its message. *)
Record ExecutedStrategy := mkExecuted {
  ex_Strategy : string; ex_Node : string; ex_AddedAt : Time; ex_ExpectedAfter : Time; ex_Result : string }.

Definition drainDelayMessage : string :=
  "Node drain grace period might be impacting cluster upgrade. " +:+
  "Please refer to the article for further details https://access.redhat.com/solutions/7075425".

(** The notice that follows a PDB pod deletion. *)
Definition notifyDrainDelay (uc : UpgradeConfig) (n : Notifier) : M (result unit) :=
  r ← IsMetricNotificationEventSentSet (uc_Name uc) (toString MuoStateDelayed) (ucVersionOf uc);
  match r with
  | Err err => mret (Err (ErrText ("can't check cluster metric NotificationSent: " +:+ error_msg err)))
  | Ok true => mret (Ok tt)
  | Ok false =>
      e ← NotifyState n MuoStateDelayed drainDelayMessage;
      match e with
      | Some err => mret (Err err)
      | None =>
          _ ← UpdateMetricNotificationEventSent (uc_Name uc) (toString MuoStateDelayed) (ucVersionOf uc);
          mret (Ok tt)
      end
  end.

Fixpoint executeStrategies (ds : osdDrainStrategy) (node : Node) (addedAt : Time)
    (strategies : list timedStrategy) (res : list ExecutedStrategy) : M (result (list ExecutedStrategy)) :=
  match strategies with
  | [] => mret (Ok res)
  | tds :: rest =>
      let dsName := GetName tds in
      let expectedTime := TimeAdd addedAt (GetWaitDuration tds) in
      due ← isAfter (Some addedAt) (GetWaitDuration tds);
      if (due : bool) then
        r ←? strategy_Execute (GetStrategy tds) node;
        if HasExecuted r then
          _ ←? (if String.eqb dsName pdbPodDeleteName
                then notifyDrainDelay (ds_uc ds) (ds_notifier ds) else mret (Ok tt) : M (result unit));
          executeStrategies ds node addedAt rest
            (res ++ [mkExecuted dsName (node_Name node) addedAt expectedTime (dr_Message r)])
        else executeStrategies ds node addedAt rest res
      else executeStrategies ds node addedAt rest res
  end.

Definition drain_Execute (ds : osdDrainStrategy) (node : Node) : M (result (list ExecutedStrategy)) :=
  let result := IsNodeCordoned node in
  if IsCordoned result then
    match AddedAt result with
    | None => mret (Err (ErrText ("cannot determine drain commencement time for node " +:+ node_Name node)))
    | Some addedAt => executeStrategies ds node addedAt (timedDrainStrategies ds) []
    end
  else mret (Ok []).

(** The strategies whose wait has passed. *)
Fixpoint executedOf (addedAt : option Time) (ss : list timedStrategy) : M (list timedStrategy) :=
  match ss with
  | [] => mret []
  | s :: rest =>
      due ← isAfter addedAt (GetWaitDuration s);
      executed ← executedOf addedAt rest;
      mret (if (due : bool) then s :: executed else executed)
  end.

Fixpoint validOf (node : Node) (ss : list timedStrategy) : M (result (list timedStrategy)) :=
  match ss with
  | [] => mret (Ok [])
  | tds :: rest =>
      isValid ←? strategy_IsValid (GetStrategy tds) node;
      valid ←? validOf node rest;
      mret (Ok (if isValid then tds :: valid else valid))
  end.

Definition drain_HasFailed (ds : osdDrainStrategy) (node : Node) : M (result bool) :=
  let result := IsNodeCordoned node in
  match AddedAt result with
  | None => mret (Ok false)
  | Some _ =>
      if Nat.eqb (length (timedDrainStrategies ds)) 0 then
        b ← isAfter (AddedAt result) (GetTimeOutDuration (cfg ds)); mret (Ok b)
      else
        let sortedStrategies := sortDuration (timedDrainStrategies ds) in
        executedStrategies ← executedOf (AddedAt result) sortedStrategies;
        let pendingStrategies := drop (length executedStrategies) sortedStrategies in
        validPendingStrategies ←? validOf node pendingStrategies;
        if Nat.ltb 0 (length validPendingStrategies) then mret (Ok false)
        else
          match last executedStrategies with
          | Some lastExecutedStrategy =>
              let d := wrap64 (GetWaitDuration lastExecutedStrategy + GetExpectedDrainDuration (cfg ds)) in
              if (GetTimeOutDuration (cfg ds) <? d)%Z
              then b ← isAfter (AddedAt result) d; mret (Ok b)
              else b ← isAfter (AddedAt result) (GetTimeOutDuration (cfg ds)); mret (Ok b)
          | None => b ← isAfter (AddedAt result) (GetTimeOutDuration (cfg ds)); mret (Ok b)
          end
  end.

(** ** The builder (strategy.go) *)

Definition timedStrategies (uc : UpgradeConfig) (cfg : NodeDrain) (pdbList : list PodDisruptionBudget)
    : list timedStrategy :=
  let defaultOsdPodPredicates := [isNotDaemonSet] in
  let isAllowed := isAllowedNamespace (IgnoredNamespacePatterns cfg) in
  let defaultDuration := GetTimeOutDuration cfg in
  let pdbDuration := wrap64 (GetPDBDrainTimeoutDuration uc + GetExpectedDrainDuration cfg) in
  let notPdb := defaultOsdPodPredicates ++ [isNotPdbPod pdbList; isAllowed] in
  let pdb := defaultOsdPodPredicates ++ [isPdbPod pdbList; isAllowed] in
  [newTimedStrategy defaultPodDeleteName "Default pod deletion" defaultDuration (podDeletionStrategy notPdb);
   newTimedStrategy defaultPodFinalizerRemovalName "Default pod finalizer removal" defaultDuration
     (removeFinalizersStrategy notPdb);
   newTimedStrategy stuckTerminatingPodName "Pod stuck terminating removal" defaultDuration
     (stuckTerminatingStrategy notPdb);
   newTimedStrategy pdbPodDeleteName "PDB pod deletion" pdbDuration (podDeletionStrategy pdb);
   newTimedStrategy pdbPodFinalizerRemovalName "PDB Pod finalizer removal" pdbDuration
     (removeFinalizersStrategy pdb)].

(** The clients the builder makes: a notifier and the metrics client. *)
Context (notifier_builder : M (result Notifier)).

Definition NewNodeDrainStrategy (uc : UpgradeConfig) (cfg : NodeDrain) : M (result osdDrainStrategy) :=
  r ← call ListPDBs;
  pdbList ←? (mret match r with
                   | Ok l => Ok l
                   | Err err => if IsNotFound err then Ok [] else Err err
                   end : M (result (list PodDisruptionBudget)));
  n ←? notifier_builder;
  _ ←? call (NewClient "metrics");
  mret (Ok (mkOsdDrainStrategy cfg (timedStrategies uc cfg pdbList) uc n)).

Definition NewDefaultNodeDrainStrategy (uc : UpgradeConfig) (cfg : NodeDrain) : M (result osdDrainStrategy) :=
  n ←? notifier_builder;
  _ ←? call (NewClient "metrics");
  mret (Ok (mkOsdDrainStrategy cfg [] uc n)).

End Drain.

(** ** Lemmas: which pods the strategies touch *)

(** The pod that an event deletes or updates. *)
Definition pod_of_event {X} (e : Eff X) : option Pod :=
  match e with DeletePod p _ => Some p | UpdatePod p => Some p | _ => None end.

(** Every pod an event touches satisfies [P]. *)
Definition touches_only (P : Pod -> Prop) X (e : Eff X) : Prop :=
  forall p, pod_of_event e = Some p -> P p.

Lemma matchAll_app l1 l2 p :
  matchAll (l1 ++ l2) p = Some true <-> matchAll l1 p = Some true /\ matchAll l2 p = Some true.
Proof.
  induction l1 as [|f l1 IH]; cbn; [tauto|]. destruct (f p) as [[|]|]; [exact IH|split; [done|by intros []]..].
Qed.

Lemma FilterPods_elem pods filters out p :
  FilterPods pods filters = Some out -> p ∈ out -> p ∈ pods /\ matchAll filters p = Some true.
Proof.
  revert out. induction pods as [|q pods IH]; intros out; cbn.
  - intros [= <-] H. by apply elem_of_nil in H.
  - destruct (matchAll filters q) as [b|] eqn:E; [|done].
    destruct (FilterPods pods filters) as [out'|]; [|done]. intros [= <-].
    destruct b; [intros [->|H]%elem_of_cons|intros H]; [by split; [left|]| |];
      (destruct (IH _ eq_refl H); split; [by right|done]).
Qed.

Section Touch.
Context (P : Pod -> Prop).

Lemma GetPodList_ev node filters {B} (f : list Pod -> M (result B)) :
  (forall pods, (forall p, p ∈ pods -> matchAll filters p = Some true) -> all_ev (touches_only P) (f pods)) ->
  all_ev (touches_only P) (bindr (GetPodList node filters) f).
Proof.
  intros Hf. unfold GetPodList. cbn. split; [done|]. intros [pods|e]; cbn; [|exact I].
  destruct (FilterPods pods filters) as [out|] eqn:E; cbn; [|exact I].
  apply Hf. intros p Hp. by eapply FilterPods_elem.
Qed.

Lemma deletePodsLoop_ev pl ign g me m :
  (forall p, p ∈ pl -> P p) -> all_ev (touches_only P) (deletePodsLoop pl ign g me m).
Proof.
  revert me m. induction pl as [|p pl IH]; intros me m H; cbn [deletePodsLoop]; [exact I|].
  assert (forall me m, all_ev (touches_only P) (deletePodsLoop pl ign g me m)) as IH'.
  { intros me' m'. apply IH. intros q Hq. apply H. by right. }
  destruct (negb ign || _); [|done]. cbn. split; [|intros [?|?]; apply IH'].
  intros q [= <-]. apply H. by left.
Qed.

Lemma removeFinalizersLoop_ev pl me m :
  (forall p, p ∈ pl -> P (set_Finalizers [] p)) -> all_ev (touches_only P) (removeFinalizersLoop pl me m).
Proof.
  revert me m. induction pl as [|p pl IH]; intros me m H; cbn [removeFinalizersLoop]; [exact I|].
  assert (forall me m, all_ev (touches_only P) (removeFinalizersLoop pl me m)) as IH'.
  { intros me' m'. apply IH. intros q Hq. apply H. by right. }
  destruct (negb _); [|done]. cbn. split; [|intros [?|?]; apply IH'].
  intros q [= <-]. apply H. by left.
Qed.

Lemma podDeletion_ev filters node :
  (forall p, matchAll ([isOnNode node] ++ filters) p = Some true -> P p) ->
  all_ev (touches_only P) (strategy_Execute (podDeletionStrategy filters) node).
Proof.
  intros H. apply GetPodList_ev. intros pods Hp. apply all_ev_bind.
  - unfold DeletePods. apply all_ev_bind; [|intros []; exact I]. apply deletePodsLoop_ev. auto.
  - intros [? [?|]]; exact I.
Qed.

Lemma stuckTerminating_ev filters node :
  (forall p, matchAll ([isOnNode node; hasNoFinalizers; isTerminating] ++ filters) p = Some true -> P p) ->
  all_ev (touches_only P) (strategy_Execute (stuckTerminatingStrategy filters) node).
Proof.
  intros H. apply GetPodList_ev. intros pods Hp. apply all_ev_bind.
  - unfold DeletePods. apply all_ev_bind; [|intros []; exact I]. apply deletePodsLoop_ev. auto.
  - intros [? [?|]]; exact I.
Qed.

Lemma removeFinalizers_ev filters node :
  (forall p, matchAll ([isOnNode node; hasFinalizers] ++ filters) p = Some true -> P (set_Finalizers [] p)) ->
  all_ev (touches_only P) (strategy_Execute (removeFinalizersStrategy filters) node).
Proof.
  intros H. apply GetPodList_ev. intros pods Hp. apply all_ev_bind.
  - unfold RemoveFinalizersFromPod. apply all_ev_bind; [|intros []; exact I]. apply removeFinalizersLoop_ev. auto.
  - intros [? [?|]]; exact I.
Qed.

End Touch.

Section DrainSafety.
Context {regexp : Regexp}.

(** A pod that a drain of the node may touch. *)
Definition drainable (node : Node) (cfg : NodeDrain) (p : Pod) : Prop :=
  NodeName p = node_Name node /\ isDaemonSet p = false /\
  containsIgnoredNamespace p (IgnoredNamespacePatterns cfg) = Some true.

(** The time that the node must have been cordoned before a pod is touched. *)
Definition podWait (uc : UpgradeConfig) (cfg : NodeDrain) (pdbList : list PodDisruptionBudget) (p : Pod) : Duration :=
  if containsMatchLabel p pdbList then wrap64 (GetPDBDrainTimeoutDuration uc + GetExpectedDrainDuration cfg)
  else GetTimeOutDuration cfg.

Lemma filters_drainable node cfg pdbList b pre p :
  matchAll ((isOnNode node :: pre) ++ [isNotDaemonSet; if (b : bool) then isPdbPod pdbList else isNotPdbPod pdbList;
     isAllowedNamespace (IgnoredNamespacePatterns cfg)]) p = Some true ->
  drainable node cfg p /\ containsMatchLabel p pdbList = b.
Proof.
  rewrite matchAll_app. cbn. unfold isOnNode, isNotDaemonSet, isAllowedNamespace.
  destruct (String.eqb_spec (NodeName p) (node_Name node)); [|intros [? _]; done]. intros [_ H].
  destruct (isDaemonSet p) eqn:Ed; cbn in H; [done|].
  destruct b; cbn in H; destruct (containsMatchLabel p pdbList); try done;
    (destruct (containsIgnoredNamespace p (IgnoredNamespacePatterns cfg)) as [[|]|] eqn:En; try done);
    repeat split; done.
Qed.

Lemma drainable_finalizers node cfg f p : drainable node cfg (set_Finalizers f p) <-> drainable node cfg p.
Proof.
  unfold drainable. assert (forall pats, containsIgnoredNamespace (set_Finalizers f p) pats =
    containsIgnoredNamespace p pats) as ->; [|done].
  induction pats as [|a pats IH]; [done|]. cbn [containsIgnoredNamespace]. by rewrite IH.
Qed.

(** What each strategy of the builder touches. *)
Definition touch_ok uc cfg pdbList node (w : Duration) (p : Pod) : Prop :=
  drainable node cfg p /\ podWait uc cfg pdbList p = w.

Lemma timedStrategies_ev uc cfg pdbList node tds :
  tds ∈ timedStrategies uc cfg pdbList ->
  all_ev (touches_only (touch_ok uc cfg pdbList node (GetWaitDuration tds))) (strategy_Execute (GetStrategy tds) node).
Proof.
  unfold timedStrategies. cbn zeta.
  set (notPdb := [isNotDaemonSet] ++ _). set (pdb := [isNotDaemonSet] ++ _).
  assert (forall pre p, matchAll ((isOnNode node :: pre) ++ notPdb) p = Some true ->
    touch_ok uc cfg pdbList node (GetTimeOutDuration cfg) p) as H1.
  { intros pre p [Hd Hc]%(filters_drainable node cfg pdbList false). split; [done|]. unfold podWait. by rewrite Hc. }
  assert (forall pre p, matchAll ((isOnNode node :: pre) ++ pdb) p = Some true ->
    touch_ok uc cfg pdbList node (wrap64 (GetPDBDrainTimeoutDuration uc + GetExpectedDrainDuration cfg)) p) as H2.
  { intros pre p [Hd Hc]%(filters_drainable node cfg pdbList true). split; [done|]. unfold podWait. by rewrite Hc. }
  assert (forall w p, touch_ok uc cfg pdbList node w p -> touch_ok uc cfg pdbList node w (set_Finalizers [] p)) as Hf.
  { intros w p [Hd Hw]. split; [by apply drainable_finalizers|]. rewrite <- Hw. by destruct p. }
  rewrite !elem_of_cons, elem_of_nil. intros [->|[->|[->|[->|[->|[]]]]]]; cbn [GetWaitDuration GetStrategy].
  - apply podDeletion_ev. intros p. exact (H1 [] p).
  - apply removeFinalizers_ev. intros p Hp. apply Hf. exact (H1 [hasFinalizers] p Hp).
  - apply stuckTerminating_ev. intros p. exact (H1 [hasNoFinalizers; isTerminating] p).
  - apply podDeletion_ev. intros p. exact (H2 [] p).
  - apply removeFinalizers_ev. intros p Hp. apply Hf. exact (H2 [hasFinalizers] p Hp).
Qed.

(** In the trace, a pod is touched only after a clock reading past its wait. *)
Definition touched_in_time (ok : Pod -> Prop) (wait : Pod -> Duration) (addedAt : Time) (tr : list (obs Eff)) : Prop :=
  forall t1 ob t2 p, tr = t1 ++ ob :: t2 -> pod_of_event (ob_event ob) = Some p ->
    ok p /\ exists n, Obs Now n ∈ t1 /\ (addedAt + wait p < n)%Z.

Lemma touched_app ok wait a t1 t2 :
  touched_in_time ok wait a t1 -> touched_in_time ok wait a t2 -> touched_in_time ok wait a (t1 ++ t2).
Proof.
  intros H1 H2 l ob r p Heq Hp. apply app_eq_app in Heq as (k & [[Ek Ek']|[Ek Ek']]); subst.
  - destruct k as [|x k].
    + rewrite app_nil_r in *. cbn in Ek'. subst t2. destruct (H2 [] ob r p eq_refl Hp) as (Hok & n & Hn & _).
      by apply elem_of_nil in Hn.
    + injection Ek' as <- ->. by apply (H1 l ob k p).
  - destruct (H2 k ob r p eq_refl Hp) as (Hok & n & Hn & Hlt). split; [done|]. exists n. split; [|done].
    apply elem_of_app. by right.
Qed.

Lemma untouched ok wait a tr :
  Forall (fun ob : obs Eff => pod_of_event (ob_event ob) = None) tr -> touched_in_time ok wait a tr.
Proof.
  intros H l ob r p -> Hp. apply Forall_app in H as [_ [H _]%Forall_cons]. congruence.
Qed.

Lemma touched_after_clock ok wait a n tr :
  Forall (fun ob : obs Eff => forall p, pod_of_event (ob_event ob) = Some p -> ok p /\ (a + wait p < n)%Z) tr ->
  touched_in_time ok wait a (Obs Now n :: tr).
Proof.
  intros H l ob r p Heq Hp. destruct l as [|x l]; injection Heq as Hx Hr; [by subst|]. subst.
  apply Forall_app in H as [_ [H _]%Forall_cons]. destruct (H p Hp) as [Hok Hlt].
  split; [done|]. exists n. split; [by left|done].
Qed.

Lemma notifyDrainDelay_untouched uc n :
  all_ev (fun X e => @pod_of_event X e = None) (notifyDrainDelay uc n).
Proof.
  unfold notifyDrainDelay. apply all_ev_bind.
  - unfold IsMetricNotificationEventSentSet, Query. ev_auto; done.
  - intros [[|]|e]; cbn; try exact I. apply all_ev_bind.
    + eapply all_ev_impl; [|apply NotifyState_events]. intros X e [_ [Hr|Ht]]; by destruct e.
    + intros [err|]; cbn; [exact I|]. split; [done|]. intros []. exact I.
Qed.

Lemma executeStrategies_touched uc cfg pdbList ds node addedAt ss res tr o :
  (forall tds, tds ∈ ss -> tds ∈ timedStrategies uc cfg pdbList) ->
  exec (executeStrategies ds node addedAt ss res) tr o ->
  touched_in_time (drainable node cfg) (podWait uc cfg pdbList) addedAt tr.
Proof.
  revert res tr. induction ss as [|tds ss IH]; intros res tr Hss; cbn [executeStrategies].
  { intros [-> _]. by apply untouched. }
  assert (forall res tr, exec (executeStrategies ds node addedAt ss res) tr o ->
    touched_in_time (drainable node cfg) (podWait uc cfg pdbList) addedAt tr) as IH'.
  { intros res' tr' Hex. apply (IH res' tr'); [|exact Hex]. intros x Hx. apply Hss. by right. }
  clear IH. cbn zeta.
  assert (all_ev (touches_only (touch_ok uc cfg pdbList node (GetWaitDuration tds)))
    (strategy_Execute (GetStrategy tds) node)) as Hev by (apply timedStrategies_ev, Hss; by left).
  intros (n & t & -> & Hex). cbn [mbind prog_mbind prog_bind mret prog_ret] in Hex. revert Hex.
  destruct (Before (TimeAdd addedAt (GetWaitDuration tds)) n) eqn:Hb; intros Hex.
  2: { change (Obs Now n :: t) with ([Obs Now n] ++ t). apply touched_app; [by apply untouched; repeat constructor|].
       exact (IH' _ _ Hex). }
  apply Z.ltb_lt in Hb. unfold TimeAdd in Hb.
  assert (forall tr1 o1, exec (strategy_Execute (GetStrategy tds) node) tr1 o1 ->
    touched_in_time (drainable node cfg) (podWait uc cfg pdbList) addedAt (Obs Now n :: tr1)) as Hfirst.
  { intros tr1 o1 H1. apply touched_after_clock. eapply Forall_impl; [exact (all_ev_exec _ _ _ _ Hev H1)|].
    intros ob Hob p Hp. destruct (Hob p Hp) as [Hd Hw]. rewrite Hw. done. }
  apply exec_bind in Hex as [(r & t1 & t2 & -> & H1 & H2)|(m & -> & H1)]; [|by eapply Hfirst].
  rewrite app_comm_cons. apply touched_app; [by eapply Hfirst|].
  destruct r as [r|e]; [|destruct H2 as [-> _]; by apply untouched].
  destruct (HasExecuted r); [|exact (IH' _ _ H2)].
  apply exec_bind in H2 as [(u & t3 & t4 & -> & H3 & H4)|(m & -> & H3)].
  - apply touched_app.
    + apply untouched. destruct (String.eqb (GetName tds) pdbPodDeleteName); [|destruct H3 as [-> _]; by constructor].
      exact (all_ev_exec _ _ _ _ (notifyDrainDelay_untouched _ _) H3).
    + destruct u as [u|e]; [exact (IH' _ _ H4)|destruct H4 as [-> _]; by apply untouched].
  - apply untouched. destruct (String.eqb (GetName tds) pdbPodDeleteName); [|destruct H3 as [-> _]; by constructor].
    exact (all_ev_exec _ _ _ _ (notifyDrainDelay_untouched _ _) H3).
Qed.

End DrainSafety.

(** ** Lemmas: the deadline of a drain *)

Section Deadline.
Context {regexp : Regexp}.

Lemma isAfter_no_panic t d : no_panic (isAfter t d).
Proof. destruct t; cbn; [by intros n|done]. Qed.

(** One reading of the clock. *)
Definition reading (n : Time) : obs Eff := Obs Now n.

(** The strategies whose wait had passed, each at its own reading. *)
Definition passed (addedAt : Time) (readings : list Time) (ss : list timedStrategy) : list timedStrategy :=
  (filter (fun sn => (addedAt + GetWaitDuration sn.1 < sn.2)%Z) (zip ss readings)).*1.

(** A drain may last as long as the drain timeout, and the expected drain time
    after the last strategy that was due. *)
Definition drainDeadline (nd : NodeDrain) (executed : list timedStrategy) : Duration :=
  match last executed with
  | Some s => Z.max (GetTimeOutDuration nd) (wrap64 (GetWaitDuration s + GetExpectedDrainDuration nd))
  | None => GetTimeOutDuration nd
  end.

(** The strategies were asked in order whether they still have something to do:
    the events of each question and its answer. *)
Definition answers (node : Node) (ss : list timedStrategy) (asked : list (list (obs Eff) * bool)) : Prop :=
  Forall2 (fun s a => exec (strategy_IsValid (GetStrategy s) node) a.1 (Done (Ok a.2))) ss asked.

Lemma executedOf_wp addedAt ss :
  wp (executedOf (Some addedAt) ss) (fun tr o => exists readings, length readings = length ss /\
    tr = map reading readings /\ o = Done (passed addedAt readings ss)).
Proof.
  induction ss as [|s ss IH]; cbn [executedOf]; [by exists []|]. unfold isAfter, now. wp_cbn. intros n.
  apply wp_bind. eapply wp_mono; [exact IH|]. intros t o (readings & Hl & -> & ->). wp_cbn.
  exists (n :: readings). rewrite app_nil_r. split_and!; [cbn; by rewrite Hl|done|].
  unfold passed, TimeAdd, Before. cbn [zip zip_with]. rewrite filter_cons. cbn [fst snd].
  destruct (Z.ltb_spec (addedAt + GetWaitDuration s) n); [rewrite decide_True by done|rewrite decide_False by lia]; done.
Qed.

Lemma validOf_wp node ss :
  wp (validOf node ss) (fun tr o => forall l, o = Done (Ok l) -> exists asked, answers node ss asked /\
    tr = concat asked.*1 /\ Nat.ltb 0 (length l) = existsb snd asked).
Proof.
  induction ss as [|s ss IH]; cbn [validOf].
  { intros l [= <-]. exists []. split_and!; [constructor|done..]. }
  apply wp_bindr, wp_exec. intros t1 [[b|e]|m] H1; [|done..].
  apply wp_bindr. eapply wp_mono; [exact IH|]. intros t2 [[l|e]|m] H2; [|done..]. wp_cbn.
  destruct (H2 l eq_refl) as (asked & Ha & -> & Hl). intros l' [= <-]. exists ((t1, b) :: asked).
  split_and!; [by constructor|by rewrite app_nil_r|]. destruct b; [done|]. exact Hl.
Qed.

(** What [drain_HasFailed] decides, and from which events. *)
Definition drain_verdict (ds : osdDrainStrategy) (node : Node) (tr : list (obs Eff)) (b : bool) : Prop :=
  match AddedAt (IsNodeCordoned node) with
  | None => tr = [] /\ b = false
  | Some addedAt =>
      exists readings asked,
        let sorted := sortDuration (timedDrainStrategies ds) in
        let executed := passed addedAt readings sorted in
        length readings = length sorted /\ answers node (drop (length executed) sorted) asked /\
        if existsb snd asked then tr = map reading readings ++ concat asked.*1 /\ b = false
        else exists n, tr = map reading readings ++ concat asked.*1 ++ [reading n] /\
          (b = true <-> (addedAt + drainDeadline (cfg ds) executed < n)%Z)
  end.

Lemma HasFailed_wp ds node :
  wp (drain_HasFailed ds node) (fun tr o => forall b, o = Done (Ok b) -> drain_verdict ds node tr b).
Proof.
  unfold drain_HasFailed, drain_verdict. destruct (AddedAt (IsNodeCordoned node)) as [t0|] eqn:Ht; [|by intros b [= <-]].
  assert (forall d, wp (b ← isAfter (Some t0) d; mret (Ok b) : M (result bool))
    (fun tr o => forall b, o = Done (Ok b) -> exists n, tr = [reading n] /\ (b = true <-> (t0 + d < n)%Z))) as Hend.
  { intros d. unfold isAfter, now. wp_cbn. intros n b [= <-]. exists n. split; [done|]. apply Z.ltb_lt. }
  destruct (Nat.eqb_spec (length (timedDrainStrategies ds)) 0) as [Hz|Hz].
  { apply nil_length_inv in Hz. rewrite Hz. eapply wp_mono; [apply Hend|]. intros tr o H b Ho.
    exists [], []. split; [done|]. split; [constructor|]. by apply H. }
  apply wp_bind. eapply wp_mono; [apply executedOf_wp|]. intros t1 o (readings & Hl & -> & ->). set (executed := passed _ _ _).
  apply wp_bindr. eapply wp_mono; [apply validOf_wp|]. intros t2 [[valid|e]|m] Hv; [|done..].
  destruct (Hv valid eq_refl) as (asked & Ha & -> & ->).
  destruct (existsb snd asked) eqn:Hex; [intros b [= <-]; exists readings, asked; rewrite Hex, app_nil_r; done|].
  assert (forall p : M (result bool), p = (b ← isAfter (Some t0) (drainDeadline (cfg ds) executed); mret (Ok b)) ->
    wp p (fun tr o => forall b, o = Done (Ok b) -> exists n,
      map reading readings ++ concat asked.*1 ++ tr = map reading readings ++ concat asked.*1 ++ [reading n] /\
      (b = true <-> (t0 + drainDeadline (cfg ds) executed < n)%Z))) as Hlast.
  { intros p ->. eapply wp_mono; [apply Hend|]. intros tr o H b Ho. destruct (H b Ho) as (n & -> & Hb). by exists n. }
  eapply wp_mono; [apply Hlast|].
  - unfold drainDeadline. destruct (last executed) as [s|]; [|done].
    destruct (Z.ltb_spec (GetTimeOutDuration (cfg ds)) (wrap64 (GetWaitDuration s + GetExpectedDrainDuration (cfg ds))));
      [rewrite Z.max_r by lia|rewrite Z.max_l by lia]; done.
  - intros tr o H b Ho. exists readings, asked. rewrite Hex. split; [done|]. split; [done|]. by apply H.
Qed.

(** A failed drain has lasted longer than the drain timeout. *)
Lemma drain_verdict_timeout ds node tr :
  drain_verdict ds node tr true ->
  exists addedAt n, AddedAt (IsNodeCordoned node) = Some addedAt /\ last tr = Some (reading n) /\
    (addedAt + GetTimeOutDuration (cfg ds) < n)%Z.
Proof.
  unfold drain_verdict. destruct (AddedAt _) as [t0|]; [|by intros [_ ?]]. intros (readings & asked & _ & _ & H).
  destruct (existsb snd asked); [by destruct H|]. destruct H as (n & -> & Hn). exists t0, n. split; [done|].
  rewrite app_assoc, last_snoc. split; [done|]. pose proof (proj1 Hn eq_refl) as Hd. revert Hd.
  unfold drainDeadline. destruct (last _); lia.
Qed.

Lemma sortDuration_timed uc cfg pdbList :
  map GetName (sortDuration (timedStrategies uc cfg pdbList)) =
  if (wrap64 (GetPDBDrainTimeoutDuration uc + GetExpectedDrainDuration cfg) <? GetTimeOutDuration cfg)%Z
  then [defaultPodDeleteName; defaultPodFinalizerRemovalName; pdbPodDeleteName; stuckTerminatingPodName;
        pdbPodFinalizerRemovalName]
  else [defaultPodDeleteName; defaultPodFinalizerRemovalName; stuckTerminatingPodName; pdbPodDeleteName;
        pdbPodFinalizerRemovalName].
Proof.
  unfold sortDuration, timedStrategies. cbn zeta.
  set (p := wrap64 _). set (d := GetTimeOutDuration cfg). clearbody p d.
  destruct (Z.ltb_spec p d) as [Hlt|Hge].
  - unfold insertionSort. cbn [length Nat.sub seq foldl sift].
    repeat (cbn [lookup list_lookup list_lookup_total sift GetWaitDuration];
      rewrite ?(proj2 (Z.ltb_ge _ _) (Z.le_refl _)), ?(proj2 (Z.ltb_lt _ _) Hlt),
        ?(proj2 (Z.ltb_ge d p) (Z.lt_le_incl _ _ Hlt))).
    reflexivity.
  - rewrite insertionSort_id; [reflexivity|]. intros i Hi.
    do 4 (destruct i as [|i]; [cbn; apply Z.ltb_ge; lia|]). cbn in Hi. lia.
Qed.

End Deadline.

(** ** Lemmas: the builder and the gauges *)

Section DrainGauges.
Context {regexp : Regexp} (notifier_builder : M (result Notifier)).

(** The budgets that the first event lists; there are none when the API knows no
    budgets. *)
Definition budgetsRead (tr : list (obs Eff)) (pdbList : list PodDisruptionBudget) : Prop :=
  exists r, head tr = Some (Obs ListPDBs r) /\
    match r with Ok l => pdbList = l | Err err => IsNotFound err = true /\ pdbList = [] end.

Lemma NewNodeDrainStrategy_wp uc cfg0 :
  wp (NewNodeDrainStrategy notifier_builder uc cfg0) (fun tr o => forall ds, o = Done (Ok ds) ->
    ds_uc ds = uc /\ cfg ds = cfg0 /\
    exists pdbList, budgetsRead tr pdbList /\ timedDrainStrategies ds = timedStrategies uc cfg0 pdbList).
Proof.
  unfold NewNodeDrainStrategy. apply wp_bind, wp_exec. intros t1 [r|m] H1; [|by destruct H1 as (? & ? & _ & _ & ?)].
  destruct H1 as (r' & t1' & -> & -> & [= <-]).
  apply wp_bindr, wp_exec. intros t2 [[pdbs|e]|m] [-> [= Hr]]; [|done..].
  apply wp_bindr, wp_exec. intros t3 [[n|e]|m] _; [|done..].
  apply wp_bindr, wp_exec. intros t4 [[u|e]|m] _; [|done..]. wp_cbn. intros ds [= <-].
  split; [done|]. split; [done|]. exists pdbs. split; [|done]. exists r. split; [done|].
  destruct r as [l|e]; [by injection Hr as ->|]. destruct (IsNotFound e); [by injection Hr as <-|done].
Qed.

Lemma NewDefaultNodeDrainStrategy_wp uc cfg0 :
  wp (NewDefaultNodeDrainStrategy notifier_builder uc cfg0) (fun _ o => forall ds, o = Done (Ok ds) ->
    ds_uc ds = uc /\ cfg ds = cfg0 /\ timedDrainStrategies ds = []).
Proof.
  unfold NewDefaultNodeDrainStrategy.
  apply wp_bindr, wp_exec. intros t3 [[n|e]|m] _; [|done..].
  apply wp_bindr, wp_exec. intros t4 [[u|e]|m] _; [|done..]. wp_cbn. by intros ds [= <-].
Qed.

(** The events of a drain: those of a notifier, writes of pods, and the gauge of
    sent notifications. *)
Record drain_closed (P : forall X, Eff X -> Prop) : Prop := {
  dc_notifier : forall X e, notifier_event X e -> P X e;
  dc_delete : forall p g, P _ (DeletePod p g);
  dc_update : forall p, P _ (UpdatePod p);
  dc_notified : forall labels v, P _ (GaugeSet (gv_Name metricUpgradeNotification) labels v);
}.

(** Gauge events that concern only sent notifications. *)
Definition drain_gauge X (e : Eff X) : Prop :=
  match e with GaugeSet m _ _ => m = gv_Name metricUpgradeNotification | GaugeReset _ => False | _ => True end.

Lemma no_gauge_drain_gauge {A} (p : M A) : all_ev no_gauge p -> all_ev drain_gauge p.
Proof. apply all_ev_impl. by intros X []. Qed.

Lemma drain_gauge_closed : drain_closed drain_gauge.
Proof. split; try done. intros X e [Hg _]. by destruct e. Qed.
Lemma no_rewrite_closed : drain_closed no_rewrite.
Proof. split; try done. intros X e [_ [Hr|Ht]]; by destruct e. Qed.

Section DrainEvents.
Context (P : forall X, Eff X -> Prop) (HP : drain_closed P).

Lemma closed_notifier {A} (p : M A) : all_ev notifier_event p -> all_ev P p.
Proof. apply all_ev_impl, (dc_notifier _ HP). Qed.
Lemma closed_reads {A} (p : M A) : all_ev reads p -> all_ev no_gauge p -> all_ev P p.
Proof. intros Hr Hg. by apply closed_notifier, reads_notifier_event. Qed.

Lemma deletePodsLoop_closed pl ign g me m : all_ev P (deletePodsLoop pl ign g me m).
Proof.
  revert me m. induction pl as [|p pl IH]; intros me m; cbn [deletePodsLoop]; [exact I|].
  destruct (negb ign || _); [|done]. cbn. split; [apply (dc_delete _ HP)|]. intros [?|?]; apply IH.
Qed.
Lemma removeFinalizersLoop_closed pl me m : all_ev P (removeFinalizersLoop pl me m).
Proof.
  revert me m. induction pl as [|p pl IH]; intros me m; cbn [removeFinalizersLoop]; [exact I|].
  destruct (negb _); [|done]. cbn. split; [apply (dc_update _ HP)|]. intros [?|?]; apply IH.
Qed.
Lemma targetPods_closed fs node : all_ev P (targetPods fs node).
Proof. apply closed_reads; unfold targetPods, GetPodList; ev_auto; done. Qed.
Lemma isAfter_closed t d : all_ev P (isAfter t d).
Proof. apply closed_reads; unfold isAfter; ev_auto; done. Qed.
#[local] Hint Resolve deletePodsLoop_closed removeFinalizersLoop_closed targetPods_closed isAfter_closed : muo.

Lemma timedStrategies_closed uc cfg0 pdbs node tds :
  tds ∈ timedStrategies uc cfg0 pdbs ->
  all_ev P (strategy_Execute (GetStrategy tds) node) /\ all_ev P (strategy_IsValid (GetStrategy tds) node).
Proof.
  assert (forall node, all_ev P (call (ListPods node))) as Hlist by (intros n; by apply closed_reads).
  unfold timedStrategies. cbn zeta. rewrite !elem_of_cons, elem_of_nil.
  intros [->|[->|[->|[->|[->|[]]]]]]; cbn [GetStrategy strategy_Execute strategy_IsValid
    podDeletionStrategy removeFinalizersStrategy stuckTerminatingStrategy]; (split; [|auto with muo]);
    unfold GetPodList, DeletePods, RemoveFinalizersFromPod;
    repeat first [lazymatch goal with |- all_ev _ (call (ListPods _)) => apply Hlist end | ev_step | solve [eauto with muo]].
Qed.

Lemma notifyDrainDelay_closed uc n : all_ev P (notifyDrainDelay uc n).
Proof.
  unfold notifyDrainDelay. apply all_ev_bind.
  - apply closed_reads; unfold IsMetricNotificationEventSentSet, Query; ev_auto; done.
  - intros [[|]|e]; cbn; try exact I. apply all_ev_bind.
    + apply closed_notifier, NotifyState_events.
    + intros [err|]; cbn; [exact I|]. split; [apply (dc_notified _ HP)|]. intros []. exact I.
Qed.

Lemma drain_Execute_closed ds node :
  (exists uc cfg0 pdbs, timedDrainStrategies ds = timedStrategies uc cfg0 pdbs) ->
  all_ev P (drain_Execute ds node).
Proof.
  intros (uc & cfg0 & pdbs & Hts). unfold drain_Execute. rewrite Hts.
  destruct (IsCordoned _); [|exact I]. destruct (AddedAt _) as [a|]; [|exact I].
  assert (forall ss res, (forall x, x ∈ ss -> x ∈ timedStrategies uc cfg0 pdbs) ->
    all_ev P (executeStrategies ds node a ss res)) as H; [|by apply H].
  induction ss as [|tds ss IH]; intros res Hss; cbn [executeStrategies]; [exact I|]. cbn zeta.
  assert (forall res, all_ev P (executeStrategies ds node a ss res)) as IH'.
  { intros res'. apply IH. intros x Hx. apply Hss. by right. }
  apply all_ev_bind; [auto with muo|]. intros [|]; [|done].
  apply all_ev_bindr.
  - eapply timedStrategies_closed, Hss. by left.
  - intros r. destruct (HasExecuted r); [|done]. apply all_ev_bindr; [|done].
    destruct (String.eqb _ _); [apply notifyDrainDelay_closed|exact I].
Qed.

Lemma drain_HasFailed_closed ds node :
  (forall tds, tds ∈ timedDrainStrategies ds -> all_ev P (strategy_IsValid (GetStrategy tds) node)) ->
  all_ev P (drain_HasFailed ds node).
Proof.
  intros Hts. unfold drain_HasFailed. destruct (AddedAt _) as [a|]; [|exact I].
  destruct (Nat.eqb _ 0); [apply all_ev_bind; [auto with muo|done]|].
  assert (forall ss, all_ev P (executedOf (Some a) ss)) as Hex.
  { induction ss as [|s ss IH]; cbn [executedOf]; [exact I|]. ev_auto; auto with muo. }
  assert (forall ss, (forall x, x ∈ ss -> x ∈ timedDrainStrategies ds) -> all_ev P (validOf node ss)) as Hval.
  { induction ss as [|s ss IH]; intros Hss; cbn [validOf]; [exact I|].
    apply all_ev_bindr; [apply Hts, Hss; by left|]. intros b.
    apply all_ev_bindr; [apply IH; intros x Hx; apply Hss; by right|]. intros l. exact I. }
  apply all_ev_bind; [apply Hex|]. intros ex. apply all_ev_bindr.
  - apply Hval. intros x Hx.
    assert (x ∈ sortDuration (timedDrainStrategies ds)) as Hs.
    { rewrite <- (take_drop (length ex) (sortDuration (timedDrainStrategies ds))). apply elem_of_app. by right. }
    rewrite list_elem_of_In in *. eapply Permutation_in; [apply insertionSort_perm|exact Hs].
  - intros valid. destruct (Nat.ltb _ _); [exact I|].
    destruct (last ex); [destruct (Z.ltb _ _)|]; (apply all_ev_bind; [auto with muo|done]).
Qed.

End DrainEvents.

End DrainGauges.

(** ** Properties *)

(** C23: executing the configured strategies on a node deletes or updates only
    pods of that node which are not owned by a DaemonSet and not in an ignored
    namespace, and each of them only after a clock reading past the wait of its
    kind: the drain timeout, or for a pod under a disruption budget the PDB
    timeout plus the expected drain time; a node that is not cordoned, or has
    no cordon time, is left alone. *)
Theorem drain_touches_only_due_pods `{!Regexp} ds pdbList node tr o :
  timedDrainStrategies ds = timedStrategies (ds_uc ds) (cfg ds) pdbList ->
  exec (drain_Execute ds node) tr o ->
  match IsCordoned (IsNodeCordoned node), AddedAt (IsNodeCordoned node) with
  | true, Some addedAt =>
      touched_in_time (drainable node (cfg ds)) (podWait (ds_uc ds) (cfg ds) pdbList) addedAt tr
  | _, _ => tr = []
  end.
Proof.
  intros Hts. unfold drain_Execute. rewrite Hts. destruct (IsCordoned _); [|by intros [-> _]].
  destruct (AddedAt _) as [addedAt|]; [|by intros [-> _]].
  intros Hex. exact (executeStrategies_touched _ _ _ _ _ _ _ _ _ _ (fun _ H => H) Hex).
Qed.

(** C24: whether a drain has failed, exactly. It has not on a node without a
    cordon time. Otherwise the clock is read once per strategy, in sorted order;
    as many strategies as had their wait passed count as executed from the front,
    and all the others are asked. The drain has not failed while one of these has
    something left to do; if none has, it has failed exactly when the next clock
    reading is past the drain timeout and past the expected drain time after the
    wait of the last executed strategy. *)
Theorem drain_failed_after_deadline ds node tr b :
  exec (drain_HasFailed ds node) tr (Done (Ok b)) ->
  match AddedAt (IsNodeCordoned node) with
  | None => tr = [] /\ b = false
  | Some addedAt =>
      exists readings asked,
        let sorted := sortDuration (timedDrainStrategies ds) in
        let executed := passed addedAt readings sorted in
        length readings = length sorted /\ answers node (drop (length executed) sorted) asked /\
        if existsb snd asked then tr = map reading readings ++ concat asked.*1 /\ b = false
        else exists n, tr = map reading readings ++ concat asked.*1 ++ [reading n] /\
          (b = true <-> (addedAt + drainDeadline (cfg ds) executed < n)%Z)
  end.
Proof. intros Hex. exact (proj1 (wp_exec _ _) (HasFailed_wp ds node) _ _ Hex b eq_refl). Qed.

(** Sorting the configured strategies keeps all of them, but orders them by
    their waits only when the PDB wait is not shorter than the drain timeout:
    otherwise one PDB strategy ends up between default ones, because the
    comparison reads the unsorted slice. *)
Theorem sortDuration_order `{!Regexp} uc cfg pdbList :
  let ts := timedStrategies uc cfg pdbList in
  let pdbDuration := wrap64 (GetPDBDrainTimeoutDuration uc + GetExpectedDrainDuration cfg) in
  sortDuration ts ≡ₚ ts /\
  ((GetTimeOutDuration cfg <= pdbDuration)%Z -> sortDuration ts = ts) /\
  ((pdbDuration < GetTimeOutDuration cfg)%Z ->
   map GetName (sortDuration ts) =
     [defaultPodDeleteName; defaultPodFinalizerRemovalName; pdbPodDeleteName; stuckTerminatingPodName;
      pdbPodFinalizerRemovalName]).
Proof.
  cbn zeta. split; [apply insertionSort_perm|]. split; intros Hd.
  - unfold sortDuration. apply insertionSort_id. intros i Hi. unfold timedStrategies in *. cbn zeta in *.
    do 4 (destruct i as [|i]; [cbn; apply Z.ltb_ge; lia|]). cbn in Hi. lia.
  - rewrite sortDuration_timed, (proj2 (Z.ltb_lt _ _) Hd). done.
Qed.

(** *** Witnesses *)

Definition demo_taint : Taint := mkTaint TaintNodeUnschedulable TaintEffectNoSchedule (Some 0%Z).
Definition demo_node : Node := mkNode "node-1" true [demo_taint] ∅ ∅ [] None.
Definition demo_pods : list Pod :=
  [mkPod "p1" "apps" "node-1" ∅ [] [] None; mkPod "p2" "apps" "node-1" ∅ ["DaemonSet"] [] None;
   mkPod "p3" "openshift-monitoring" "node-1" ∅ [] ["f"] None].
Definition demo_drain_cfg : NodeDrain := mkNodeDrain false 45 8 ["openshift-"].
Definition demo_drain : osdDrainStrategy :=
  mkOsdDrainStrategy demo_drain_cfg (@timedStrategies substringRegexp demo_stored demo_drain_cfg [])
    demo_stored logNotifier.
Definition demo_drain_env X (e : Eff X) (u : unit) : X * unit :=
  match e in Eff X return X * unit with
  | Now => (46 * Minute, u)%Z
  | ListPods _ => (Ok demo_pods, u)
  | DeletePod _ _ => (Ok tt, u)
  | e' => (default_resp e', u)
  end.

(** Only the first pod is deleted. *)
Example demo_drain_deletes :
  mutations (run demo_drain_env (drain_Execute demo_drain demo_node) tt).1.1 =
  [Obs (DeletePod (mkPod "p1" "apps" "node-1" ∅ [] [] None) (Some 0%Z)) (Ok tt)].
Proof. vm_compute. reflexivity. Qed.

Lemma drain_touches_only_due_pods_witness :
  touched_in_time (@drainable substringRegexp demo_node demo_drain_cfg)
    (podWait demo_stored demo_drain_cfg []) 0%Z (run demo_drain_env (drain_Execute demo_drain demo_node) tt).1.1.
Proof.
  exact (@drain_touches_only_due_pods substringRegexp demo_drain [] demo_node _ _ eq_refl
    (run_exec demo_drain_env (drain_Execute demo_drain demo_node) tt)).
Defined.

(** The same drain after 54 minutes: the three default strategies are due since
    45 minutes, the expected drain time of 8 minutes is over, and no pod is left
    for the two strategies that wait for 68 minutes. *)
Definition demo_late_env X (e : Eff X) (u : unit) : X * unit :=
  match e in Eff X return X * unit with
  | Now => (54 * Minute, u)%Z
  | e' => demo_drain_env _ e' u
  end.
Definition demo_late := run demo_late_env (drain_HasFailed demo_drain demo_node) tt.

(** It has failed by then, but not yet after 46 minutes. *)
Example demo_drain_fails :
  demo_late.1.2 = Done (Ok true) /\
  (run demo_drain_env (drain_HasFailed demo_drain demo_node) tt).1.2 = Done (Ok false).
Proof. by vm_compute. Qed.

Lemma drain_failed_after_deadline_witness :
  exists readings asked,
    let sorted := sortDuration (timedDrainStrategies demo_drain) in
    let executed := passed 0%Z readings sorted in
    length readings = length sorted /\ answers demo_node (drop (length executed) sorted) asked /\
    if existsb snd asked then demo_late.1.1 = map reading readings ++ concat asked.*1 /\ true = false
    else exists n, demo_late.1.1 = map reading readings ++ concat asked.*1 ++ [reading n] /\
      (true = true <-> (0 + drainDeadline (cfg demo_drain) executed < n)%Z).
Proof.
  refine (drain_failed_after_deadline demo_drain demo_node demo_late.1.1 true _).
  assert (demo_late.1.2 = Done (Ok true)) as <- by (vm_compute; reflexivity).
  exact (run_exec demo_late_env (drain_HasFailed demo_drain demo_node) tt).
Defined.

(** A PDB timeout of 0 minutes with a drain timeout of 45. *)
Definition demo_no_grace : UpgradeConfig :=
  mkUpgradeConfig "managed-upgrade-config" "muo" "1" (mkSpec (mkUpdate "4.15.1" "stable-4.15" "") "" 0 OSD true) [].
Lemma sortDuration_order_witness :
  map GetName (sortDuration (@timedStrategies substringRegexp demo_no_grace demo_drain_cfg [])) =
    ["DELETE"; "DEFAULT-FINALIZER"; "PDB-DELETE"; "POD-STUCK-TERMINATING"; "PDB-FINALIZER"].
Proof.
  refine (proj2 (proj2 (@sortDuration_order substringRegexp demo_no_grace demo_drain_cfg [])) _).
  vm_compute. reflexivity.
Defined.

(** The notice of a drain delay does not mention a retry either. *)
Lemma drain_delay_read_back_as_skipped :
  currentMuoState stateMap (mkPolicyState OcmStateDelayed drainDelayMessage) = Some MuoStateSkipped.
Proof. by vm_compute. Qed.
