(* ===== verification/NodeKeeper.v ===== *)
(** * The node and machine config pool controllers (controllers/nodekeeper,
    controllers/machineconfigpool)

    The node keeper drains the cordoned nodes of a worker upgrade and raises or
    clears the drain alert; the machine config pool controller records when the
    workers started and completed. *)

From stdpp Require Import base gmap strings list.
From Stdlib Require Import ZArith Lia.
From S2P Require Import Prelude GoSort GoTime Api Effects Config Interfaces Metrics SpecProvider.
From S2P Require Import UpgradeConfigManager Notifier Machinery Drain.

(** ** Configuration and predicates *)

Record nodeKeeperConfig := mkNodeKeeperConfig { nk_NodeDrain : NodeDrain }.
#[export] Instance nodeKeeperConfig_IsValid : ConfigValidator nodeKeeperConfig := fun nkc =>
  if (Timeout (nk_NodeDrain nkc) <? 0)%Z then Some (ErrText "config nodeDrain timeOut is invalid") else None.

Definition hasMasterLabel (nodeLabels : gmap string string) : bool :=
  match nodeLabels !! MasterLabel with Some _ => true | None => false end.

(** Every kind of event is let through unless the node is a master. *)
Definition IgnoreMasterPredicate (node : Node) : bool := negb (hasMasterLabel (node_Labels node)).

Definition isWorkerPool (name : string) : bool := String.eqb name "worker".

(** ** The node keeper *)

Section NodeKeeper.
Context `{!Regexp} `{!UpgradeConfigManager} `{!Yaml nodeKeeperConfig}.
Context (notifier_builder : M (result Notifier)).

Definition NodeDrainResult (node : Node) (hasFailed : bool) : M unit :=
  if hasFailed then
    match node_DeletionTimestamp node with
    | Some _ => ResetMetricNodeDrainFailed (node_Name node)
    | None =>
        if IsNodeUpgrading node then UpdateMetricNodeDrainFailed (node_Name node) else mret tt
    end
  else ResetMetricNodeDrainFailed (node_Name node).

(** [cfm.Into(cfg)] with the default target. *)
Definition readNodeKeeperConfig : M (result nodeKeeperConfig) :=
  cmTarget ←? NewCMTarget (mkTarget "" "" "");
  Into cmTarget.

(** Drain a cordoned node: whether the drain has failed. *)
Definition drainNode (uc : UpgradeConfig) (node : Node) (cfg : nodeKeeperConfig) : M (result bool) :=
  if negb (DisableDrainStrategies (nk_NodeDrain cfg)) then
    drainStrategy ←? NewNodeDrainStrategy notifier_builder uc (nk_NodeDrain cfg);
    _ ←? drain_Execute drainStrategy node;
    drain_HasFailed drainStrategy node
  else
    drainStrategy ←? NewDefaultNodeDrainStrategy notifier_builder uc (nk_NodeDrain cfg);
    drain_HasFailed drainStrategy node.

(** The part of the reconciliation for a node of a running upgrade. *)
Definition keepNode (uc : UpgradeConfig) (node : Node) : M (ReconcileResult * option error) :=
  let result := IsNodeCordoned node in
  r ← call (NewClient "metrics");
  match r with
  | Err err => reconcileError err
  | Ok _ =>
      if negb (IsCordoned result) then
        _ ← ResetMetricNodeDrainFailed (node_Name node);
        reconciled
      else
        r ← readNodeKeeperConfig;
        match r with
        | Err err => reconcileError err
        | Ok cfg =>
            r ← drainNode uc node cfg;
            match r with
            | Err err => reconcileError err
            | Ok hasFailed =>
                _ ← NodeDrainResult node hasFailed;
                mret (mkReconcileResult false Minute, None)
            end
        end
  end.

Definition nodekeeper_Reconcile (request : string) : M (ReconcileResult * option error) :=
  r ← manager_Get _;
  match r with
  | Err err => if is_sentinel ErrUpgradeConfigNotFound err then reconciled else reconcileError err
  | Ok uc =>
      r ← machinery_IsUpgrading "worker";
      match r with
      | Err err => reconcileError err
      | Ok upgradeResult =>
          match GetHistory (History uc) (ucVersionOf uc) with
          | None => reconciled
          | Some history =>
              if bool_decide (Phase history <> UpgradePhaseUpgrading) || negb (IsUpgrading upgradeResult)
              then reconciled
              else
                r ← call (GetNode request);
                match r with
                | Err err =>
                    if IsNotFound err then
                      r ← call (NewClient "metrics");
                      match r with
                      | Err _ => reconciled
                      | Ok _ => _ ← ResetMetricNodeDrainFailed request; reconciled
                      end
                    else reconcileError err
                | Ok node => keepNode uc node
                end
          end
      end
  end.

(** ** The machine config pool controller *)

(** The worker times of a history, given the pool and the clock readings. *)
Definition stampWorkerTimes (instance : MachineConfigPool) (history : UpgradeHistory) : M UpgradeHistory :=
  history ← (if (UpdatedMachineCount instance =? 0)%Z && bool_decide (WorkerStartTime history = None)
             then t ← now; mret (set_WorkerTimes (Some t) (WorkerCompleteTime history) history)
             else mret history);
  if (MachineCount instance =? UpdatedMachineCount instance)%Z &&
     bool_decide (is_Some (WorkerStartTime history)) && bool_decide (WorkerCompleteTime history = None)
  then t ← now; mret (set_WorkerTimes (WorkerStartTime history) (Some t) history)
  else mret history.

Definition mcp_Reconcile (request : string) : M (ReconcileResult * option error) :=
  r ← call (GetMachineConfigPool request);
  match r with
  | Err err => if IsNotFound err then reconciled else reconcileError err
  | Ok instance =>
      r ← manager_Get _;
      match r with
      | Err err => if is_sentinel ErrUpgradeConfigNotFound err then reconciled else reconcileError err
      | Ok uc =>
          match GetHistory (History uc) (ucVersionOf uc) with
          | Some history =>
              if bool_decide (Phase history = UpgradePhaseUpgrading) then
                history ← stampWorkerTimes instance history;
                r ← call (StatusUpdate (set_History (SetHistory history (History uc)) uc));
                match r with
                | Err err => reconcileError err
                | Ok _ => reconciled
                end
              else reconciled
          | None => reconciled
          end
      end
  end.

End NodeKeeper.

(** ** Lemmas: when the alert is raised *)

Section Closed.
Context {regexp : Regexp} (notifier_builder : M (result Notifier)).
Context (P : forall X, Eff X -> Prop) (HP : drain_closed P) (Hbuilder : all_ev P notifier_builder).

Lemma drainNode_closed uc node cfg : all_ev P (drainNode notifier_builder uc node cfg).
Proof.
  assert (forall s, P _ (NewClient s)) as Hnew by (intros s; apply (dc_notifier _ HP); split; [done|by left]).
  assert (P _ ListPDBs) as Hpdbs by (apply (dc_notifier _ HP); split; [done|by left]).
  assert (forall nd, all_ev P (NewNodeDrainStrategy notifier_builder uc nd)) as H1.
  { intros nd. unfold NewNodeDrainStrategy. ev_auto; done. }
  assert (forall nd, all_ev P (NewDefaultNodeDrainStrategy notifier_builder uc nd)) as H2.
  { intros nd. unfold NewDefaultNodeDrainStrategy. ev_auto; done. }
  unfold drainNode. destruct (DisableDrainStrategies _); cbn [negb]; unfold bindr; apply all_ev_bind_wp; [apply H2| |apply H1|].
  - eapply wp_mono; [apply NewDefaultNodeDrainStrategy_wp|]. intros tr [[ds|e]|m] H; [|exact I..].
    destruct (H ds eq_refl) as (_ & _ & Hts). apply drain_HasFailed_closed; [done|].
    rewrite Hts. intros tds Hin. by apply elem_of_nil in Hin.
  - eapply wp_mono; [apply NewNodeDrainStrategy_wp|]. intros tr [[ds|e]|m] H; [|exact I..].
    destruct (H ds eq_refl) as (_ & _ & pdbs & _ & Hts). apply all_ev_bindr.
    + apply drain_Execute_closed; [done|]. eauto.
    + intros _. apply drain_HasFailed_closed; [done|]. rewrite Hts.
      intros tds Hin. by apply (timedStrategies_closed P HP uc (nk_NodeDrain cfg) pdbs).
Qed.

End Closed.

Section Alert.
Context {regexp : Regexp} {ucm : UpgradeConfigManager} {yaml : Yaml nodeKeeperConfig}.
Context (notifier_builder : M (result Notifier)) (Hbuilder : all_ev no_gauge notifier_builder).

(** The alert of a failed drain is raised for the node. *)
Definition alerted (node : string) (tr : list (obs Eff)) : Prop :=
  Obs (GaugeSet (gv_Name metricNodeDrainFailed) (zip (gv_Labels metricNodeDrainFailed) [node]) 1%Z) tt ∈ tr.

Lemma not_alerted {A} (p : M A) n tr o : all_ev drain_gauge p -> exec p tr o -> ~ alerted n tr.
Proof.
  intros Hp Hex Ha. pose proof (all_ev_exec _ _ _ _ Hp Hex) as Hf. rewrite Forall_forall in Hf.
  pose proof (Hf _ Ha) as H. cbn in H. discriminate H.
Qed.

Lemma drainNode_gauge uc node cfg : all_ev drain_gauge (drainNode notifier_builder uc node cfg).
Proof. apply drainNode_closed; [apply drain_gauge_closed|by apply no_gauge_drain_gauge]. Qed.

(** The drain strategy that is made for the nodes of [uc]: with the timed
    strategies of the configuration, or none of them when they are switched off. *)
Definition strategyFor (uc : UpgradeConfig) (nd : NodeDrain) (tr : list (obs Eff)) (ds : osdDrainStrategy) : Prop :=
  ds_uc ds = uc /\ Drain.cfg ds = nd /\
  if DisableDrainStrategies nd then timedDrainStrategies ds = []
  else exists pdbList, budgetsRead tr pdbList /\ timedDrainStrategies ds = timedStrategies uc nd pdbList.

(** A drain of the node that has failed: the strategy is made, executed unless it
    is switched off, and then asked. *)
Definition failedDrain (uc : UpgradeConfig) (node : Node) (nd : NodeDrain) (tr : list (obs Eff)) : Prop :=
  exists ds tb tx tf, tr = tb ++ tx ++ tf /\ strategyFor uc nd tb ds /\
    (if DisableDrainStrategies nd then tx = [] else exists res, exec (drain_Execute ds node) tx (Done (Ok res))) /\
    exec (drain_HasFailed ds node) tf (Done (Ok true)).

Lemma drainNode_failed uc node cfg tr :
  exec (drainNode notifier_builder uc node cfg) tr (Done (Ok true)) -> failedDrain uc node (nk_NodeDrain cfg) tr.
Proof.
  revert tr. assert (wp (drainNode notifier_builder uc node cfg) (fun tr o => o = Done (Ok true) ->
    failedDrain uc node (nk_NodeDrain cfg) tr)) as H; [|intros tr Hex; exact (proj1 (wp_exec _ _) H _ _ Hex eq_refl)].
  unfold drainNode, failedDrain, strategyFor. destruct (DisableDrainStrategies _); cbn [negb]; apply wp_bindr.
  - eapply wp_mono; [apply NewDefaultNodeDrainStrategy_wp|]. intros t1 [[ds|e]|m] H; [|done..].
    apply wp_exec. intros t o Hex ->. exists ds, t1, [], t. split; [done|]. split; [by apply H|done].
  - eapply wp_mono; [apply NewNodeDrainStrategy_wp|]. intros t1 [[ds|e]|m] H; [|done..].
    apply wp_bindr, wp_exec. intros t2 [[res|e]|m] Hex2; [|done..].
    apply wp_exec. intros t o Hex ->. exists ds, t1, t2, t. split; [done|]. split; [by apply H|]. by split; [exists res|].
Qed.

Definition drainAlert (node : Node) : obs Eff :=
  Obs (GaugeSet (gv_Name metricNodeDrainFailed) (zip (gv_Labels metricNodeDrainFailed) [node_Name node]) 1%Z) tt.

(** What justifies the alert for a node: it is cordoned, being worked on and not
    being deleted, and the drain that the configuration asks for has failed just
    before. *)
Definition alert_justified (uc : UpgradeConfig) (node : Node) (tr : list (obs Eff)) : Prop :=
  IsCordoned (IsNodeCordoned node) = true /\ node_DeletionTimestamp node = None /\ IsNodeUpgrading node = true /\
  exists cfg tc td, exec readNodeKeeperConfig tc (Done (Ok cfg)) /\ failedDrain uc node (nk_NodeDrain cfg) td /\
    tr = Obs (NewClient "metrics") (Ok tt) :: tc ++ td ++ [drainAlert node].

Lemma alerted_cons n X (e : Eff X) r l : drain_gauge X e -> alerted n (Obs e r :: l) -> alerted n l.
Proof.
  intros He [Heq|Hin]%elem_of_cons; [|done]. exfalso.
  assert (drain_gauge _ (ob_event (Obs e r))) as He' by exact He. rewrite <- Heq in He'. discriminate He'.
Qed.

Lemma readNodeKeeperConfig_gauge : all_ev drain_gauge readNodeKeeperConfig.
Proof.
  apply no_gauge_drain_gauge. unfold readNodeKeeperConfig, NewCMTarget, GetOperatorNamespace, Into. ev_auto; done.
Qed.

(** Setting the gauge of a node to [v]: an alert for that node when [v] is 1. *)
Lemma alerted_set n node v :
  alerted n [Obs (GaugeSet (gv_Name metricNodeDrainFailed) (zip (gv_Labels metricNodeDrainFailed) [node]) v) tt] ->
  v = 1%Z /\ n = node.
Proof.
  intros H%list_elem_of_singleton.
  apply (f_equal (fun ob : obs Eff => match ob_event ob with GaugeSet _ [(_, s)] v => Some (s, v) | _ => None end)) in H.
  cbn in H. by injection H as -> ->.
Qed.

Lemma NodeDrainResult_wp node b :
  wp (NodeDrainResult node b) (fun tr o => o = Done tt /\ forall n, alerted n tr ->
    n = node_Name node /\ b = true /\ node_DeletionTimestamp node = None /\ IsNodeUpgrading node = true /\
    tr = [Obs (GaugeSet (gv_Name metricNodeDrainFailed) (zip (gv_Labels metricNodeDrainFailed) [node_Name node]) 1%Z) tt]).
Proof.
  unfold NodeDrainResult.
  destruct b; [destruct (node_DeletionTimestamp node); [|destruct (IsNodeUpgrading node)]|];
    cbn; try intros []; (split; [done|]); intros n Ha.
  - by destruct (alerted_set _ _ _ Ha).
  - destruct (alerted_set _ _ _ Ha) as [_ ->]. done.
  - by apply elem_of_nil in Ha.
  - by destruct (alerted_set _ _ _ Ha).
Qed.

Lemma keepNode_wp uc node :
  wp (keepNode notifier_builder uc node) (fun tr _ => forall n, alerted n tr ->
    n = node_Name node /\ alert_justified uc node tr).
Proof.
  unfold keepNode. cbn zeta. wp_cbn.
  intros [[]|err]; [|cbn; by intros n Ha%alerted_cons; [apply elem_of_nil in Ha|]].
  destruct (IsCordoned (IsNodeCordoned node)) eqn:Hc; cbn [negb].
  2: { cbn. intros [] n Ha%alerted_cons; [|done]. by destruct (alerted_set _ _ _ Ha). }
  apply wp_bind, wp_exec. intros t1 r1 H1.
  assert (forall n, ~ alerted n t1) as Hn1.
  { intros n. eapply not_alerted; [apply readNodeKeeperConfig_gauge|exact H1]. }
  destruct r1 as [[cfg|e]|m]; [|cbn; rewrite app_nil_r; by intros n Ha%alerted_cons; [destruct (Hn1 n)|]
    |by intros n Ha%alerted_cons; [destruct (Hn1 n)|]].
  apply wp_bind, wp_exec. intros t2 r2 H2.
  assert (forall n l, alerted n (t1 ++ t2 ++ l) -> alerted n l) as Hl.
  { intros n l Ha. apply elem_of_app in Ha as [Ha|Ha]; [by destruct (Hn1 n)|].
    apply elem_of_app in Ha as [Ha|Ha]; [|done].
    exfalso. revert Ha. eapply not_alerted; [apply drainNode_gauge|exact H2]. }
  assert (forall n, ~ alerted n (t1 ++ t2)) as Hn2.
  { intros n Ha. rewrite <- (app_nil_r t2) in Ha. apply Hl in Ha. by apply elem_of_nil in Ha. }
  destruct r2 as [[hasFailed|e]|m]; [|cbn; rewrite app_nil_r; by intros n Ha%alerted_cons; [destruct (Hn2 n)|]
    |by intros n Ha%alerted_cons; [destruct (Hn2 n)|]].
  apply wp_bind. eapply wp_mono; [apply NodeDrainResult_wp|]. intros t3 o [-> H3]. wp_cbn.
  rewrite app_nil_r. intros n Ha%alerted_cons; [|done]. apply Hl in Ha.
  destruct (H3 n Ha) as (-> & -> & Hd & Hu & ->). split; [done|]. split_and!; try done.
  exists cfg, t1, t2. split; [done|]. split; [by apply drainNode_failed|done].
Qed.

Lemma Reconcile_wp request :
  wp (nodekeeper_Reconcile notifier_builder request) (fun tr _ => forall n, alerted n tr ->
    exists tm uc h pool node t, exec (manager_Get _) tm (Done (Ok uc)) /\
      GetHistory (History uc) (ucVersionOf uc) = Some h /\ Phase h = UpgradePhaseUpgrading /\
      tr = tm ++ Obs (GetMachineConfigPool "worker") (Ok pool) :: Obs (GetNode request) (Ok node) :: t /\
      MachineCount pool <> UpdatedMachineCount pool /\ n = node_Name node /\ alert_justified uc node t).
Proof.
  unfold nodekeeper_Reconcile. apply wp_bind, wp_exec. intros tm r Hm.
  assert (forall n l, alerted n (tm ++ l) -> alerted n l) as Hl.
  { intros n l Ha. apply elem_of_app in Ha as [Ha|Ha]; [|done]. exfalso. revert Ha.
    eapply not_alerted; [apply no_gauge_drain_gauge, manager_Get_no_gauge|exact Hm]. }
  assert (forall n, ~ alerted n []) as Hnil by (intros n Ha; by apply elem_of_nil in Ha).
  assert (forall n, ~ alerted n tm) as Htm.
  { intros n Ha. rewrite <- (app_nil_r tm) in Ha. by apply Hl, Hnil in Ha. }
  destruct r as [[uc|e]|m]; [|destruct (is_sentinel _ e); cbn; rewrite app_nil_r; by intros n Ha%Htm|by intros n Ha%Htm].
  cbn. intros [mcp|e]; cbn; [|by intros n Ha%Hl%alerted_cons; [apply Hnil in Ha|]].
  destruct (GetHistory (History uc) (ucVersionOf uc)) as [h|] eqn:Hh; cbn;
    [|by intros n Ha%Hl%alerted_cons; [apply Hnil in Ha|]].
  destruct (bool_decide_reflect (Phase h <> UpgradePhaseUpgrading)) as [Hp|Hp]; cbn;
    [by intros n Ha%Hl%alerted_cons; [apply Hnil in Ha|]|].
  destruct (Z.eqb_spec (MachineCount mcp) (UpdatedMachineCount mcp)) as [Hw|Hw]; cbn;
    [by intros n Ha%Hl%alerted_cons; [apply Hnil in Ha|]|].
  intros [node|e].
  - eapply wp_mono; [apply keepNode_wp|]. intros tr o Hk n Ha%Hl%alerted_cons; [|done].
    apply alerted_cons in Ha; [|done]. destruct (Hk n Ha) as [-> Hj].
    exists tm, uc, h, mcp, node, tr. split_and!; try done.
    destruct (decide (Phase h = UpgradePhaseUpgrading)); [done|by destruct Hp].
  - destruct (IsNotFound e); cbn; [intros [[]|e']; cbn; [intros []|]|]; intros n Ha%Hl%alerted_cons; try done;
      repeat (apply alerted_cons in Ha; [|done]); [by destruct (alerted_set _ _ _ Ha)|by apply Hnil in Ha..].
Qed.

End Alert.

(** ** Lemmas: the worker times *)

(** How the worker times of a history may change. *)
Definition worker_times_step (instance : MachineConfigPool) (h h' : UpgradeHistory) : Prop :=
  h' = set_WorkerTimes (WorkerStartTime h') (WorkerCompleteTime h') h /\
  (is_Some (WorkerStartTime h) -> WorkerStartTime h' = WorkerStartTime h) /\
  (is_Some (WorkerCompleteTime h) -> WorkerCompleteTime h' = WorkerCompleteTime h) /\
  (is_Some (WorkerStartTime h') <-> is_Some (WorkerStartTime h) \/ UpdatedMachineCount instance = 0%Z) /\
  (is_Some (WorkerCompleteTime h') <->
   is_Some (WorkerCompleteTime h) \/
   (is_Some (WorkerStartTime h') /\ MachineCount instance = UpdatedMachineCount instance)).

Lemma stampWorkerTimes_wp instance h :
  wp (stampWorkerTimes instance h) (fun tr o => exists h', o = Done h' /\ worker_times_step instance h h' /\
    Forall (fun ob : obs Eff => reads _ (ob_event ob)) tr).
Proof.
  destruct h as [v pv p cs st ct ws wc]. unfold stampWorkerTimes. cbn [WorkerStartTime WorkerCompleteTime].
  assert (forall t : Z, is_Some (Some t) <-> True) as HS by (split; [done|by eexists]).
  assert (@is_Some Z None <-> False) as HN by (split; [by intros [? ?]|done]).
  destruct (Z.eqb_spec (UpdatedMachineCount instance) 0) as [Hz|Hz], ws as [ws|]; cbn;
    try intros t1; destruct (Z.eqb_spec (MachineCount instance) (UpdatedMachineCount instance)) as [Heq|Heq],
      wc as [wc|]; cbn; try intros t2; eexists; (split; [done|]); (split; [|by repeat constructor]);
    unfold worker_times_step; cbn; rewrite ?HS, ?HN; tauto.
Qed.

(** What a reconciliation of the pool may have done. *)
Definition mcp_post {ucm : UpgradeConfigManager} (request : string) (tr : list (obs Eff))
    (o : outcome (ReconcileResult * option error)) : Prop :=
  (exists r, o = Done r) /\
  (mutations tr = [] \/
   exists instance tm uc h h' r, Obs (GetMachineConfigPool request) (Ok instance) ∈ tr /\
     exec (manager_Get _) tm (Done (Ok uc)) /\ GetHistory (History uc) (ucVersionOf uc) = Some h /\
     Phase h = UpgradePhaseUpgrading /\ worker_times_step instance h h' /\
     mutations tr = [Obs (StatusUpdate (set_History (SetHistory h' (History uc)) uc)) r]).

Lemma mcp_post_quiet {ucm : UpgradeConfigManager} request tr x : mutations tr = [] -> mcp_post request tr (Done x).
Proof. intros H. split; [by eexists|by left]. Qed.

Lemma mcp_Reconcile_wp {ucm : UpgradeConfigManager} request : wp (mcp_Reconcile request) (mcp_post request).
Proof.
  unfold mcp_Reconcile. wp_cbn.
  intros [instance|e]; [|destruct (IsNotFound e); by apply mcp_post_quiet].
  apply wp_bind, wp_exec. intros tm o Hm.
  destruct (no_panic_exec _ _ _ manager_Get_no_panic Hm) as [r ->].
  pose proof (mutations_reads _ (all_ev_exec _ _ _ _ manager_Get_reads Hm)) as Hmut.
  assert (forall e : ReconcileResult * option error,
    mcp_post request (Obs (GetMachineConfigPool request) (Ok instance) :: tm ++ []) (Done e)) as Hquiet.
  { intros x. apply mcp_post_quiet. rewrite app_nil_r. exact Hmut. }
  destruct r as [uc|e]; [|destruct (is_sentinel _ e); exact (Hquiet _)].
  destruct (GetHistory (History uc) (ucVersionOf uc)) as [h|] eqn:Hh; [|exact (Hquiet _)].
  destruct (bool_decide_reflect (Phase h = UpgradePhaseUpgrading)) as [Hp|Hp]; [|exact (Hquiet _)].
  clear Hquiet. apply wp_bind. eapply wp_mono; [apply stampWorkerTimes_wp|].
  intros t2 o (h' & -> & Hstep & Hr2). wp_cbn. intros r.
  assert (mutations (Obs (GetMachineConfigPool request) (Ok instance) ::
    tm ++ t2 ++ [Obs (StatusUpdate (set_History (SetHistory h' (History uc)) uc)) r]) =
    [Obs (StatusUpdate (set_History (SetHistory h' (History uc)) uc)) r]) as Hall.
  { etransitivity; [apply (mutations_app [_] (tm ++ t2 ++ [_]))|].
    rewrite !mutations_app, Hmut, (mutations_reads _ Hr2). done. }
  destruct r; wp_cbn; (split; [by eexists|right]); exists instance, tm, uc, h, h'; eexists;
    (split; [by left|]); split_and!; done.
Qed.

(** ** Properties *)

(** C25: the drain alert is raised only for a node of a running worker upgrade:
    the UpgradeConfig is in the Upgrading phase, not every machine of the worker
    pool is updated, the requested node is cordoned, is being worked on by the
    machine config daemon and is not being deleted; and the drain strategy made
    for it from the configuration and the disruption budgets, executed unless the
    strategies are switched off, has just reported a failed drain. *)
Theorem drain_alert_justified `{!Regexp} `{!UpgradeConfigManager} `{!Yaml nodeKeeperConfig}
    notifier_builder request tr o n :
  all_ev no_gauge notifier_builder ->
  exec (nodekeeper_Reconcile notifier_builder request) tr o -> alerted n tr ->
  exists tm uc h pool node t, exec (manager_Get _) tm (Done (Ok uc)) /\
    GetHistory (History uc) (ucVersionOf uc) = Some h /\ Phase h = UpgradePhaseUpgrading /\
    tr = tm ++ Obs (GetMachineConfigPool "worker") (Ok pool) :: Obs (GetNode request) (Ok node) :: t /\
    MachineCount pool <> UpdatedMachineCount pool /\ n = node_Name node /\ alert_justified uc node t.
Proof.
  intros Hb Hex. exact (proj1 (wp_exec _ _) (Reconcile_wp notifier_builder Hb request) _ _ Hex n).
Qed.

(** C26: the machine config pool controller changes only the worker times of the
    desired history of an upgrade that is in progress: each is set at most
    once, the start when no machine is updated yet, the completion after the
    start when all are. *)
Theorem mcp_stamps_worker_times {ucm : UpgradeConfigManager} request tr o :
  exec (mcp_Reconcile request) tr o ->
  (exists r, o = Done r) /\
  (mutations tr = [] \/
   exists instance tm uc h h' r, Obs (GetMachineConfigPool request) (Ok instance) ∈ tr /\
     exec (manager_Get _) tm (Done (Ok uc)) /\ GetHistory (History uc) (ucVersionOf uc) = Some h /\
     Phase h = UpgradePhaseUpgrading /\ worker_times_step instance h h' /\
     mutations tr = [Obs (StatusUpdate (set_History (SetHistory h' (History uc)) uc)) r]).
Proof. intros Hex. exact (proj1 (wp_exec _ _) (mcp_Reconcile_wp request) _ _ Hex). Qed.

(** *** Witnesses *)

Definition demo_upgrading_uc : UpgradeConfig :=
  set_History [mkHistory "4.15.1" "4.14.9" UpgradePhaseUpgrading [] (Some 0%Z) None None None] demo_notify_uc.
Definition demo_upgrading_manager : UpgradeConfigManager :=
  {| manager_Get := mret (Ok demo_upgrading_uc); manager_Get_reads := I;
     manager_Get_no_panic := I; manager_Get_no_gauge := I |}.
Definition demo_nk_config : nodeKeeperConfig := mkNodeKeeperConfig demo_drain_cfg.
Definition demo_nk_yaml : Yaml nodeKeeperConfig := fun _ => Ok demo_nk_config.
Definition demo_working_node : Node :=
  mkNode "node-1" true [demo_taint]
    (<["machineconfiguration.openshift.io/state" := "Working"]> ∅) ∅ [] None.
Definition demo_nk_env X (e : Eff X) (u : unit) : X * unit :=
  match e in Eff X return X * unit with
  | Now => (54 * Minute, u)%Z
  | ListPDBs => (Ok [], u)
  | ListPods _ => (Ok demo_pods, u)
  | DeletePod _ _ => (Ok tt, u)
  | GetMachineConfigPool _ => (Ok (mkMCP 3 0), u)
  | GetNode _ => (Ok demo_working_node, u)
  | GetConfigMap _ _ => (Ok ∅, u)
  | NewClient _ => (Ok tt, u)
  | StatusUpdate uc => (Ok uc, u)
  | e' => (default_resp e', u)
  end.
Definition demo_nk_prog :=
  @nodekeeper_Reconcile substringRegexp demo_upgrading_manager demo_nk_yaml (mret (Ok logNotifier)) "node-1".
Definition demo_nk_run := run demo_nk_env demo_nk_prog tt.

Lemma drain_alert_justified_witness :
  IsNodeUpgrading demo_working_node = true /\
  exists tm uc h pool node t, exec (@manager_Get demo_upgrading_manager) tm (Done (Ok uc)) /\
    GetHistory (History uc) (ucVersionOf uc) = Some h /\ Phase h = UpgradePhaseUpgrading /\
    demo_nk_run.1.1 = tm ++ Obs (GetMachineConfigPool "worker") (Ok pool) :: Obs (GetNode "node-1") (Ok node) :: t /\
    MachineCount pool <> UpdatedMachineCount pool /\ "node-1" = node_Name node /\
    @alert_justified substringRegexp demo_nk_yaml uc node t.
Proof.
  split; [vm_compute; reflexivity|].
  refine (@drain_alert_justified substringRegexp demo_upgrading_manager demo_nk_yaml (mret (Ok logNotifier)) "node-1"
    demo_nk_run.1.1 demo_nk_run.1.2 "node-1" I (run_exec demo_nk_env demo_nk_prog tt) _).
  assert (last demo_nk_run.1.1 = Some (Obs (GaugeSet (gv_Name metricNodeDrainFailed)
    (zip (gv_Labels metricNodeDrainFailed) ["node-1"]) 1%Z) tt)) as H by (vm_compute; reflexivity).
  unfold alerted. apply last_Some_elem_of in H. exact H.
Defined.

Definition demo_mcp_run := run demo_nk_env (@mcp_Reconcile demo_upgrading_manager "worker") tt.
Lemma mcp_stamps_worker_times_witness :
  length (mutations demo_mcp_run.1.1) = 1 /\ exists r, demo_mcp_run.1.2 = Done r.
Proof.
  split; [vm_compute; reflexivity|].
  exact (proj1 (@mcp_stamps_worker_times demo_upgrading_manager "worker" _ _
    (run_exec demo_nk_env (@mcp_Reconcile demo_upgrading_manager "worker") tt))).
Defined.
