(* ===== verification/Scaler.v ===== *)
(** * The MachineSet scaler (pkg/scaler)

    Surge capacity for an upgrade: every worker MachineSet (and every MachineSet
    of a configured extra pool) gets a clone of one replica, which is removed
    again after the upgrade. *)

From stdpp Require Import base gmap strings list.
From Stdlib Require Import ZArith Lia Ascii.
From S2P Require Import Prelude GoTime GoPath Api Effects Config Interfaces Metrics Notifier.
From S2P Require Import Machinery Drain.

Definition LABEL_UPGRADE : string := "upgrade.managed.openshift.io".
Definition LABEL_MACHINESET : string := "machine.openshift.io/cluster-api-machineset".
Definition LABEL_MACHINE_POOL : string := "hive.openshift.io/machine-pool".
Definition MACHINE_API_NAMESPACE : string := "openshift-machine-api".

Definition IsScaleTimeOutError (err : error) : bool :=
  match err with ErrScaleTimeOut _ => true | _ => false end.
Definition NewScaleTimeOutError (msg : string) : error := ErrScaleTimeOut msg.
(** The name of the node of a drain timeout. *)
Definition IsDrainTimeOutError (err : error) : option string :=
  match err with ErrDrainTimeOut nodeName => Some nodeName | _ => None end.
Definition NewDrainTimeOutError (nodeName : string) : error := ErrDrainTimeOut nodeName.

(** List options. *)
Definition workerSets : selector := mkSelector MACHINE_API_NAMESPACE [(LABEL_MACHINE_POOL, "worker")] [].
Definition upgradeSets : selector := mkSelector MACHINE_API_NAMESPACE [(LABEL_UPGRADE, "true")] [].
Definition pooledSets : selector := mkSelector MACHINE_API_NAMESPACE [] [LABEL_MACHINE_POOL].
Definition upgradeMachinesOf (ms : string) : selector :=
  mkSelector MACHINE_API_NAMESPACE [(LABEL_UPGRADE, "true"); (LABEL_MACHINESET, ms)] [].

(** ** Operations *)

Definition CanScale : M (result bool) :=
  originalMachineSets ←? call (ListMachineSets workerSets);
  mret (Ok (negb (Nat.eqb (length originalMachineSets) 0))).

(** Reading a missing key of a Go map, or a nil map, gives the zero value. *)
Definition poolOf (ms : MachineSet) : string :=
  default "" (match ms_Labels ms with Some l => l !! LABEL_MACHINE_POOL | None => None end).

(** Does some pattern match: the first match or the first malformed pattern
    before it decides. *)
Fixpoint matchesPools (patterns : list string) (poolValue : string) : result bool :=
  match patterns with
  | [] => Ok false
  | pattern :: rest =>
      match path_Match pattern poolValue with
      | Err err => Err (ErrText ("matching pattern " +:+ quoted pattern +:+ " against pool " +:+
                          quoted poolValue +:+ ": " +:+ error_msg err))
      | Ok true => Ok true
      | Ok false => matchesPools rest poolValue
      end
  end.

Fixpoint matchedSets (patterns : list string) (sets : list MachineSet) (matched : list MachineSet)
    : result (list MachineSet) :=
  match sets with
  | [] => Ok matched
  | ms :: rest =>
      if String.eqb (poolOf ms) "worker" then matchedSets patterns rest matched
      else
        match matchesPools patterns (poolOf ms) with
        | Err err => Err err
        | Ok true => matchedSets patterns rest (matched ++ [ms])
        | Ok false => matchedSets patterns rest matched
        end
  end.

Definition listMachineSetsByPoolPatterns (patterns : list string) : M (result (list MachineSet)) :=
  r ← call (ListMachineSets pooledSets);
  mret match r with
       | Err err => Err (ErrText ("listing machinesets by pool label: " +:+ error_msg err))
       | Ok allPooled => matchedSets patterns allPooled []
       end.

Definition upgradeName (ms : MachineSet) : string := ms_Name ms +:+ "-upgrade".

(** Assignment to a key of a map: a nil map panics. *)
Definition setKey (k v : string) (m : option (gmap string string)) : M (gmap string string) :=
  m ← deref m; mret (<[k := v]> m).

(** The clone of a MachineSet. *)
Definition upgradeClone (ms : MachineSet) : M MachineSet :=
  tl ← setKey LABEL_UPGRADE "true" (ms_TemplateLabels ms);
  tl ← setKey LABEL_MACHINESET (upgradeName ms) (Some tl);
  ml ← setKey LABEL_UPGRADE "true" (ms_MatchLabels ms);
  ml ← setKey LABEL_MACHINESET (upgradeName ms) (Some ml);
  mret (mkMachineSet (upgradeName ms) (ms_Namespace ms) (Some {[LABEL_UPGRADE := "true"]}) zeroTime None
          (Some 1%Z) (Some tl) (Some ml) (ms_Replicas ms) (ms_ReadyReplicas ms)).

(** Is there a clone of the MachineSet already? *)
Definition hasClone (upgradeMachinesets : list MachineSet) (ms : MachineSet) : bool :=
  existsb (fun ums => String.eqb (ms_Name ums) (upgradeName ms)) upgradeMachinesets.

Fixpoint extraMachineSetCreated (originalMachinesets upgradeMachinesets : list MachineSet) : M (result bool) :=
  match originalMachinesets with
  | [] => mret (Ok true)
  | ms :: rest =>
      if hasClone upgradeMachinesets ms then mret (Ok false)
      else
        newMs ← upgradeClone ms;
        _ ←? call (CreateMachineSet newMs);
        extraMachineSetCreated rest upgradeMachinesets
  end.

Definition nodeIsReady (node : Node) : bool :=
  existsb (fun con => String.eqb con.1 "Ready" && bool_decide (con.2 = ConditionTrue)) (node_Conditions node).

Fixpoint nodesAreReady (timeOut : Duration) (upgradeMachinesets : list MachineSet) : M (result bool) :=
  match upgradeMachinesets with
  | [] => mret (Ok true)
  | ms :: rest =>
      let startTime := ms_CreationTimestamp ms in
      if negb (ms_Replicas ms =? ms_ReadyReplicas ms)%Z then
        t ← now;
        if After t (TimeAdd startTime timeOut)
        then mret (Err (NewScaleTimeOutError ("Machineset " +:+ ms_Name ms +:+ " provisioning timout")))
        else mret (Ok false)
      else
        machines ←? call (ListMachines (upgradeMachinesOf (ms_Name ms)));
        match machines with
        | [machine] =>
            nodeRef ← deref (NodeRef machine);
            node ←? call (GetNode nodeRef);
            if nodeIsReady node then nodesAreReady timeOut rest
            else
              t ← now;
              if After t (TimeAdd startTime timeOut)
              then mret (Err (NewScaleTimeOutError "Timeout waiting for node: to become ready"))
              else mret (Ok false)
        | _ => mret (Ok false)
        end
  end.

(** The workers and the extra pools; errors of the listings are only logged. *)
Definition originalSets (extraMachinePools : list string) : M (list MachineSet) :=
  r ← call (ListMachineSets workerSets);
  let workers := match r with Ok l => l | Err _ => [] end in
  if Nat.ltb 0 (length extraMachinePools) then
    r ← listMachineSetsByPoolPatterns extraMachinePools;
    mret (workers ++ match r with Ok l => l | Err _ => [] end)
  else mret workers.

Definition EnsureScaleUpNodes (timeOut : Duration) (extraMachinePools : list string) : M (result bool) :=
  upgradeMachinesets ←? call (ListMachineSets upgradeSets);
  allOriginals ← originalSets extraMachinePools;
  if Nat.eqb (length allOriginals) 0 then mret (Err (ErrText "failed to get any machinesets to scale"))
  else
    created ←? extraMachineSetCreated allOriginals upgradeMachinesets;
    if (created : bool) then mret (Ok false)
    else nodesAreReady timeOut upgradeMachinesets.

(** The nodes of one machine, in the order of the node list. *)
Fixpoint nodesOfMachine (machine : Machine) (nodes : list Node) (extra : list Node) : result (list Node) :=
  match nodes with
  | [] => Ok extra
  | node :: rest =>
      match NodeRef machine with
      | None => Err (ErrText ("an upgrade machine " +:+ machine_Name machine +:+
                                " exists but has no node association"))
      | Some ref => nodesOfMachine machine rest (if String.eqb (node_Name node) ref then extra ++ [node] else extra)
      end
  end.

Fixpoint extraNodesOf (machines : list Machine) (nodes : list Node) (extra : list Node) : M (result (list Node)) :=
  match machines with
  | [] => mret (Ok extra)
  | machine :: rest =>
      phase ← deref (machine_Phase machine);
      if String.eqb phase "Running" || String.eqb phase "Deleting" then
        extra ←? mret (nodesOfMachine machine nodes extra);
        extraNodesOf rest nodes extra
      else extraNodesOf rest nodes extra
  end.

Definition getExtraUpgradeNodes : M (result (list Node)) :=
  nodes ←? call (ListNodes "");
  machines ←? call (ListMachines upgradeSets);
  extraNodesOf machines nodes [].

Fixpoint executeAll (nds : osdDrainStrategy) (nodes : list Node) : M (result unit) :=
  match nodes with
  | [] => mret (Ok tt)
  | n :: rest => _ ←? drain_Execute nds n; executeAll nds rest
  end.

Fixpoint noneFailed (nds : osdDrainStrategy) (nodes : list Node) : M (result bool) :=
  match nodes with
  | [] => mret (Ok true)
  | n :: rest =>
      hasFailed ←? drain_HasFailed nds n;
      if (hasFailed : bool) then mret (Err (NewDrainTimeOutError (node_Name n))) else noneFailed nds rest
  end.

Definition handleDrainStrategy (nds : osdDrainStrategy) (nodes : list Node) : M (result bool) :=
  _ ←? executeAll nds nodes;
  noneFailed nds nodes.

(** Delete the MachineSets that are not being deleted yet. *)
Fixpoint deleteSets (sets : list MachineSet) : M (result unit) :=
  match sets with
  | [] => mret (Ok tt)
  | ms :: rest =>
      match ms_DeletionTimestamp ms with
      | None => _ ←? call (DeleteMachineSet ms); deleteSets rest
      | Some _ => deleteSets rest
      end
  end.

Definition EnsureScaleDownNodes (nds : option osdDrainStrategy) : M (result bool) :=
  upgradeMachinesets ←? call (ListMachineSets upgradeSets);
  _ ←? deleteSets upgradeMachinesets;
  _ ←? (match nds with
        | Some nds =>
            upgradeNodes ←? getExtraUpgradeNodes;
            handleDrainStrategy nds upgradeNodes
        | None => mret (Ok true)
        end : M (result bool));
  originalMachines ←? call (ListMachines upgradeSets);
  mret (Ok (Nat.eqb (length originalMachines) 0)).

(** ** Lemmas *)

(** What the clone of a MachineSet is. *)
Definition is_clone (ms newMs : MachineSet) : Prop :=
  ms_Name newMs = upgradeName ms /\ ms_Namespace newMs = ms_Namespace ms /\
  ms_Labels newMs = Some {[LABEL_UPGRADE := "true"]} /\ ms_SpecReplicas newMs = Some 1%Z /\
  ms_DeletionTimestamp newMs = None /\
  exists tl ml, ms_TemplateLabels ms = Some tl /\ ms_MatchLabels ms = Some ml /\
    ms_TemplateLabels newMs = Some (<[LABEL_MACHINESET := upgradeName ms]> (<[LABEL_UPGRADE := "true"]> tl)) /\
    ms_MatchLabels newMs = Some (<[LABEL_MACHINESET := upgradeName ms]> (<[LABEL_UPGRADE := "true"]> ml)).

Lemma upgradeClone_wp ms :
  wp (upgradeClone ms) (fun tr o => tr = [] /\ forall newMs, o = Done newMs -> is_clone ms newMs).
Proof.
  unfold upgradeClone, setKey. destruct (ms_TemplateLabels ms) as [tl|] eqn:Ht; [|wp_cbn; by split].
  destruct (ms_MatchLabels ms) as [ml|] eqn:Hm; wp_cbn; (split; [done|]); [|done].
  intros newMs [= <-]. unfold is_clone. cbn. split_and!; try done. exists tl, ml. rewrite Ht, Hm. done.
Qed.

(** The originals before the first one that has a clone. *)
Fixpoint unclonedPrefix (upgradeMachinesets originals : list MachineSet) : list MachineSet :=
  match originals with
  | [] => []
  | ms :: rest => if hasClone upgradeMachinesets ms then [] else ms :: unclonedPrefix upgradeMachinesets rest
  end.

Definition creation (ms : MachineSet) : obs Eff := Obs (CreateMachineSet ms) (Ok tt).

Lemma extraMachineSetCreated_wp originals ums :
  wp (extraMachineSetCreated originals ums) (fun tr o => forall b, o = Done (Ok b) ->
    exists created, tr = map creation created /\ Forall2 is_clone (unclonedPrefix ums originals) created /\
      (b = true <-> unclonedPrefix ums originals = originals)).
Proof.
  induction originals as [|ms rest IH]; cbn [extraMachineSetCreated unclonedPrefix].
  { intros b [= <-]. by exists []. }
  destruct (hasClone ums ms).
  { intros b [= <-]. exists []. split_and!; [done|constructor|done]. }
  apply wp_bind. eapply wp_mono; [apply upgradeClone_wp|]. intros t [newMs|m] [-> Hc]; [|done].
  wp_cbn. intros [[]|e]; [|done]. eapply wp_mono; [apply IH|]. cbn beta. intros tr o H b Hb.
  destruct (H b Hb) as (created & -> & Hf & Hiff). exists (newMs :: created). split; [done|].
  split; [constructor; auto|]. rewrite Hiff. split; [by intros ->|by intros [= ->]].
Qed.

(** The nodes of the clones of a successful scale-up. *)
Definition cloneReady (tr : list (obs Eff)) (ms : MachineSet) : Prop :=
  ms_Replicas ms = ms_ReadyReplicas ms /\
  exists machine nodeRef node, Obs (ListMachines (upgradeMachinesOf (ms_Name ms))) (Ok [machine]) ∈ tr /\
    NodeRef machine = Some nodeRef /\ Obs (GetNode nodeRef) (Ok node) ∈ tr /\ nodeIsReady node = true.

Lemma cloneReady_mono tr tr' ms : tr ⊆ tr' -> cloneReady tr ms -> cloneReady tr' ms.
Proof. intros Hs (H & m & r & n & ? & ? & ? & ?). split; [done|]. exists m, r, n. split_and!; auto. Qed.

Lemma nodesAreReady_wp timeOut ums :
  wp (nodesAreReady timeOut ums) (fun tr o =>
    Forall (fun ob : obs Eff => reads _ (ob_event ob)) tr /\ (o = Done (Ok true) -> Forall (cloneReady tr) ums)).
Proof.
  induction ums as [|ms rest IH]; cbn [nodesAreReady]; [by split|].
  destruct (Z.eqb_spec (ms_Replicas ms) (ms_ReadyReplicas ms)) as [Hr|Hr]; cbn [negb].
  2: { unfold now. wp_cbn. intros t. destruct (After t _); wp_cbn; (split; [by repeat constructor|done]). }
  wp_cbn. intros [machines|e]; [|split; [by repeat constructor|done]].
  destruct machines as [|machine [|]]; [split; [by repeat constructor|done]| |split; [by repeat constructor|done]].
  destruct (NodeRef machine) as [nodeRef|] eqn:Href; wp_cbn; [|split; [by repeat constructor|done]].
  intros [node|e]; [|split; [by repeat constructor|done]].
  destruct (nodeIsReady node) eqn:Hnode.
  - eapply wp_mono; [exact IH|]. intros tr o [H1 H2]. split; [by repeat constructor|]. intros Ho. constructor.
    + split; [done|]. exists machine, nodeRef, node. split_and!; [by left|done|right; by left|done].
    + eapply Forall_impl; [exact (H2 Ho)|]. intros ms'. apply cloneReady_mono. intros x Hx. by right; right.
  - unfold now. wp_cbn. intros t. destruct (After t _); wp_cbn; (split; [by repeat constructor|done]).
Qed.

Lemma originalSets_reads pools : all_ev reads (originalSets pools).
Proof. unfold originalSets, listMachineSetsByPoolPatterns. ev_auto; done. Qed.

Lemma mutations_creations l : mutations (map creation l) = map creation l.
Proof. induction l as [|x l IH]; [done|]. unfold mutations in *. cbn. by rewrite IH. Qed.

(** What a scale-up did. *)
Definition scaledUp (pools : list string) (tr : list (obs Eff)) (b : bool) : Prop :=
  exists ums originals created t,
    Obs (ListMachineSets upgradeSets) (Ok ums) ∈ tr /\
    exec (originalSets pools) t (Done originals) /\ t ⊆ tr /\ originals <> [] /\
    mutations tr = map creation created /\ Forall2 is_clone (unclonedPrefix ums originals) created /\
    (b = true -> unclonedPrefix ums originals <> originals /\ Forall (cloneReady tr) ums).

Lemma EnsureScaleUpNodes_wp timeOut pools :
  wp (EnsureScaleUpNodes timeOut pools) (fun tr o => forall b, o = Done (Ok b) -> scaledUp pools tr b).
Proof.
  unfold EnsureScaleUpNodes. wp_cbn. intros [ums|e]; [|done].
  apply wp_bind, wp_exec. intros t [originals|m] Ht; [|done].
  pose proof (mutations_reads _ (all_ev_exec _ _ _ _ (originalSets_reads pools) Ht)) as Hm.
  destruct originals as [|ms originals']; cbn [length Nat.eqb]; [done|]. set (originals := ms :: originals') in *.
  apply wp_bindr. eapply wp_mono; [apply extraMachineSetCreated_wp|].
  intros t2 [[b|e]|m] H2; [|done..]. destruct (H2 b eq_refl) as (created & -> & Hf & Hb).
  destruct b.
  - wp_cbn. intros b [= <-]. exists ums, originals, created, t. split_and!; try done; [by left| |].
    + intros x Hx. right. by apply elem_of_app; left.
    + etransitivity; [apply (mutations_app [_])|]. rewrite !mutations_app, Hm, mutations_creations. cbn. by rewrite app_nil_r.
  - eapply wp_mono; [apply nodesAreReady_wp|]. intros t3 o [Hr3 H3] b Ho.
    exists ums, originals, created, t. split_and!; try done; [by left| | |].
    + intros x Hx. right. by apply elem_of_app; left.
    + etransitivity; [apply (mutations_app [_])|].
      rewrite !mutations_app, Hm, mutations_creations, (mutations_reads _ Hr3). cbn. by rewrite app_nil_r.
    + intros ->. split; [intros E; by apply Hb in E|]. eapply Forall_impl; [exact (H3 Ho)|]. intros ms'.
      apply cloneReady_mono. intros x Hx. right. apply elem_of_app. right. apply elem_of_app. by right.
Qed.

(** *** Scaling down *)

Lemma deleteSets_wp sets :
  wp (deleteSets sets) (fun tr o => (o = Done (Ok tt) ->
    forall ms, ms ∈ sets -> ms_DeletionTimestamp ms = None -> Obs (DeleteMachineSet ms) (Ok tt) ∈ tr)).
Proof.
  induction sets as [|ms rest IH]; cbn [deleteSets]; [by intros _ ms ?%elem_of_nil|].
  destruct (ms_DeletionTimestamp ms) eqn:E.
  - eapply wp_mono; [exact IH|]. cbn. intros tr o H Ho ms' [->|Hin]%elem_of_cons Hd; [by rewrite Hd in E|auto].
  - wp_cbn. intros [[]|e]; [|done]. eapply wp_mono; [exact IH|]. cbn. intros tr o H Ho ms' [->|Hin]%elem_of_cons Hd;
      [by left|right; auto].
Qed.

Lemma noneFailed_wp nds nodes :
  wp (noneFailed nds nodes) (fun tr o => (forall b, o = Done (Ok b) ->
    Forall (fun n => exists t, exec (drain_HasFailed nds n) t (Done (Ok false)) /\ t ⊆ tr) nodes)).
Proof.
  induction nodes as [|n rest IH]; cbn [noneFailed]; [constructor|].
  apply wp_bindr, wp_exec. intros t [[failed|e]|m] Ht; [|done..]. destruct failed; [done|].
  eapply wp_mono; [exact IH|]. cbn beta. intros tr o H b Ho. constructor.
  - exists t. split; [done|]. apply app_sub_l.
  - eapply Forall_impl; [exact (H b Ho)|]. cbn beta. intros n' (t' & ? & Hs). exists t'. split; [done|].
    intros x Hx. apply app_sub_r. auto.
Qed.

(** What a complete scale-down did. *)
Definition scaledDown (nds : option osdDrainStrategy) (tr : list (obs Eff)) : Prop :=
  exists ums, Obs (ListMachineSets upgradeSets) (Ok ums) ∈ tr /\
    (forall ms, ms ∈ ums -> ms_DeletionTimestamp ms = None -> Obs (DeleteMachineSet ms) (Ok tt) ∈ tr) /\
    (forall nds', nds = Some nds' -> exists nodes t, exec getExtraUpgradeNodes t (Done (Ok nodes)) /\ t ⊆ tr /\
       Forall (fun n => exists t', exec (drain_HasFailed nds' n) t' (Done (Ok false)) /\ t' ⊆ tr) nodes) /\
    last tr = Some (Obs (ListMachines upgradeSets) (Ok [])).

Lemma EnsureScaleDownNodes_wp nds :
  wp (EnsureScaleDownNodes nds) (fun tr o => o = Done (Ok true) -> scaledDown nds tr).
Proof.
  unfold EnsureScaleDownNodes. wp_cbn. intros [ums|e]; [|done].
  apply wp_bindr. eapply wp_mono; [apply deleteSets_wp|]. intros t1 [[[]|e]|m] H1; [|done..].
  specialize (H1 eq_refl). apply wp_bindr.
  eapply (wp_mono _ (fun t2 o => forall b, o = Done (Ok b) -> forall nds', nds = Some nds' ->
    exists nodes t, exec getExtraUpgradeNodes t (Done (Ok nodes)) /\ t ⊆ t2 /\
       Forall (fun n => exists t', exec (drain_HasFailed nds' n) t' (Done (Ok false)) /\ t' ⊆ t2) nodes)).
  { destruct nds as [nds|]; [|done]. apply wp_bindr, wp_exec. intros t [[nodes|e]|m] Ht; [|done..].
    unfold handleDrainStrategy. apply wp_bindr, wp_exec. intros t' [[u|e]|m] _; [|done..].
    eapply wp_mono; [apply noneFailed_wp|]. cbn beta. intros t2 o H b Ho nds' [= <-].
    exists nodes, t. split; [done|]. split; [apply app_sub_l|].
    eapply Forall_impl; [exact (H b Ho)|]. cbn beta. intros n (t3 & ? & Hs). exists t3. split; [done|].
    intros x Hx. apply app_sub_r, app_sub_r. auto. }
  cbn beta. intros t2 [[b|e]|m] H2; [|done..]. wp_cbn. intros [[|? ?]|e]; [|done..]. intros _.
  exists ums. split; [by left|]. split_and!.
  - intros ms Hin Hd. right. apply app_sub_l. auto.
  - intros nds' Hn. destruct (H2 b eq_refl nds' Hn) as (nodes & t & Ht & Hs & Hf). exists nodes, t.
    assert (forall l, l ⊆ t2 -> l ⊆ Obs (ListMachineSets upgradeSets) (Ok ums) :: t1 ++ t2 ++
      [Obs (ListMachines upgradeSets) (Ok [])]) as Hsub.
    { intros l Hl x Hx. right. apply app_sub_r, app_sub_l. auto. }
    split; [done|]. split; [auto|]. eapply Forall_impl; [exact Hf|]. cbn beta. intros n (t' & ? & ?). exists t'. auto.
  - rewrite app_comm_cons, app_assoc, last_snoc. done.
Qed.

(** *** Extra pools *)

Definition poolPattern (patterns : list string) (pool : string) : Prop :=
  exists pattern ts, pattern ∈ patterns /\ parsePattern PTerm pattern = Some ts /\ globs ts pool.

(** A pattern that the validation of the configuration accepts. *)
Definition validPattern (pattern : string) : Prop := is_ok (path_Match pattern "") = true.

Lemma validPattern_parse pattern : validPattern pattern -> exists ts, parsePattern PTerm pattern = Some ts.
Proof. unfold validPattern, path_Match. destruct (parsePattern PTerm pattern); [by eexists|done]. Qed.

Lemma matchesPools_spec patterns pool :
  Forall validPattern patterns -> hasSlash pool = false ->
  exists b, matchesPools patterns pool = Ok b /\ (b = true <-> poolPattern patterns pool).
Proof.
  intros Hv Hs. induction Hv as [|pattern rest Hp Hv IH]; cbn.
  { exists false. split; [done|]. split; [done|]. by intros (? & ? & ?%elem_of_nil & _). }
  destruct (validPattern_parse _ Hp) as [ts Hts]. pose proof (path_Match_globs _ _ _ Hts Hs) as Hg.
  destruct IH as (b & -> & Hb). unfold path_Match in *. rewrite Hts in *.
  destruct (matchChunks _ _).
  - exists true. split; [done|]. split; [|done]. intros _. exists pattern, ts. split_and!; [by left|done|by apply Hg].
  - exists b. split; [done|]. rewrite Hb. split.
    + intros (p & ts' & ? & ? & ?). exists p, ts'. split_and!; [by right|done..].
    + intros (p & ts' & [->|Hin]%elem_of_cons & Hp' & Hg'); [|by exists p, ts'].
      rewrite Hts in Hp'. injection Hp' as <-. by apply Hg in Hg'.
Qed.

Lemma matchedSets_spec patterns sets acc :
  Forall validPattern patterns -> Forall (fun ms => hasSlash (poolOf ms) = false) sets ->
  exists matched, matchedSets patterns sets acc = Ok (acc ++ matched) /\ matched `sublist_of` sets /\
    forall ms, ms ∈ matched <-> ms ∈ sets /\ poolOf ms <> "worker" /\ poolPattern patterns (poolOf ms).
Proof.
  intros Hv Hs. revert acc. induction Hs as [|ms rest Hms Hs IH]; intros acc; cbn [matchedSets].
  { exists []. rewrite app_nil_r. split_and!; [done|constructor|]. intros ms. split; [by intros ?%elem_of_nil|].
    by intros [?%elem_of_nil _]. }
  destruct (String.eqb_spec (poolOf ms) "worker") as [Hw|Hw].
  { destruct (IH acc) as (matched & -> & Hsub & Hin). exists matched. split_and!; [done|by constructor|].
    intros ms'. rewrite Hin, elem_of_cons. split; [tauto|]. by intros [[->|?] [? ?]]. }
  destruct (matchesPools_spec patterns (poolOf ms) Hv Hms) as (b & -> & Hb). destruct b.
  - destruct (IH (acc ++ [ms])) as (matched & -> & Hsub & Hin). exists (ms :: matched). rewrite <- app_assoc.
    split_and!; [done|by constructor|]. intros ms'. rewrite !elem_of_cons, Hin. split; [|tauto].
    intros [->|?]; [|tauto]. split_and!; [by left|done|by apply Hb].
  - destruct (IH acc) as (matched & -> & Hsub & Hin). exists matched. split_and!; [done|by constructor|].
    intros ms'. rewrite Hin, elem_of_cons. split; [tauto|]. intros [[->|?] [? Hp]]; [by apply Hb in Hp|tauto].
Qed.

(** ** Properties *)

(** C27: a scale-up creates, in order, one single-replica clone for each original
    MachineSet before the first one that has a clone already, and nothing else;
    it reports success only when some original has a clone and every listed
    clone has all its replicas and one machine whose node is ready. *)
Theorem scale_up_creates_clones timeOut pools tr b :
  exec (EnsureScaleUpNodes timeOut pools) tr (Done (Ok b)) -> scaledUp pools tr b.
Proof. intros Hex. exact (proj1 (wp_exec _ _) (EnsureScaleUpNodes_wp timeOut pools) _ _ Hex b eq_refl). Qed.


(** C29: with patterns that passed the validation of the configuration, the extra
    pools are selected without error: exactly the MachineSets whose pool is not
    the workers' and is matched by one of the shell patterns. *)
Theorem extra_pools_selected patterns sets tr o :
  Forall validPattern patterns -> Forall (fun ms => hasSlash (poolOf ms) = false) sets ->
  exec (listMachineSetsByPoolPatterns patterns) tr o -> tr = [Obs (ListMachineSets pooledSets) (Ok sets)] ->
  exists matched, o = Done (Ok matched) /\ matched `sublist_of` sets /\
    forall ms, ms ∈ matched <-> ms ∈ sets /\ poolOf ms <> "worker" /\ poolPattern patterns (poolOf ms).
Proof.
  intros Hv Hs (r & t & -> & -> & ->) Htr.
  assert (r = Ok sets) as ->.
  { apply (f_equal (map (fun ob : obs Eff => match ob with
      @Obs _ _ (ListMachineSets _) r => Some r | _ => None end))) in Htr. by injection Htr. }
  destruct (matchedSets_spec patterns sets [] Hv Hs) as (matched & -> & ?). by exists matched.
Qed.

(** *** Witnesses *)

Definition demo_set (name pool : string) : MachineSet :=
  mkMachineSet name MACHINE_API_NAMESPACE (Some {[LABEL_MACHINE_POOL := pool]}) 0%Z None (Some 2%Z)
    (Some ∅) (Some ∅) 2 2.
Definition demo_clone (name : string) : MachineSet :=
  mkMachineSet name MACHINE_API_NAMESPACE (Some {[LABEL_UPGRADE := "true"]}) 0%Z None (Some 1%Z)
    (Some ∅) (Some ∅) 1 1.
Definition demo_ready_node : Node := mkNode "node-9" false [] ∅ ∅ [("Ready", ConditionTrue)] None.
(** Two worker sets, of which the first has a clone when [cloned]. *)
Definition demo_scale_env (cloned : bool) (nodeRef : option string) X (e : Eff X) (u : unit) : X * unit :=
  match e in Eff X return X * unit with
  | ListMachineSets s =>
      (Ok (if decide (sel_Labels s = sel_Labels upgradeSets) then if cloned then [demo_clone "a-upgrade"] else []
           else [demo_set "a" "worker"; demo_set "b" "worker"]), u)
  | CreateMachineSet _ => (Ok tt, u)
  | DeleteMachineSet _ => (Ok tt, u)
  | ListMachines s => (Ok (if decide (length (sel_Labels s) = 2) then [mkMachine "m" (Some "Running") nodeRef] else []), u)
  | GetNode _ => (Ok demo_ready_node, u)
  | ListNodes _ => (Ok [], u)
  | e' => (default_resp e', u)
  end.
Definition demo_scale_up (cloned : bool) := run (demo_scale_env cloned (Some "node-9")) (EnsureScaleUpNodes (30 * Minute) []) tt.

Lemma scale_up_creates_clones_witness :
  length (mutations (demo_scale_up false).1.1) = 2 /\ scaledUp [] (demo_scale_up false).1.1 false /\
  scaledUp [] (demo_scale_up true).1.1 true.
Proof.
  split; [vm_compute; reflexivity|].
  split; eapply scale_up_creates_clones;
    exact (run_exec (demo_scale_env _ (Some "node-9")) (EnsureScaleUpNodes (30 * Minute) []) tt).
Defined.

Definition demo_scale_down :=
  run (demo_scale_env true None) (EnsureScaleDownNodes None) tt.

Definition demo_pools : list MachineSet :=
  [demo_set "a" "worker"; demo_set "b" "gpu-large"; demo_set "c" "infra"].
Definition demo_pool_env X (e : Eff X) (u : unit) : X * unit :=
  match e in Eff X return X * unit with
  | ListMachineSets s => (Ok demo_pools, u)
  | e' => (default_resp e', u)
  end.
Lemma extra_pools_selected_witness :
  exists matched, (run demo_pool_env (listMachineSetsByPoolPatterns ["gpu-*"]) tt).1.2 = Done (Ok matched) /\
    demo_set "b" "gpu-large" ∈ matched.
Proof.
  destruct (extra_pools_selected ["gpu-*"] demo_pools _ _
    ltac:(by repeat constructor) ltac:(by repeat constructor)
    (run_exec demo_pool_env (listMachineSetsByPoolPatterns ["gpu-*"]) tt) eq_refl) as (matched & Ho & _ & Hin).
  exists matched. split; [exact Ho|]. apply Hin. split; [right; by left|]. split; [done|].
  exists "gpu-*", [TChar "g"%char; TChar "p"%char; TChar "u"%char; TChar "-"%char; TStar]. split; [by left|]. split; [reflexivity|].
  repeat (apply globs_char; [reflexivity|]). apply globs_star_nil. reflexivity.
Defined.

(** An original that is listed after one with a clone does not get its clone:
    the scale-up reports success with a single clone for two sets. *)
Lemma scale_up_skips_the_rest :
  (demo_scale_up true).1.2 = Done (Ok true) /\ mutations (demo_scale_up true).1.1 = [].
Proof. by vm_compute. Qed.

(** A machine that counts as ready but has no node reference yet is a nil dereference. *)
Lemma scale_up_panics_without_node :
  (run (demo_scale_env true None) (EnsureScaleUpNodes (30 * Minute) []) tt).1.2 =
  Crash "nil pointer dereference".
Proof. by vm_compute. Qed.
