(* ===== verification/Maintenance.v ===== *)
(** * Maintenance windows (pkg/maintenance, pkg/alertmanager)

    During an upgrade the operator silences alerts in Alertmanager: a control
    plane silence, one for the configured critical alerts and one for the
    workers that is replaced whenever the number of remaining nodes changes.
    The requests to Alertmanager are events; its silences always carry an ID, a
    comment, a creator and a state. *)

From stdpp Require Import base gmap strings list pretty.
From Stdlib Require Import ZArith Lia.
From S2P Require Import Prelude GoTime Api Effects Config.

Definition controlPlaneSilenceCommentId : string := "OSD control plane".
Definition workerSilenceCommentId : string := "OSD worker node".

(** ** Silences (alertManagerSilenceClient.go) *)

Definition SilencePredicate : Type := Silence -> bool.

(** [Filter]: the silences that satisfy every predicate, in order. *)
Definition filterSilences (predicates : list SilencePredicate) (silences : list Silence) : list Silence :=
  List.filter (fun s => forallb (fun p => p s) predicates) silences.
Definition Filter (predicates : list SilencePredicate) : M (result (list Silence)) :=
  silences ←? call AmListSilences;
  mret (Ok (filterSilences predicates silences)).

Definition activeSilences : SilencePredicate := fun s => String.eqb (sil_State s) "active".
Definition createdByOperator : SilencePredicate := fun s => String.eqb (sil_CreatedBy s) OperatorName.
Definition equalsComment (comment : string) : SilencePredicate := fun s => String.eqb (sil_Comment s) comment.
Definition containsComment (comment : string) : SilencePredicate := fun s => Contains (sil_Comment s) comment.

Definition createMatcher (alertMatchKey alertValue : string) (isRegex : bool) : Matcher :=
  mkMatcher alertMatchKey alertValue isRegex.
Definition createDefaultMatchers : list Matcher :=
  [createMatcher "severity" "(warning|info)" true;
   createMatcher "namespace" "(^openshift.*|^kube.*|^redhat.*|^default$)" true].

(** ** Operations (alertmanagerMaintenance.go) *)

Definition controlPlaneComment (version : string) : string :=
  "Silence for " +:+ controlPlaneSilenceCommentId +:+ " upgrade to version " +:+ version.
Definition criticalComment (version : string) : string :=
  "Silence for critical alerts during " +:+ controlPlaneSilenceCommentId +:+ " upgrade to version " +:+ version.
Definition workerComment (version : string) : string :=
  "Silence for " +:+ workerSilenceCommentId +:+ " upgrade to version " +:+ version.
Definition workerFullComment (version : string) (count : Z) : string :=
  workerComment version +:+ " with remaining " +:+ pretty count +:+ " nodes".

Definition exists_ {A} (l : list A) : bool := Nat.ltb 0 (length l).

Definition criticalMatchers (ignoredCriticalAlerts : list string) : list Matcher :=
  [createMatcher "alertname" ("(" +:+ Join ignoredCriticalAlerts "|" +:+ ")") true].

Definition StartControlPlane (endsAt : Time) (version : string) (ignoredCriticalAlerts : list string)
    : M (result unit) :=
  defaultSilence ←? Filter [equalsComment (controlPlaneComment version)];
  let defaultExists := exists_ defaultSilence in
  criticalSilence ←? Filter [equalsComment (criticalComment version)];
  let criticalExists := exists_ criticalSilence in
  if defaultExists && criticalExists then mret (Ok tt)
  else
    startsAt ← now;
    _ ←? (if negb defaultExists
          then call (AmPostSilence createDefaultMatchers startsAt endsAt OperatorName (controlPlaneComment version))
          else mret (Ok tt) : M (result unit));
    if negb criticalExists && exists_ ignoredCriticalAlerts
    then call (AmPostSilence (criticalMatchers ignoredCriticalAlerts) startsAt endsAt OperatorName (criticalComment version))
    else mret (Ok tt).

Definition SetWorker (endsAt : Time) (version : string) (count : Z) : M (result unit) :=
  let comment := workerComment version in
  let fullComment := workerFullComment version count in
  silenceList ←? Filter [equalsComment fullComment];
  if exists_ silenceList then mret (Ok tt)
  else
    oldSilenceList ←? Filter [activeSilences; containsComment comment];
    _ ←? (match oldSilenceList with
          | oldSilence :: _ => call (AmDeleteSilence (sil_ID oldSilence))
          | [] => mret (Ok tt)
          end : M (result unit));
    startsAt ← now;
    call (AmPostSilence createDefaultMatchers startsAt endsAt OperatorName fullComment).

(** Delete every silence, collecting the errors. *)
Fixpoint deleteSilences (silences : list Silence) (deleteErrors : list error) : M (list error) :=
  match silences with
  | [] => mret deleteErrors
  | s :: rest =>
      r ← call (AmDeleteSilence (sil_ID s));
      deleteSilences rest (match r with Err err => deleteErrors ++ [err] | Ok _ => deleteErrors end)
  end.

Definition EndSilences (comment : string) : M (result unit) :=
  silences ←? Filter [createdByOperator; activeSilences; containsComment comment];
  deleteErrors ← deleteSilences silences [];
  mret match errorOrNil deleteErrors with Some err => Err err | None => Ok tt end.

Definition EndControlPlane : M (result unit) := EndSilences controlPlaneSilenceCommentId.
Definition EndWorker : M (result unit) := EndSilences workerSilenceCommentId.

Definition maintenance_IsActive : M (result bool) :=
  silences ←? Filter [activeSilences; createdByOperator];
  mret (Ok (exists_ silences)).

(** ** Specification: an Alertmanager that stores its silences *)

Definition expire (id : string) (s : Silence) : Silence :=
  if String.eqb (sil_ID s) id then mkSilence (sil_ID s) (sil_Comment s) (sil_CreatedBy s) "expired" else s.

Section Store.
(** How IDs are assigned, and the clock. *)
Context (fresh : list Silence -> string) (time : Time).

Definition post (creator comment : string) (s : list Silence) : list Silence :=
  s ++ [mkSilence (fresh s) comment creator "active"].

Definition alertmanager X (e : Eff X) (s : list Silence) : X * list Silence :=
  match e in Eff X return X * list Silence with
  | Now => (time, s)
  | AmListSilences => (Ok s, s)
  | AmPostSilence _ _ _ creator comment => (Ok tt, post creator comment s)
  | AmDeleteSilence id => (Ok tt, map (expire id) s)
  | e' => (default_resp e', s)
  end.

Definition commented (comment : string) (s : list Silence) : bool := existsb (equalsComment comment) s.

(** Each operation as a function on the silences. *)
Definition ensureSilence (comment : string) (s : list Silence) : list Silence :=
  if commented comment s then s else post OperatorName comment s.
Definition startControlPlane_spec (version : string) (ignored : list string) (s : list Silence) : list Silence :=
  let s1 := ensureSilence (controlPlaneComment version) s in
  if exists_ ignored then ensureSilence (criticalComment version) s1 else s1.
Definition activeWorker (version : string) (s : Silence) : bool :=
  activeSilences s && containsComment (workerComment version) s.
Definition setWorker_spec (version : string) (count : Z) (s : list Silence) : list Silence :=
  if commented (workerFullComment version count) s then s
  else
    post OperatorName (workerFullComment version count)
      (match List.filter (activeWorker version) s with
       | old :: _ => map (expire (sil_ID old)) s
       | [] => s
       end).
Definition endSilences_spec (comment : string) (s : list Silence) : list Silence :=
  fold_left (fun s old => map (expire (sil_ID old)) s)
    (filterSilences [createdByOperator; activeSilences; containsComment comment] s) s.

(** ** Lemmas *)

Lemma exists_filter {A} (p : A -> bool) l : exists_ (List.filter p l) = existsb p l.
Proof. induction l as [|x l IH]; [done|]. cbn. by destruct (p x). Qed.

Lemma exists_commented comment s : exists_ (filterSilences [equalsComment comment] s) = commented comment s.
Proof.
  unfold filterSilences, commented. rewrite exists_filter. induction s as [|x s IH]; [done|].
  cbn in *. by rewrite andb_true_r, IH.
Qed.

Lemma commented_post c creator comment s :
  commented c (post creator comment s) = commented c s || String.eqb comment c.
Proof. unfold commented, post. rewrite existsb_app. cbn. by rewrite orb_false_r. Qed.

Lemma ensureSilence_commented c s : commented c (ensureSilence c s) = true.
Proof.
  unfold ensureSilence. destruct (commented c s) eqn:E; [done|]. by rewrite commented_post, String.eqb_refl, orb_true_r.
Qed.

Lemma ensureSilence_keeps c c' s : commented c s = true -> commented c (ensureSilence c' s) = true.
Proof. intros H. unfold ensureSilence. destruct (commented c' s); [done|]. by rewrite commented_post, H. Qed.

(** The two control plane comments differ. *)
Lemma comments_differ version : String.eqb (controlPlaneComment version) (criticalComment version) = false.
Proof. done. Qed.

Lemma commented_expire c id s : commented c (map (expire id) s) = commented c s.
Proof.
  unfold commented. induction s as [|x s IH]; [done|]. cbn [existsb map]. rewrite IH. f_equal.
  unfold expire. by destruct (String.eqb (sil_ID x) id).
Qed.

Lemma StartControlPlane_run endsAt version ignored s :
  (run alertmanager (StartControlPlane endsAt version ignored) s).1.2 = Done (Ok tt) /\
  (run alertmanager (StartControlPlane endsAt version ignored) s).2 = startControlPlane_spec version ignored s.
Proof.
  unfold StartControlPlane, Filter, startControlPlane_spec, now. cbn [run call bindr mbind prog_mbind prog_bind alertmanager mret prog_ret].
  rewrite !exists_commented. unfold ensureSilence.
  destruct (commented (controlPlaneComment version) s) eqn:E1, (commented (criticalComment version) s) eqn:E2,
    (exists_ ignored); cbn [andb negb run call prog_bind alertmanager fst snd];
    rewrite ?commented_post, ?comments_differ, ?E2; cbn; done.
Qed.

Lemma SetWorker_run endsAt version count s :
  (run alertmanager (SetWorker endsAt version count) s).1.2 = Done (Ok tt) /\
  (run alertmanager (SetWorker endsAt version count) s).2 = setWorker_spec version count s.
Proof.
  unfold SetWorker, Filter, setWorker_spec, now. cbn [run call bindr mbind prog_mbind prog_bind alertmanager mret prog_ret].
  rewrite exists_commented. destruct (commented _ s); [done|].
  cbn [run call prog_bind alertmanager].
  replace (filterSilences [activeSilences; containsComment (workerComment version)] s)
    with (List.filter (activeWorker version) s).
  2: { apply List.filter_ext. intros x. cbn. by rewrite andb_true_r. }
  destruct (List.filter _ s); done.
Qed.

Lemma deleteSilences_run l errs s :
  (run alertmanager (deleteSilences l errs) s).1.2 = Done errs /\
  (run alertmanager (deleteSilences l errs) s).2 = fold_left (fun s old => map (expire (sil_ID old)) s) l s.
Proof.
  revert s. induction l as [|x l IH]; intros s; [done|].
  cbn [deleteSilences mbind prog_mbind prog_bind call run alertmanager fold_left].
  destruct (IH (map (expire (sil_ID x)) s)) as [H1 H2].
  destruct (run alertmanager (deleteSilences l errs) _) as [[tr o] s']. done.
Qed.

Lemma EndSilences_run comment s :
  (run alertmanager (EndSilences comment) s).1.2 = Done (Ok tt) /\
  (run alertmanager (EndSilences comment) s).2 = endSilences_spec comment s.
Proof.
  unfold EndSilences, Filter, endSilences_spec. cbn [run call bindr mbind prog_mbind prog_bind alertmanager mret prog_ret].
  set (l := filterSilences _ s). destruct (deleteSilences_run l [] s) as [H1 H2].
  destruct (run_bind_done alertmanager (deleteSilences l [])
    (fun deleteErrors => mret match errorOrNil deleteErrors with Some err => Err err | None => Ok tt end)
    s [] _ H1 H2) as [H3 H4].
  revert H3 H4. change (prog_bind ?f ?p) with (p ≫= f).
  destruct (run alertmanager (deleteSilences l [] ≫= _) s) as [[tr o] s']. cbn. by intros -> ->.
Qed.

End Store.

(** Expiring silences leaves no active ones among the chosen. *)
Lemma expire_active id s p :
  (forall x, p (expire id x) = true -> p x = true) ->
  length (List.filter p (map (expire id) s)) <= length (List.filter p s).
Proof.
  intros Hp. induction s as [|x s IH]; [done|]. cbn.
  destruct (p (expire id x)) eqn:E; [rewrite (Hp _ E); cbn; lia|]. destruct (p x); cbn; lia.
Qed.

Lemma activeWorker_expire version id x : activeWorker version (expire id x) = true -> activeWorker version x = true.
Proof. unfold expire. destruct (String.eqb (sil_ID x) id); [done|auto]. Qed.

Lemma activeWorker_expire_self version x : activeWorker version (expire (sil_ID x) x) = false.
Proof. unfold expire. by rewrite String.eqb_refl. Qed.

(** Expiring the first active worker silence removes at least that one. *)
Lemma expire_first version s old rest :
  List.filter (activeWorker version) s = old :: rest ->
  length (List.filter (activeWorker version) (map (expire (sil_ID old)) s)) <= length rest.
Proof.
  intros H. assert (old ∈ s) as Hin.
  { apply list_elem_of_In. apply (List.filter_In (activeWorker version)). rewrite H. by left. }
  assert (length (List.filter (activeWorker version) s) = S (length rest)) as Hl by by rewrite H.
  assert (activeWorker version old = true) as Ha.
  { apply (List.filter_In (activeWorker version) old s). rewrite H. by left. }
  clear H. assert (length (List.filter (activeWorker version) (map (expire (sil_ID old)) s)) <
    length (List.filter (activeWorker version) s)); [|lia]. clear Hl.
  induction Hin as [old s|old y s Hin IH]; cbn.
  - rewrite activeWorker_expire_self, Ha. cbn. pose proof (expire_active (sil_ID old) s _ (activeWorker_expire version (sil_ID old))). lia.
  - destruct (activeWorker version (expire _ y)) eqn:E; [specialize (IH Ha); rewrite (activeWorker_expire _ _ _ E); cbn; lia|].
    specialize (IH Ha). destruct (activeWorker version y); cbn; lia.
Qed.

Lemma workerFullComment_contains version count : Contains (workerFullComment version count) (workerComment version) = true.
Proof.
  unfold workerFullComment. apply Contains_app_l. generalize (workerComment version). intros s.
  assert (HasPrefix s s = true) as H by (induction s; cbn; [done|]; by rewrite Ascii.eqb_refl).
  destruct s; [done|]. apply orb_true_iff. by left.
Qed.

Lemma activeWorker_new version count id creator :
  activeWorker version (mkSilence id (workerFullComment version count) creator "active") = true.
Proof. unfold activeWorker, containsComment. cbn [sil_State sil_Comment]. by rewrite workerFullComment_contains. Qed.

(** A silence that a later expiry leaves active was active before. *)
Lemma fold_expire_active l s x :
  x ∈ fold_left (fun s old => map (expire (sil_ID old)) s) l s -> activeSilences x = true ->
  x ∈ s /\ forall old, old ∈ l -> sil_ID old <> sil_ID x.
Proof.
  revert s. induction l as [|o l IH]; intros s; cbn [fold_left].
  { intros H _. split; [done|]. by intros ? ?%elem_of_nil. }
  intros H Ha. destruct (IH _ H Ha) as [Hin Hl]. apply list_elem_of_fmap in Hin as (y & Hy & Hin).
  unfold expire in Hy. destruct (String.eqb_spec (sil_ID y) (sil_ID o)) as [E|E]; subst x; [done|].
  split; [done|]. intros old [Ho|Ho]%elem_of_cons; [rewrite Ho; congruence|auto].
Qed.

(** The requests that end silences in any environment: one deletion per chosen
    silence, the errors collected. *)
Lemma deleteSilences_wp l errs :
  wp (deleteSilences l errs) (fun tr o => exists rs : list (result unit),
    o = Done (errs ++ omap (fun r => match r with Err err => Some err | Ok _ => None end) rs) /\
    Forall2 (fun s ob => exists r, ob = Obs (AmDeleteSilence (sil_ID s)) r) l tr /\
    tr = zip_with (fun s r => Obs (AmDeleteSilence (sil_ID s)) r) l rs /\ length rs = length l).
Proof.
  revert errs. induction l as [|x l IH]; intros errs; cbn [deleteSilences].
  { exists []. cbn. by rewrite app_nil_r. }
  wp_cbn. intros r. eapply wp_mono; [apply IH|]. cbn beta. intros tr o (rs & -> & Hf & Htr & Hl).
  exists (r :: rs). split_and!; [|constructor; [by eexists|done]|cbn; by rewrite Htr|cbn; by rewrite Hl].
  destruct r as [u|e]; cbn; [done|]. by rewrite <- app_assoc.
Qed.

(** ** Properties *)

(** C30: on an Alertmanager that stores its silences, starting the control plane
    window is the function that adds the missing silences of the version, which
    changes nothing the second time; a critical-alert silence is added only when
    alerts are configured to be ignored. *)
Theorem control_plane_window_refines fresh time endsAt version ignored s :
  let r := run (alertmanager fresh time) (StartControlPlane endsAt version ignored) s in
  r.1.2 = Done (Ok tt) /\ r.2 = startControlPlane_spec fresh version ignored s /\
  commented (controlPlaneComment version) r.2 = true /\
  (exists_ ignored = true -> commented (criticalComment version) r.2 = true) /\
  startControlPlane_spec fresh version ignored r.2 = r.2.
Proof.
  cbn zeta. destruct (StartControlPlane_run fresh time endsAt version ignored s) as [H1 H2]. rewrite H2.
  set (s' := startControlPlane_spec fresh version ignored s).
  assert (commented (controlPlaneComment version) s' = true) as Hd.
  { subst s'. unfold startControlPlane_spec. destruct (exists_ ignored); [apply ensureSilence_keeps|];
      apply ensureSilence_commented. }
  assert (exists_ ignored = true -> commented (criticalComment version) s' = true) as Hc.
  { intros Hi. subst s'. unfold startControlPlane_spec. rewrite Hi. apply ensureSilence_commented. }
  split_and!; try done. unfold startControlPlane_spec, ensureSilence. rewrite Hd.
  destruct (exists_ ignored); [by rewrite Hc|done].
Qed.

(** C31: on an Alertmanager that stores its silences, setting the worker window
    leaves a silence for the number of remaining nodes and never more than one
    active worker silence of the version. *)
Theorem worker_window_replaced fresh time endsAt version count s :
  let r := run (alertmanager fresh time) (SetWorker endsAt version count) s in
  let active l := length (List.filter (activeWorker version) l) in
  r.1.2 = Done (Ok tt) /\ r.2 = setWorker_spec fresh version count s /\
  commented (workerFullComment version count) r.2 = true /\
  (active s <= 1 -> active r.2 <= 1).
Proof.
  cbn zeta. destruct (SetWorker_run fresh time endsAt version count s) as [H1 H2]. rewrite H2.
  split_and!; [done|done| |]; unfold setWorker_spec; destruct (commented _ s) eqn:E; try done.
  - by rewrite commented_post, String.eqb_refl, orb_true_r.
  - intros Hs. unfold post. rewrite List.filter_app, length_app. cbn [List.filter]. rewrite activeWorker_new.
    destruct (List.filter (activeWorker version) s) as [|old rest] eqn:F; [rewrite F; cbn; lia|].
    apply expire_first in F. cbn in *. lia.
Qed.

(** Ending the silences of a comment asks for the deletion of every active
    silence of the operator with that comment, whatever the answers, and fails
    exactly when some deletion fails; on an Alertmanager that stores its
    silences none of them is active afterwards. *)
Theorem end_silences_complete fresh time comment :
  let chosen := filterSilences [createdByOperator; activeSilences; containsComment comment] in
  (forall tr o, exec (EndSilences comment) tr o ->
     (exists e, tr = [Obs AmListSilences (Err e)] /\ o = Done (Err e)) \/
     exists s rs, length rs = length (chosen s) /\
       tr = Obs AmListSilences (Ok s) :: zip_with (fun x r => Obs (AmDeleteSilence (sil_ID x)) r) (chosen s) rs /\
       (o = Done (Ok tt) <-> Forall (fun r => is_ok r = true) rs)) /\
  (forall s, (run (alertmanager fresh time) (EndSilences comment) s).1.2 = Done (Ok tt) /\
     chosen (run (alertmanager fresh time) (EndSilences comment) s).2 = []).
Proof.
  cbn zeta. split.
  - apply wp_exec. unfold EndSilences, Filter. wp_cbn. intros [s|e]; [|left; by exists e].
    wp_cbn. apply wp_bind. eapply wp_mono; [apply deleteSilences_wp|]. cbn beta.
    intros tr o (rs & -> & _ & -> & Hl). wp_cbn. right. exists s, rs. rewrite app_nil_r. split_and!; [done..|].
    cbn [app]. clear Hl. induction rs as [|[[]|e] rs IH]; [split; [constructor|done]| |].
    + cbn. rewrite IH, Forall_cons. cbn. tauto.
    + cbn. rewrite Forall_cons. cbn. split; [done|by intros [? _]].
  - intros s. destruct (EndSilences_run fresh time comment s) as [H1 H2]. split; [exact H1|].
    rewrite H2. apply elem_of_nil_inv. intros x Hx. apply list_elem_of_In, List.filter_In in Hx as [Hin Hx].
    apply list_elem_of_In in Hin. cbn in Hx.
    assert (activeSilences x = true) as Ha by (destruct (activeSilences x); [done|]; by rewrite andb_false_r in Hx).
    destruct (fold_expire_active _ _ _ Hin Ha) as [Hs Hold].
    apply (Hold x); [|done]. apply list_elem_of_In, List.filter_In. split; [by apply list_elem_of_In|done].
Qed.
