(* ===== verification/Availability.v ===== *)
(** * External dependency checks (pkg/availabilitychecks)

    One goroutine per target asks for its URL, up to three times.  The
    goroutines interleave as the scheduler chooses ([Schedule] events); the
    error of the check is the one written last. *)

From stdpp Require Import base gmap strings list pretty.
From Stdlib Require Import ZArith Lia.
From S2P Require Import Prelude GoTime Api Effects.

(** ** Configuration (config.go) *)

Record HTTPTargets := mkHTTPTargets { http_Timeout : Z; URLS : list string }.
Record ExtDependencyAvailabilityCheck := mkExtDependency { HTTP : HTTPTargets }.

Definition GetTimeoutDuration (e : ExtDependencyAvailabilityCheck) : Duration :=
  dur_mul (http_Timeout (HTTP e)) Second.

(** ** Retries (retry.go) *)

(** An error of the function that is retried: [stop] ends the attempts. *)
Inductive attempt_error := Stop (err : error) | Again (err : error).

(** [retry]: the first attempt, and [attempts - 1] more while it fails.  The
    jitter is drawn from the global source, which has no seed of the caller. *)
Fixpoint retry (attempts : nat) (sleep : Duration) (f : M (option attempt_error)) : M (option error) :=
  r ← f;
  match r with
  | None => mret None
  | Some (Stop err) => mret (Some err)
  | Some (Again err) =>
      match attempts with
      | S (S _ as attempts') =>
          jitter ← call (Int63n 0 sleep);
          let sleep := wrap64 (sleep + Z.quot jitter 2) in
          _ ← call (Sleep sleep);
          retry attempts' (wrap64 (2 * sleep)) f
      | _ => mret (Some err)
      end
  end.

(** ** HTTP checks (http.go) *)

Record HTTPAvailabilityChecker := mkHTTPChecker { ac_Targets : list string; ac_Timeout : Duration }.

(** [h.Timeout * time.Second]: the timeout of the HTTP client. *)
Definition clientTimeout (h : HTTPAvailabilityChecker) : Duration := dur_mul (ac_Timeout h) Second.

(** One request to a target. *)
Definition checkTarget (timeout : Duration) (url : string) : M (option attempt_error) :=
  r ← call (HttpGet timeout url);
  mret match r with
       | Err err => Some (Again (ErrText ("client request error for " +:+ url +:+ ": " +:+ error_msg err)))
       | Ok (s, _) =>
           if (500 <=? s)%Z then Some (Again (ErrText ("server error for " +:+ url +:+ ": " +:+ pretty s)))
           else if (400 <=? s)%Z then Some (Stop (ErrText ("client error for " +:+ url +:+ ": " +:+ pretty s)))
           else None
       end.

(** The body of a goroutine: the error it stores. *)
Definition goroutine (timeout : Duration) (url : string) : M (option error) :=
  retry 3 Second (checkTarget timeout url).

(** The goroutines run until all are done; each step of the scheduler lets one
    of them perform one event, or finish and store its error.  [fuel] bounds
    the number of steps. *)
Fixpoint waitAll (fuel : nat) (running : list (M (option error))) (HTTPAvailabilityError : option error)
    : M (option error) :=
  match running with
  | [] => mret HTTPAvailabilityError
  | _ =>
      match fuel with
      | O => Panic "out of fuel"
      | S fuel =>
          n ← call (Schedule (length running));
          let i := n mod length running in
          match running !! i with
          | Some (Ret None) => waitAll fuel (delete i running) HTTPAvailabilityError
          | Some (Ret (Some err)) => waitAll fuel (delete i running) (Some err)
          | Some (Panic msg) => Panic msg
          | Some (Vis e k) => x ← call e; waitAll fuel (<[i := k x]> running) HTTPAvailabilityError
          | None => Panic "index out of range"
          end
      end
  end.

(** Every goroutine takes at most eight steps: three requests, the two waits
    with their jitters, and the end. *)
Definition AvailabilityCheck (h : HTTPAvailabilityChecker) : M (option error) :=
  let gs := map (goroutine (clientTimeout h)) (ac_Targets h) in
  waitAll (8 * length gs) gs None.

(** [GetAvailabilityCheckers]: the check of each configured kind. *)
Definition GetAvailabilityCheckers (availCfg : ExtDependencyAvailabilityCheck) : list (M (option error)) :=
  if Nat.ltb 0 (length (URLS (HTTP availCfg)))
  then [AvailabilityCheck (mkHTTPChecker (URLS (HTTP availCfg)) (GetTimeoutDuration availCfg))]
  else [].

(** ** Lemmas *)

(** [p] ends within [n] events, without a panic. *)
Fixpoint ends_within {A} (n : nat) (p : M A) {struct p} : Prop :=
  match p with
  | Ret _ => True
  | Panic _ => False
  | Vis e k => match n with O => False | S n => forall x, ends_within n (k x) end
  end.

Lemma ends_within_le {A} n m (p : M A) : n <= m -> ends_within n p -> ends_within m p.
Proof.
  revert n m. induction p as [a|s|X e k IH]; intros n m Hle; cbn; [done..|].
  destruct n as [|n], m as [|m]; try done; [lia|]. intros H x. apply (IH x n); [lia|auto].
Qed.

Lemma ends_within_bind {A B} n m (p : M A) (f : A -> M B) :
  ends_within n p -> (forall a, ends_within m (f a)) -> ends_within (n + m) (p ≫= f).
Proof.
  revert n. induction p as [a|s|X e k IH]; intros n; cbn; [|done|].
  - intros _ H. eapply ends_within_le; [|apply H]. lia.
  - destruct n as [|n]; [done|]. cbn. auto.
Qed.

Lemma goroutine_ends timeout url : ends_within 7 (goroutine timeout url).
Proof.
  unfold goroutine.
  assert (ends_within 1 (checkTarget timeout url)) as Hf by (cbn; auto).
  assert (forall n s, ends_within (3 * n + 1) (retry (S n) s (checkTarget timeout url))) as H.
  { induction n as [|n IH]; intros s.
    - cbn [retry]. apply (ends_within_bind 1 0); [done|]. by intros [[e|e]|].
    - replace (3 * S n + 1) with (1 + (2 + (3 * n + 1))) by lia. cbn [retry].
      apply ends_within_bind; [done|]. intros [[e|e]|]; [done| |done].
      apply (ends_within_bind 1); [by cbn|]. intros j. apply (ends_within_bind 1); [by cbn|]. intros _. apply IH. }
  apply (H 2).
Qed.

(** The part of a trace that the goroutines perform. *)
Definition isSchedule {X} (e : Eff X) : bool := match e with Schedule _ => true | _ => false end.
Definition performed (tr : list (obs Eff)) : list (obs Eff) :=
  List.filter (fun ob => negb (isSchedule (ob_event ob))) tr.

Definition never_schedules {A} (p : M A) : Prop := all_ev (fun X e => isSchedule e = false) p.

(** How the stored error comes about: the trace interleaves complete runs of the
    goroutines, with a trace and an error each; there is no error exactly when
    no goroutine ended with one, and otherwise it is the error of one of them. *)
Definition explained (running : list (M (option error))) (err0 err : option error) (tr : list (obs Eff)) : Prop :=
  exists ends : list (list (obs Eff) * option error),
    Forall2 (fun g e => exec g e.1 (Done e.2)) running ends /\
    concat ends.*1 ≡ₚ performed tr /\ Forall (fun e => e.1 `sublist_of` tr) ends /\
    (err = None <-> err0 = None /\ Forall (fun e => e.2 = None) ends) /\
    (err = err0 \/ err ∈ ends.*2).

Lemma explained_nil err : explained [] err err [].
Proof.
  exists []. split_and!; [constructor|done|constructor|split; [by repeat constructor|by intros [? _]]|by left].
Qed.

Lemma explained_schedule running err0 err n i tr :
  explained running err0 err tr -> explained running err0 err (Obs (Schedule n) i :: tr).
Proof.
  intros (ends & Hf & Hp & Hs & Hrest). exists ends. split_and!; [done| |  |tauto..].
  - done.
  - eapply Forall_impl; [exact Hs|]. intros e He. by apply sublist_cons.
Qed.

Lemma explained_delete i running err0 err r tr :
  running !! i = Some (Ret r) ->
  explained (delete i running) (match r with Some e => Some e | None => err0 end) err tr ->
  explained running err0 err tr.
Proof.
  intros Hi (ends & Hf & Hp & Hs & Hn & Hin).
  rewrite delete_take_drop in Hf. rewrite <- (take_drop_middle running i (Ret r)) by done.
  apply Forall2_app_inv_l in Hf as (e1 & e2 & H1 & H2 & ->).
  exists (e1 ++ ([], r) :: e2). rewrite Forall_app in Hs, Hn. rewrite fmap_app, concat_app in Hp.
  rewrite fmap_app, elem_of_app in Hin. split_and!.
  - apply Forall2_app; [done|]. by constructor.
  - by rewrite fmap_app, concat_app.
  - apply Forall_app. split; [tauto|]. constructor; [apply sublist_nil_l|tauto].
  - rewrite Hn, Forall_app, Forall_cons. destruct r; cbn; [|tauto]. split; [by intros [? _]|by intros (_ & _ & ? & _)].
  - rewrite fmap_app, elem_of_app. cbn. rewrite elem_of_cons. destruct r, Hin as [->|[?|?]]; tauto.
Qed.

Lemma explained_step i running err0 err X (e : Eff X) k x tr :
  running !! i = Some (Vis e k) -> isSchedule e = false ->
  explained (<[i := k x]> running) err0 err tr -> explained running err0 err (Obs e x :: tr).
Proof.
  intros Hi He (ends & Hf & Hp & Hs & Hn & Hin). pose proof (lookup_lt_Some _ _ _ Hi) as Hlt.
  rewrite insert_take_drop in Hf by done. rewrite <- (take_drop_middle running i (Vis e k)) by done.
  apply Forall2_app_inv_l in Hf as (e1 & e2' & H1 & H2 & ->).
  inversion H2 as [|? [t r] ? e2 Hc H3]; subst. cbn in Hc.
  exists (e1 ++ (Obs e x :: t, r) :: e2). rewrite Forall_app, Forall_cons in Hs, Hn.
  rewrite fmap_app, concat_app in Hp. cbn in Hp. rewrite fmap_app, elem_of_app in Hin. cbn in Hin, Hn, Hs. split_and!.
  - apply Forall2_app; [done|]. constructor; [|done]. cbn. eauto.
  - rewrite fmap_app, concat_app. cbn. rewrite He. cbn. rewrite <- Hp. symmetry. apply Permutation_middle.
  - assert (forall l, Forall (fun e => e.1 `sublist_of` tr) l ->
      Forall (fun en : list (obs Eff) * option error => en.1 `sublist_of` (Obs e x :: tr)) l) as Hsub.
    { intros l Hl. eapply Forall_impl; [exact Hl|]. intros [? ?]. cbn. apply sublist_cons. }
    apply Forall_app. split; [apply Hsub; tauto|]. constructor; [|apply Hsub; tauto]. cbn. apply sublist_skip. tauto.
  - rewrite Hn, Forall_app, Forall_cons. cbn. tauto.
  - rewrite fmap_app, elem_of_app. cbn. exact Hin.
Qed.

(** With enough fuel the goroutines all end, whatever the scheduler does. *)
Definition budget (ns : list nat) : nat := sum_list_with S ns.

Lemma waitAll_S fuel running err :
  running <> [] ->
  waitAll (S fuel) running err =
    (n ← call (Schedule (length running));
     let i := n mod length running in
     match running !! i with
     | Some (Ret None) => waitAll fuel (delete i running) err
     | Some (Ret (Some e)) => waitAll fuel (delete i running) (Some e)
     | Some (Panic msg) => Panic msg
     | Some (Vis e k) => x ← call e; waitAll fuel (<[i := k x]> running) err
     | None => Panic "index out of range"
     end).
Proof. by destruct running. Qed.

Lemma waitAll_wp fuel running err ns :
  Forall2 (fun n p => ends_within n p) ns running -> Forall never_schedules running -> budget ns <= fuel ->
  wp (waitAll fuel running err) (fun tr o => exists err', o = Done err' /\ explained running err err' tr).
Proof.
  revert running err ns. induction fuel as [|fuel IH]; intros running err ns Hf Hq Hb.
  - destruct Hf as [|n p ns running Hp Hf]; [|unfold budget in Hb; cbn in Hb; lia].
    exists err. split; [done|apply explained_nil].
  - destruct running as [|p0 rest] eqn:Er; [exists err; split; [done|apply explained_nil]|].
    assert (running <> []) as Hne by by rewrite Er. rewrite <- Er in Hf, Hq |- *. clear Er p0 rest.
    rewrite waitAll_S by done. cbn [wp mbind prog_mbind prog_bind call]. intros n. cbn zeta.
    assert (n mod length running < length running) as Hi by (apply Nat.mod_upper_bound; by destruct running).
    set (i := n mod length running) in *. clearbody i.
    eapply (wp_mono _ (fun tr o => exists err', o = Done err' /\ explained running err err' tr)).
    2: { intros tr o (err' & -> & He). exists err'. split; [done|by apply explained_schedule]. }
    destruct (lookup_lt_is_Some_2 _ _ Hi) as [p Hp]. rewrite Hp.
    destruct (Forall2_lookup_r _ _ _ _ _ Hf Hp) as (m & Hm & Hend).
    assert (budget ns = S m + budget (delete i ns)) as Hsum.
    { unfold budget. rewrite <- (take_drop_middle ns i m) at 1 by done. rewrite delete_take_drop.
      rewrite !sum_list_with_app. cbn. lia. }
    assert (forall r, p = Ret r -> wp (waitAll fuel (delete i running) (match r with Some e => Some e | None => err end))
      (fun tr o => exists err', o = Done err' /\ explained running err err' tr)) as Hret.
    { intros r ->. eapply wp_mono; [apply (IH _ _ (delete i ns)); [by apply Forall2_delete|by apply Forall_delete|lia]|].
      intros tr o (err' & -> & He). exists err'. split; [done|]. by eapply explained_delete. }
    destruct p as [[e|]|msg|X e k]; [exact (Hret _ eq_refl)..|done|].
    destruct (proj1 (Forall_lookup _ _) Hq _ _ Hp) as [He Hk].
    destruct m as [|m]; [done|]. wp_cbn. intros x.
    eapply wp_mono; [apply (IH _ _ (<[i := m]> ns))|].
    + apply Forall2_insert; [done|]. apply Hend.
    + apply Forall_insert; [done|]. apply Hk.
    + unfold budget in *. rewrite <- (take_drop_middle ns i (S m)) in Hb by done.
      rewrite insert_take_drop by by eapply lookup_lt_Some. rewrite !sum_list_with_app in *. cbn in *. lia.
    + intros tr o (err' & -> & Hex). exists err'. split; [done|]. by eapply explained_step.
Qed.

Lemma goroutine_never_schedules timeout url : never_schedules (goroutine timeout url).
Proof.
  unfold never_schedules, goroutine.
  assert (forall n s, all_ev (fun X e => isSchedule e = false) (retry n s (checkTarget timeout url))) as H; [|apply H].
  induction n as [|n IH]; intros s; cbn [retry].
  - apply all_ev_bind; [split; [done|by intros x]|]. by intros [[e|e]|].
  - apply all_ev_bind; [split; [done|by intros x]|]. intros [[e|e]|]; [done| |done].
    destruct n; [done|]. split; [done|]. intros j. split; [done|]. intros []. apply IH.
Qed.

(** A goroutine that ends without an error has been answered below 400. *)
Lemma goroutine_answered timeout url t :
  exec (goroutine timeout url) t (Done None) ->
  exists s body, Obs (HttpGet timeout url) (Ok (s, body)) ∈ t /\ (s < 400)%Z.
Proof.
  unfold goroutine. generalize Second. generalize 3. intros n. revert t.
  assert (forall r t, exec (checkTarget timeout url) t (Done r) -> r = None ->
    exists s body, t = [Obs (HttpGet timeout url) (Ok (s, body))] /\ (s < 400)%Z) as Hone.
  { intros r t (x & t' & -> & -> & Hr) ->. injection Hr as Hr. destruct x as [[s b]|e]; [|done]. exists s, b.
    split; [done|]. destruct (Z.leb_spec 500 s); [done|]. destruct (Z.leb_spec 400 s); [done|lia]. }
  induction n as [|n IH]; intros t sl Hex; cbn [retry] in Hex;
    apply exec_bind in Hex as [(a & t1 & t2 & -> & H1 & H2)|(m & ? & _)]; try done;
    destruct a as [[e|e]|]; try (by destruct H2 as [_ ?]).
  - destruct (Hone _ _ H1 eq_refl) as (s & b & -> & Hs). exists s, b. split; [|done]. by left.
  - destruct n; [by destruct H2 as [_ ?]|]. destruct H2 as (j & t3 & -> & u & t4 & -> & H2).
    destruct (IH _ _ H2) as (s & b & Hin & Hs). exists s, b. split; [|done]. apply elem_of_app. right. by do 2 right.
  - destruct (Hone _ _ H1 eq_refl) as (s & b & -> & Hs). exists s, b. split; [|done]. by left.
Qed.

Lemma AvailabilityCheck_wp h :
  wp (AvailabilityCheck h) (fun tr o => exists err, o = Done err /\
    explained (map (goroutine (clientTimeout h)) (ac_Targets h)) None err tr).
Proof.
  unfold AvailabilityCheck. set (gs := map _ _). apply (waitAll_wp _ _ _ (replicate (length gs) 7)).
  - subst gs. rewrite length_map. induction (ac_Targets h); constructor; [apply goroutine_ends|done].
  - subst gs. apply Forall_forall. intros g Hg%list_elem_of_In%in_map_iff. destruct Hg as (url & <- & _).
    apply goroutine_never_schedules.
  - induction (length gs) as [|n IH]; unfold budget in *; cbn in *; lia.
Qed.

(** ** Properties *)

(** C32: the check of the targets returns in every interleaving of its
    goroutines: without an error exactly when no goroutine ended with one (so
    that every target has been answered below 400), and otherwise with the error
    of one of them. *)
Theorem availability_check_explained h tr o :
  exec (AvailabilityCheck h) tr o ->
  exists err, o = Done err /\ explained (map (goroutine (clientTimeout h)) (ac_Targets h)) None err tr /\
    (err = None -> forall url, url ∈ ac_Targets h ->
       exists s body, Obs (HttpGet (clientTimeout h) url) (Ok (s, body)) ∈ tr /\ (s < 400)%Z).
Proof.
  intros Hex. destruct (proj1 (wp_exec _ _) (AvailabilityCheck_wp h) _ _ Hex) as (err & -> & He).
  exists err. split_and!; [done..|]. intros -> url Hurl. destruct He as (ends & Hf & _ & Hs & [Hn _] & _).
  destruct (Hn eq_refl) as [_ Hnone]. apply list_elem_of_lookup in Hurl as [i Hi].
  destruct (Forall2_lookup_l _ _ _ i (goroutine (clientTimeout h) url) Hf) as ([t r] & He & Hg).
  { etransitivity; [apply (list_lookup_fmap (goroutine (clientTimeout h)) (ac_Targets h))|]. by rewrite Hi. }
  rewrite Forall_lookup in Hs, Hnone. specialize (Hs _ _ He). specialize (Hnone _ _ He). cbn in *. subst r.
  destruct (goroutine_answered _ _ _ Hg) as (s & b & Hin & Hlt). exists s, b. split; [|done].
  by eapply sublist_subseteq.
Qed.

(** The client of the HTTP checks never gets the configured timeout: the
    duration is multiplied by a second twice, so that every configuration that
    passes the validation gives no timeout at all (a negative one) or one of
    more than three years. *)
Theorem configured_timeout_lost cfg :
  let t := http_Timeout (HTTP cfg) in
  let d := clientTimeout (mkHTTPChecker (URLS (HTTP cfg)) (GetTimeoutDuration cfg)) in
  (0 < t <= 60)%Z -> (d < 0)%Z \/ (3 * 365 * 24 * Hour < d)%Z.
Proof.
  cbn zeta. unfold clientTimeout, GetTimeoutDuration. cbn [ac_Timeout]. generalize (http_Timeout (HTTP cfg)). intros t Ht.
  assert (Forall (fun t => (dur_mul (dur_mul t Second) Second <? 0)%Z ||
    (3 * 365 * 24 * Hour <? dur_mul (dur_mul t Second) Second)%Z = true) (seqZ 1 60)) as H.
  { apply Forall_forall. intros x Hx. assert (forallb (fun t => (dur_mul (dur_mul t Second) Second <? 0)%Z ||
    (3 * 365 * 24 * Hour <? dur_mul (dur_mul t Second) Second)%Z) (seqZ 1 60) = true) as Hb by (vm_compute; reflexivity).
    rewrite forallb_forall in Hb. apply Hb. by apply list_elem_of_In. }
  rewrite Forall_forall in H. specialize (H t). rewrite elem_of_seqZ in H.
  specialize (H ltac:(lia)). apply orb_true_iff in H. lia.
Qed.

(** *** Witnesses *)

Definition demo_checker : HTTPAvailabilityChecker := mkHTTPChecker ["https://a"; "https://b"] (15 * Second).
(** The first target answers after one failure; the scheduler alternates. *)
Definition demo_http_env X (e : Eff X) (n : nat) : X * nat :=
  match e in Eff X return X * nat with
  | Schedule _ => (n, n)
  | HttpGet _ _ => (Ok (if Nat.eqb n 0 then 503 else 200, "")%Z, S n)
  | e' => (default_resp e', n)
  end.
Lemma availability_check_explained_witness :
  (run demo_http_env (AvailabilityCheck demo_checker) 0).1.2 = Done None /\
  exists err, (run demo_http_env (AvailabilityCheck demo_checker) 0).1.2 = Done err /\
    explained (map (goroutine (clientTimeout demo_checker)) (ac_Targets demo_checker)) None err
      (run demo_http_env (AvailabilityCheck demo_checker) 0).1.1 /\
    (err = None -> forall url, url ∈ ac_Targets demo_checker ->
       exists s body, Obs (HttpGet (clientTimeout demo_checker) url) (Ok (s, body)) ∈
         (run demo_http_env (AvailabilityCheck demo_checker) 0).1.1 /\ (s < 400)%Z).
Proof.
  split; [vm_compute; reflexivity|].
  eapply availability_check_explained. exact (run_exec demo_http_env (AvailabilityCheck demo_checker) 0).
Defined.

Lemma configured_timeout_lost_witness :
  (clientTimeout (mkHTTPChecker ["https://a"] (15 * Second)) < 0)%Z \/
  (3 * 365 * 24 * Hour < clientTimeout (mkHTTPChecker ["https://a"] (15 * Second)))%Z.
Proof. apply (configured_timeout_lost (mkExtDependency (mkHTTPTargets 15 ["https://a"]))). cbn. lia. Defined.
