(* ===== verification/UpgraderConfig.v ===== *)
(** * Configuration of the cluster upgraders (pkg/upgraders/config.go) *)

From stdpp Require Import base gmap strings list.
From Stdlib Require Import ZArith Lia.
From S2P Require Import Prelude GoTime GoPath Api Effects Config Interfaces Drain Availability.

Record maintenanceConfig := mkMaintenanceConfig {
  ControlPlaneTime : Z; ControlPlaneCriticals : list string }.
Record scaleConfig := mkScaleConfig { scale_TimeOut : Z; ExtraMachinePools : list string }.
Record healthCheck := mkHealthCheck { IgnoredCriticals : list string; IgnoredNamespaces : list string }.
Record upgradeWindow := mkUpgradeWindow { window_TimeOut : Z; DelayTrigger : Z }.
Record environment := mkEnvironment { Fedramp : bool }.
Record featureGate := mkFeatureGate { Enabled : list string }.

Record upgraderConfig := mkUpgraderConfig {
  cfg_Maintenance : maintenanceConfig;
  cfg_Scale : scaleConfig;
  cfg_NodeDrain : NodeDrain;
  cfg_HealthCheck : healthCheck;
  cfg_ExtDependencyAvailabilityCheck : ExtDependencyAvailabilityCheck;
  cfg_UpgradeWindow : upgradeWindow;
  cfg_Environment : environment;
  cfg_FeatureGate : featureGate;
}.

Definition IsFeatureEnabled (cfg : upgraderConfig) (feature : string) : bool :=
  if Nat.ltb 0 (length (Enabled (cfg_FeatureGate cfg)))
  then existsb (fun f => String.eqb f feature) (Enabled (cfg_FeatureGate cfg)) else false.
Definition IsFedramp (cfg : environment) : bool := Fedramp cfg.

Definition maintenanceConfig_IsValid (cfg : maintenanceConfig) : option error :=
  if (ControlPlaneTime cfg <=? 0)%Z
  then Some (ErrText "config maintenance controlPlaneTime out is invalid") else None.

(** The first pattern that is not well formed. *)
Fixpoint invalidPattern (patterns : list string) : option error :=
  match patterns with
  | [] => None
  | pattern :: rest =>
      match path_Match pattern "" with
      | Err err => Some (ErrText ("config scale extraMachinePools contains invalid pattern " +:+
                           quoted pattern +:+ ": " +:+ error_msg err))
      | Ok _ => invalidPattern rest
      end
  end.
Definition scaleConfig_IsValid (cfg : scaleConfig) : option error :=
  if (scale_TimeOut cfg <=? 0)%Z then Some (ErrText "config scale timeOut is invalid")
  else invalidPattern (ExtraMachinePools cfg).

Definition GetControlPlaneDuration (cfg : maintenanceConfig) : Duration := dur_mul (ControlPlaneTime cfg) Minute.
Definition GetUpgradeWindowTimeOutDuration (cfg : upgradeWindow) : Duration := dur_mul (window_TimeOut cfg) Minute.
Definition GetUpgradeDelayedTriggerDuration (cfg : upgradeWindow) : Duration := dur_mul (DelayTrigger cfg) Minute.
Definition GetScaleDuration (cfg : upgraderConfig) : Duration := dur_mul (scale_TimeOut (cfg_Scale cfg)) Minute.

#[export] Instance upgraderConfig_IsValid : ConfigValidator upgraderConfig := fun cfg =>
  match maintenanceConfig_IsValid (cfg_Maintenance cfg) with
  | Some err => Some err
  | None =>
      match scaleConfig_IsValid (cfg_Scale cfg) with
      | Some err => Some err
      | None =>
          let http := HTTP (cfg_ExtDependencyAvailabilityCheck cfg) in
          if (Timeout (cfg_NodeDrain cfg) <=? 0)%Z then Some (ErrText "config nodeDrain timeOut is invalid")
          else if (ExpectedNodeDrainTime (cfg_NodeDrain cfg) <=? 0)%Z
          then Some (ErrText "config nodeDrain expectedNodeDrainTime is invalid")
          else if (DelayTrigger (cfg_UpgradeWindow cfg) <? 0)%Z
          then Some (ErrText "config upgrade window delay trigger is invalid")
          else if (window_TimeOut (cfg_UpgradeWindow cfg) <? 0)%Z
          then Some (ErrText "config upgrade window time out is invalid")
          else if (Nat.ltb 0 (length (URLS http)) && (http_Timeout http <=? 0)%Z) || (60 <? http_Timeout http)%Z
          then Some (ErrText "config HTTP timeout is invalid (Requires int between 1 - 60 inclusive)")
          else None
      end
  end.

(** ** Lemmas *)

Lemma invalidPattern_None patterns :
  invalidPattern patterns = None <-> Forall (fun p => is_ok (path_Match p "") = true) patterns.
Proof.
  induction patterns as [|p rest IH]; cbn; [by split|]. rewrite Forall_cons.
  destruct (path_Match p ""); cbn; [|split; [done|by intros [? _]]]. rewrite IH. tauto.
Qed.

(** What a valid configuration guarantees. *)
Record valid_config (cfg : upgraderConfig) : Prop := {
  valid_ControlPlaneTime : (0 < ControlPlaneTime (cfg_Maintenance cfg))%Z;
  valid_scale_TimeOut : (0 < scale_TimeOut (cfg_Scale cfg))%Z;
  valid_patterns : Forall (fun p => is_ok (path_Match p "") = true) (ExtraMachinePools (cfg_Scale cfg));
  valid_Timeout : (0 < Timeout (cfg_NodeDrain cfg))%Z;
  valid_ExpectedNodeDrainTime : (0 < ExpectedNodeDrainTime (cfg_NodeDrain cfg))%Z;
  valid_DelayTrigger : (0 <= DelayTrigger (cfg_UpgradeWindow cfg))%Z;
  valid_window_TimeOut : (0 <= window_TimeOut (cfg_UpgradeWindow cfg))%Z;
  valid_http_Timeout : let http := HTTP (cfg_ExtDependencyAvailabilityCheck cfg) in
    (URLS http <> [] -> 0 < http_Timeout http)%Z /\ (http_Timeout http <= 60)%Z;
}.

Lemma IsValid_spec cfg : IsValid cfg = None <-> valid_config cfg.
Proof.
  unfold IsValid, upgraderConfig_IsValid, maintenanceConfig_IsValid, scaleConfig_IsValid. cbn zeta.
  set (urls := URLS _). assert (Nat.ltb 0 (length urls) = false <-> urls = []) as Hu.
  { destruct urls; cbn; split; try done. }
  repeat match goal with |- context [if (?a <=? ?b)%Z then _ else _] => destruct (Z.leb_spec a b)
    | |- context [if (?a <? ?b)%Z then _ else _] => destruct (Z.ltb_spec a b) end.
  all: try (split; [done|by intros []; lia]).
  all: destruct (invalidPattern (ExtraMachinePools (cfg_Scale cfg))) eqn:E;
    try (split; [done|]; intros []; by rewrite (proj2 (invalidPattern_None _) valid_patterns0) in E).
  all: apply invalidPattern_None in E.
  all: repeat match goal with |- context [if (?a <=? ?b)%Z then _ else _] => destruct (Z.leb_spec a b)
    | |- context [if (?a <? ?b)%Z then _ else _] => destruct (Z.ltb_spec a b) end.
  all: try (split; [done|by intros []; lia]).
  all: set (t := http_Timeout _) in *.
  all: destruct (Nat.ltb 0 (length urls)) eqn:Eu, (Z.leb_spec t 0), (Z.ltb_spec 60 t); cbn [andb orb].
  all: try (split; [done|]; intros []; fold t urls in *; cbn zeta in *; subst urls t;
    assert (URLS (HTTP (cfg_ExtDependencyAvailabilityCheck cfg)) <> []) by (intros Hn; by rewrite (proj2 Hu Hn) in Eu);
    intuition lia).
  all: try (split; [done|]; intros []; cbn zeta in *; subst urls t; intuition lia).
  all: split; [|done]; intros _; split; try done; cbn zeta; subst t urls; split; try lia;
    intros Hne; try lia; by destruct Hne; apply Hu.
Qed.
