(* ===== verification/HealthChecks.v ===== *)
(** * Cluster health checks (pkg/upgraders/healthcheck_*.go, healthcheckstep.go)

    The checks that an upgrade makes before it starts and after it has ended:
    firing critical alerts, degraded operators, cordoned and tainted nodes, pod
    disruption budgets.  Each reports its outcome as a gauge. *)

From stdpp Require Import base gmap strings list.
From Stdlib Require Import ZArith Lia Ascii.
From S2P Require Import Prelude GoSort GoTime Api Effects Config Interfaces ClusterVersion Metrics.
From S2P Require Import SpecProvider UpgradeConfigManager Notifier EventManager Machinery Drain Scaler.
From S2P Require Import Availability UpgraderConfig.

(** The phase of the desired version's history: nil is dereferenced. *)
Definition upgradeState (ug : UpgradeConfig) : M string :=
  history ← deref (GetHistory (History ug) (ucVersionOf ug));
  mret (phase_string (Phase history)).

(** ** Critical alerts (healthcheck_alerts.go) *)

(** [,label!=a,label!=b] for the ignored values, each quoted. *)
Definition ignoreQuery (label : string) (ignored : list string) : string :=
  if Nat.ltb 0 (length ignored)
  then "," +:+ label +:+ "!=" +:+ dq +:+ Join ignored (dq +:+ "," +:+ label +:+ "!=" +:+ dq) +:+ dq
  else "".

Definition healthCheckQuery (hc : healthCheck) : string :=
  "ALERTS{alertstate=" +:+ quoted "firing" +:+ ",severity=" +:+ quoted "critical" +:+
  ",namespace=~" +:+ quoted "^openshift.*|^kube-.*|^default$" +:+
  ignoreQuery "namespace" (IgnoredNamespaces hc) +:+ ignoreQuery "alertname" (IgnoredCriticals hc) +:+ "}".

(** The names of the alerts, each once, in the order of the answer. *)
Fixpoint uniqueAlerts (results : list (gmap string string)) (seen : list string) : list string :=
  match results with
  | [] => seen
  | r :: rest =>
      let a := default "" (r !! "alertname") in
      uniqueAlerts rest (if existsb (String.eqb a) seen then seen else seen ++ [a])
  end.

Definition CriticalAlerts (cfg : upgraderConfig) (ug : UpgradeConfig) (version : string) : M (result bool) :=
  state ← upgradeState ug;
  r ← Query (healthCheckQuery (cfg_HealthCheck cfg));
  match r with
  | Err err =>
      _ ← UpdateMetricHealthcheckFailed (uc_Name ug) MetricsQueryFailed version state;
      mret (Err (ErrText ("unable to query critical alerts: " +:+ error_msg err)))
  | Ok alerts =>
      if Nat.ltb 0 (length alerts) then
        _ ← UpdateMetricHealthcheckFailed (uc_Name ug) CriticalAlertsFiring version state;
        mret (Err (ErrText ("critical alert(s) firing: " +:+ Join (uniqueAlerts alerts []) ", ")))
      else
        _ ← UpdateMetricHealthcheckSucceeded (uc_Name ug) MetricsQueryFailed version state;
        _ ← UpdateMetricHealthcheckSucceeded (uc_Name ug) CriticalAlertsFiring version state;
        mret (Ok true)
  end.

(** ** Cluster operators (healthcheck_clusteroperators.go) *)

Definition ClusterOperators (ug : UpgradeConfig) (version : string) : M (result bool) :=
  state ← upgradeState ug;
  r ← HasDegradedOperators;
  match r with
  | Err err =>
      _ ← UpdateMetricHealthcheckFailed (uc_Name ug) ClusterOperatorsStatusFailed version state;
      mret (Err err)
  | Ok degraded =>
      if Nat.ltb 0 (length degraded) then
        _ ← UpdateMetricHealthcheckFailed (uc_Name ug) ClusterOperatorsDegraded version state;
        mret (Err (ErrText ("degraded operators: " +:+ Join degraded ", ")))
      else
        _ ← UpdateMetricHealthcheckSucceeded (uc_Name ug) ClusterOperatorsStatusFailed version state;
        _ ← UpdateMetricHealthcheckSucceeded (uc_Name ug) ClusterOperatorsDegraded version state;
        mret (Ok true)
  end.

(** ** Nodes (healthcheck_nodes.go): the failing nodes and the error *)

Definition manuallyCordoned (node : Node) : bool :=
  IsCordoned (IsNodeCordoned node) && negb (IsNodeUpgrading node).

Definition ManuallyCordonedNodes (ug : UpgradeConfig) (version : string) : M (list string * option error) :=
  state ← upgradeState ug;
  r ← call (ListNodes "node-role.kubernetes.io/worker, !node-role.kubernetes.io/infra");
  match r with
  | Err err =>
      _ ← UpdateMetricHealthcheckFailed (uc_Name ug) ClusterNodeQueryFailed version state;
      mret ([], Some err)
  | Ok nodes =>
      let names := map node_Name (List.filter manuallyCordoned nodes) in
      if existsb manuallyCordoned nodes then
        _ ← UpdateMetricHealthcheckFailed (uc_Name ug) ClusterNodesManuallyCordoned version state;
        mret (names, Some (ErrText ("cordoned nodes: " +:+ Join names ", ")))
      else
        _ ← UpdateMetricHealthcheckSucceeded (uc_Name ug) ClusterNodeQueryFailed version state;
        _ ← UpdateMetricHealthcheckSucceeded (uc_Name ug) ClusterNodesManuallyCordoned version state;
        mret ([], None)
  end.

(** A node is listed once for each of its pressures. *)
Definition NodeUnschedulableTaints (ug : UpgradeConfig) (version : string) : M (list string * option error) :=
  state ← upgradeState ug;
  r ← call (ListNodes "");
  match r with
  | Err err =>
      _ ← UpdateMetricHealthcheckFailed (uc_Name ug) ClusterNodeQueryFailed version state;
      mret ([], Some err)
  | Ok nodes =>
      let namesOf p := map node_Name (List.filter p nodes) in
      let unschedulableNodes := namesOf HasMemoryPressure ++ namesOf HasDiskPressure ++ namesOf HasPidPressure in
      if existsb (fun n => HasMemoryPressure n || HasDiskPressure n || HasPidPressure n) nodes then
        _ ← UpdateMetricHealthcheckFailed (uc_Name ug) ClusterNodesTaintedUnschedulable version state;
        mret (unschedulableNodes, Some (ErrText ("unschedulable taints on nodes: " +:+ Join unschedulableNodes ", ")))
      else
        _ ← UpdateMetricHealthcheckSucceeded (uc_Name ug) ClusterNodeQueryFailed version state;
        _ ← UpdateMetricHealthcheckSucceeded (uc_Name ug) ClusterNodesTaintedUnschedulable version state;
        mret ([], None)
  end.

(** ** Pod disruption budgets (healthcheck_pdb.go) *)

Record PDBDetails := mkPDBDetails { details_Name : string; details_Namespace : string }.

Definition namespaceException : list string :=
  ["openshift-logging"; "openshift-redhat-marketplace"; "openshift-operators"; "openshift-customer-monitoring";
   "openshift-cnv"; "openshift-route-monitoring-operator"; "openshift-user-workload-monitoring";
   "openshift-pipelines"].

Definition checkNamespaceExistsInArray (namespaceException : list string) (s : string) : bool :=
  existsb (fun namespace => String.eqb namespace s) namespaceException.

(** [None] when the field is acceptable. *)
Definition validateMaxUnavailable (p : PodDisruptionBudget) : option error :=
  match MaxUnavailable p with
  | Some (IntVal n) =>
      if (n =? 0)%Z then Some (ErrText "found a PodDisruptionBudget with MaxUnavailable set to 0") else None
  | Some (StrVal s) =>
      if String.eqb s "0%" then Some (ErrText "found a PodDisruptionBudget with MaxUnavailable set to 0%") else None
  | None => None
  end.
Definition validateMinAvailable (p : PodDisruptionBudget) : option error :=
  match MinAvailable p with
  | Some (StrVal s) =>
      if String.eqb s "100%" then Some (ErrText "found a PodDisruptionBudget with MinUnavailable set to 100%") else None
  | _ => None
  end.

(** Is the budget of this namespace looked at? *)
Definition pdbChecked (namespace : string) : bool :=
  negb (HasPrefix namespace "openshift-*") || checkNamespaceExistsInArray namespaceException namespace.

(** The first bad budget ends the check. *)
Fixpoint checkBudgets (pdbs : list PodDisruptionBudget) : list PDBDetails * option error :=
  match pdbs with
  | [] => ([], None)
  | pdb :: rest =>
      if pdbChecked (pdb_Namespace pdb) then
        match validateMaxUnavailable pdb with
        | Some err => ([mkPDBDetails (pdb_Name pdb) (pdb_Namespace pdb)], Some err)
        | None =>
            match validateMinAvailable pdb with
            | Some err => ([mkPDBDetails (pdb_Name pdb) (pdb_Namespace pdb)], Some err)
            | None => checkBudgets rest
            end
        end
      else checkBudgets rest
  end.

(** The details, and the reason with the error. *)
Definition checkPodDisruptionBudgets : M (list PDBDetails * option (string * error)) :=
  r ← call ListPDBs;
  mret match r with
       | Err err => ([], Some (PDBQueryFailed, err))
       | Ok pdbList =>
           let '(details, err) := checkBudgets pdbList in
           (details, option_map (pair ClusterInvalidPDBConf) err)
       end.

(** [string(b)] of a byte: the code point in UTF-8. *)
Definition byteString (b : ascii) : string :=
  let n := nat_of_ascii b in
  if Nat.ltb n 128 then String b ""
  else String (ascii_of_nat (192 + n / 64)) (String (ascii_of_nat (128 + n mod 64)) "").

Definition badMetric (metric : string) : bool :=
  Contains metric "deployment_validation_operator_pdb_min_available" ||
  Contains metric "deployment_validation_operator_pdb_max_available".

(** The loop ranges over the bytes of the answer. *)
Fixpoint badPDBExists (dvoMetricsResult : string) : bool :=
  match dvoMetricsResult with
  | EmptyString => false
  | String b rest => badMetric (byteString b) || badPDBExists rest
  end.

(** [dvo] is whether the upgrader has a DVO builder: calling a nil one panics. *)
Definition checkDvoMetrics (dvo : bool) : M (option (string * error)) :=
  if negb dvo then Panic "nil pointer dereference"
  else
    r ← call DvoNew;
    match r with
    | Err err => mret (Some (DvoClientCreationFailed, err))
    | Ok _ =>
        r ← call DvoGetMetrics;
        mret match r with
             | Err err => Some (DvoMetricsQueryFailed, err)
             | Ok dvoMetricsResult =>
                 if badPDBExists dvoMetricsResult
                 then Some (ClusterInvalidPDB, ErrText "found a PodDisruptionBudget with incorrect configurations")
                 else None
             end
    end.

Definition HealthCheckPDB (dvo : bool) (ug : UpgradeConfig) (version : string)
    : M (list PDBDetails * result bool) :=
  state ← upgradeState ug;
  r ← checkPodDisruptionBudgets;
  let '(pdbDetails, failed) := (r : list PDBDetails * option (string * error)) in
  match failed with
  | Some (reason, err) =>
      _ ← UpdateMetricHealthcheckFailed (uc_Name ug) reason version state;
      mret (pdbDetails, Err err)
  | None =>
      failed ← checkDvoMetrics dvo;
      match failed with
      | Some (reason, err) =>
          _ ← UpdateMetricHealthcheckFailed (uc_Name ug) reason version state;
          mret (pdbDetails, Err err)
      | None =>
          _ ← UpdateMetricHealthcheckSucceeded (uc_Name ug) ClusterInvalidPDB version state;
          mret (pdbDetails, Ok true)
      end
  end.

(** [json.Marshal] of the details: Kubernetes names need no escaping. *)
Definition marshalDetails (ds : list PDBDetails) : string :=
  "[" +:+ Join (map (fun d => "{" +:+ quoted "Name" +:+ ":" +:+ quoted (details_Name d) +:+ "," +:+
                     quoted "Namespace" +:+ ":" +:+ quoted (details_Namespace d) +:+ "}") ds) "," +:+ "]".

(** ** The steps (healthcheckstep.go) *)

(** Errors only give an unknown version. *)
Definition upgraders_getCurrentVersion : M string :=
  r ← GetClusterVersion;
  match r with
  | Err _ => mret "unknown"
  | Ok clusterVersion =>
      r ← GetCurrentVersion clusterVersion;
      mret match r with Err _ => "unknown" | Ok version => version end
  end.

Section HealthChecks.
Context {em : EventManager} (cfg : upgraderConfig) (dvo : bool).

Definition criticalFailed : string := "CriticalAlertsHealthcheckFailed".
Definition operatorsFailed : string := "ClusterOperatorsHealthcheckFailed".

(** A check that is passed contributes nothing to the failures. *)
Definition failureOf (name : string) (r : result bool) : list string :=
  match r with Ok true => [] | _ => [name] end.
Definition nodesFailureOf (name : string) (r : list string * option error) : list string :=
  match r with
  | ([], None) => []
  | (nodes, _) => [name +:+ ":(" +:+ Join nodes "," +:+ ")"]
  end.

Definition capacityFailures (uc : UpgradeConfig) (version state : string) : M (list string) :=
  if CapacityReservation (Spec uc) then
    r ← CanScale;
    match r with
    | Ok true =>
        _ ← UpdateMetricHealthcheckSucceeded (uc_Name uc) DefaultWorkerMachinepoolNotFound version state;
        mret []
    | _ =>
        _ ← UpdateMetricHealthcheckFailed (uc_Name uc) DefaultWorkerMachinepoolNotFound version state;
        mret ["CapacityReservationHealthcheckFailed"]
    end
  else mret [].

(** All the checks of the feature gate: the names of those that failed. *)
Definition allHealthChecks (uc : UpgradeConfig) (version : string) : M (list string) :=
  state ← upgradeState uc;
  alerts ← CriticalAlerts cfg uc version;
  operators ← ClusterOperators uc version;
  capacity ← capacityFailures uc version state;
  cordoned ← ManuallyCordonedNodes uc version;
  tainted ← NodeUnschedulableTaints uc version;
  pdb ← HealthCheckPDB dvo uc version;
  let '(pdbDetails, pdbResult) := (pdb : list PDBDetails * result bool) in
  mret (failureOf criticalFailed alerts ++ failureOf operatorsFailed operators ++ capacity ++
        nodesFailureOf "NodeUnschedulableHealthcheckFailed" cordoned ++
        nodesFailureOf "NodeUnschedulableTaintHealthcheckFailed" tainted ++
        failureOf ("PDBHealthcheckFailed: " +:+ marshalDetails pdbDetails) pdbResult).

Definition isBlocking (failure : string) : bool :=
  String.eqb failure criticalFailed || String.eqb failure operatorsFailed.

(** The reaction to failures, by the phase of the upgrade. *)
Definition reportFailures (uc : UpgradeConfig) (healthCheckFailed : list string) : M (result bool) :=
  let result := Join healthCheckFailed "," in
  history ← deref (GetHistory (History uc) (ucVersionOf uc));
  match Phase history with
  | UpgradePhaseNew =>
      e ← em_NotifyResult _ MuoStatePreHealthCheckSL result;
      mret match e with Some err => Err err | None => Ok false end
  | UpgradePhaseUpgrading =>
      e ← em_NotifyResult _ MuoStateHealthCheckSL result;
      mret match e with
           | Some err => Err err
           | None => Ok (negb (existsb isBlocking healthCheckFailed))
           end
  | _ => mret (Ok false)
  end.

Definition PreUpgradeHealthCheck (uc : UpgradeConfig) : M (result bool) :=
  upgradeCommenced ←? HasUpgradeCommenced uc;
  if (upgradeCommenced : bool) then mret (Ok true)
  else
    version ← upgraders_getCurrentVersion;
    legacy ← (if negb (IsFeatureEnabled cfg PreHealthCheckFeatureGate) then
                ok ←? CriticalAlerts cfg uc version;
                if negb ok then mret (Ok false) else ClusterOperators uc version
              else mret (Ok true) : M (result bool));
    match legacy with
    | Ok true =>
        if IsFeatureEnabled cfg PreHealthCheckFeatureGate then
          healthCheckFailed ← allHealthChecks uc version;
          if Nat.ltb 0 (length healthCheckFailed) then reportFailures uc healthCheckFailed
          else mret (Ok true)
        else mret (Ok true)
    | r => mret r
    end.

Definition PostUpgradeHealthCheck (uc : UpgradeConfig) : M (result bool) :=
  version ← upgraders_getCurrentVersion;
  ok ←? CriticalAlerts cfg uc version;
  if negb ok then mret (Ok false)
  else
    ok ←? ClusterOperators uc version;
    if negb ok then mret (Ok false)
    else
      _ ← ResetAllMetricNodeDrainFailed;
      mret (Ok true).

End HealthChecks.

(** ** Lemmas *)

(** No critical alert is firing, by the answer to the query. *)
Definition alertsClear (cfg : upgraderConfig) (tr : list (obs Eff)) : Prop :=
  Obs (PromQuery (healthCheckQuery (cfg_HealthCheck cfg))) (Ok []) ∈ tr.
(** No operator is degraded, by the listing. *)
Definition operatorsClear (tr : list (obs Eff)) : Prop :=
  exists items, Obs ListClusterOperators (Ok items) ∈ tr /\ degradedOperators items = [].

Lemma upgradeState_wp uc :
  wp (upgradeState uc) (fun tr o => tr = [] /\ forall s, o = Done s ->
    exists h, GetHistory (History uc) (ucVersionOf uc) = Some h /\ s = phase_string (Phase h)).
Proof.
  unfold upgradeState. destruct (GetHistory _ _) as [h|] eqn:E; wp_cbn; (split; [done|]); [|done].
  intros s [= <-]. eauto.
Qed.

Lemma CriticalAlerts_wp cfg uc v :
  wp (CriticalAlerts cfg uc v) (fun tr o => forall b, o = Done (Ok b) -> b = true /\ alertsClear cfg tr).
Proof.
  unfold CriticalAlerts, Query, UpdateMetricHealthcheckFailed, UpdateMetricHealthcheckSucceeded, setGauge.
  apply wp_bind. eapply wp_mono; [apply upgradeState_wp|]. intros t [state|m] [-> _]; [|done].
  wp_cbn. intros [[|a alerts]|e]; cbn [length Nat.ltb Nat.leb]; wp_cbn; intros ?; [|done..].
  intros ? b [= <-]. split; [done|]. by left.
Qed.

Lemma ClusterOperators_wp uc v :
  wp (ClusterOperators uc v) (fun tr o => forall b, o = Done (Ok b) -> b = true /\ operatorsClear tr).
Proof.
  unfold ClusterOperators, HasDegradedOperators, UpdateMetricHealthcheckFailed, UpdateMetricHealthcheckSucceeded, setGauge.
  apply wp_bind. eapply wp_mono; [apply upgradeState_wp|]. intros t [state|m] [-> _]; [|done].
  wp_cbn. intros [items|e]; wp_cbn; [|intros ?; done].
  destruct (degradedOperators items) as [|d ds] eqn:E; cbn [length Nat.ltb Nat.leb]; wp_cbn; intros ?; [|done].
  intros ? b [= <-]. split; [done|]. exists items. split; [by left|done].
Qed.

Lemma alertsClear_mono cfg tr tr' : tr ⊆ tr' -> alertsClear cfg tr -> alertsClear cfg tr'.
Proof. intros H. apply H. Qed.
Lemma operatorsClear_mono tr tr' : tr ⊆ tr' -> operatorsClear tr -> operatorsClear tr'.
Proof. intros H (items & ? & ?). exists items. split; [by apply H|done]. Qed.

(** The failures of all the checks: the blocking ones tell whether the first two
    checks passed. *)
Lemma allHealthChecks_wp cfg dvo uc v :
  wp (allHealthChecks cfg dvo uc v) (fun tr o => forall fs, o = Done fs -> existsb isBlocking fs = false ->
    alertsClear cfg tr /\ operatorsClear tr).
Proof.
  unfold allHealthChecks. apply wp_bind. eapply wp_mono; [apply upgradeState_wp|].
  intros t0 [state|m] [-> _]; [|done].
  apply wp_bind. eapply wp_mono; [apply CriticalAlerts_wp|]. intros t1 [alerts|m] H1; [|done].
  apply wp_bind. eapply wp_mono; [apply ClusterOperators_wp|]. intros t2 [operators|m] H2; [|done].
  do 4 (apply wp_bind, wp_exec; intros ? [?|?] _; [|done]).
  match goal with p : list PDBDetails * result bool |- _ => destruct p as [ds r] end.
  wp_cbn. intros fs [= <-]. rewrite !existsb_app, !orb_false_iff.
  intros (Ha & Ho & _). split.
  - destruct alerts as [b|e]; [|done]. destruct (H1 b eq_refl) as [-> Hc].
    eapply alertsClear_mono; [|exact Hc]. apply app_sub_l.
  - destruct operators as [b|e]; [|done]. destruct (H2 b eq_refl) as [-> Hc].
    eapply operatorsClear_mono; [|exact Hc]. intros x Hx. apply app_sub_r, app_sub_l, Hx.
Qed.

Lemma reportFailures_wp {em : EventManager} uc fs :
  wp (reportFailures uc fs) (fun tr o => o = Done (Ok true) ->
    existsb isBlocking fs = false /\
    exists h, GetHistory (History uc) (ucVersionOf uc) = Some h /\ Phase h = UpgradePhaseUpgrading).
Proof.
  unfold reportFailures. destruct (GetHistory _ _) as [h|] eqn:E; wp_cbn; [|done].
  destruct (Phase h) eqn:Ep; wp_cbn; try done.
  - apply wp_bind, wp_exec. intros t [[e|]|m] _; done.
  - apply wp_bind, wp_exec. intros t [[e|]|m] _; [done| |done]. intros [= H].
    split; [by destruct (existsb _ fs)|]. by exists h.
Qed.

(** What a passed pre-upgrade check means. *)
Definition preCheckPassed (cfg : upgraderConfig) (dvo : bool) (uc : UpgradeConfig) (tr : list (obs Eff)) : Prop :=
  (exists t, exec (HasUpgradeCommenced uc) t (Done (Ok true)) /\ t ⊆ tr) \/
  (alertsClear cfg tr /\ operatorsClear tr /\
   (IsFeatureEnabled cfg PreHealthCheckFeatureGate = true ->
    (exists h, GetHistory (History uc) (ucVersionOf uc) = Some h /\ Phase h = UpgradePhaseUpgrading) \/
    exists version t, exec (allHealthChecks cfg dvo uc version) t (Done []) /\ t ⊆ tr)).

Lemma legacyChecks_wp cfg uc v :
  wp (ok ←? CriticalAlerts cfg uc v; if negb ok then mret (Ok false) else ClusterOperators uc v)
    (fun tr o => forall b, o = Done (Ok b) -> b = true /\ alertsClear cfg tr /\ operatorsClear tr).
Proof.
  apply wp_bindr. eapply wp_mono; [apply CriticalAlerts_wp|]. intros t [[b|e]|m] H; [|done..].
  destruct (H b eq_refl) as [-> Hc]. cbn [negb]. eapply wp_mono; [apply ClusterOperators_wp|].
  intros t2 o H2 b Hb. destruct (H2 b Hb) as [-> Ho]. split_and!; [done| |].
  - eapply alertsClear_mono; [|exact Hc]. apply app_sub_l.
  - eapply operatorsClear_mono; [|exact Ho]. apply app_sub_r.
Qed.

Lemma PreUpgradeHealthCheck_wp {em : EventManager} cfg dvo uc :
  wp (PreUpgradeHealthCheck cfg dvo uc) (fun tr o => o = Done (Ok true) -> preCheckPassed cfg dvo uc tr).
Proof.
  unfold PreUpgradeHealthCheck. apply wp_bindr, wp_exec. intros t0 [[b|e]|m] H0; [|done..]. destruct b.
  { intros _. left. exists t0. split; [done|]. apply app_sub_l. }
  apply wp_bind, wp_exec. intros t1 [v|m] _; [|done]. apply wp_bind.
  destruct (IsFeatureEnabled cfg PreHealthCheckFeatureGate) eqn:Hg; cbn [negb].
  - wp_cbn. apply wp_bind, wp_exec. intros t2 [fs|m] H2; [|done].
    pose proof (proj1 (wp_exec _ _) (allHealthChecks_wp cfg dvo uc v) _ _ H2 fs eq_refl) as Hc.
    assert (forall t3, existsb isBlocking fs = false ->
      alertsClear cfg (t0 ++ t1 ++ t2 ++ t3) /\ operatorsClear (t0 ++ t1 ++ t2 ++ t3)) as Hclear.
    { intros t3 Hb. destruct (Hc Hb) as [Ha Ho].
      split; [eapply alertsClear_mono; [|exact Ha]|eapply operatorsClear_mono; [|exact Ho]];
        intros x Hx; by apply app_sub_r, app_sub_r, app_sub_l. }
    destruct fs as [|f fs]; cbn [length Nat.ltb Nat.leb].
    + wp_cbn. intros _. destruct (Hclear [] eq_refl) as [Ha Ho]. right. split_and!; [done..|].
      intros _. right. exists v, t2. split; [done|]. intros x Hx. by apply app_sub_r, app_sub_r, app_sub_l.
    + eapply wp_mono; [apply reportFailures_wp|]. intros t3 o H3 Ho. destruct (H3 Ho) as [Hb Hh].
      destruct (Hclear t3 Hb) as [? ?]. right. split_and!; [done..|]. intros _. by left.
  - eapply wp_mono; [apply legacyChecks_wp|]. intros t2 [[b|e]|m] H2; [|done..].
    destruct (H2 b eq_refl) as (-> & Ha & Ho). wp_cbn. intros _. right. rewrite app_nil_r.
    split_and!; [| |by rewrite Hg].
    + eapply alertsClear_mono; [|exact Ha]. intros x Hx. by apply app_sub_r, app_sub_r.
    + eapply operatorsClear_mono; [|exact Ho]. intros x Hx. by apply app_sub_r, app_sub_r.
Qed.

(** *** Budgets *)

Definition budgetOk (p : PodDisruptionBudget) : Prop :=
  validateMaxUnavailable p = None /\ validateMinAvailable p = None.

Lemma checkBudgets_spec pdbs :
  (checkBudgets pdbs).2 = None <-> Forall (fun p => pdbChecked (pdb_Namespace p) = true -> budgetOk p) pdbs.
Proof.
  unfold budgetOk. induction pdbs as [|p rest IH]; cbn; [by split|]. rewrite Forall_cons.
  destruct (pdbChecked _); [|rewrite IH; intuition congruence].
  destruct (validateMaxUnavailable p); [cbn; intuition congruence|].
  destruct (validateMinAvailable p); [cbn; intuition congruence|]. rewrite IH. intuition congruence.
Qed.

Lemma badPDBExists_false s : badPDBExists s = false.
Proof.
  induction s as [|b s IH]; [done|]. cbn [badPDBExists]. rewrite IH, orb_false_r.
  destruct b as [[] [] [] [] [] [] [] []]; reflexivity.
Qed.

(** A name with a star. *)
Fixpoint hasStar (s : string) : bool :=
  match s with EmptyString => false | String c s' => Ascii.eqb c "*" || hasStar s' end.

Lemma hasStar_app s t : hasStar (s +:+ t) = hasStar s || hasStar t.
Proof.
  induction s as [|c s IH]; [done|]. change (Ascii.eqb c "*" || hasStar (s +:+ t) = Ascii.eqb c "*" || hasStar s || hasStar t).
  by rewrite IH, orb_assoc.
Qed.

Lemma pdbChecked_plain ns : hasStar ns = false -> pdbChecked ns = true.
Proof.
  intros H. unfold pdbChecked. destruct (HasPrefix ns "openshift-*") eqn:E; [|done].
  apply HasPrefix_spec in E as [s' ->]. by rewrite hasStar_app in H.
Qed.

(** The outcome of the budget check: the details and the result, from the answers
    to the listing and, when the budgets are fine, of the validation operator
    (whatever metrics it reports). *)
Definition budgetOutcome (tr : list (obs Eff)) (ds : list PDBDetails) (r : result bool) : Prop :=
  exists listed rest, tr = Obs ListPDBs listed :: rest /\
    match listed with
    | Err e => ds = [] /\ r = Err e
    | Ok pdbs =>
        ds = (checkBudgets pdbs).1 /\
        match (checkBudgets pdbs).2 with
        | Some e => r = Err e
        | None =>
            (r = Ok true /\ exists m g, rest = [Obs DvoNew (Ok tt); Obs DvoGetMetrics (Ok m); g]) \/
            exists e, r = Err e /\ (Obs DvoNew (Err e) ∈ rest \/ Obs DvoGetMetrics (Err e) ∈ rest)
        end
    end.

Lemma checkBudgets_details pdbs : (checkBudgets pdbs).2 = None -> (checkBudgets pdbs).1 = [].
Proof.
  induction pdbs as [|p rest IH]; cbn; [done|]. destruct (pdbChecked _); [|done].
  destruct (validateMaxUnavailable p); [done|]. by destruct (validateMinAvailable p).
Qed.

Lemma HealthCheckPDB_wp uc v :
  wp (HealthCheckPDB true uc v) (fun tr o => forall ds r, o = Done (ds, r) -> budgetOutcome tr ds r).
Proof.
  unfold HealthCheckPDB, checkPodDisruptionBudgets, checkDvoMetrics, UpdateMetricHealthcheckFailed,
    UpdateMetricHealthcheckSucceeded, setGauge, budgetOutcome.
  apply wp_bind. eapply wp_mono; [apply upgradeState_wp|]. intros t [state|m] [-> _]; [|done]. wp_cbn.
  intros [pdbs|e]; wp_cbn.
  2: { intros ? ds r [= <- <-]. by eexists _, _. }
  destruct (checkBudgets pdbs) as [ds0 [e|]] eqn:Eb; cbn [option_map]; wp_cbn.
  { intros ? ds r [= <- <-]. eexists _, _. split; [done|]. cbv beta iota. by rewrite Eb. }
  intros [[]|e]; wp_cbn.
  2: { intros ? ds r [= <- <-]. eexists _, _. split; [done|]. cbv beta iota. rewrite Eb. split; [done|]. right. exists e. split; [done|].
       left. by left. }
  intros [m|e]; wp_cbn.
  2: { intros ? ds r [= <- <-]. eexists _, _. split; [done|]. cbv beta iota. rewrite Eb. split; [done|]. right. exists e. split; [done|].
       right. right. by left. }
  rewrite badPDBExists_false. wp_cbn. intros ? ds r [= <- <-]. eexists _, _. split; [done|]. cbv beta iota. rewrite Eb. split; [done|].
  left. split; [done|]. by eexists _, _.
Qed.

(** ** Properties *)

(** C33: an upgrade that has not commenced passes the pre-upgrade check only when
    the query for critical alerts came back empty and no operator is degraded;
    with the feature gate and outside the Upgrading phase, only when every check
    passed. *)
Theorem pre_health_check_blocks {em : EventManager} cfg dvo uc tr :
  exec (PreUpgradeHealthCheck cfg dvo uc) tr (Done (Ok true)) -> preCheckPassed cfg dvo uc tr.
Proof. intros Hex. exact (proj1 (wp_exec _ _) (PreUpgradeHealthCheck_wp cfg dvo uc) _ _ Hex eq_refl). Qed.

(** The budget check fails on the first budget that allows no disruption, in
    every namespace whose name has no star (the exemption of the openshift
    namespaces tests for a literal star), and passes whatever metrics the
    validation operator reports (the loop ranges over single bytes). *)
Theorem budget_check_outcome uc v tr ds r :
  exec (HealthCheckPDB true uc v) tr (Done (ds, r)) ->
  budgetOutcome tr ds r /\
  (forall pdbs, Forall (fun p => hasStar (pdb_Namespace p) = false) pdbs ->
     (checkBudgets pdbs).2 = None <-> Forall budgetOk pdbs).
Proof.
  intros Hex. split; [exact (proj1 (wp_exec _ _) (HealthCheckPDB_wp uc v) _ _ Hex _ _ eq_refl)|].
  intros pdbs Hs. rewrite checkBudgets_spec, !Forall_forall. rewrite Forall_forall in Hs.
  split; intros H p Hp; [|auto]. by apply H, pdbChecked_plain, Hs.
Qed.

(** *** Witnesses *)

Definition demo_cfg : upgraderConfig :=
  mkUpgraderConfig (mkMaintenanceConfig 60 []) (mkScaleConfig 30 []) demo_drain_cfg (mkHealthCheck ["a"; "b"] [])
    (mkExtDependency (mkHTTPTargets 0 [])) (mkUpgradeWindow 120 30) (mkEnvironment false)
    (mkFeatureGate ["PreHealthCheck"]).
Definition demo_quiet_em : EventManager :=
  {| em_Notify _ := mret None; em_NotifyResult _ _ := mret None;
     em_Notify_no_panic _ := I; em_NotifyResult_no_panic _ _ := I;
     em_Notify_tells _ := I; em_NotifyResult_tells _ _ := I |}.
Definition demo_new_uc : UpgradeConfig :=
  set_History [mkHistory "4.15.1" "4.14.9" UpgradePhaseNew [] (Some 0%Z) None None None] demo_notify_uc.
Definition demo_pdb : PodDisruptionBudget := mkPDB "b" "openshift-monitoring" (Some (IntVal 1)) None None.
Definition demo_health_env X (e : Eff X) (u : unit) : X * unit :=
  match e in Eff X return X * unit with
  | GetCV => (Ok demo_cv, u)
  | PromQuery _ => (Ok [], u)
  | ListClusterOperators => (Ok [mkClusterOperator "dns" []], u)
  | ListNodes _ => (Ok [demo_ready_node], u)
  | ListPDBs => (Ok [demo_pdb], u)
  | ListMachineSets _ => (Ok [demo_set "a" "worker"], u)
  | DvoNew => (Ok tt, u)
  | DvoGetMetrics => (Ok "deployment_validation_operator_pdb_min_available{} 1", u)
  | e' => (default_resp e', u)
  end.
Definition demo_pre_check :=
  run demo_health_env (@PreUpgradeHealthCheck demo_quiet_em demo_cfg true demo_new_uc) tt.
Lemma pre_health_check_blocks_witness :
  demo_pre_check.1.2 = Done (Ok true) /\ preCheckPassed demo_cfg true demo_new_uc demo_pre_check.1.1.
Proof.
  assert (demo_pre_check.1.2 = Done (Ok true)) as H by (vm_compute; reflexivity). split; [exact H|].
  apply (@pre_health_check_blocks demo_quiet_em). rewrite <- H.
  exact (run_exec demo_health_env (@PreUpgradeHealthCheck demo_quiet_em demo_cfg true demo_new_uc) tt).
Defined.

Definition demo_pdb_check := run demo_health_env (HealthCheckPDB true demo_new_uc "4.14.9") tt.
Lemma budget_check_outcome_witness : budgetOutcome demo_pdb_check.1.1 [] (Ok true).
Proof.
  refine (proj1 (budget_check_outcome demo_new_uc "4.14.9" _ _ _ _)).
  exact (run_exec demo_health_env (HealthCheckPDB true demo_new_uc "4.14.9") tt).
Defined.

(** Without a DVO builder, as in the ARO upgrader, the check panics. *)
Lemma budget_check_without_dvo :
  (run demo_health_env (HealthCheckPDB false demo_new_uc "4.14.9") tt).1.2 = Crash "nil pointer dereference".
Proof. by vm_compute. Qed.
