(* ===== verification/Upgraders.v ===== *)
(** * The cluster upgraders (pkg/upgraders)

    The upgrade steps, their order in the OSD and the ARO upgrader, and the
    policy that an upgrade which does not commence within its window fails.
    [ClusterUpgrader] is the interface that the controller uses. *)

From stdpp Require Import base gmap strings list pretty.
From Stdlib Require Import ZArith Lia.
From S2P Require Import Prelude GoSort GoTime Api Effects Config Interfaces UpgradeSteps ClusterVersion.
From S2P Require Import Metrics SpecProvider UpgradeConfigManager Notifier EventManager Machinery Drain.
From S2P Require Import Scaler Maintenance Availability UpgraderConfig HealthChecks.

(** [if err := f(); err != nil { return false, err }]. *)
Definition okOr (p : M (option error)) : M (result unit) :=
  e ← p; mret match e with Some err => Err err | None => Ok tt end.

(** What an upgrade returns for a resource that has a history of its desired
    version: only conditions changed, and the phase is one of the runner, the
    failure, or the phase it already had. *)
Definition upgrade_result (uc uc' : UpgradeConfig) (ph : UpgradePhase) : Prop :=
  same_but_conditions uc uc' /\ (wf_histories (History uc) -> wf_histories (History uc')) /\
  (ph = UpgradePhaseUpgrading \/ ph = UpgradePhaseUpgraded \/ ph = UpgradePhaseFailed \/
   exists h, GetHistory (History uc) (ucVersionOf uc) = Some h /\ ph = Phase h).

Section Steps.
Context {regexp : Regexp} {semver : Semver} {em : EventManager}.
Context (notifier_builder : M (result Notifier)) (cfg : upgraderConfig).

(** ** Notifications (notifierstep.go) *)

Definition SendStartedNotification_step : actionFunction := fun uc =>
  upgradeCommenced ←? HasUpgradeCommenced uc;
  if (upgradeCommenced : bool) then mret (Ok true)
  else
    _ ←? okOr (em_Notify _ MuoStateStarted);
    clusterid ← GetClusterId;
    t ← now;
    _ ← UpdateMetricUpgradeStartedTimestamp clusterid (uc_Name uc) (ucVersionOf uc) t;
    mret (Ok true).

Definition SendCompletedNotification_step : actionFunction := fun uc =>
  _ ←? okOr (em_Notify _ MuoStateCompleted);
  clusterid ← GetClusterId;
  t ← now;
  _ ← UpdateMetricUpgradeCompletedTimestamp clusterid (uc_Name uc) (ucVersionOf uc) t;
  mret (Ok true).

Definition SendScaleSkippedNotification : M (option error) := em_Notify _ MuoStateScaleSkipped.

(** ** Delay (delaystep.go) *)

Definition UpgradeDelayedCheck : actionFunction := fun uc =>
  upgradeCommenced ←? HasUpgradeCommenced uc;
  if (upgradeCommenced : bool) then mret (Ok true)
  else
    match GetHistory (History uc) (ucVersionOf uc) with
    | None => mret (Ok false)
    | Some h =>
        startTime ← deref (StartTime h);
        let delayTimeoutTrigger := GetUpgradeDelayedTriggerDuration (cfg_UpgradeWindow cfg) in
        if negb (IsZero startTime) && (0 <? delayTimeoutTrigger)%Z then
          t ← now;
          if After t (TimeAdd startTime delayTimeoutTrigger) then
            _ ←? okOr (em_Notify _ MuoStateDelayed);
            mret (Ok true)
          else mret (Ok true)
        else mret (Ok true)
    end.

(** ** Upgradeable condition (upgradeable.go) *)

Definition blocksMinor (current desired : SemVersion) (condition : StatusCondition) : bool :=
  String.eqb (sc_Type condition) "Upgradeable" && bool_decide (sc_Status condition = ConditionFalse) &&
  (Major current <=? Major desired)%Z && (Minor current <? Minor desired)%Z.

Definition IsUpgradeable : actionFunction := fun uc =>
  upgradeCommenced ←? HasUpgradeCommenced uc;
  if (upgradeCommenced : bool) then mret (Ok true)
  else
    clusterVersion ←? GetClusterVersion;
    currentVersion ←? GetCurrentVersion clusterVersion;
    parsedCurrentVersion ←? mret (semver_Parse currentVersion);
    let desiredVersion := ucVersionOf uc in
    parsedDesiredVersion ←? mret (semver_Parse desiredVersion);
    match parseRFC3339 (UpgradeAt (Spec uc)) with
    | Err err => mret (Err (ErrText ("failed to parse spec.upgradeAt: " +:+ error_msg err)))
    | Ok upgradeTime =>
        match List.find (blocksMinor parsedCurrentVersion parsedDesiredVersion) (cv_Conditions clusterVersion) with
        | Some condition =>
            mret (Err (ErrText ("cluster upgrade to version " +:+ desiredVersion +:+ " on " +:+
              formatUnixDate upgradeTime +:+ " has been cancelled: " +:+ sc_Reason condition +:+ ": " +:+
              sc_Message condition)))
        | None => mret (Ok true)
        end
    end.

(** ** External dependencies (availabilitycheckstep.go) *)

Fixpoint runChecks (checks : list (M (option error))) : M (result bool) :=
  match checks with
  | [] => mret (Ok true)
  | check :: rest => _ ←? okOr check; runChecks rest
  end.

Definition ExternalDependencyAvailabilityCheck (availabilityCheckers : list (M (option error)))
    : actionFunction := fun uc =>
  upgradeCommenced ←? HasUpgradeCommenced uc;
  if (upgradeCommenced : bool) then mret (Ok true) else runChecks availabilityCheckers.

(** ** Scaling (scalerstep.go) *)

Definition configOk (e : option error) : M (result unit) :=
  mret match e with Some err => Err err | None => Ok tt end.

Definition EnsureExtraUpgradeWorkers : actionFunction := fun uc =>
  if negb (CapacityReservation (Spec uc)) then mret (Ok true)
  else
    _ ←? configOk (scaleConfig_IsValid (cfg_Scale cfg));
    upgradeCommenced ←? HasUpgradeCommenced uc;
    if (upgradeCommenced : bool) then mret (Ok true)
    else
      canScale ←? CanScale;
      if negb canScale && Nat.eqb (length (ExtraMachinePools (cfg_Scale cfg))) 0 then
        _ ← SendScaleSkippedNotification;
        mret (Ok true)
      else
        r ← EnsureScaleUpNodes (GetScaleDuration cfg) (ExtraMachinePools (cfg_Scale cfg));
        match r with
        | Err err =>
            if IsScaleTimeOutError err then
              _ ← UpdateMetricScalingFailed (uc_Name uc);
              _ ←? okOr (em_Notify _ MuoStateSkipped);
              mret (Ok true)
            else mret (Err err)
        | Ok true =>
            _ ← UpdateMetricScalingSucceeded (uc_Name uc);
            mret (Ok true)
        | Ok false => mret (Ok false)
        end.

Definition RemoveExtraScaledNodes_step : actionFunction := fun uc =>
  if negb (CapacityReservation (Spec uc)) then mret (Ok true)
  else
    _ ←? configOk (scaleConfig_IsValid (cfg_Scale cfg));
    canScale ←? CanScale;
    if negb canScale && Nat.eqb (length (ExtraMachinePools (cfg_Scale cfg))) 0 then mret (Ok true)
    else
      nds ←? NewNodeDrainStrategy notifier_builder uc (cfg_NodeDrain cfg);
      r ← EnsureScaleDownNodes (Some nds);
      match r with
      | Err err =>
          match IsDrainTimeOutError err with
          | Some nodeName =>
              _ ← UpdateMetricNodeDrainFailed nodeName;
              mret (Err err)
          | None => mret (Err err)
          end
      | Ok true => _ ← ResetAllMetricNodeDrainFailed; mret (Ok true)
      | Ok false => mret (Ok false)
      end.

(** ** Maintenance windows (maintenancestep.go) *)

Definition CreateControlPlaneMaintWindow : actionFunction := fun uc =>
  t ← now;
  let endTime := TimeAdd t (GetControlPlaneDuration (cfg_Maintenance cfg)) in
  _ ←? StartControlPlane endTime (ucVersionOf uc) (ControlPlaneCriticals (cfg_Maintenance cfg));
  mret (Ok true).

Definition RemoveControlPlaneMaintWindow_step : actionFunction := fun uc =>
  _ ←? EndControlPlane;
  mret (Ok true).

(** The length of the worker window for [pendingWorkerCount] nodes (an int32). *)
Definition workerMaintenanceDuration (uc : UpgradeConfig) (pendingWorkerCount : Z) : Duration :=
  let pdbForceDrainTimeout := dur_mul (PDBForceDrainTimeout (Spec uc)) Minute in
  let nodeDrainTimeout := GetTimeOutDuration (cfg_NodeDrain cfg) in
  let waitTimePeriod :=
    if (pdbForceDrainTimeout <? nodeDrainTimeout)%Z
    then dur_mul pendingWorkerCount nodeDrainTimeout
    else dur_mul pendingWorkerCount pdbForceDrainTimeout in
  let actionTimePeriod := dur_mul pendingWorkerCount (GetExpectedDrainDuration (cfg_NodeDrain cfg)) in
  wrap64 (waitTimePeriod + actionTimePeriod).

Definition CreateWorkerMaintWindow : actionFunction := fun uc =>
  upgradingResult ←? machinery_IsUpgrading "worker";
  if negb (IsUpgrading upgradingResult) then mret (Ok true)
  else
    let pendingWorkerCount := wrap32 (ur_MachineCount upgradingResult - UpdatedCount upgradingResult) in
    if (pendingWorkerCount <? 1)%Z then mret (Ok true)
    else
      t ← now;
      let endTime := TimeAdd t (workerMaintenanceDuration uc pendingWorkerCount) in
      _ ←? SetWorker endTime (ucVersionOf uc) pendingWorkerCount;
      mret (Ok true).

Definition RemoveMaintWindow_step : actionFunction := fun uc =>
  _ ←? EndWorker;
  mret (Ok true).

(** ** Control plane (controlplanestep.go) *)

Definition CommenceUpgrade : actionFunction := fun uc =>
  _ ← UpdateMetricUpgradeWindowNotBreached (uc_Name uc);
  upgradeCommenced ←? HasUpgradeCommenced uc;
  if (upgradeCommenced : bool) then mret (Ok true)
  else
    _ ←? okOr (em_Notify _ MuoStateControlPlaneUpgradeStartedSL);
    clusterid ← GetClusterId;
    t ← now;
    _ ← UpdateMetricControlplaneUpgradeStartedTimestamp clusterid (uc_Name uc) (ucVersionOf uc) t;
    EnsureDesiredConfig uc.

Definition controlPlaneStart (clusterVersion : ClusterVersion) (uc : UpgradeConfig) : result Time :=
  let started := match cv_GetHistory (cv_History clusterVersion) (ucVersionOf uc) with
                 | Some history => if negb (IsZero (StartedTime history)) then Some (StartedTime history) else None
                 | None => None
                 end in
  match started with
  | Some t => Ok t
  | None => parseRFC3339 (UpgradeAt (Spec uc))
  end.

Definition ControlPlaneUpgraded : actionFunction := fun uc =>
  clusterVersion ←? GetClusterVersion;
  if HasUpgradeCompleted clusterVersion uc then
    _ ←? okOr (em_Notify _ MuoStateControlPlaneUpgradeFinishedSL);
    _ ← ResetMetricUpgradeControlPlaneTimeout (uc_Name uc) (ucVersionOf uc);
    clusterid ← GetClusterId;
    t ← now;
    _ ← UpdateMetricControlplaneUpgradeCompletedTimestamp clusterid (uc_Name uc) (ucVersionOf uc) t;
    t ← now;
    _ ← UpdateMetricWorkernodeUpgradeStartedTimestamp clusterid (uc_Name uc) (ucVersionOf uc) t;
    mret (Ok true)
  else
    upgradeStartTime ←? mret (controlPlaneStart clusterVersion uc);
    let upgradeTimeout := GetControlPlaneDuration (cfg_Maintenance cfg) in
    if negb (IsZero upgradeStartTime) then
      t ← now;
      if After t (TimeAdd upgradeStartTime upgradeTimeout) then
        _ ← UpdateMetricUpgradeControlPlaneTimeout (uc_Name uc) (ucVersionOf uc);
        mret (Ok false)
      else mret (Ok false)
    else mret (Ok false).

(** ** Workers (workerstep.go) *)

Definition AllWorkersUpgraded : actionFunction := fun uc =>
  upgradingResult ←? machinery_IsUpgrading "worker";
  silenceActive ←? maintenance_IsActive;
  if IsUpgrading upgradingResult then
    _ ← (if negb silenceActive
         then UpdateMetricUpgradeWorkerTimeout (uc_Name uc) (ucVersionOf uc)
         else ResetMetricUpgradeWorkerTimeout (uc_Name uc) (ucVersionOf uc));
    mret (Ok false)
  else
    _ ←? okOr (em_Notify _ MuoStateWorkerPlaneUpgradeFinishedSL);
    clusterid ← GetClusterId;
    t ← now;
    _ ← UpdateMetricWorkernodeUpgradeCompletedTimestamp clusterid (uc_Name uc) (ucVersionOf uc) t;
    _ ← ResetMetricUpgradeWorkerTimeout (uc_Name uc) (ucVersionOf uc);
    mret (Ok true).

(** ** After the upgrade (postupgradestep.go) *)

Definition fioNamespace : string := "openshift-file-integrity".
Definition fioObject : string := "osd-fileintegrity".
Definition reinitAnnotation : list (string * string) := [("file-integrity.openshift.io/re-init", "")].

Definition postUpgradeFIOReInit : M (result unit) :=
  r ← call (GetFileIntegrity fioObject fioNamespace);
  match r with
  | Err err =>
      mret (Err (ErrText ("failed to fetch file integrity " +:+ fioObject +:+ " in " +:+ fioNamespace +:+
                          " namespace: " +:+ error_msg err)))
  | Ok _ => call (UpdateFileIntegrity fioObject fioNamespace reinitAnnotation)
  end.

Definition PostUpgradeProcedures : actionFunction := fun uc =>
  if negb (IsFedramp (cfg_Environment cfg)) then mret (Ok true)
  else
    _ ←? postUpgradeFIOReInit;
    mret (Ok true).

(** ** The steps of the upgraders (osdupgrader.go, aroupgrader.go) *)

Definition osdSteps (acs : list (M (option error))) : list actionStep :=
  [Action SendStartedNotification SendStartedNotification_step;
   Action SendStartedNotification UpgradeDelayedCheck;
   Action IsClusterUpgradable IsUpgradeable;
   Action UpgradePreHealthCheck (PreUpgradeHealthCheck cfg true);
   Action ExtDepAvailabilityCheck (ExternalDependencyAvailabilityCheck acs);
   Action UpgradeScaleUpExtraNodes EnsureExtraUpgradeWorkers;
   Action ControlPlaneMaintWindow CreateControlPlaneMaintWindow;
   Action CommenceUpgradeCondition CommenceUpgrade;
   Action ControlPlaneUpgradedCondition ControlPlaneUpgraded;
   Action RemoveControlPlaneMaintWindowCondition RemoveControlPlaneMaintWindow_step;
   Action WorkersMaintWindow CreateWorkerMaintWindow;
   Action AllWorkerNodesUpgraded AllWorkersUpgraded;
   Action RemoveExtraScaledNodesCondition RemoveExtraScaledNodes_step;
   Action RemoveMaintWindowCondition RemoveMaintWindow_step;
   Action PostClusterHealthCheck (PostUpgradeHealthCheck cfg);
   Action PostUpgradeProceduresCondition PostUpgradeProcedures;
   Action SendCompletedNotificationCondition SendCompletedNotification_step].

Definition aroSteps (acs : list (M (option error))) : list actionStep :=
  [Action SendStartedNotification SendStartedNotification_step;
   Action UpgradePreHealthCheck (PreUpgradeHealthCheck cfg false);
   Action ExtDepAvailabilityCheck (ExternalDependencyAvailabilityCheck acs);
   Action UpgradeScaleUpExtraNodes EnsureExtraUpgradeWorkers;
   Action ControlPlaneMaintWindow CreateControlPlaneMaintWindow;
   Action CommenceUpgradeCondition CommenceUpgrade;
   Action ControlPlaneUpgradedCondition ControlPlaneUpgraded;
   Action RemoveControlPlaneMaintWindowCondition RemoveControlPlaneMaintWindow_step;
   Action WorkersMaintWindow CreateWorkerMaintWindow;
   Action AllWorkerNodesUpgraded AllWorkersUpgraded;
   Action RemoveExtraScaledNodesCondition RemoveExtraScaledNodes_step;
   Action RemoveMaintWindowCondition RemoveMaintWindow_step;
   Action PostClusterHealthCheck (PostUpgradeHealthCheck cfg);
   Action SendCompletedNotificationCondition SendCompletedNotification_step].

(** ** The failure policy (osdupgrader.go) *)

Definition shouldFailUpgrade (upgradeConfig : UpgradeConfig) : M (result bool) :=
  commenced ←? HasUpgradeCommenced upgradeConfig;
  if (commenced : bool) then mret (Ok false)
  else
    match GetHistory (History upgradeConfig) (ucVersionOf upgradeConfig) with
    | None => mret (Ok false)
    | Some h =>
        startTime ← deref (StartTime h);
        let upgradeWindowDuration := GetUpgradeWindowTimeOutDuration (cfg_UpgradeWindow cfg) in
        if negb (IsZero startTime) && (0 <? upgradeWindowDuration)%Z then
          t ← now;
          mret (Ok (After t (TimeAdd startTime upgradeWindowDuration)))
        else mret (Ok false)
    end.

Definition failedCondition (s : ConditionStatus) : UpgradeCondition :=
  mkCondition "FailedUpgrade" s None None None None "Upgrade failed" "FailedUpgrade notification sent".

(** [SetCondition] on the conditions of the copy [h] of a history: an
    existing condition is overwritten in the array that the copy shares with the
    resource; a new one only extends the copy's slice. *)
Definition setConditionOfCopy (condition : UpgradeCondition) (uc : UpgradeConfig) : M UpgradeConfig :=
  h ← deref (GetHistory (History uc) (ucVersionOf uc));
  t1 ← now;
  t2 ← now;
  mret match replaceCondition (stampTimes (Some t1) (Some t2) condition) (hist_Conditions h) with
       | Some (cs, _) => set_History (SetHistory (set_Conditions cs h) (History uc)) uc
       | None => uc
       end.

(** The updated resource, the phase and the error (always nil). *)
Definition performUpgradeFailure (uc : UpgradeConfig) : M (UpgradeConfig * UpgradePhase * option error) :=
  let stop : M (UpgradeConfig * UpgradePhase * option error) :=
    uc' ← setConditionOfCopy (failedCondition ConditionFalse) uc;
    h ← deref (GetHistory (History uc) (ucVersionOf uc));
    mret (uc', Phase h, None) in
  r ← EnsureScaleDownNodes None;
  match r with
  | Err _ => stop
  | Ok _ =>
      e ← em_Notify _ MuoStateFailed;
      match e with
      | Some _ => stop
      | None =>
          _ ← UpdateMetricUpgradeWindowBreached (uc_Name uc);
          _ ← ResetFailureMetrics;
          uc' ← setConditionOfCopy (failedCondition ConditionTrue) uc;
          mret (uc', UpgradePhaseFailed, None)
      end
  end.

(** ** [UpgradeCluster] and [HealthCheck] *)

(** The error of the decision is ignored. *)
Definition osd_UpgradeCluster (acs : list (M (option error))) (uc : UpgradeConfig)
    : M (UpgradeConfig * UpgradePhase * option error) :=
  cancelUpgrade ← shouldFailUpgrade uc;
  match cancelUpgrade with
  | Ok true => performUpgradeFailure uc
  | _ => Run uc (osdSteps acs)
  end.

Definition aro_UpgradeCluster (acs : list (M (option error))) (uc : UpgradeConfig)
    : M (UpgradeConfig * UpgradePhase * option error) := Run uc (aroSteps acs).

End Steps.

(** ** Building an upgrader (builder.go) *)

(** The interface that the controller uses: the pre-upgrade health check, and
    the upgrade, which gives the updated resource, the phase and the error.
    Neither writes UpgradeConfigs. *)
Class ClusterUpgrader := {
  cu_HealthCheck : UpgradeConfig -> M (result bool);
  cu_UpgradeCluster : UpgradeConfig -> M (UpgradeConfig * UpgradePhase * option error);
  cu_UpgradeCluster_result uc tr uc' ph err :
    is_Some (GetHistory (History uc) (ucVersionOf uc)) ->
    exec (cu_UpgradeCluster uc) tr (Done (uc', ph, err)) -> upgrade_result uc uc' ph;
  cu_HealthCheck_events uc : all_ev no_uc_write (cu_HealthCheck uc);
  cu_UpgradeCluster_events uc : all_ev no_uc_write (cu_UpgradeCluster uc);
}.
Arguments cu_HealthCheck : clear implicits.
Arguments cu_UpgradeCluster : clear implicits.

(** What the two kinds of upgrader keep. *)
Inductive clusterUpgrader :=
| osdUpgrader (cfg : upgraderConfig) (acs : list (M (option error)))
| aroUpgrader (cfg : upgraderConfig) (acs : list (M (option error))).

Section Builder.
Context {regexp : Regexp} {semver : Semver} {em : EventManager} {yaml : Yaml upgraderConfig}.
Context (notifier_builder : M (result Notifier)).

Definition NewOSDUpgrader (target : Target) : M (result clusterUpgrader) :=
  cfg ←? Into target;
  _ ←? call (NewClient "maintenance");
  mret (Ok (osdUpgrader cfg (GetAvailabilityCheckers (cfg_ExtDependencyAvailabilityCheck cfg)))).

Definition NewAROUpgrader (target : Target) : M (result clusterUpgrader) :=
  cfg ←? Into target;
  _ ←? call (NewClient "maintenance");
  mret (Ok (aroUpgrader cfg (GetAvailabilityCheckers (cfg_ExtDependencyAvailabilityCheck cfg)))).

Definition upgraders_NewClient (target : Target) (upgradeType : UpgradeType) : M (result clusterUpgrader) :=
  match upgradeType with
  | OSD => NewOSDUpgrader target
  | ARO => NewAROUpgrader target
  | UpgradeTypeOther _ => NewOSDUpgrader target
  end.

Definition upgraderSteps (u : clusterUpgrader) : list actionStep :=
  match u with
  | osdUpgrader cfg acs => osdSteps notifier_builder cfg acs
  | aroUpgrader cfg acs => aroSteps notifier_builder cfg acs
  end.

Definition UpgradeCluster (u : clusterUpgrader) (uc : UpgradeConfig)
    : M (UpgradeConfig * UpgradePhase * option error) :=
  match u with
  | osdUpgrader cfg acs => osd_UpgradeCluster notifier_builder cfg acs uc
  | aroUpgrader cfg acs => aro_UpgradeCluster notifier_builder cfg acs uc
  end.

(** Only the OSD upgrader has a DVO client. *)
Definition osd_HealthCheck (cfg : upgraderConfig) (uc : UpgradeConfig) : M (result bool) :=
  PreUpgradeHealthCheck cfg true uc.
Definition aro_HealthCheck (cfg : upgraderConfig) (uc : UpgradeConfig) : M (result bool) :=
  PreUpgradeHealthCheck cfg false uc.
Definition HealthCheck (u : clusterUpgrader) (uc : UpgradeConfig) : M (result bool) :=
  match u with
  | osdUpgrader cfg _ => osd_HealthCheck cfg uc
  | aroUpgrader cfg _ => aro_HealthCheck cfg uc
  end.

End Builder.
