(* ===== verification/UpgradersEvents.v ===== *)
(** * The events of the upgrade steps

    No step writes an UpgradeConfig, and only the step that commences the
    upgrade patches the ClusterVersion: the components that the steps call are
    followed one by one, the pluggable ones through the laws of their classes. *)

From stdpp Require Import base gmap strings list.
From Stdlib Require Import ZArith Lia.
From S2P Require Import Prelude GoSort GoTime Api Effects Config Interfaces UpgradeSteps ClusterVersion.
From S2P Require Import Metrics SpecProvider UpgradeConfigManager Notifier EventManager Machinery Drain.
From S2P Require Import Scaler Maintenance Availability UpgraderConfig HealthChecks Upgraders.


Lemma gauge_quiet m vs v : all_ev quiet_event (setGauge m vs v).
Proof. eapply all_ev_impl; [apply reads_quiet|]. eauto with muo. Qed.

Lemma now_quiet : all_ev quiet_event now.
Proof. by split. Qed.
Lemma now_calm : all_ev calm now.
Proof. by split. Qed.

Ltac quiet_leaf :=
  first [ exact I
        | apply now_quiet
        | apply now_calm
        | solve [apply gauge_quiet]
        | solve [eauto with muo]
        | eapply all_ev_impl; [apply reads_quiet|]; solve [eauto with muo]
        | eapply all_ev_impl; [apply only_tells_quiet|]; solve [eauto with muo]
        | eapply all_ev_impl; [apply reads_calm|]; solve [eauto with muo]
        | eapply all_ev_impl; [apply only_tells_calm|]; solve [eauto with muo] ].
Ltac quiet := cbv zeta; repeat first [quiet_leaf | ev_step | progress cbv zeta].

Lemma Query_quiet q : all_ev quiet_event (Query q).
Proof. by split. Qed.
Lemma Query_calm q : all_ev calm (Query q).
Proof. by split. Qed.
Lemma CanScale_quiet : all_ev quiet_event CanScale.
Proof. unfold CanScale. quiet. Qed.
#[local] Hint Resolve Query_quiet Query_calm CanScale_quiet : muo.

Lemma upgradeState_quiet uc : all_ev quiet_event (upgradeState uc).
Proof. unfold upgradeState. quiet. Qed.
#[local] Hint Resolve upgradeState_quiet : muo.
Lemma CriticalAlerts_quiet cfg uc v : all_ev quiet_event (CriticalAlerts cfg uc v).
Proof. unfold CriticalAlerts. quiet. Qed.
Lemma ClusterOperators_quiet uc v : all_ev quiet_event (ClusterOperators uc v).
Proof. unfold ClusterOperators. quiet. Qed.
Lemma ManuallyCordonedNodes_quiet uc v : all_ev quiet_event (ManuallyCordonedNodes uc v).
Proof. unfold ManuallyCordonedNodes. quiet. Qed.
Lemma NodeUnschedulableTaints_quiet uc v : all_ev quiet_event (NodeUnschedulableTaints uc v).
Proof. unfold NodeUnschedulableTaints. quiet. Qed.
Lemma HealthCheckPDB_quiet dvo uc v : all_ev quiet_event (HealthCheckPDB dvo uc v).
Proof. unfold HealthCheckPDB, checkPodDisruptionBudgets, checkDvoMetrics. quiet. Qed.
#[local] Hint Resolve CriticalAlerts_quiet ClusterOperators_quiet ManuallyCordonedNodes_quiet
  NodeUnschedulableTaints_quiet HealthCheckPDB_quiet : muo.

Lemma upgraders_getCurrentVersion_quiet : all_ev quiet_event upgraders_getCurrentVersion.
Proof. unfold upgraders_getCurrentVersion. quiet. Qed.
#[local] Hint Resolve upgraders_getCurrentVersion_quiet : muo.
Lemma allHealthChecks_quiet cfg dvo uc v : all_ev quiet_event (allHealthChecks cfg dvo uc v).
Proof. unfold allHealthChecks, capacityFailures. quiet. Qed.
#[local] Hint Resolve allHealthChecks_quiet : muo.

Section Quiet.
Context {regexp : Regexp} {semver : Semver} {em : EventManager}.

Lemma reportFailures_quiet uc fs : all_ev quiet_event (reportFailures uc fs).
Proof. unfold reportFailures. quiet. Qed.
#[local] Hint Resolve reportFailures_quiet : muo.
Lemma PreUpgradeHealthCheck_quiet cfg dvo uc : all_ev quiet_event (PreUpgradeHealthCheck cfg dvo uc).
Proof. unfold PreUpgradeHealthCheck. quiet. Qed.

Lemma okOr_quiet p : all_ev quiet_event p -> all_ev quiet_event (okOr p).
Proof. intros H. unfold okOr. by quiet. Qed.

Lemma Notify_quiet st : all_ev quiet_event (okOr (em_Notify _ st)).
Proof. apply okOr_quiet. quiet_leaf. Qed.
#[local] Hint Resolve Notify_quiet : muo.

Lemma SendStartedNotification_quiet uc : all_ev quiet_event (SendStartedNotification_step uc).
Proof. unfold SendStartedNotification_step. quiet. Qed.
Lemma UpgradeDelayedCheck_quiet cfg uc : all_ev quiet_event (UpgradeDelayedCheck cfg uc).
Proof. unfold UpgradeDelayedCheck. quiet. Qed.
Lemma IsUpgradeable_quiet uc : all_ev quiet_event (IsUpgradeable uc).
Proof. unfold IsUpgradeable. quiet. Qed.

Lemma runChecks_quiet acs :
  Forall (fun c => all_ev quiet_event c) acs -> all_ev quiet_event (runChecks acs).
Proof.
  induction 1 as [|c acs Hc _ IH]; cbn [runChecks]; [exact I|]. apply all_ev_bindr; [by apply okOr_quiet|]. by intros _.
Qed.
Lemma ExternalDependency_quiet acs uc :
  Forall (fun c => all_ev quiet_event c) acs -> all_ev quiet_event (ExternalDependencyAvailabilityCheck acs uc).
Proof. intros H. unfold ExternalDependencyAvailabilityCheck. quiet. by apply runChecks_quiet. Qed.

Lemma extraMachineSetCreated_quiet l ums : all_ev quiet_event (extraMachineSetCreated l ums).
Proof. induction l as [|ms l IH]; cbn [extraMachineSetCreated]; unfold upgradeClone, setKey; quiet. Qed.
Lemma nodesAreReady_quiet d ums : all_ev quiet_event (nodesAreReady d ums).
Proof. induction ums as [|ms ums IH]; cbn [nodesAreReady]; quiet. Qed.
#[local] Hint Resolve extraMachineSetCreated_quiet nodesAreReady_quiet originalSets_reads : muo.
Lemma EnsureScaleUpNodes_quiet d pools : all_ev quiet_event (EnsureScaleUpNodes d pools).
Proof. unfold EnsureScaleUpNodes. quiet. Qed.
#[local] Hint Resolve EnsureScaleUpNodes_quiet : muo.

Lemma EnsureExtraUpgradeWorkers_quiet cfg uc : all_ev quiet_event (EnsureExtraUpgradeWorkers cfg uc).
Proof. unfold EnsureExtraUpgradeWorkers, SendScaleSkippedNotification. quiet. Qed.

Lemma Filter_quiet ps : all_ev quiet_event (Filter ps).
Proof. unfold Filter. quiet. Qed.
#[local] Hint Resolve Filter_quiet : muo.
Lemma CreateControlPlaneMaintWindow_quiet cfg uc : all_ev quiet_event (CreateControlPlaneMaintWindow cfg uc).
Proof. unfold CreateControlPlaneMaintWindow, StartControlPlane. quiet. Qed.

Lemma deleteSets_quiet sets : all_ev quiet_event (deleteSets sets).
Proof. induction sets as [|s sets IH]; cbn [deleteSets]; quiet. Qed.
Lemma extraNodesOf_quiet ms ns ex : all_ev quiet_event (extraNodesOf ms ns ex).
Proof. revert ex. induction ms as [|m ms IH]; intros ex; cbn [extraNodesOf]; quiet. Qed.
#[local] Hint Resolve deleteSets_quiet extraNodesOf_quiet : muo.
Lemma EnsureScaleDownNodes_quiet : all_ev quiet_event (EnsureScaleDownNodes None).
Proof. unfold EnsureScaleDownNodes, getExtraUpgradeNodes. quiet. Qed.
#[local] Hint Resolve EnsureScaleDownNodes_quiet : muo.
Lemma setConditionOfCopy_quiet c uc : all_ev quiet_event (setConditionOfCopy c uc).
Proof. unfold setConditionOfCopy. quiet. Qed.
#[local] Hint Resolve setConditionOfCopy_quiet : muo.
Lemma performUpgradeFailure_quiet uc : all_ev quiet_event (performUpgradeFailure uc).
Proof. unfold performUpgradeFailure. quiet. Qed.
Lemma shouldFailUpgrade_quiet cfg uc : all_ev quiet_event (shouldFailUpgrade cfg uc).
Proof. unfold shouldFailUpgrade. quiet. Qed.


Lemma setConditionStart_calm s uc : all_ev calm (setConditionStart s uc).
Proof. unfold setConditionStart, SetCondition_now. quiet. Qed.
Lemma setConditionInProgress_calm s m uc : all_ev calm (setConditionInProgress s m uc).
Proof. unfold setConditionInProgress, SetCondition_now. quiet. Qed.
Lemma setConditionComplete_calm s uc : all_ev calm (setConditionComplete s uc).
Proof. unfold setConditionComplete, SetCondition_now. quiet. Qed.

Lemma goroutine_calm timeout url : all_ev calm (goroutine timeout url).
Proof.
  unfold goroutine. assert (all_ev calm (checkTarget timeout url)) as Hc by (unfold checkTarget; quiet).
  generalize 3, Second. intros n. induction n as [|n IH]; intros s; cbn [retry]; (apply all_ev_bind; [done|]);
    intros [[e|e]|]; try exact I.
  destruct n as [|n]; [exact I|]. apply all_ev_bind; [done|]. intros j. apply all_ev_bind; [done|]. intros ?. apply IH.
Qed.

Lemma waitAll_calm n gs e :
  Forall (fun g => all_ev calm g) gs -> all_ev calm (waitAll n gs e).
Proof.
  revert gs e. induction n as [|n IH]; intros gs e Hgs; destruct gs as [|g gs]; try exact I.
  cbn [waitAll]. apply all_ev_bind; [done|]. intros i. set (j := i mod _). set (l := g :: gs) in *.
  destruct (l !! j) as [[[?|]|?|X ev k]|] eqn:E; try exact I.
  - apply IH. by apply Forall_delete.
  - apply IH. by apply Forall_delete.
  - pose proof (Forall_lookup_1 _ _ _ _ Hgs E) as [Hev Hk]. apply all_ev_bind; [by apply all_ev_call|].
    intros x. apply IH. by apply Forall_insert.
Qed.

Lemma AvailabilityChecks_calm avail : Forall (fun c => all_ev calm c) (GetAvailabilityCheckers avail).
Proof.
  unfold GetAvailabilityCheckers. destruct (Nat.ltb _ _); [|done]. constructor; [|done].
  apply waitAll_calm, Forall_fmap, Forall_true. intros url. apply goroutine_calm.
Qed.

Lemma all_ev_calm_quiet {A} (p : M A) : all_ev calm p -> all_ev quiet_event p.
Proof. apply all_ev_impl, calm_quiet. Qed.
Lemma AvailabilityChecks_quiet avail : Forall (fun c => all_ev quiet_event c) (GetAvailabilityCheckers avail).
Proof. eapply Forall_impl; [apply AvailabilityChecks_calm|]. intros c. apply all_ev_calm_quiet. Qed.
Lemma setConditionStart_quiet s uc : all_ev quiet_event (setConditionStart s uc).
Proof. apply all_ev_calm_quiet, setConditionStart_calm. Qed.
Lemma setConditionInProgress_quiet s m uc : all_ev quiet_event (setConditionInProgress s m uc).
Proof. apply all_ev_calm_quiet, setConditionInProgress_calm. Qed.
Lemma setConditionComplete_quiet s uc : all_ev quiet_event (setConditionComplete s uc).
Proof. apply all_ev_calm_quiet, setConditionComplete_calm. Qed.

(** *** Drains *)

Lemma deletePodsLoop_calm pl ign g me m : all_ev calm (deletePodsLoop pl ign g me m).
Proof. revert me m. induction pl as [|p pl IH]; intros me m; cbn [deletePodsLoop]; quiet. Qed.
Lemma removeFinalizersLoop_calm pl me m : all_ev calm (removeFinalizersLoop pl me m).
Proof. revert me m. induction pl as [|p pl IH]; intros me m; cbn [removeFinalizersLoop]; quiet. Qed.
Lemma targetPods_calm fs node : all_ev calm (targetPods fs node).
Proof. unfold targetPods, GetPodList. quiet. Qed.
Lemma isAfter_calm t d : all_ev calm (isAfter t d).
Proof. unfold isAfter. quiet. Qed.
Lemma notifyDrainDelay_calm uc n : all_ev calm (notifyDrainDelay uc n).
Proof.
  assert (forall s d, all_ev calm (@NotifyState n s d)) as Hn.
  { intros s d. eapply all_ev_impl; [apply only_tells_calm|].
    eapply all_ev_impl; [apply notifier_event_only_tells|apply NotifyState_events]. }
  unfold notifyDrainDelay, IsMetricNotificationEventSentSet. quiet.
Qed.
#[local] Hint Resolve deletePodsLoop_calm removeFinalizersLoop_calm targetPods_calm isAfter_calm
  notifyDrainDelay_calm : muo.

(** A drain that the builder made: its strategies are the timed ones. *)
Definition built (ds : osdDrainStrategy) : Prop :=
  exists uc cfg pdbs, timedDrainStrategies ds = timedStrategies uc cfg pdbs.

Lemma timedStrategies_calm uc cfg pdbs node tds :
  tds ∈ timedStrategies uc cfg pdbs ->
  all_ev calm (strategy_Execute (GetStrategy tds) node) /\ all_ev calm (strategy_IsValid (GetStrategy tds) node).
Proof.
  unfold timedStrategies. cbn zeta. rewrite !elem_of_cons, elem_of_nil.
  intros [->|[->|[->|[->|[->|[]]]]]]; cbn [GetStrategy strategy_Execute strategy_IsValid
    podDeletionStrategy removeFinalizersStrategy stuckTerminatingStrategy]; (split; [|auto with muo]);
    unfold GetPodList, DeletePods, RemoveFinalizersFromPod; quiet.
Qed.

Lemma executeStrategies_calm ds node a ss res :
  (forall tds, tds ∈ ss -> all_ev calm (strategy_Execute (GetStrategy tds) node)) ->
  all_ev calm (executeStrategies ds node a ss res).
Proof.
  revert res. induction ss as [|s ss IH]; intros res H; cbn [executeStrategies]; [exact I|].
  assert (all_ev calm (strategy_Execute (GetStrategy s) node)) by (apply H; by left).
  assert (forall res, all_ev calm (executeStrategies ds node a ss res)).
  { intros r. apply IH. intros tds Ht. apply H. by right. }
  quiet; by apply all_ev_bindr.
Qed.

Lemma executedOf_calm a ss : all_ev calm (executedOf a ss).
Proof. induction ss as [|s ss IH]; cbn [executedOf]; quiet. Qed.
Lemma validOf_calm node ss :
  (forall tds, tds ∈ ss -> all_ev calm (strategy_IsValid (GetStrategy tds) node)) -> all_ev calm (validOf node ss).
Proof.
  induction ss as [|s ss IH]; intros H; cbn [validOf]; [exact I|].
  assert (all_ev calm (strategy_IsValid (GetStrategy s) node)) by (apply H; by left).
  assert (all_ev calm (validOf node ss)) by (apply IH; intros tds Ht; apply H; by right). quiet.
Qed.
#[local] Hint Resolve executedOf_calm : muo.

Lemma drain_calm ds node :
  built ds -> all_ev calm (drain_Execute ds node) /\ all_ev calm (drain_HasFailed ds node).
Proof.
  intros (uc & cfg & pdbs & Hts).
  assert (forall tds, tds ∈ timedDrainStrategies ds -> all_ev calm (strategy_Execute (GetStrategy tds) node) /\
    all_ev calm (strategy_IsValid (GetStrategy tds) node)) as H by (rewrite Hts; eauto using timedStrategies_calm).
  split.
  - unfold drain_Execute. destruct (IsCordoned _); [|exact I]. destruct (AddedAt _); [|exact I].
    apply executeStrategies_calm. intros tds Ht. by apply H.
  - unfold drain_HasFailed. quiet. apply validOf_calm. intros tds Ht. apply H.
    match type of Ht with _ ∈ drop ?n ?l => assert (tds ∈ l) as Hs by (rewrite <- (take_drop n l); apply elem_of_app; by right) end.
    rewrite list_elem_of_In in *. eapply Permutation_in; [apply insertionSort_perm|exact Hs].
Qed.

Lemma handleDrainStrategy_calm ds nodes : built ds -> all_ev calm (handleDrainStrategy ds nodes).
Proof.
  intros Hb. unfold handleDrainStrategy.
  assert (all_ev calm (executeAll ds nodes)) as H.
  { induction nodes as [|n nodes IH]; cbn [executeAll]; [exact I|]. destruct (drain_calm ds n Hb). quiet. }
  assert (all_ev calm (noneFailed ds nodes)).
  { clear H. induction nodes as [|n nodes IH]; cbn [noneFailed]; [exact I|]. destruct (drain_calm ds n Hb). quiet. }
  quiet.
Qed.

Lemma handleDrainStrategy_quiet ds nodes : built ds -> all_ev quiet_event (handleDrainStrategy ds nodes).
Proof. intros H. by apply all_ev_calm_quiet, handleDrainStrategy_calm. Qed.

Lemma EnsureScaleDownNodes_built ds : built ds -> all_ev quiet_event (EnsureScaleDownNodes (Some ds)).
Proof.
  intros Hb. assert (forall nodes, all_ev quiet_event (handleDrainStrategy ds nodes)) by eauto using handleDrainStrategy_quiet.
  unfold EnsureScaleDownNodes, getExtraUpgradeNodes. quiet.
Qed.

(** *** The steps after the commencement, and the commencement *)

Context (notifier_builder : M (result Notifier)) (Hbuilder : all_ev quiet_event notifier_builder).

Lemma RemoveExtraScaledNodes_quiet cfg uc : all_ev quiet_event (RemoveExtraScaledNodes_step notifier_builder cfg uc).
Proof.
  assert (all_ev quiet_event (NewNodeDrainStrategy notifier_builder uc (cfg_NodeDrain cfg))) as Hn.
  { unfold NewNodeDrainStrategy. quiet. }
  unfold RemoveExtraScaledNodes_step. destruct (negb _); [exact I|].
  apply all_ev_bindr; [quiet|intros _]. apply all_ev_bindr; [quiet|intros canScale].
  destruct (negb canScale && _); [exact I|]. unfold bindr. apply all_ev_bind_wp; [done|].
  apply wp_exec. intros tr [[ds|e]|m] Hex; try exact I.
  destruct (proj1 (wp_exec _ _) (NewNodeDrainStrategy_wp notifier_builder uc (cfg_NodeDrain cfg)) _ _ Hex ds eq_refl)
    as (_ & _ & pdbs & _ & Hts).
  assert (all_ev quiet_event (EnsureScaleDownNodes (Some ds))) by (apply EnsureScaleDownNodes_built; by eexists _, _, pdbs).
  quiet.
Qed.

Lemma deleteSilences_quiet l es : all_ev quiet_event (deleteSilences l es).
Proof. revert es. induction l as [|x l IH]; intros es; cbn [deleteSilences]; quiet. Qed.
#[local] Hint Resolve deleteSilences_quiet : muo.
Lemma EndSilences_quiet c : all_ev quiet_event (EndSilences c).
Proof. unfold EndSilences. quiet. Qed.
#[local] Hint Resolve EndSilences_quiet : muo.
Lemma RemoveControlPlaneMaintWindow_quiet uc : all_ev quiet_event (RemoveControlPlaneMaintWindow_step uc).
Proof. unfold RemoveControlPlaneMaintWindow_step, EndControlPlane. quiet. Qed.
Lemma RemoveMaintWindow_quiet uc : all_ev quiet_event (RemoveMaintWindow_step uc).
Proof. unfold RemoveMaintWindow_step, EndWorker. quiet. Qed.
Lemma CreateWorkerMaintWindow_quiet cfg uc : all_ev quiet_event (CreateWorkerMaintWindow cfg uc).
Proof. unfold CreateWorkerMaintWindow, SetWorker. quiet. Qed.
Lemma ControlPlaneUpgraded_quiet cfg uc : all_ev quiet_event (ControlPlaneUpgraded cfg uc).
Proof. unfold ControlPlaneUpgraded. quiet. Qed.
Lemma AllWorkersUpgraded_quiet uc : all_ev quiet_event (AllWorkersUpgraded uc).
Proof. unfold AllWorkersUpgraded, maintenance_IsActive. quiet. Qed.
Lemma ResetAll_quiet : all_ev quiet_event ResetAllMetricNodeDrainFailed.
Proof. by split. Qed.
#[local] Hint Resolve ResetAll_quiet : muo.
Lemma PostUpgradeHealthCheck_quiet cfg uc : all_ev quiet_event (PostUpgradeHealthCheck cfg uc).
Proof. unfold PostUpgradeHealthCheck. quiet. Qed.
Lemma PostUpgradeProcedures_quiet cfg uc : all_ev quiet_event (PostUpgradeProcedures cfg uc).
Proof. unfold PostUpgradeProcedures, postUpgradeFIOReInit. quiet. Qed.
Lemma SendCompletedNotification_quiet uc : all_ev quiet_event (SendCompletedNotification_step uc).
Proof. unfold SendCompletedNotification_step. quiet. Qed.

Lemma quiet_writes_nothing {A} (p : M A) : all_ev quiet_event p -> all_ev no_uc_write p.
Proof. apply all_ev_impl, quiet_no_uc_write. Qed.

Lemma EnsureDesiredConfig_events uc : all_ev no_uc_write (EnsureDesiredConfig uc).
Proof.
  unfold EnsureDesiredConfig, runUpgradeWithImage, runUpgradeWithChannelVersion, GetClusterVersion.
  repeat first [ev_step | done]. all: cbv zeta; repeat first [ev_step | done].
Qed.
Lemma CommenceUpgrade_events uc : all_ev no_uc_write (CommenceUpgrade uc).
Proof.
  unfold CommenceUpgrade.
  repeat first [apply quiet_writes_nothing; solve [quiet] | exact (EnsureDesiredConfig_events uc) | ev_step].
Qed.

(** A step list whose steps write no UpgradeConfig. *)
Lemma Run_events steps uc :
  Forall (fun s => forall uc, all_ev no_uc_write (step_run s uc)) steps -> all_ev no_uc_write (Run uc steps).
Proof.
  intros H. revert uc. induction H as [|s steps Hs _ IH]; intros uc; cbn [Run]; [exact I|].
  apply all_ev_bind; [apply quiet_writes_nothing, setConditionStart_quiet|]. intros uc1.
  apply all_ev_bind; [apply Hs|]. intros [[|]|e];
    (apply all_ev_bind; [apply quiet_writes_nothing; auto using setConditionComplete_quiet, setConditionInProgress_quiet|]);
    intros uc2; [apply IH|exact I..].
Qed.

End Quiet.

(** The lemma of a step, found by its name. *)
Ltac step_quiet :=
  lazymatch goal with
  | |- all_ev _ (SendStartedNotification_step _) => apply SendStartedNotification_quiet
  | |- all_ev _ (UpgradeDelayedCheck _ _) => apply UpgradeDelayedCheck_quiet
  | |- all_ev _ (IsUpgradeable _) => apply IsUpgradeable_quiet
  | |- all_ev _ (PreUpgradeHealthCheck _ _ _) => apply PreUpgradeHealthCheck_quiet
  | |- all_ev _ (ExternalDependencyAvailabilityCheck _ _) => apply ExternalDependency_quiet; assumption
  | |- all_ev _ (EnsureExtraUpgradeWorkers _ _) => apply EnsureExtraUpgradeWorkers_quiet
  | |- all_ev _ (CreateControlPlaneMaintWindow _ _) => apply CreateControlPlaneMaintWindow_quiet
  | |- all_ev _ (ControlPlaneUpgraded _ _) => apply ControlPlaneUpgraded_quiet
  | |- all_ev _ (RemoveControlPlaneMaintWindow_step _) => apply RemoveControlPlaneMaintWindow_quiet
  | |- all_ev _ (CreateWorkerMaintWindow _ _) => apply CreateWorkerMaintWindow_quiet
  | |- all_ev _ (AllWorkersUpgraded _) => apply AllWorkersUpgraded_quiet
  | |- all_ev _ (RemoveExtraScaledNodes_step _ _ _) => apply RemoveExtraScaledNodes_quiet; assumption
  | |- all_ev _ (RemoveMaintWindow_step _) => apply RemoveMaintWindow_quiet
  | |- all_ev _ (PostUpgradeHealthCheck _ _) => apply PostUpgradeHealthCheck_quiet
  | |- all_ev _ (PostUpgradeProcedures _ _) => apply PostUpgradeProcedures_quiet
  | |- all_ev _ (SendCompletedNotification_step _) => apply SendCompletedNotification_quiet
  end.
Ltac step_writes_nothing :=
  lazymatch goal with
  | |- all_ev _ (CommenceUpgrade _) => apply CommenceUpgrade_events
  | |- _ => apply quiet_writes_nothing; step_quiet
  end.

Section StepLists.
Context {regexp : Regexp} {semver : Semver} {em : EventManager}.
Context (notifier_builder : M (result Notifier)) (Hbuilder : all_ev quiet_event notifier_builder).

Lemma osdSteps_events cfg acs :
  Forall (fun c => all_ev quiet_event c) acs ->
  Forall (fun s => forall uc, all_ev no_uc_write (step_run s uc)) (osdSteps notifier_builder cfg acs).
Proof.
  intros H. unfold osdSteps. repeat apply Forall_cons_2; try apply Forall_nil_2; intros uc; cbn [step_run step_f];
    step_writes_nothing.
Qed.
Lemma aroSteps_events cfg acs :
  Forall (fun c => all_ev quiet_event c) acs ->
  Forall (fun s => forall uc, all_ev no_uc_write (step_run s uc)) (aroSteps notifier_builder cfg acs).
Proof.
  intros H. unfold aroSteps. repeat apply Forall_cons_2; try apply Forall_nil_2; intros uc; cbn [step_run step_f];
    step_writes_nothing.
Qed.

End StepLists.
