(* ===== verification/UpgradersCorrect.v ===== *)
(** * Properties of the cluster upgraders

    The upgraders implement the interface that the controller uses.  The
    upgrade commences only after its gates, fails only after its window, and
    silences the alerts of the workers for as long as their drains may take. *)

From stdpp Require Import base gmap strings list.
From Stdlib Require Import ZArith Lia.
From S2P Require Import Prelude GoSort GoTime Api Effects Config Interfaces UpgradeSteps ClusterVersion.
From S2P Require Import Metrics SpecProvider UpgradeConfigManager Notifier EventManager Machinery Drain.
From S2P Require Import Scaler Maintenance Availability UpgraderConfig HealthChecks Upgraders.
From S2P Require Import UpgradersEvents.

(** ** Lemmas: the interface *)

Lemma setConditionOfCopy_wp c uc :
  wp (setConditionOfCopy c uc) (fun _ o => forall uc', o = Done uc' ->
    (conditionOf uc (cond_Type c) = None -> uc' = uc) /\
    (uc' = uc \/ exists h t1 t2, GetHistory (History uc) (ucVersionOf uc) = Some h /\ uc' = with_condition t1 t2 c h uc)).
Proof.
  unfold setConditionOfCopy, now, conditionOf. destruct (GetHistory _ _) as [h|] eqn:Eh; wp_cbn; [|done].
  intros t1 t2 uc' [= <-]. set (c' := stampTimes (Some t1) (Some t2) c).
  destruct (replaceCondition c' (hist_Conditions h)) as [[cs b]|] eqn:E.
  - split; [|right; exists h, t1, t2; split; [done|]; unfold with_condition, SetCondition; fold c'; by rewrite E].
    destruct (replaceCondition_lookup _ _ _ _ "" E) as (old & Ho & _). cbn in Ho |- *. by rewrite Ho.
  - split; [done|by left].
Qed.

Lemma setConditionOfCopy_same c uc tr uc' :
  exec (setConditionOfCopy c uc) tr (Done uc') ->
  same_but_conditions uc uc' /\ (wf_histories (History uc) -> wf_histories (History uc')).
Proof.
  intros H. destruct (proj1 (wp_exec _ _) (setConditionOfCopy_wp c uc) _ _ H _ eq_refl)
    as [_ [->|(h & t1 & t2 & Hh & ->)]].
  - split; [apply same_but_conditions_refl|done].
  - split; [by apply with_condition_same|]. intros. by apply with_condition_wf.
Qed.

Definition checkersOf (u : clusterUpgrader) : list (M (option error)) :=
  match u with osdUpgrader _ acs | aroUpgrader _ acs => acs end.

Section Interface.
Context {regexp : Regexp} {semver : Semver} {em : EventManager} {yaml : Yaml upgraderConfig}.
Context (notifier_builder : M (result Notifier)).

(** The failure of an upgrade: it is only declared after the clean-up and the
    notification succeeded. *)
Definition failure_announced (tr : list (obs Eff)) : Prop :=
  (exists t b, exec (EnsureScaleDownNodes None) t (Done (Ok b)) /\ t ⊆ tr) /\
  (exists t, exec (em_Notify _ MuoStateFailed) t (Done None) /\ t ⊆ tr).

Lemma performUpgradeFailure_wp uc :
  wp (performUpgradeFailure uc) (fun tr o => forall uc' ph err, o = Done (uc', ph, err) ->
    err = None /\ (exists c t, cond_Type c = "FailedUpgrade" /\ exec (setConditionOfCopy c uc) t (Done uc')) /\
    ((ph = UpgradePhaseFailed /\ failure_announced tr) \/
     exists h, GetHistory (History uc) (ucVersionOf uc) = Some h /\ ph = Phase h)).
Proof.
  set (stopped := fun (tr : list (obs Eff)) (o : outcome (UpgradeConfig * UpgradePhase * option error)) =>
    forall uc' ph err, o = Done (uc', ph, err) ->
    err = None /\ (exists c t, cond_Type c = "FailedUpgrade" /\ exec (setConditionOfCopy c uc) t (Done uc')) /\
    exists h, GetHistory (History uc) (ucVersionOf uc) = Some h /\ ph = Phase h).
  assert (wp (uc' ← setConditionOfCopy (failedCondition ConditionFalse) uc;
              h ← deref (GetHistory (History uc) (ucVersionOf uc)); mret (uc', Phase h, None)) stopped) as Hstop.
  { unfold stopped. apply wp_bind, wp_exec. intros t [uc1|m] H; [|done].
    destruct (GetHistory _ _) as [h|]; wp_cbn; [|done]. intros uc' ph err [= <- <- <-].
    split_and!; [done| |by exists h]. by exists (failedCondition ConditionFalse), t. }
  unfold performUpgradeFailure. apply wp_bind, wp_exec. intros t1 [[b|e]|m] H1; [| |done].
  2: { eapply wp_mono; [exact Hstop|]. intros t o Hs uc' ph err ->. destruct (Hs _ _ _ eq_refl) as (? & ? & ?). eauto. }
  apply wp_bind, wp_exec. intros t2 [[e|]|m] H2; [| |done].
  { eapply wp_mono; [exact Hstop|]. intros t o Hs uc' ph err ->. destruct (Hs _ _ _ eq_refl) as (? & ? & ?). eauto. }
  do 2 (apply wp_bind, wp_exec; intros ? [?|m] _; [|done]).
  apply wp_bind, wp_exec. intros t5 [uc1|m] H5; [|done]. wp_cbn. intros uc' ph err [= <- <- <-].
  split_and!; [done|by exists (failedCondition ConditionTrue), t5|]. left. split; [done|]. split.
  - exists t1, b. split; [done|]. apply app_sub_l.
  - exists t2. split; [done|]. intros x Hx. by apply app_sub_r, app_sub_l.
Qed.

Lemma Run_result uc steps tr uc' ph err :
  is_Some (GetHistory (History uc) (ucVersionOf uc)) ->
  exec (Run uc steps) tr (Done (uc', ph, err)) -> upgrade_result uc uc' ph.
Proof.
  intros Hh [n Hn]%exec_Run_rel. destruct (run_rel_same _ _ _ _ _ _ _ Hn Hh) as [Hs Hw].
  split_and!; [done..|]. destruct (run_rel_phase _ _ _ _ _ _ _ Hn) as [(_ & -> & _)|(_ & ->)]; eauto.
Qed.

Lemma UpgradeCluster_result u uc tr uc' ph err :
  is_Some (GetHistory (History uc) (ucVersionOf uc)) ->
  exec (UpgradeCluster notifier_builder u uc) tr (Done (uc', ph, err)) -> upgrade_result uc uc' ph.
Proof.
  intros Hh. destruct u as [cfg acs|cfg acs]; [|by apply Run_result].
  cbn [UpgradeCluster]. unfold osd_UpgradeCluster.
  intros (r & t1 & t2 & -> & _ & H)%exec_bind_done.
  destruct r as [[|]|e]; [|by eapply Run_result..].
  destruct (proj1 (wp_exec _ _) (performUpgradeFailure_wp uc) _ _ H _ _ _ eq_refl)
    as (_ & (c & t & _ & Hc) & Hph).
  destruct (setConditionOfCopy_same _ _ _ _ Hc) as [Hs Hw]. split_and!; [done..|].
  destruct Hph as [[-> _]|(h & Hh' & ->)]; eauto 10.
Qed.

Lemma HealthCheck_events u uc : all_ev no_uc_write (HealthCheck u uc).
Proof. destruct u; apply quiet_writes_nothing, PreUpgradeHealthCheck_quiet. Qed.

Lemma UpgradeCluster_events u uc :
  all_ev quiet_event notifier_builder -> Forall (fun c => all_ev quiet_event c) (checkersOf u) ->
  all_ev no_uc_write (UpgradeCluster notifier_builder u uc).
Proof.
  intros Hb Hacs. destruct u as [cfg acs|cfg acs]; cbn [UpgradeCluster].
  - unfold osd_UpgradeCluster. apply all_ev_bind; [apply quiet_writes_nothing, shouldFailUpgrade_quiet|].
    intros [[|]|e]; [apply quiet_writes_nothing, performUpgradeFailure_quiet|..];
      by apply Run_events, osdSteps_events.
  - by apply Run_events, aroSteps_events.
Qed.

(** Every upgrader whose checks are quiet, as those of the builder are,
    implements the interface. *)
Definition clusterUpgraderImpl (Hb : all_ev quiet_event notifier_builder) (u : clusterUpgrader)
    (Hacs : Forall (fun c => all_ev quiet_event c) (checkersOf u)) : ClusterUpgrader :=
  {| cu_HealthCheck := HealthCheck u; cu_UpgradeCluster := UpgradeCluster notifier_builder u;
     cu_UpgradeCluster_result := UpgradeCluster_result u;
     cu_HealthCheck_events := HealthCheck_events u;
     cu_UpgradeCluster_events uc := UpgradeCluster_events u uc Hb Hacs |}.

End Interface.

(** ** Lemmas: what precedes the commencement *)

(** The step answered true on the resource, up to conditions, within the trace. *)
Definition answeredTrue (uc : UpgradeConfig) (tr : list (obs Eff)) (s : actionStep) : Prop :=
  exists uc1 t, same_but_conditions uc uc1 /\ exec (step_run s uc1) t (Done (Ok true)) /\ t ⊆ tr.

Lemma answeredTrue_mono uc tr tr' s : tr ⊆ tr' -> answeredTrue uc tr s -> answeredTrue uc tr' s.
Proof. intros H (uc1 & t & Hs & He & Ht). exists uc1, t. split_and!; [done..|]. by etrans. Qed.

Definition isPatch (ob : obs Eff) : Prop := ~ not_PatchCV _ (ob_event ob).

Lemma isPatch_not_quiet ob : isPatch ob -> ~ quiet_event _ (ob_event ob).
Proof. intros H Hq. by apply H, quiet_not_PatchCV. Qed.

(** An observation that the first part of a trace does not have is in the rest. *)
Lemma app_split_at (t1 t2 tr1 tr2 : list (obs Eff)) x :
  Forall (fun ob => quiet_event _ (ob_event ob)) t1 -> isPatch x -> t1 ++ t2 = tr1 ++ x :: tr2 ->
  exists tr1', tr1 = t1 ++ tr1' /\ t2 = tr1' ++ x :: tr2.
Proof.
  intros Hf Hx%isPatch_not_quiet. revert tr1. induction Hf as [|y t1 Hy _ IH]; intros tr1; cbn; [by exists tr1|].
  destruct tr1 as [|z tr1]; cbn; intros [= -> H]; [by destruct Hx|].
  destruct (IH _ H) as (tr1' & -> & ->). by exists tr1'.
Qed.

Lemma no_patch_in {A} (p : M A) tr o tr1 x tr2 :
  all_ev quiet_event p -> exec p tr o -> tr = tr1 ++ x :: tr2 -> isPatch x -> False.
Proof.
  intros Hp Hex -> Hx. pose proof (all_ev_exec _ _ _ _ Hp Hex) as Hf.
  apply Forall_app in Hf as [_ Hf]. apply Forall_cons in Hf as [Hf _]. by apply (isPatch_not_quiet x Hx).
Qed.

(** Steps that leave the ClusterVersion alone have all answered true before a
    later step patches it. *)
Lemma Run_patch_after pre rest uc tr o tr1 x tr2 :
  is_Some (GetHistory (History uc) (ucVersionOf uc)) ->
  Forall (fun s => forall uc, all_ev quiet_event (step_run s uc)) pre ->
  exec (Run uc (pre ++ rest)) tr o -> tr = tr1 ++ x :: tr2 -> isPatch x ->
  Forall (answeredTrue uc tr1) pre.
Proof.
  intros Hh Hpre. revert uc tr tr1 Hh. induction Hpre as [|s pre Hs _ IH]; intros uc tr tr1 Hh Hex Htr Hx; [done|].
  cbn [app Run] in Hex.
  apply exec_bind in Hex as [(uc1 & t1 & t' & -> & H1 & Hex)|(m & -> & Hex)].
  2: { destruct (no_patch_in _ _ _ _ _ _ (setConditionStart_quiet s uc) Hex Htr Hx). }
  destruct (setConditionStart_exec _ _ _ _ Hh H1) as (Hs1 & _ & _ & Hn1).
  pose proof (all_ev_exec _ _ _ _ (setConditionStart_quiet s uc) H1) as Hf1.
  destruct (app_split_at _ _ _ _ _ Hf1 Hx Htr) as (tr1' & -> & Ht'). clear Htr.
  apply exec_bind in Hex as [(r & t2 & t3 & -> & H2 & Hex)|(m & -> & Hex)].
  2: { destruct (no_patch_in _ _ _ _ _ _ (Hs uc1) Hex Ht' Hx). }
  pose proof (all_ev_exec _ _ _ _ (Hs uc1) H2) as Hf2.
  destruct (app_split_at _ _ _ _ _ Hf2 Hx Ht') as (tr2' & -> & Ht3). clear Ht'.
  destruct r as [[|]|e].
  2, 3: exfalso; eapply no_patch_in; [|exact Hex|exact Ht3|exact Hx]; apply all_ev_bind;
    [apply setConditionInProgress_quiet|by intros].
  apply exec_bind in Hex as [(uc2 & t4 & t5 & -> & H4 & Hex)|(m & -> & Hex)].
  2: { destruct (no_patch_in _ _ _ _ _ _ (setConditionComplete_quiet s uc1) Hex Ht3 Hx). }
  destruct (setConditionComplete_exec _ _ _ _ Hn1 H4) as (Hs2 & _ & _ & _).
  pose proof (all_ev_exec _ _ _ _ (setConditionComplete_quiet s uc1) H4) as Hf4.
  destruct (app_split_at _ _ _ _ _ Hf4 Hx Ht3) as (tr4' & -> & Ht5). clear Ht3.
  pose proof (same_but_conditions_trans _ _ _ Hs1 Hs2) as Hs12.
  constructor.
  - exists uc1, t2. split_and!; [done..|]. intros y Hy. by apply app_sub_r, app_sub_l.
  - eapply Forall_impl; [eapply (IH uc2); [|exact Hex|exact Ht5|exact Hx]|].
    + by eapply same_but_conditions_has_history.
    + intros s' (uc3 & t & H3 & He & Ht). exists uc3, t. split_and!; [by eapply same_but_conditions_trans|done|].
      intros y Hy. by apply app_sub_r, app_sub_r, app_sub_r, Ht.
Qed.

Section Gates.
Context {regexp : Regexp} {semver : Semver} {em : EventManager}.
Context (notifier_builder : M (result Notifier)).

(** The steps before the one that commences the upgrade. *)
Definition gates (u : clusterUpgrader) : list actionStep :=
  match u with
  | osdUpgrader cfg acs => take 7 (osdSteps notifier_builder cfg acs)
  | aroUpgrader cfg acs => take 5 (aroSteps notifier_builder cfg acs)
  end.
Lemma gates_quiet u :
  Forall (fun c => all_ev quiet_event c) (checkersOf u) ->
  Forall (fun s => forall uc, all_ev quiet_event (step_run s uc)) (gates u).
Proof.
  intros H. destruct u as [cfg acs|cfg acs]; unfold gates, osdSteps, aroSteps; cbn [take];
    repeat apply Forall_cons_2; try apply Forall_nil_2; intros uc; cbn [step_run step_f]; step_quiet.
Qed.

End Gates.

Definition configOf (u : clusterUpgrader) : upgraderConfig :=
  match u with osdUpgrader cfg _ | aroUpgrader cfg _ => cfg end.
Definition hasDvo (u : clusterUpgrader) : bool :=
  match u with osdUpgrader _ _ => true | aroUpgrader _ _ => false end.

Lemma NewClient_wp {yaml : Yaml upgraderConfig} target ut :
  wp (upgraders_NewClient target ut) (fun tr o => forall u, o = Done (Ok u) ->
    valid_config (configOf u) /\ checkersOf u = GetAvailabilityCheckers (cfg_ExtDependencyAvailabilityCheck (configOf u)) /\
    (ut = ARO <-> hasDvo u = false)).
Proof.
  assert (forall k, (forall cfg, configOf (k cfg) = cfg /\
      checkersOf (k cfg) = GetAvailabilityCheckers (cfg_ExtDependencyAvailabilityCheck cfg) /\
      (ut = ARO <-> hasDvo (k cfg) = false)) ->
    wp (cfg ←? Into target; _ ←? call (NewClient "maintenance"); mret (Ok (k cfg)))
      (fun (tr : list (obs Eff)) (o : outcome (result clusterUpgrader)) => forall u, o = Done (Ok u) -> valid_config (configOf u) /\
        checkersOf u = GetAvailabilityCheckers (cfg_ExtDependencyAvailabilityCheck (configOf u)) /\
        (ut = ARO <-> hasDvo u = false))) as H.
  { intros k Hk. apply wp_bindr. eapply wp_mono; [apply Into_wp|]. intros t o (r & -> & Hr).
    destruct r as [cfg|e]; [|done]. destruct Hr as [Hv _]. apply IsValid_spec in Hv. wp_cbn.
    intros [[]|e]; wp_cbn; [|done]. intros u [= <-]. destruct (Hk cfg) as (-> & ? & ?). done. }
  destruct ut.
  - apply (H (fun cfg => osdUpgrader cfg (GetAvailabilityCheckers (cfg_ExtDependencyAvailabilityCheck cfg)))). done.
  - apply (H (fun cfg => aroUpgrader cfg (GetAvailabilityCheckers (cfg_ExtDependencyAvailabilityCheck cfg)))). done.
  - apply (H (fun cfg => osdUpgrader cfg (GetAvailabilityCheckers (cfg_ExtDependencyAvailabilityCheck cfg)))). done.
Qed.

Lemma preCheckPassed_mono cfg dvo uc tr tr' :
  tr ⊆ tr' -> preCheckPassed cfg dvo uc tr -> preCheckPassed cfg dvo uc tr'.
Proof.
  intros H [(t & Ht & Hs)|(Ha & Ho & Hg)].
  - left. exists t. split; [done|]. by etrans.
  - right. split_and!; [by eapply alertsClear_mono|by eapply operatorsClear_mono|].
    intros Hf. destruct (Hg Hf) as [?|(v & t & Ht & Hs)]; [by left|]. right. exists v, t. split; [done|]. by etrans.
Qed.

Lemma shouldFailUpgrade_wp cfg uc :
  wp (shouldFailUpgrade cfg uc) (fun tr o => o = Done (Ok true) ->
    exists h startTime t cv, GetHistory (History uc) (ucVersionOf uc) = Some h /\ StartTime h = Some startTime /\
      IsZero startTime = false /\ (0 < GetUpgradeWindowTimeOutDuration (cfg_UpgradeWindow cfg))%Z /\
      tr = [Obs GetCV (Ok cv); Obs Now t] /\ commenced_in cv uc = false /\
      (startTime + GetUpgradeWindowTimeOutDuration (cfg_UpgradeWindow cfg) < t)%Z).
Proof.
  unfold shouldFailUpgrade. apply wp_bindr, wp_exec. intros t0 [[[|]|e]|m] H0; try done.
  apply HasUpgradeCommenced_exec in H0.
  destruct (GetHistory _ _) as [h|]; [|done]. destruct (StartTime h) as [st|] eqn:Est; wp_cbn; [|done].
  destruct (IsZero st) eqn:Ez; cbn [negb andb]; [done|].
  destruct (Z.ltb_spec 0 (GetUpgradeWindowTimeOutDuration (cfg_UpgradeWindow cfg))); [|done]. wp_cbn.
  intros t [= Ha]. unfold After, TimeAdd in Ha. apply Z.ltb_lt in Ha.
  destruct H0 as ([cv|e] & -> & H0); [|done]. destruct (checkUpgradeSource uc); [|done].
  injection H0 as Hc. eexists h, st, t, cv. split_and!; done.
Qed.

(** The worker window ends when the remaining nodes have been drained, each in
    the longer of the two timeouts and the expected time. *)
Definition worker_window (cfg : upgraderConfig) (uc : UpgradeConfig) (n : Z) : Z :=
  (n * (Z.max (PDBForceDrainTimeout (Spec uc)) (Timeout (cfg_NodeDrain cfg)) +
        ExpectedNodeDrainTime (cfg_NodeDrain cfg)) * Minute)%Z.

Lemma worker_window_fits cfg uc n :
  valid_config cfg -> (0 <= PDBForceDrainTimeout (Spec uc))%Z -> (1 <= n)%Z -> (worker_window cfg uc n < 2 ^ 63)%Z ->
  workerMaintenanceDuration cfg uc n = worker_window cfg uc n /\ (0 < worker_window cfg uc n)%Z.
Proof.
  intros [_ _ _ Ht He _ _ _] Hp Hn. unfold worker_window, workerMaintenanceDuration, GetTimeOutDuration, GetExpectedDrainDuration.
  set (p := PDBForceDrainTimeout _) in *. set (t := Timeout _) in *. set (e := ExpectedNodeDrainTime _) in *.
  change Minute with 60000000000%Z. intros Hw.
  assert (forall x, (0 <= x <= Z.max p t + e)%Z -> (0 <= x * 60000000000 /\ x * 60000000000 <= n * (x * 60000000000) < 2 ^ 63)%Z) as Hx.
  { intros x Hx. nia. }
  assert (forall x, (0 <= x <= Z.max p t + e)%Z -> dur_mul x 60000000000 = x * 60000000000 /\
    dur_mul n (x * 60000000000) = n * (x * 60000000000))%Z as Hm.
  { intros x H. specialize (Hx x H). split; apply dur_mul_id; unfold in_int; lia. }
  destruct (Hm p ltac:(lia)) as [-> Hp']. destruct (Hm t ltac:(lia)) as [-> Ht']. destruct (Hm e ltac:(lia)) as [-> He'].
  rewrite He'. pose proof (Hx p ltac:(lia)). pose proof (Hx t ltac:(lia)). pose proof (Hx e ltac:(lia)).
  destruct (Z.ltb_spec (p * 60000000000) (t * 60000000000)); rewrite ?Ht', ?Hp', wrap_id; unfold in_int; nia.
Qed.

Lemma SetWorker_wp endsAt version count :
  wp (SetWorker endsAt version count) (fun tr _ => forall ms st en cr com r,
    Obs (AmPostSilence ms st en cr com) r ∈ tr -> en = endsAt).
Proof.
  apply wp_exec. intros tr o Hex ms st en cr com r Hin.
  assert (all_ev (fun X (e : Eff X) => match e with AmPostSilence _ _ en _ _ => en = endsAt | _ => True end)
    (SetWorker endsAt version count)) as Hev by (unfold SetWorker, Filter, now; ev_auto; done).
  pose proof (all_ev_exec _ _ _ _ Hev Hex) as Hf. rewrite Forall_forall in Hf. exact (Hf _ Hin).
Qed.

Definition isSilencePost {X} (e : Eff X) : bool := match e with AmPostSilence _ _ _ _ _ => true | _ => false end.

(** The window for the nodes that remain by the pool, from the clock. *)
Definition window_of (cfg : upgraderConfig) (uc : UpgradeConfig) (tr : list (obs Eff)) (endsAt : Time) : Prop :=
  exists pool t, ((Obs (GetMachineConfigPool "worker") (Ok pool) : obs Eff) ∈ tr) /\ ((Obs Now t : obs Eff) ∈ tr) /\
    let n := wrap32 (MachineCount pool - UpdatedMachineCount pool) in
    (1 <= n)%Z /\
    ((worker_window cfg uc n < 2 ^ 63)%Z -> endsAt = (t + worker_window cfg uc n)%Z /\ (t < endsAt)%Z).

Lemma CreateWorkerMaintWindow_wp cfg uc ms startsAt endsAt creator comment r :
  valid_config cfg -> (0 <= PDBForceDrainTimeout (Spec uc))%Z ->
  wp (CreateWorkerMaintWindow cfg uc) (fun tr _ =>
    ((Obs (AmPostSilence ms startsAt endsAt creator comment) r : obs Eff) ∈ tr) -> window_of cfg uc tr endsAt).
Proof.
  intros Hv Hp. unfold window_of, CreateWorkerMaintWindow, machinery_IsUpgrading. wp_cbn.
  assert (forall X (e : Eff X) x, isSilencePost e = false -> (Obs (AmPostSilence ms startsAt endsAt creator comment) r : obs Eff) ∈ [Obs e x] -> False) as Hno.
  { intros X e x He [Hin|Hin]%elem_of_cons; [|by apply elem_of_nil in Hin].
    apply (f_equal (fun ob => isSilencePost (ob_event ob))) in Hin. cbn in Hin. congruence. }
  intros [pool|e]; wp_cbn; [|intros Hin; by apply Hno in Hin].
  cbn [IsUpgrading ur_MachineCount UpdatedCount].
  destruct (MachineCount pool =? UpdatedMachineCount pool)%Z; cbn [negb]; wp_cbn; [intros Hin; by apply Hno in Hin|].
  destruct (Z.ltb_spec (wrap32 (MachineCount pool - UpdatedMachineCount pool)) 1) as [_|Hn]; wp_cbn;
    [intros Hin; by apply Hno in Hin|].
  unfold now. wp_cbn. intros t. apply wp_bindr. eapply wp_mono; [apply SetWorker_wp|]. intros t1 o1 H1.
  assert (((Obs (AmPostSilence ms startsAt endsAt creator comment) r : obs Eff) ∈
      Obs (GetMachineConfigPool "worker") (Ok pool) :: Obs Now t :: t1) ->
    window_of cfg uc (Obs (GetMachineConfigPool "worker") (Ok pool) :: Obs Now t :: t1) endsAt) as H.
  { intros Hin. exists pool, t. split; [by left|]. split; [by right; left|]. split; [done|]. intros Hw.
    destruct (worker_window_fits cfg uc _ Hv Hp Hn Hw) as [Hd Hpos].
    apply elem_of_cons in Hin as [Hin|Hin]; [by apply (f_equal (fun ob => isSilencePost (ob_event ob))) in Hin|].
    apply elem_of_cons in Hin as [Hin|Hin]; [by apply (f_equal (fun ob => isSilencePost (ob_event ob))) in Hin|].
    rewrite (H1 _ _ _ _ _ _ Hin), Hd. unfold TimeAdd. split; [done|lia]. }
  destruct o1 as [[u|e]|m]; wp_cbn; rewrite ?app_nil_r; exact H.
Qed.

(** ** Properties *)

(** C9: an upgrader that the builder made patches the ClusterVersion only after
    every earlier step answered true in the same run: the pre-upgrade health
    check passed, the dependencies answered, the capacity is reserved and the
    control plane window is created. *)
Theorem commences_only_after_gates {regexp : Regexp} {semver : Semver} {em : EventManager}
    {yaml : Yaml upgraderConfig} notifier_builder target ut tr0 u uc tr o tr1 x tr2 :
  exec (upgraders_NewClient target ut) tr0 (Done (Ok u)) ->
  is_Some (GetHistory (History uc) (ucVersionOf uc)) ->
  exec (UpgradeCluster notifier_builder u uc) tr o -> tr = tr1 ++ x :: tr2 -> isPatch x ->
  Forall (answeredTrue uc tr1) (gates notifier_builder u) /\
  exists uc1, same_but_conditions uc uc1 /\ preCheckPassed (configOf u) (hasDvo u) uc1 tr1.
Proof.
  intros Hnew Hh Hex Htr Hx.
  destruct (proj1 (wp_exec _ _) (NewClient_wp target ut) _ _ Hnew u eq_refl) as (_ & Hc & _).
  pose proof (AvailabilityChecks_quiet (cfg_ExtDependencyAvailabilityCheck (configOf u))) as Hq. rewrite <- Hc in Hq.
  pose proof (gates_quiet notifier_builder u Hq) as Hg.
  assert (Forall (answeredTrue uc tr1) (gates notifier_builder u)) as Hf.
  { destruct u as [cfg acs|cfg acs]; cbn [gates UpgradeCluster] in *.
    2: { unfold aro_UpgradeCluster in Hex. rewrite <- (take_drop 5 (aroSteps notifier_builder cfg acs)) in Hex.
         by eapply Run_patch_after. }
    unfold osd_UpgradeCluster in Hex. apply exec_bind in Hex as [(r & t1 & t2 & -> & H1 & Hex)|(m & -> & Hex)].
    2: { destruct (no_patch_in _ _ _ _ _ _ (shouldFailUpgrade_quiet cfg uc) Hex Htr Hx). }
    destruct (app_split_at _ _ _ _ _ (all_ev_exec _ _ _ _ (shouldFailUpgrade_quiet cfg uc) H1) Hx Htr) as (tr1' & -> & Ht).
    eapply (Forall_impl (answeredTrue uc tr1')); [|intros s; apply answeredTrue_mono, app_sub_r].
    destruct r as [[|]|e].
    2, 3: rewrite <- (take_drop 7 (osdSteps notifier_builder cfg acs)) in Hex; by eapply Run_patch_after.
    destruct (no_patch_in _ _ _ _ _ _ (performUpgradeFailure_quiet uc) Hex Ht Hx). }
  split; [done|]. rewrite Forall_forall in Hf.
  assert (exists s, s ∈ gates notifier_builder u /\ step_f s = PreUpgradeHealthCheck (configOf u) (hasDvo u)) as (s & Hs & Es).
  { destruct u as [cfg acs|cfg acs]; eexists (Action UpgradePreHealthCheck _); (split; [|reflexivity]);
      cbn; apply list_elem_of_In; cbn; tauto. }
  destruct (Hf s Hs) as (uc1 & t & Hsame & He & Ht). exists uc1. split; [done|].
  unfold step_run in He. rewrite Es in He. eapply preCheckPassed_mono; [exact Ht|].
  exact (proj1 (wp_exec _ _) (PreUpgradeHealthCheck_wp _ _ _) _ _ He eq_refl).
Qed.

(** C10: an upgrade fails only in the OSD upgrader, when the clock has passed the
    window that is configured after the recorded start, the ClusterVersion does not
    ask for the version yet, the clean-up ended and the failure was notified;
    the condition that should record it is not stored unless it was there. *)
Theorem fails_only_after_window {regexp : Regexp} {semver : Semver} {em : EventManager} nb u uc h tr uc' err :
  GetHistory (History uc) (ucVersionOf uc) = Some h -> Phase h = UpgradePhaseUpgrading ->
  exec (UpgradeCluster nb u uc) tr (Done (uc', UpgradePhaseFailed, err)) ->
  hasDvo u = true /\ err = None /\ failure_announced tr /\
  (conditionOf uc "FailedUpgrade" = None -> uc' = uc) /\
  exists startTime t cv rest, StartTime h = Some startTime /\
    tr = Obs GetCV (Ok cv) :: Obs Now t :: rest /\ commenced_in cv uc = false /\
    let window := GetUpgradeWindowTimeOutDuration (cfg_UpgradeWindow (configOf u)) in
    (0 < window)%Z /\ (startTime + window < t)%Z.
Proof.
  intros Hg Hphase Hex. destruct u as [cfg acs|cfg acs].
  2: { apply exec_Run_rel in Hex as [n Hn]. by destruct (run_rel_phase _ _ _ _ _ _ _ Hn) as [(_ & ? & _)|[_ ?]]. }
  cbn [UpgradeCluster hasDvo configOf] in *. apply exec_bind_done in Hex as (r & t1 & t2 & -> & H1 & Hex).
  destruct r as [[|]|e].
  2, 3: apply exec_Run_rel in Hex as [n Hn]; by destruct (run_rel_phase _ _ _ _ _ _ _ Hn) as [(_ & ? & _)|[_ ?]].
  destruct (proj1 (wp_exec _ _) (shouldFailUpgrade_wp cfg uc) _ _ H1 eq_refl)
    as (h' & st & t & cv & Hh & Hst & _ & Hw & -> & Hcv & Ht).
  rewrite Hg in Hh. injection Hh as <-.
  destruct (proj1 (wp_exec _ _) (performUpgradeFailure_wp uc) _ _ Hex _ _ _ eq_refl)
    as (-> & (c & tc & Hty & Hc) & Hph).
  split_and!; [done..| | |by exists st, t, cv, t2].
  - destruct Hph as [[_ [(ta & b & Ha & Hsa) (tb & Hb & Hsb)]]|(h' & Hh' & Hp)]; [|congruence].
    split; [exists ta, b|exists tb]; (split; [done|]); intros y Hy; apply app_sub_r; auto.
  - intros Hn. rewrite <- Hty in Hn.
    exact (proj1 (proj1 (wp_exec _ _) (setConditionOfCopy_wp c uc) _ _ Hc _ eq_refl) Hn).
Qed.

(** C34: the worker window is posted only while workers remain, and ends when the
    remaining nodes have been drained one after the other, as long as that
    number of nanoseconds fits 63 bits; it is then in the future. *)
Theorem worker_window_covers_drains cfg uc (tr : list (obs Eff)) o ms startsAt endsAt creator comment r :
  valid_config cfg -> (0 <= PDBForceDrainTimeout (Spec uc))%Z ->
  exec (CreateWorkerMaintWindow cfg uc) tr o -> Obs (AmPostSilence ms startsAt endsAt creator comment) r ∈ tr ->
  window_of cfg uc tr endsAt.
Proof.
  intros Hv Hp Hex Hin.
  exact (proj1 (wp_exec _ _) (CreateWorkerMaintWindow_wp cfg uc ms startsAt endsAt creator comment r Hv Hp) _ _ Hex Hin).
Qed.

(** *** Witnesses *)

Definition demo_up_uc : UpgradeConfig :=
  mkUpgradeConfig "managed-upgrade-config" "muo" "1"
    (mkSpec (mkUpdate "4.15.1" "stable-4.14" "") "2024-03-01T10:00:00Z" 60 OSD false)
    [mkHistory "4.15.1" "4.14.9" UpgradePhaseUpgrading [] (Some 0%Z) None None None].
Definition demo_up_env (t : Time) X (e : Eff X) (u : unit) : X * unit :=
  match e in Eff X return X * unit with
  | Now => (t, u)
  | GetConfigMap _ _ => (Ok ∅, u)
  | NewClient _ => (Ok tt, u)
  | AmListSilences => (Ok [], u)
  | AmPostSilence _ _ _ _ _ => (Ok tt, u)
  | PatchCV cv _ => (Ok cv, u)
  | ListMachines _ => (Ok [], u)
  | DeleteMachineSet _ => (Ok tt, u)
  | GetMachineConfigPool _ => (Ok (mkMCP 10 3), u)
  | e' => demo_health_env _ e' u
  end.
Definition demo_up_yaml : Yaml upgraderConfig := fun _ => Ok demo_cfg.
Definition demo_upgrader : clusterUpgrader := osdUpgrader demo_cfg [].
Definition demo_no_notifier : M (result Notifier) := mret (Err (ErrSentinel ErrNoNotifierConfigured)).
Definition demo_UpgradeCluster (t : Time) :=
  run (demo_up_env t) (@UpgradeCluster substringRegexp plainSemver demo_quiet_em demo_no_notifier demo_upgrader demo_up_uc) tt.
Definition demo_target_map : Target := mkTarget "managed-upgrade-operator-config" "muo" "config.yaml".

Definition patches (ob : obs Eff) : bool := match ob_event ob with PatchCV _ _ => true | _ => false end.
Fixpoint beforePatch (tr : list (obs Eff)) : nat :=
  match tr with [] => 0 | ob :: rest => if patches ob then 0 else S (beforePatch rest) end.
Definition demo_commence := demo_UpgradeCluster 0%Z.
Definition demo_before : list (obs Eff) := take (beforePatch demo_commence.1.1) demo_commence.1.1.

Lemma commences_only_after_gates_witness :
  Forall (@answeredTrue demo_up_uc demo_before)
    (@gates substringRegexp plainSemver demo_quiet_em demo_no_notifier demo_upgrader) /\
  exists uc1, same_but_conditions demo_up_uc uc1 /\ preCheckPassed demo_cfg true uc1 demo_before.
Proof.
  assert (exists x, demo_commence.1.1 !! beforePatch demo_commence.1.1 = Some x /\ isPatch x) as (x & Hx & Hp).
  { eexists. split; [vm_compute; reflexivity|]. intros []. }
  eapply (@commences_only_after_gates substringRegexp plainSemver demo_quiet_em demo_up_yaml demo_no_notifier
    demo_target_map OSD _ demo_upgrader demo_up_uc demo_commence.1.1 demo_commence.1.2 demo_before x _).
  - assert ((run (demo_up_env 0) (@upgraders_NewClient demo_up_yaml demo_target_map OSD) tt).1.2 = Done (Ok demo_upgrader))
      as <- by (vm_compute; reflexivity).
    exact (run_exec (demo_up_env 0) (@upgraders_NewClient demo_up_yaml demo_target_map OSD) tt).
  - eexists. reflexivity.
  - exact (run_exec (demo_up_env 0) _ tt).
  - symmetry. exact (take_drop_middle _ _ _ Hx).
  - exact Hp.
Defined.

Definition demo_late := demo_UpgradeCluster (10000 * Second).
Lemma fails_only_after_window_witness :
  demo_late.1.2 = Done (demo_up_uc, UpgradePhaseFailed, None) /\ @failure_announced demo_quiet_em demo_late.1.1.
Proof.
  assert (demo_late.1.2 = Done (demo_up_uc, UpgradePhaseFailed, None)) as H by (vm_compute; reflexivity).
  split; [exact H|].
  refine (proj1 (proj2 (proj2 (@fails_only_after_window substringRegexp plainSemver demo_quiet_em demo_no_notifier
    demo_upgrader demo_up_uc _ demo_late.1.1 demo_up_uc None eq_refl eq_refl _)))).
  rewrite <- H. exact (run_exec (demo_up_env (10000 * Second)) _ tt).
Defined.

Definition demo_window := run (demo_up_env 0) (CreateWorkerMaintWindow demo_cfg demo_up_uc) tt.
Lemma worker_window_covers_drains_witness :
  worker_window demo_cfg demo_up_uc 7 = (7 * (60 + 8) * Minute)%Z /\
  window_of demo_cfg demo_up_uc demo_window.1.1 (7 * (60 + 8) * Minute)%Z.
Proof.
  split; [vm_compute; reflexivity|].
  eapply (worker_window_covers_drains demo_cfg demo_up_uc demo_window.1.1 demo_window.1.2).
  - apply IsValid_spec. vm_compute. reflexivity.
  - vm_compute. discriminate.
  - exact (run_exec (demo_up_env 0) _ tt).
  - apply (list_elem_of_lookup_2 _ 5). vm_compute. reflexivity.
Defined.
