(* ===== verification/Validation.v ===== *)
(** * Validation of UpgradeConfigs (pkg/validation)

    An UpgradeConfig is actioned only when it names a release image whose
    manifest can be fetched, or a version above the current one that the update
    service (or the ClusterVersion) knows.  The validator writes the version of
    an image back into the resource, which it gives back with its result. *)

From stdpp Require Import base gmap strings list.
From Stdlib Require Import ZArith Lia Ascii.
From S2P Require Import Prelude GoTime Api Effects Config Interfaces ClusterVersion.

(** ** Code outside the sources *)

(** Image references (openshift/library-go): the parts and the error. *)
Record DockerImageReference := mkImageReference {
  ref_Registry : string; ref_Namespace : string; ref_Name : string; ref_ID : string }.
Class ImageParse := image_Parse : string -> DockerImageReference * option error.

(** The JSON documents of the registry: the digest of the config in a manifest
    and the labels in an image config; [None] for a nil pointer. *)
Class RegistryJson := {
  manifest_Digest : string -> result (option string);
  image_Labels : string -> result (option (gmap string string));
}.

(** [uuid.Parse] (google/uuid), giving the id by its [String()]. *)
Class UuidParse := uuid_Parse : string -> result string.

(** ** Configuration (config.go) *)

Record ValidationConfig := mkValidationConfig { cfg_Cincinnati : bool }.
#[export] Instance ValidationConfig_IsValid : ConfigValidator ValidationConfig := fun _ => None.

(** ** Data *)

Record ValidatorResult := mkValidatorResult {
  vr_IsValid : bool; IsAvailableUpdate : bool; vr_Message : string }.

Inductive VersionComparison := VersionUnknown | VersionDowngrade | VersionEqual | VersionUpgrade.

Definition defaultUpstreamServer : string := "https://api.openshift.com/api/upgrades_info/v1/graph".

(** ** URLs (net/url): [URL.String] for an https URL without query *)

Definition hexDigit (n : nat) : ascii := ascii_of_nat (if Nat.ltb n 10 then 48 + n else 55 + n).
Definition percent (c : ascii) : string :=
  let n := nat_of_ascii c in String "%" (String (hexDigit (n / 16)) (String (hexDigit (n mod 16)) "")).

Fixpoint charIn (c : ascii) (s : string) : bool :=
  match s with EmptyString => false | String d s' => Ascii.eqb c d || charIn c s' end.
Definition unreserved (c : ascii) : bool :=
  let n := nat_of_ascii c in
  (Nat.leb 97 n && Nat.leb n 122) || (Nat.leb 65 n && Nat.leb n 90) || (Nat.leb 48 n && Nat.leb n 57) ||
  charIn c "-_.~".
Fixpoint escape (allowed : string) (s : string) : string :=
  match s with
  | EmptyString => EmptyString
  | String c s' =>
      if unreserved c || charIn c allowed then String c (escape allowed s') else percent c +:+ escape allowed s'
  end.
Definition escapePath : string -> string := escape "$&+,/:;=@".
Definition escapeHost : string -> string := escape ("!$&'()*+,;=:[]<>" +:+ dq).

Definition httpsURL (host path : string) : string :=
  "https://" +:+ escapeHost host +:+ (if String.eqb host "" then "" else "/") +:+ escapePath path.

Section Validation.
Context {semver : Semver} {urlparse : UrlParse} {imageparse : ImageParse} {json : RegistryJson} {uuid : UuidParse}.

(** ** Images *)

(** A request to the registry.  A URL that does not parse ends the process. *)
Definition runHTTP (url : string) : M (result string) :=
  match url_Parse url with
  | Err _ => Panic "log.Fatal"
  | Ok _ =>
      r ← call (HttpGet (20 * Second) url);
      mret match r with
           | Err getErr => Err getErr
           | Ok (status, body) =>
               if negb (status =? 200)%Z then Err (ErrText "return code is not 200") else Ok body
           end
  end.

(** The body, unless it is empty (as it is with every error). *)
Definition bodyOf (r : result string) : string := match r with Ok body => body | Err _ => "" end.

Definition fetchImageVersion (image : string) : M (result string) :=
  let ref := (image_Parse image).1 in
  let manifesturl := httpsURL (ref_Registry ref)
    ("v2" +:+ "/" +:+ ref_Namespace ref +:+ "/" +:+ ref_Name ref +:+ "/" +:+ "manifests" +:+ "/" +:+ ref_ID ref) in
  r ← runHTTP manifesturl;
  let body := bodyOf r in
  if String.eqb body "" then
    mret (Err (ErrText ("failed to fetch image manifest digest: " +:+ image +:+ " needs to be a valid release image")))
  else
    manifest ←? mret (manifest_Digest body);
    digest ← deref manifest;
    let bloburl := httpsURL (ref_Registry ref)
      ("v2" +:+ "/" +:+ ref_Namespace ref +:+ "/" +:+ ref_Name ref +:+ "/" +:+ "blobs" +:+ "/" +:+ digest) in
    r ← runHTTP bloburl;
    let resbody := bodyOf r in
    if String.eqb resbody "" then
      mret (Err (ErrText ("failed to fetch blobs for image manifest digest: " +:+ image +:+
                          " needs to be a valid release image")))
    else
      imageConfig ←? mret (image_Labels resbody);
      labels ← deref imageConfig;
      mret (Ok (default "" (labels !! "io.openshift.release"))).

(** The loop over the histories as they were before it: each one in phase New
    takes the version and overwrites the first history. *)
Fixpoint renameNewHistories (hs : list UpgradeHistory) (upgradeConfig : UpgradeConfig)
    : M (UpgradeConfig * option error) :=
  match hs with
  | [] => mret (upgradeConfig, None)
  | h :: rest =>
      if bool_decide (Phase h = UpgradePhaseNew) then
        match History upgradeConfig with
        | [] => Panic "index out of range"
        | _ :: tl =>
            let upgradeConfig := set_History (set_Version (ucVersionOf upgradeConfig) h :: tl) upgradeConfig in
            r ← call (StatusUpdate upgradeConfig);
            match r with
            | Err err => mret (upgradeConfig, Some err)
            | Ok upgradeConfig => renameNewHistories rest upgradeConfig
            end
        end
      else renameNewHistories rest upgradeConfig
  end.

Definition updateImageVersion (v : string) (upgradeConfig : UpgradeConfig) : M (UpgradeConfig * option error) :=
  let upgradeConfig := set_desired_Version v upgradeConfig in
  r ← call (UpdateUpgradeConfig upgradeConfig);
  match r with
  | Err err => mret (upgradeConfig, Some err)
  | Ok upgradeConfig =>
      match GetHistory (History upgradeConfig) (ucVersionOf upgradeConfig) with
      | None => renameNewHistories (History upgradeConfig) upgradeConfig
      | Some _ => mret (upgradeConfig, None)
      end
  end.

Definition imageValidation (image : string) : option error :=
  let '(ref, err) := image_Parse image in
  let missing what := Some (ErrText ("failed to parse image:" +:+ image +:+
                                     " must be a valid image pull spec: no " +:+ what +:+ " specified")) in
  match err with
  | Some err => Some (ErrText ("failed to parse image " +:+ image +:+ ": must be a valid image pull spec:" +:+ error_msg err))
  | None =>
      if String.eqb (ref_Registry ref) "" then missing "registry"
      else if String.eqb (ref_Namespace ref) "" then missing "repository"
      else if String.eqb (ref_Name ref) "" then missing "image name"
      else if String.eqb (ref_ID ref) "" then missing "image digest"
      else None
  end.

(** ** Versions *)

Definition compareVersions (dV cV : SemVersion) : VersionComparison * option error :=
  let result := Compare dV cV in
  if (result =? -1)%Z then (VersionDowngrade, None)
  else if (result =? 0)%Z then (VersionEqual, None)
  else if (result =? 1)%Z then (VersionUpgrade, None)
  else (VersionUnknown, Some (ErrText ("semver comparison failed for unknown reason. Versions " +:+
          semver_String dV +:+ " & " +:+ semver_String cV))).

(** [(valid, available, err)]. *)
Definition versionValidation (ucVersion : string) (cV : ClusterVersion) : M (bool * bool * option error) :=
  match semver_Parse ucVersion with
  | Err err =>
      mret (false, false, Some (ErrText ("failed to parse upgrade config desired version " +:+ ucVersion +:+
                                         " as semver: " +:+ error_msg err)))
  | Ok parsedUcVersion =>
      r ← GetCurrentVersion cV;
      mret match r with
      | Err err => (false, false, Some (ErrText ("failed to get current cluster version during validation: " +:+ error_msg err)))
      | Ok cvVersion =>
          match semver_Parse cvVersion with
          | Err err => (false, false, Some (ErrText ("failed to parse current cluster version " +:+ cvVersion +:+
                                                     " as semver: " +:+ error_msg err)))
          | Ok parsedCvVersion =>
              match compareVersions parsedUcVersion parsedCvVersion with
              | (_, Some err) => (false, false, Some (ErrText ("failed to compare versions: " +:+ error_msg err)))
              | (VersionUnknown, None) =>
                  (false, false, Some (ErrText ("desired version " +:+ ucVersion +:+ " and current version " +:+
                                                cvVersion +:+ " could not be compared")))
              | (VersionDowngrade, None) =>
                  (true, false, Some (ErrText ("downgrades to desired version " +:+ ucVersion +:+ " from " +:+
                                               cvVersion +:+ " are unsupported")))
              | (VersionEqual, None) =>
                  (true, false, Some (ErrText ("desired version " +:+ ucVersion +:+
                                               " matches the current version " +:+ cvVersion)))
              | (VersionUpgrade, None) => (true, true, None)
              end
          end
      end
  end.

(** ** The update service *)

Definition getUpstreamURL (cV : ClusterVersion) : string :=
  if String.eqb (cv_Upstream cV) "" then defaultUpstreamServer else cv_Upstream cV.

(** The errors of the current version are ignored: the zero version is 0.0.0. *)
Definition currentVersionText (cV : ClusterVersion) : M (string * string) :=
  r ← GetCurrentVersion cV;
  let cvVersion := match r with Ok v => v | Err _ => "" end in
  mret (cvVersion, match semver_Parse cvVersion with Ok v => semver_String v | Err _ => "0.0.0" end).

(** None of the updates of the answer is forced. *)
Definition fetchCVOUpdates (cV : ClusterVersion) (uc : UpgradeConfig) : M (result (list Release)) :=
  clusterId ←? mret (uuid_Parse (cv_ClusterID cV));
  upstreamURI ←? mret (url_Parse (getUpstreamURL cV));
  current ← currentVersionText cV;
  let '(cvVersion, parsedCvVersion) := (current : string * string) in
  updates ←? call (CincinnatiGetUpdates clusterId upstreamURI (desired_Channel (Desired (Spec uc))) parsedCvVersion);
  let cvoUpdates := updates.1 ++ updates.2 in
  if Nat.ltb 0 (length cvoUpdates) then mret (Ok cvoUpdates)
  else mret (Err (ErrText ("no available upgrade for the given clusterversion " +:+ cvVersion))).

Definition hasVersion (version : string) (updates : list Release) : bool :=
  existsb (fun u => String.eqb (rel_Version u) version) updates.

Definition channelValidation (uC : UpgradeConfig) (cvoUpdates : list Release) : option error :=
  if hasVersion (ucVersionOf uC) cvoUpdates then None
  else Some (ErrText ("cannot find version " +:+ ucVersionOf uC +:+ " in available updates")).

(** ** The validator *)

Definition validationPassed : ValidatorResult := mkValidatorResult true true "Upgrade config is valid".
Definition validationFailed (err : error) : ValidatorResult * option error :=
  (mkValidatorResult false false (error_msg err), Some err).

(** The branch of a specified image. *)
Definition validateImage (uC : UpgradeConfig) : M (UpgradeConfig * (ValidatorResult * option error)) :=
  let ucImage := desired_Image (Desired (Spec uC)) in
  r ← fetchImageVersion ucImage;
  match r with
  | Err err => mret (uC, validationFailed err)
  | Ok digestVersion =>
      u ← (if negb (String.eqb digestVersion (ucVersionOf uC)) then updateImageVersion digestVersion uC
           else mret (uC, None) : M (UpgradeConfig * option error));
      let '(uC, err) := (u : UpgradeConfig * option error) in
      match err with
      | Some err => mret (uC, validationFailed err)
      | None =>
          match imageValidation ucImage with
          | Some err => mret (uC, validationFailed err)
          | None => mret (uC, (validationPassed, None))
          end
      end
  end.

(** The branch of a channel and a version, after the version is known to be an
    upgrade: other channels ask the update service, the current one the
    ClusterVersion. *)
Definition validateEdge (cincinnati : bool) (uC : UpgradeConfig) (cV : ClusterVersion)
    : M (ValidatorResult * option error) :=
  let ucChannel := desired_Channel (Desired (Spec uC)) in
  edge ← (if cincinnati && negb (String.eqb ucChannel (cv_Channel cV)) then
            cvoUpdates ←? fetchCVOUpdates cV uC;
            mret match channelValidation uC cvoUpdates with Some err => Err err | None => Ok tt end
          else mret (Ok tt) : M (result unit));
  match edge with
  | Err err => mret (validationFailed err)
  | Ok _ =>
      if String.eqb ucChannel (cv_Channel cV) then
        let updateAvailable := hasVersion (ucVersionOf uC) (AvailableUpdates cV) ||
                               hasVersion (ucVersionOf uC) (ConditionalUpdates cV) in
        if negb updateAvailable
        then mret (mkValidatorResult false false ("version " +:+ ucVersionOf uC +:+
                     " not found in clusterversion available or conditional updates"), None)
        else mret (validationPassed, None)
      else mret (validationPassed, None)
  end.

(** The resource, the result and the error. *)
Definition IsValidUpgradeConfig (cincinnati : bool) (uC : UpgradeConfig) (cV : ClusterVersion)
    : M (UpgradeConfig * (ValidatorResult * option error)) :=
  let desired := Desired (Spec uC) in
  match parseRFC3339 (UpgradeAt (Spec uC)) with
  | Err err =>
      mret (uC, (mkValidatorResult false false ("Failed to parse upgradeAt:" +:+ UpgradeAt (Spec uC) +:+
                   " during validation"), Some err))
  | Ok _ =>
      if negb (String.eqb (desired_Image desired) "") then validateImage uC
      else if String.eqb (desired_Version desired) "" && String.eqb (desired_Channel desired) "" then
        mret (uC, (mkValidatorResult false false
          "Not able to validate the upgrade config, either image or (channel + version) needs to be provided", None))
      else
        v ← versionValidation (desired_Version desired) cV;
        let '(versionValid, versionAvailable, err) := (v : bool * bool * option error) in
        match err with
        | Some err => mret (uC, (mkValidatorResult versionValid versionAvailable (error_msg err), Some err))
        | None => r ← validateEdge cincinnati uC cV; mret (uC, r)
        end
  end.

(** ** Building a validator *)

Context {yaml : Yaml ValidationConfig}.

Definition validation_NewClient (target : Target) : M (result bool) :=
  cfg ←? Into target;
  mret (Ok (cfg_Cincinnati cfg)).

End Validation.

(** ** Lemmas *)

Lemma latestCompleted_pure hs v o : (exists r, latestCompleted hs v o = Ret r) \/ exists m, latestCompleted hs v o = Panic m.
Proof.
  revert v o. induction hs as [|h hs IH]; intros v o; cbn; [eauto|].
  destruct (uh_State h); try apply IH. destruct o as [t0|]; [|apply IH].
  destruct (CompletionTime h) as [t|]; cbn; [|eauto]. destruct (After t t0); apply IH.
Qed.

(** Reading the current version of a ClusterVersion performs no event. *)
Lemma GetCurrentVersion_pure cV : (exists r, GetCurrentVersion cV = Ret r) \/ exists m, GetCurrentVersion cV = Panic m.
Proof.
  unfold GetCurrentVersion. destruct (latestCompleted_pure (cv_History cV) "" None) as [[r ->]|[m ->]]; cbn; eauto.
Qed.

Definition accepted (r : ValidatorResult * option error) : Prop :=
  vr_IsValid r.1 = true /\ IsAvailableUpdate r.1 = true /\ r.2 = None.

Lemma validationFailed_not_accepted err : ~ accepted (validationFailed err).
Proof. by intros (? & _). Qed.
Lemma validationPassed_accepted : accepted (validationPassed, None).
Proof. done. Qed.

Section Lemmas.
Context {semver : Semver} {urlparse : UrlParse} {imageparse : ImageParse} {json : RegistryJson} {uuid : UuidParse}.

(** The desired version is above the version the cluster is at. *)
Definition isUpgrade (uC : UpgradeConfig) (cV : ClusterVersion) : Prop :=
  exists current desiredV currentV, semver_Parse (ucVersionOf uC) = Ok desiredV /\
    GetCurrentVersion cV = Ret (Ok current) /\ semver_Parse current = Ok currentV /\ Compare desiredV currentV = 1%Z.

Lemma versionValidation_wp uC cV :
  wp (versionValidation (ucVersionOf uC) cV) (fun tr o => tr = [] /\ forall valid available err,
    o = Done (valid, available, err) ->
    (err = None <-> isUpgrade uC cV) /\ (err <> None -> available = false)).
Proof.
  assert (forall (valid : bool) (e : error), ~ isUpgrade uC cV -> forall (valid' available' : bool) (err : option error),
    Done (valid, false, Some e) = Done (valid', available', err) ->
    (err = None <-> isUpgrade uC cV) /\ (err <> None -> available' = false)) as Hno.
  { intros valid e Hn ? ? ? [= <- <- <-]. split; [|done]. by split. }
  unfold versionValidation. destruct (semver_Parse (ucVersionOf uC)) as [dv|e] eqn:Ed; wp_cbn.
  2: { split; [done|]. apply Hno. intros (? & ? & ? & ? & _). congruence. }
  destruct (GetCurrentVersion_pure cV) as [[r Hr]|[m Hr]]; rewrite Hr; wp_cbn; (split; [done|]); [|done].
  destruct r as [current|e]; [|apply Hno; intros (? & ? & ? & _ & Hc & _); rewrite Hr in Hc; congruence].
  destruct (semver_Parse current) as [cv|e] eqn:Ec;
    [|apply Hno; intros (? & ? & ? & _ & Hc & Hp & _); rewrite Hr in Hc; injection Hc as <-; congruence].
  assert (isUpgrade uC cV <-> Compare dv cv = 1%Z) as Hup.
  { split; [|intros H; by exists current, dv, cv]. intros (? & ? & ? & H1 & H2 & H3 & H4).
    rewrite Hr in H2. injection H2 as <-. congruence. }
  unfold compareVersions. destruct (Z.eqb_spec (Compare dv cv) (-1)); [apply Hno; rewrite Hup; lia|].
  destruct (Z.eqb_spec (Compare dv cv) 0); [apply Hno; rewrite Hup; lia|].
  destruct (Z.eqb_spec (Compare dv cv) 1); [|apply Hno; rewrite Hup; lia].
  intros ? ? ? [= <- <- <-]. split; [|done]. by rewrite Hup.
Qed.

(** The one answer of the update service in a trace: its channel and updates. *)
Definition updatesOf (tr : list (obs Eff)) : option (string * list Release) :=
  match tr with
  | [ob] =>
      match ob_event ob in Eff X return X -> option (string * list Release) with
      | CincinnatiGetUpdates _ _ channel _ =>
          fun r => match r with Ok (updates, conditional) => Some (channel, updates ++ conditional) | Err _ => None end
      | _ => fun _ => None
      end (ob_resp ob)
  | _ => None
  end.

(** The edge to the version is known: to the ClusterVersion on its own channel,
    to the update service (if it is asked) on another one. *)
Definition edgeKnown (cincinnati : bool) (uC : UpgradeConfig) (cV : ClusterVersion) (tr : list (obs Eff)) : Prop :=
  let channel := desired_Channel (Desired (Spec uC)) in
  if String.eqb channel (cv_Channel cV)
  then exists u, u ∈ AvailableUpdates cV ++ ConditionalUpdates cV /\ rel_Version u = ucVersionOf uC
  else if cincinnati
  then exists us u, updatesOf tr = Some (channel, us) /\ u ∈ us /\ rel_Version u = ucVersionOf uC
  else True.

Lemma hasVersion_spec version us : hasVersion version us = true <-> exists u, u ∈ us /\ rel_Version u = version.
Proof.
  unfold hasVersion. rewrite existsb_exists. split; intros (u & H1 & H2); exists u;
    [apply list_elem_of_In in H1; by apply String.eqb_eq in H2|apply list_elem_of_In in H1; by rewrite H2, String.eqb_refl].
Qed.

Lemma fetchCVOUpdates_wp cV uC :
  wp (fetchCVOUpdates cV uC) (fun tr o => match o with
    | Done (Ok us) => updatesOf tr = Some (desired_Channel (Desired (Spec uC)), us)
    | Done (Err _) => forall c us, updatesOf tr = Some (c, us) -> us = []
    | Crash _ => True
    end).
Proof.
  unfold fetchCVOUpdates, currentVersionText.
  destruct (uuid_Parse (cv_ClusterID cV)) as [id|e]; wp_cbn; [|done].
  destruct (url_Parse (getUpstreamURL cV)) as [url|e]; wp_cbn; [|done].
  destruct (GetCurrentVersion_pure cV) as [[r ->]|[m ->]]; wp_cbn; [|done]. intros [[us cs]|e]; wp_cbn; cbn [fst snd]; [|done].
  destruct (us ++ cs) as [|u l] eqn:E; cbn [length Nat.ltb Nat.leb]; wp_cbn; cbn; [|by rewrite E].
  intros c us' [= _ <-]. exact E.
Qed.

Lemma validateEdge_wp cincinnati uC cV :
  wp (validateEdge cincinnati uC cV) (fun tr o => forall r, o = Done r -> accepted r <-> edgeKnown cincinnati uC cV tr).
Proof.
  unfold validateEdge, edgeKnown. cbn zeta. set (channel := desired_Channel _).
  destruct (String.eqb_spec channel (cv_Channel cV)) as [Hc|Hc]; cbn [negb].
  - assert (hasVersion (ucVersionOf uC) (AvailableUpdates cV) || hasVersion (ucVersionOf uC) (ConditionalUpdates cV) =
      hasVersion (ucVersionOf uC) (AvailableUpdates cV ++ ConditionalUpdates cV)) as -> by (symmetry; apply existsb_app).
    pose proof (hasVersion_spec (ucVersionOf uC) (AvailableUpdates cV ++ ConditionalUpdates cV)) as Hs.
    destruct cincinnati; cbn [andb]; wp_cbn;
      (destruct (hasVersion _ _); cbn [negb]; wp_cbn; intros r [= <-]; rewrite <- Hs; [done|split; [by intros (? & _)|done]]).
  - destruct cincinnati; cbn [andb]; [|wp_cbn; by intros r [= <-]].
    apply wp_bind, wp_bindr. eapply wp_mono; [apply fetchCVOUpdates_wp|]. fold channel.
    intros t [[us|e]|m] H; [| |done].
    + unfold channelValidation. destruct (hasVersion (ucVersionOf uC) us) eqn:E; wp_cbn; intros r [= <-]; rewrite !app_nil_r.
      * apply hasVersion_spec in E as (u & Hu & Hv). split; [intros _|done]. by exists us, u.
      * split; [by intros (? & _)|]. intros (us' & u & Hus & Hu & Hv). rewrite H in Hus. injection Hus as <-.
        assert (hasVersion (ucVersionOf uC) us = true) as Ht; [|congruence]. apply hasVersion_spec. by exists u.
    + wp_cbn. intros r [= <-]. rewrite app_nil_r. split; [by intros ?%validationFailed_not_accepted|].
      intros (us' & u & Hus & Hu & Hv). rewrite (H _ _ Hus) in Hu. by apply elem_of_nil in Hu.
Qed.

(** What makes a versioned UpgradeConfig acceptable. *)
Definition acceptable (cincinnati : bool) (uC : UpgradeConfig) (cV : ClusterVersion) (tr : list (obs Eff)) : Prop :=
  is_ok (parseRFC3339 (UpgradeAt (Spec uC))) = true /\
  ~ (ucVersionOf uC = "" /\ desired_Channel (Desired (Spec uC)) = "") /\
  isUpgrade uC cV /\ edgeKnown cincinnati uC cV tr.

Lemma IsValidUpgradeConfig_version_wp cincinnati uC cV :
  desired_Image (Desired (Spec uC)) = "" ->
  wp (IsValidUpgradeConfig cincinnati uC cV) (fun tr o => forall uC' r, o = Done (uC', r) ->
    uC' = uC /\ (accepted r <-> acceptable cincinnati uC cV tr)).
Proof.
  intros Hi. unfold IsValidUpgradeConfig, acceptable. cbn zeta. rewrite Hi. cbn [String.eqb negb].
  destruct (parseRFC3339 _) as [t|e]; cbn [is_ok]; wp_cbn.
  2: { intros uC' r [= <- <-]. split; [done|]. split; [by intros (? & _)|by intros (? & _)]. }
  fold (ucVersionOf uC). set (channel := desired_Channel _).
  destruct (String.eqb (ucVersionOf uC) "" && String.eqb channel "") eqn:E; wp_cbn.
  { intros uC' r [= <- <-]. split; [done|]. split; [by intros (? & _)|]. intros (_ & Hn & _). destruct Hn.
    apply andb_prop in E as [?%String.eqb_eq ?%String.eqb_eq]. done. }
  assert (~ (ucVersionOf uC = "" /\ channel = "")) as Hne.
  { intros [H1 H2]. rewrite H1, H2 in E. done. }
  apply wp_bind. eapply wp_mono; [apply versionValidation_wp|]. intros t0 [[[valid available] err]|m] [-> H]; [|done].
  destruct (H _ _ _ eq_refl) as [Hup Hav]. destruct err as [err|]; wp_cbn.
  - intros uC' r [= <- <-]. split; [done|]. split; [by intros (_ & _ & ?)|].
    intros (_ & _ & Hu & _). by apply Hup in Hu.
  - apply wp_bind. eapply wp_mono; [apply validateEdge_wp|]. intros t1 [r|m] Hr; [|done]. wp_cbn.
    intros uC' r' [= <- <-]. rewrite app_nil_r. split; [done|]. rewrite (Hr _ eq_refl). tauto.
Qed.

(** *** Images *)

(** The registry answered 200 with a body that is not empty. *)
Definition served (ob : obs Eff) (body : string) : Prop :=
  body <> "" /\ exists url, ob = Obs (HttpGet (20 * Second) url) (Ok (200%Z, body)).

(** The image's manifest and config were fetched; the release label is [v]. *)
Definition imageFetched (tr : list (obs Eff)) (v : string) : Prop :=
  exists ob1 ob2 body1 body2 digest labels, tr = [ob1; ob2] /\ served ob1 body1 /\ served ob2 body2 /\
    manifest_Digest body1 = Ok (Some digest) /\ image_Labels body2 = Ok (Some labels) /\
    v = default "" (labels !! "io.openshift.release").

Lemma runHTTP_wp url :
  wp (runHTTP url) (fun tr o => forall r, o = Done r -> bodyOf r <> "" -> exists ob, tr = [ob] /\ served ob (bodyOf r)).
Proof.
  unfold runHTTP. destruct (url_Parse url); wp_cbn; [|done]. intros [[st body]|e]; wp_cbn; intros r [= <-]; [|done].
  destruct (Z.eqb_spec st 200) as [->|]; cbn [negb bodyOf]; [|done]. intros Hb. eexists; split; [done|]. split; [done|]. by eexists.
Qed.

Lemma fetchImageVersion_wp image :
  wp (fetchImageVersion image) (fun tr o => forall v, o = Done (Ok v) -> imageFetched tr v).
Proof.
  unfold fetchImageVersion. cbn zeta. apply wp_bind. eapply wp_mono; [apply runHTTP_wp|].
  intros t1 [r1|m] H1; [|done]. destruct (String.eqb_spec (bodyOf r1) "") as [|Hb1]; wp_cbn; [done|].
  destruct (H1 r1 eq_refl Hb1) as (ob1 & -> & Hs1). destruct (manifest_Digest (bodyOf r1)) as [[d|]|e] eqn:E1; wp_cbn; try done.
  apply wp_bind. eapply wp_mono; [apply runHTTP_wp|].
  intros t2 [r2|m] H2; [|done]. destruct (String.eqb_spec (bodyOf r2) "") as [|Hb2]; wp_cbn; [done|].
  destruct (H2 r2 eq_refl Hb2) as (ob2 & -> & Hs2). destruct (image_Labels (bodyOf r2)) as [[ls|]|e] eqn:E2; wp_cbn; try done.
  intros v [= <-]. by exists ob1, ob2, (bodyOf r1), (bodyOf r2), d, ls.
Qed.

(** The reference names a registry, a repository, an image and a digest. *)
Definition completeReference (image : string) : Prop :=
  exists ref, image_Parse image = (ref, None) /\
    ref_Registry ref <> "" /\ ref_Namespace ref <> "" /\ ref_Name ref <> "" /\ ref_ID ref <> "".

Lemma imageValidation_spec image : imageValidation image = None <-> completeReference image.
Proof.
  unfold imageValidation, completeReference. destruct (image_Parse image) as [ref [e|]].
  - split; [done|]. by intros (? & [= _ ?] & _).
  - destruct (String.eqb_spec (ref_Registry ref) ""); [split; [done|intros (? & [= <-] & ?); tauto]|].
    destruct (String.eqb_spec (ref_Namespace ref) ""); [split; [done|intros (? & [= <-] & ?); tauto]|].
    destruct (String.eqb_spec (ref_Name ref) ""); [split; [done|intros (? & [= <-] & ?); tauto]|].
    destruct (String.eqb_spec (ref_ID ref) ""); [split; [done|intros (? & [= <-] & ?); tauto]|].
    split; [intros _; by exists ref|done].
Qed.

Definition statusUpdated (ob : obs Eff) : Prop := exists uc uc', ob = Obs (StatusUpdate uc) (Ok uc').

Lemma renameNewHistories_wp hs uC :
  wp (renameNewHistories hs uC) (fun tr o => forall uC', o = Done (uC', None) ->
    Forall statusUpdated tr /\ (Forall (fun h => Phase h <> UpgradePhaseNew) hs -> tr = [] /\ uC' = uC)).
Proof.
  revert uC. induction hs as [|h hs IH]; intros uC; cbn [renameNewHistories]; [by wp_cbn; intros ? [= <-]|].
  case_bool_decide as Hp.
  - destruct (History uC); wp_cbn; [done|]. intros [uC1|e]; wp_cbn; [|done].
    eapply wp_mono; [apply IH|]. intros tr o H uC' Ho. destruct (H uC' Ho) as [Hf _].
    split; [constructor; [by eexists _, _|done]|]. intros Hn. by apply Forall_cons in Hn as [? _].
  - eapply wp_mono; [apply IH|]. intros tr o H uC' Ho. destruct (H uC' Ho) as [Hf Hn]. split; [done|].
    intros [_ ?]%Forall_cons. auto.
Qed.

(** The image's version is written back: the resource is updated, and then the
    first history is replaced for every history in phase New when none has the
    version. *)
Definition versionWritten (v : string) (uC uC' : UpgradeConfig) (tr : list (obs Eff)) : Prop :=
  exists uC1 rest, tr = Obs (UpdateUpgradeConfig (set_desired_Version v uC)) (Ok uC1) :: rest /\
    Forall statusUpdated rest /\
    (Forall (fun h => Phase h <> UpgradePhaseNew) (History uC1) -> rest = [] /\ uC' = uC1).

Lemma updateImageVersion_wp v uC :
  wp (updateImageVersion v uC) (fun tr o => forall uC', o = Done (uC', None) -> versionWritten v uC uC' tr).
Proof.
  unfold updateImageVersion, versionWritten. wp_cbn. intros [uC1|e]; wp_cbn; [|done].
  destruct (GetHistory _ _); wp_cbn.
  - intros uC' [= <-]. by exists uC1, [].
  - eapply wp_mono; [apply renameNewHistories_wp|]. intros tr o H uC' Ho. destruct (H uC' Ho). by exists uC1, tr.
Qed.

Lemma validateImage_wp uC :
  let image := desired_Image (Desired (Spec uC)) in
  wp (validateImage uC) (fun tr o => forall uC' r, o = Done (uC', r) -> (accepted r \/ r.2 <> None) /\
    (accepted r -> completeReference image /\ exists t1 t2 v, tr = t1 ++ t2 /\ imageFetched t1 v /\
       if String.eqb v (ucVersionOf uC) then t2 = [] /\ uC' = uC else versionWritten v uC uC' t2)).
Proof.
  cbn zeta. unfold validateImage. cbn zeta. set (image := desired_Image _).
  assert (forall err (P : Prop), (accepted (validationFailed err) \/ (validationFailed err).2 <> None) /\
    (accepted (validationFailed err) -> P)) as Hno.
  { intros err P. split; [by right|]. by intros ?%validationFailed_not_accepted. }
  apply wp_bind. eapply wp_mono; [apply fetchImageVersion_wp|]. intros t1 [[v|e]|m] H1; [| |done].
  2: { wp_cbn. intros uC' r [= <- <-]. apply Hno. }
  specialize (H1 v eq_refl). apply wp_bind. destruct (String.eqb v (ucVersionOf uC)) eqn:Ev; cbn [negb].
  - wp_cbn. destruct (imageValidation image) eqn:Ei; wp_cbn; intros uC' r [= <- <-]; [apply Hno|].
    split; [by left|]. intros _. split; [by apply imageValidation_spec|]. exists t1, [], v. rewrite Ev. done.
  - eapply wp_mono; [apply updateImageVersion_wp|]. intros t2 [[uC1 [e|]]|m] H2; [| |done]; wp_cbn.
    { intros uC' r [= <- <-]. apply Hno. }
    destruct (imageValidation image) eqn:Ei; wp_cbn; intros uC' r [= <- <-]; [apply Hno|].
    split; [by left|]. intros _. split; [by apply imageValidation_spec|]. exists t1, t2, v. rewrite Ev, app_nil_r. auto.
Qed.

End Lemmas.

(** ** Properties *)

(** C35: an UpgradeConfig without an image is accepted exactly when its schedule
    parses, its version is above the version of the latest completed update, and
    the edge is known to the ClusterVersion on its own channel, to the update
    service on another one; the resource is left alone. *)
Theorem validates_only_known_upgrades {semver : Semver} {urlparse : UrlParse} {imageparse : ImageParse}
    {json : RegistryJson} {uuid : UuidParse} cincinnati uC cV tr uC' r :
  desired_Image (Desired (Spec uC)) = "" ->
  exec (IsValidUpgradeConfig cincinnati uC cV) tr (Done (uC', r)) ->
  uC' = uC /\ (accepted r <-> acceptable cincinnati uC cV tr).
Proof.
  intros Hi Hex. exact (proj1 (wp_exec _ _) (IsValidUpgradeConfig_version_wp cincinnati uC cV Hi) _ _ Hex _ _ eq_refl).
Qed.


(** *** Witnesses *)

Definition demo_imageParse : ImageParse := fun s =>
  (mkImageReference "quay.io" "openshift-release-dev" "ocp-release" "sha256:15", None).
Definition demo_json : RegistryJson :=
  {| manifest_Digest _ := Ok (Some "sha256:cfg");
     image_Labels _ := Ok (Some {["io.openshift.release" := "4.15.1"]}) |}.
Definition demo_uuid : UuidParse := fun s => Ok s.
Definition demo_valid_env X (e : Eff X) (u : unit) : X * unit :=
  match e in Eff X return X * unit with
  | CincinnatiGetUpdates _ _ _ _ => (Ok ([mkRelease "4.15.1" "quay.io/ocp@sha256:15"], []), u)
  | HttpGet _ _ => (Ok (200%Z, "{}"), u)
  | UpdateUpgradeConfig uc => (Ok uc, u)
  | e' => (default_resp e', u)
  end.
Definition demo_validate (uc : UpgradeConfig) :=
  run demo_valid_env (@IsValidUpgradeConfig plainSemver plainUrl demo_imageParse demo_json demo_uuid true uc demo_cv) tt.

(** Another channel: the update service knows the version. *)
Lemma validates_only_known_upgrades_witness :
  (demo_validate demo_target).1.2 = Done (demo_target, (validationPassed, None)) /\
  @acceptable plainSemver true demo_target demo_cv (demo_validate demo_target).1.1.
Proof.
  assert ((demo_validate demo_target).1.2 = Done (demo_target, (validationPassed, None))) as H by (vm_compute; reflexivity).
  split; [exact H|].
  refine (proj1 (proj2 (@validates_only_known_upgrades plainSemver plainUrl demo_imageParse demo_json demo_uuid true
    demo_target demo_cv _ demo_target (validationPassed, None) eq_refl _)) _); [|exact validationPassed_accepted].
  rewrite <- H. exact (run_exec demo_valid_env _ tt).
Defined.

(** An image whose version differs from the one asked for. *)
Definition demo_image_uc : UpgradeConfig :=
  mkUpgradeConfig "managed-upgrade-config" "muo" "1"
    (mkSpec (mkUpdate "" "" "quay.io/ocp@sha256:15") "2024-03-01T10:00:00Z" 60 OSD true)
    [mkHistory "" "4.14.9" UpgradePhasePending [] None None None None].
Definition demo_image_uc' : UpgradeConfig := set_desired_Version "4.15.1" demo_image_uc.

(** The manifest is asked for at the registry's address. *)
Example demo_manifest_url :
  map (fun ob => match ob_event ob with HttpGet _ url => url | _ => "" end) (take 1 (demo_validate demo_image_uc).1.1) =
  ["https://quay.io/v2/openshift-release-dev/ocp-release/manifests/sha256:15"].
Proof. vm_compute. reflexivity. Qed.
