(* ===== verification/Controller.v ===== *)
(** * The UpgradeConfig controller (controllers/upgradeconfig)

    [Reconcile] drives the managed upgrade of one UpgradeConfig through its
    phases.  The upgrader, the validator and the UpgradeConfig manager are used
    through their interfaces, which their builders make. *)

From stdpp Require Import base gmap strings list.
From Stdlib Require Import ZArith Lia Ascii Floats.SpecFloat.
From S2P Require Import Prelude GoTime Api Effects Config Interfaces UpgradeSteps ClusterVersion Scheduler.
From S2P Require Import Metrics SpecProvider UpgradeConfigManager Notifier EventManager Upgraders Validation.

(** ** Configuration (config.go) *)

Record controllerConfig := mkControllerConfig {
  cc_TimeOut : Z; cc_DelayTrigger : Z; cc_Enabled : list string }.

#[export] Instance controllerConfig_IsValid : ConfigValidator controllerConfig := fun cfg =>
  if (cc_TimeOut cfg <? 0)%Z then Some (ErrText "config upgrade window time out is invalid")
  else if (cc_DelayTrigger cfg <? 0)%Z then Some (ErrText "config upgrade window delay trigger is invalid")
  else None.

Definition controller_GetUpgradeWindowTimeOutDuration (cfg : controllerConfig) : Duration :=
  dur_mul (cc_TimeOut cfg) Minute.
Definition GetUpgradeWindowDelayTriggerDuration (cfg : controllerConfig) : Duration :=
  dur_mul (cc_DelayTrigger cfg) Minute.
Definition controller_IsFeatureEnabled (cfg : controllerConfig) (feature : string) : bool :=
  if Nat.ltb 0 (length (cc_Enabled cfg)) then existsb (fun f => String.eqb f feature) (cc_Enabled cfg) else false.

(** config/config.go *)
Definition SyncPeriodDefault : Duration := (5 * Minute)%Z.

(** ** Durations as numbers of minutes *)

(** [d.Minutes()], a float64, and the conversion [time.Duration(f)]. *)
Definition Minutes (d : Duration) : spec_float :=
  fadd (float64 (Z.quot d Minute)) (SFdiv 53 1024 (float64 (Z.rem d Minute)) (float64 Minute)).
Definition ftruncate (f : spec_float) : Z :=
  match f with S754_finite true _ _ => (- ffloor (SFopp f))%Z | _ => ffloor f end.

(** ** Event filters *)

(** The status of an UpgradeConfig is its histories.  [reflect.DeepEqual] also tells
    a nil slice from an empty one and an instant from the same instant in another
    location, which lists and instants do not; both objects come out of the cache,
    decoded from JSON that leaves empty lists out. *)
Definition StatusChangedPredicate_Update (ObjectOld ObjectNew : option UpgradeConfig) : bool :=
  match ObjectOld, ObjectNew with
  | None, _ => false
  | _, None => false
  | Some oldUp, Some newUp => bool_decide (History newUp = History oldUp)
  end.

Definition isManagedUpgrade (name : string) : bool := String.eqb name UPGRADECONFIG_CR_NAME.

(** Both filters have to let an update event pass. *)
Definition filteredUpdate (ObjectOld ObjectNew : option UpgradeConfig) : bool :=
  StatusChangedPredicate_Update ObjectOld ObjectNew &&
  match ObjectNew with Some uc => isManagedUpgrade (uc_Name uc) | None => false end.

(** ** Upgrade results (reportUpgradeMetrics) *)

Fixpoint digits (s : string) : string * string :=
  match s with
  | String c s' =>
      match digit c with Some _ => let '(ds, rest) := digits s' in (String c ds, rest) | None => ("", s) end
  | EmptyString => ("", "")
  end.

(** The group of [[0-9]+\.([0-9]+)\..*] for a match that starts here. *)
Definition minorHere (s : string) : option string :=
  match digits s with
  | ("", _) => None
  | (_, rest) =>
      match rest with
      | String "."%char s' =>
          match digits s' with
          | ("", _) => None
          | (minor, String "."%char _) => Some minor
          | _ => None
          end
      | _ => None
      end
  end.

(** The leftmost match. *)
Fixpoint findMinor (s : string) : option string :=
  match minorHere s with
  | Some minor => Some minor
  | None => match s with String _ s' => findMinor s' | EmptyString => None end
  end.

Definition getMinorUpgrade (precedingVersion version : string) : string :=
  match findMinor version, findMinor precedingVersion with
  | Some v, Some p => if negb (String.eqb v p) then "y" else "z"
  | _, _ => "unknown"
  end.

Definition reportUpgradeMetrics (name precedingVersion version : string) (upgradeStart upgradeEnd : Time)
    : M (option error) :=
  r ← AlertsFromUpgrade upgradeStart upgradeEnd;
  match r with
  | Err err => mret (Some err)
  | Ok upgradeAlerts =>
      _ ← UpdateMetricUpgradeResult name precedingVersion version (getMinorUpgrade precedingVersion version) upgradeAlerts;
      mret None
  end.

(** ** Aggregated errors *)

(** [multierror.Append(err, me)]: aggregates are flattened. *)
Definition multierror_Append (err : option error) (me : list error) : list error :=
  match err with
  | None => me
  | Some (ErrMulti errs) => errs ++ me
  | Some err => err :: me
  end.

(** ** The interfaces of the controller's collaborators *)

(** A versioned UpgradeConfig is validated without a write, and left alone. *)
Class Validator := {
  val_IsValidUpgradeConfig : UpgradeConfig -> ClusterVersion -> M (UpgradeConfig * (ValidatorResult * option error));
  val_version_events uC cV : desired_Image (Desired (Spec uC)) = "" -> all_ev no_uc_write (val_IsValidUpgradeConfig uC cV);
  val_version_result uC cV tr uC' r : desired_Image (Desired (Spec uC)) = "" ->
    exec (val_IsValidUpgradeConfig uC cV) tr (Done (uC', r)) -> uC' = uC;
}.
Arguments val_IsValidUpgradeConfig : clear implicits.

(** A refresh may replace the UpgradeConfig, but writes no status. *)
Class RefreshManager := {
  rm_Refresh : M (result bool);
  rm_Refresh_events : all_ev no_rewrite rm_Refresh;
}.
Arguments rm_Refresh : clear implicits.

Class Builders := {
  NewMetricsClient : M (result unit);
  NewEventManager : M (result EventManager);
  NewUpgrader : EventManager -> Target -> UpgradeType -> M (result ClusterUpgrader);
  NewValidator : Target -> M (result Validator);
  NewUpgradeConfigManager : M (result RefreshManager);
  NewMetricsClient_events : all_ev no_uc_write NewMetricsClient;
  NewEventManager_events : all_ev no_uc_write NewEventManager;
  NewUpgrader_events em target ut : all_ev no_uc_write (NewUpgrader em target ut);
  NewValidator_events target : all_ev no_uc_write (NewValidator target);
  NewUpgradeConfigManager_events : all_ev no_uc_write NewUpgradeConfigManager;
}.

Section Reconcile.
Context {yaml : Yaml controllerConfig} {builders : Builders}.

Definition requeueAfter (d : Duration) : M (ReconcileResult * option error) :=
  mret (mkReconcileResult false d, None).

(** Store the history in the resource and update its status. *)
Definition updateStatus (history : UpgradeHistory) (instance : UpgradeConfig) : M (result UpgradeConfig) :=
  call (StatusUpdate (set_History (SetHistory history (History instance)) instance)).

Definition upgradeCluster (upgrader : ClusterUpgrader) (uc : UpgradeConfig) : M (ReconcileResult * option error) :=
  r ← cu_UpgradeCluster upgrader uc;
  let '(uc, phase, err) := (r : UpgradeConfig * UpgradePhase * option error) in
  let me := multierror_Append err [] in
  history ← deref (GetHistory (History uc) (ucVersionOf uc));
  let history := set_Phase phase history in
  history ← (if bool_decide (phase = UpgradePhaseUpgraded) then t ← now; mret (set_CompleteTime (Some t) history)
             else mret history : M UpgradeHistory);
  r ← updateStatus history uc;
  let me := multierror_Append (match r with Err err => Some err | Ok _ => None end) me in
  mret (mkReconcileResult false Minute, errorOrNil me).

(** The history of a version that has none yet. *)
Definition newHistory (instance : UpgradeConfig) (clusterVersion : ClusterVersion) : M (result UpgradeHistory) :=
  let precedingVersion := GetPrecedingVersion clusterVersion instance in
  r ← HasUpgradeCommenced instance;
  match r with
  | Err err => mret (Err (ErrText ("could not tell if cluster was upgrading: " +:+ error_msg err)))
  | Ok true =>
      t ← now;
      mret (Ok (mkHistory (ucVersionOf instance) precedingVersion UpgradePhaseUpgrading [] (Some t) None None None))
  | Ok false => mret (Ok (mkHistory (ucVersionOf instance) precedingVersion UpgradePhaseNew [] None None None None))
  end.

(** The instance and its history, which is created when it is missing. *)
Definition ensureHistory (instance : UpgradeConfig) (clusterVersion : ClusterVersion)
    : M (result (UpgradeConfig * UpgradeHistory)) :=
  match GetHistory (History instance) (ucVersionOf instance) with
  | Some history => mret (Ok (instance, history))
  | None =>
      history ←? newHistory instance clusterVersion;
      instance ←? call (StatusUpdate (set_History (history :: History instance) instance));
      mret (Ok (instance, history))
  end.

(** Phase New: the health check of an upgrade scheduled far enough ahead. *)
Definition reconcileNew (cfg : controllerConfig) (upgrader : ClusterUpgrader) (instance : UpgradeConfig)
    (history : UpgradeHistory) : M (ReconcileResult * option error) :=
  schedulerResult ← IsReadyToUpgrade instance (controller_GetUpgradeWindowTimeOutDuration cfg);
  let timeToUpgrade := Minutes (TimeUntilUpgrade schedulerResult) in
  let healthCheckDuration := Minutes (GetHealthCheckDuration instance) in
  _ ← (if (ftruncate healthCheckDuration <? ftruncate timeToUpgrade)%Z &&
          controller_IsFeatureEnabled cfg PreHealthCheckFeatureGate
       then r ← cu_HealthCheck upgrader instance; mret tt
       else mret tt : M unit);
  r ← updateStatus (set_Phase UpgradePhasePending history) instance;
  match r with
  | Err err => reconcileError err
  | Ok _ => requeueAfter Minute
  end.

(** A validated upgrade whose time has come. *)
Definition startUpgrade (upgrader : ClusterUpgrader) (instance : UpgradeConfig) (history : UpgradeHistory)
    : M (ReconcileResult * option error) :=
  r ← NewUpgradeConfigManager;
  match r with
  | Err err => reconcileError err
  | Ok ucMgr =>
      r ← rm_Refresh ucMgr;
      match (match r with
             | Ok remoteChanged => Ok remoteChanged
             | Err err => if is_sentinel ErrNotConfigured err then Ok false else Err err
             end : result bool) with
      | Err err => reconcileError err
      | Ok true =>
          r ← updateStatus (set_Phase UpgradePhaseNew history) instance;
          match r with
          | Err err => reconcileError err
          | Ok _ => reconciled
          end
      | Ok false =>
          t ← now;
          let history := set_Version (ucVersionOf instance)
                           (set_StartTime (Some t) (set_Phase UpgradePhaseUpgrading history)) in
          r ← updateStatus history instance;
          match r with
          | Err err => reconcileError err
          | Ok instance => upgradeCluster upgrader instance
          end
      end
  end.

(** Phase Pending: validate, and start when the time has come. *)
Definition reconcilePending (target : Target) (cfg : controllerConfig) (upgrader : ClusterUpgrader)
    (instance : UpgradeConfig) (history : UpgradeHistory) (clusterVersion : ClusterVersion)
    : M (ReconcileResult * option error) :=
  r ← NewValidator target;
  match r with
  | Err err => reconcileError err
  | Ok validator =>
      v ← val_IsValidUpgradeConfig validator instance clusterVersion;
      let '(instance, (validatorResult, err)) := (v : UpgradeConfig * (ValidatorResult * option error)) in
      if negb (vr_IsValid validatorResult) || bool_decide (is_Some err) then
        _ ← UpdateMetricValidationFailed (uc_Name instance);
        mret (noRequeue, err)
      else
        _ ← UpdateMetricValidationSucceeded (uc_Name instance);
        if negb (IsAvailableUpdate validatorResult) then reconciled
        else
          schedulerResult ← IsReadyToUpgrade instance (controller_GetUpgradeWindowTimeOutDuration cfg);
          if IsReady schedulerResult then startUpgrade upgrader instance history
          else
            r ← updateStatus (set_Phase UpgradePhasePending history) instance;
            match r with
            | Err err => reconcileError err
            | Ok _ =>
                let d := TimeUntilUpgrade schedulerResult in
                if (0 <? d)%Z && (d <? SyncPeriodDefault)%Z then requeueAfter d else reconciled
            end
  end.

(** The phase decides. *)
Definition reconcilePhase (target : Target) (cfg : controllerConfig) (upgrader : ClusterUpgrader)
    (instance : UpgradeConfig) (history : UpgradeHistory) (clusterVersion : ClusterVersion)
    : M (ReconcileResult * option error) :=
  match Phase history with
  | UpgradePhaseNew => reconcileNew cfg upgrader instance history
  | UpgradePhasePending => reconcilePending target cfg upgrader instance history clusterVersion
  | UpgradePhaseUpgrading => upgradeCluster upgrader instance
  | UpgradePhaseUpgraded =>
      startTime ← deref (StartTime history);
      completeTime ← deref (CompleteTime history);
      err ← reportUpgradeMetrics (uc_Name instance) (PrecedingVersion history) (ucVersionOf instance) startTime completeTime;
      mret (noRequeue, err)
  | UpgradePhaseFailed => reconciled
  | _ => reconciled
  end.

(** The reconciliation of the resource that was read. *)
Definition reconcileInstance (Namespace : string) (eventClient : EventManager) (instance : UpgradeConfig)
    : M (ReconcileResult * option error) :=
  r ← GetClusterVersion;
  match r with
  | Err err => reconcileError err
  | Ok clusterVersion =>
  r ← ensureHistory instance clusterVersion;
  match r with
  | Err err => reconcileError err
  | Ok (instance, history) =>
  r ← NewCMTarget (mkTarget "" Namespace "");
  match r with
  | Err err => reconcileError err
  | Ok cmTarget =>
  r ← Into cmTarget;
  match r with
  | Err err => reconcileError err
  | Ok cfg =>
  r ← NewUpgrader eventClient cmTarget (Type_ (Spec instance));
  match r with
  | Err err => reconcileError err
  | Ok upgrader => reconcilePhase cmTarget cfg upgrader instance history clusterVersion
  end end end end end.

Definition Reconcile (Namespace Name : string) : M (ReconcileResult * option error) :=
  r ← NewMetricsClient;
  match r with
  | Err err => reconcileError err
  | Ok _ =>
  r ← NewEventManager;
  match r with
  | Err err => reconcileError err
  | Ok eventClient =>
  r ← call (GetUpgradeConfig Name Namespace);
  match r with
  | Err err =>
      if IsNotFound err then _ ← ResetEphemeralMetrics; reconciled else reconcileError err
  | Ok instance => reconcileInstance Namespace eventClient instance
  end end end.

End Reconcile.
