(* ===== verification/ControllerCorrect.v ===== *)
(** * Properties of the UpgradeConfig controller

    The statuses that a reconciliation writes follow the life cycle of an
    upgrade; an upgrade starts only when it is validated, due and unchanged; a
    cooperating environment sees it through. *)

From stdpp Require Import base gmap strings list.
From Stdlib Require Import ZArith Lia.
From S2P Require Import Prelude GoTime Api Effects Config Interfaces UpgradeSteps ClusterVersion Scheduler.
From S2P Require Import Metrics SpecProvider UpgradeConfigManager Notifier EventManager HealthChecks Upgraders Validation Controller.

(** ** The life cycle *)

(** From one recorded phase of a version to the next ([None]: not recorded). *)
Inductive phase_edge : option UpgradePhase -> UpgradePhase -> Prop :=
| edge_scheduled : phase_edge None UpgradePhaseNew
| edge_found_upgrading : phase_edge None UpgradePhaseUpgrading
| edge_checked : phase_edge (Some UpgradePhaseNew) UpgradePhasePending
| edge_waiting : phase_edge (Some UpgradePhasePending) UpgradePhasePending
| edge_changed : phase_edge (Some UpgradePhasePending) UpgradePhaseNew
| edge_started : phase_edge (Some UpgradePhasePending) UpgradePhaseUpgrading
| edge_upgrading : phase_edge (Some UpgradePhaseUpgrading) UpgradePhaseUpgrading
| edge_upgraded : phase_edge (Some UpgradePhaseUpgrading) UpgradePhaseUpgraded
| edge_failed : phase_edge (Some UpgradePhaseUpgrading) UpgradePhaseFailed.

Definition started (p : UpgradePhase) : Prop :=
  p = UpgradePhaseUpgrading \/ p = UpgradePhaseUpgraded \/ p = UpgradePhaseFailed.

(** The times that a history records by its phase. *)
Definition times_recorded (h : UpgradeHistory) : Prop :=
  (started (Phase h) -> is_Some (StartTime h)) /\ (Phase h = UpgradePhaseUpgraded -> is_Some (CompleteTime h)).

(** The history of the desired version, and its phase. *)
Definition historyOf (uc : UpgradeConfig) : option UpgradeHistory := GetHistory (History uc) (ucVersionOf uc).
Definition phaseOf (uc : UpgradeConfig) : option UpgradePhase := Phase <$> historyOf uc.

(** What one status write may change: the history of the desired version, along
    an edge of the life cycle. *)
Definition status_step (uc w : UpgradeConfig) : Prop :=
  uc_Name w = uc_Name uc /\ uc_Namespace w = uc_Namespace uc /\ Spec w = Spec uc /\
  (forall v, v <> ucVersionOf uc -> GetHistory (History w) v = GetHistory (History uc) v) /\
  (exists h, historyOf w = Some h /\ phase_edge (phaseOf uc) (Phase h) /\
     ((forall h0, historyOf uc = Some h0 -> times_recorded h0) -> times_recorded h)) /\
  (wf_histories (History uc) -> wf_histories (History w)).

Fixpoint path (uc : UpgradeConfig) (ws : list UpgradeConfig) : Prop :=
  match ws with [] => True | w :: ws => status_step uc w /\ path w ws end.

(** The statuses written along a trace; the API server answers a write with the
    resource as it was written, up to its resource version. *)
Definition statusWrite (ob : obs Eff) : option UpgradeConfig :=
  match ob_event ob with StatusUpdate uc => Some uc | _ => None end.
Definition statusWrites (tr : list (obs Eff)) : list UpgradeConfig := omap statusWrite tr.
Definition echoed (ob : obs Eff) : Prop :=
  match ob_event ob in Eff X return X -> Prop with
  | StatusUpdate uc => fun r => match r with Ok uc' => exists rv, uc' = set_ResourceVersion rv uc | Err _ => True end
  | _ => fun _ => True
  end (ob_resp ob).

(** The same along a trace, with the resource version: a write is a step from
    the resource as the last write left it, whose version it carries; there are
    no other updates. *)
Definition current (uc : UpgradeConfig) (ob : obs Eff) : UpgradeConfig :=
  match ob_event ob in Eff X return X -> UpgradeConfig with
  | StatusUpdate w => fun r => match r with Ok uc' => uc' | Err _ => w end
  | _ => fun _ => uc
  end (ob_resp ob).
Definition update_of (uc : UpgradeConfig) (ob : obs Eff) : Prop :=
  match ob_event ob with
  | StatusUpdate w => status_step uc w /\ uc_ResourceVersion w = uc_ResourceVersion uc
  | UpdateUpgradeConfig _ => False
  | _ => True
  end.
Fixpoint tracks (uc : UpgradeConfig) (tr : list (obs Eff)) : Prop :=
  match tr with [] => True | ob :: tr => update_of uc ob /\ tracks (current uc ob) tr end.
Definition endOf (uc : UpgradeConfig) (tr : list (obs Eff)) : UpgradeConfig := foldl current uc tr.

(** ** Lemmas: programs whose writes follow the life cycle *)

Definition follows {A} (uc : UpgradeConfig) (p : M A) : Prop :=
  wp p (fun tr _ => Forall echoed tr -> tracks uc tr).

Lemma path_ResourceVersion rv uc ws : path (set_ResourceVersion rv uc) ws -> path uc ws.
Proof. by destruct ws. Qed.

Lemma tracks_path uc tr : Forall echoed tr -> tracks uc tr -> path uc (statusWrites tr).
Proof.
  intros He. revert uc. induction He as [|[X e r] tr Hob _ IH]; intros uc; [done|]. cbn [tracks].
  intros [Hs Ht]. apply IH in Ht. unfold statusWrites, echoed, update_of, current in *.
  cbn [ob_event ob_resp] in *. destruct e; try exact Ht. cbn. split; [apply Hs|].
  destruct r as [uc'|e]; [|exact Ht]. destruct Hob as [rv ->]. by eapply path_ResourceVersion.
Qed.

Lemma no_rewrite_tracks uc tr :
  Forall (fun ob : obs Eff => no_rewrite _ (ob_event ob)) tr -> tracks uc tr /\ endOf uc tr = uc.
Proof.
  induction 1 as [|[X e r] tr Hob _ IH]; [done|]. cbn [tracks endOf foldl].
  assert (current uc (Obs e r) = uc) as -> by by destruct e.
  split; [split; [by destruct e|apply IH]|apply IH].
Qed.

Lemma no_rewrite_writes tr : Forall (fun ob : obs Eff => no_rewrite _ (ob_event ob)) tr -> statusWrites tr = [].
Proof.
  induction 1 as [|ob tr Hob _ IH]; [done|]. unfold statusWrites in *. cbn [omap list_omap].
  destruct ob as [X e r]. cbn in *. rewrite IH. by destruct e.
Qed.

Lemma statusWrites_app t1 t2 : statusWrites (t1 ++ t2) = statusWrites t1 ++ statusWrites t2.
Proof. apply omap_app. Qed.

Lemma tracks_app uc t1 t2 : tracks uc (t1 ++ t2) <-> tracks uc t1 /\ tracks (endOf uc t1) t2.
Proof. revert uc. induction t1 as [|ob t1 IH]; intros uc; cbn; [tauto|]. rewrite IH. tauto. Qed.

Lemma follows_ret {A} uc (a : A) : follows uc (mret a).
Proof. by intros _. Qed.

Lemma follows_silent {A} uc (p : M A) : all_ev no_rewrite p -> follows uc p.
Proof. intros Hp. apply wp_exec. intros tr o Hex _. by apply no_rewrite_tracks, (all_ev_exec _ _ _ _ Hp Hex). Qed.

Lemma follows_bind_gen {A B} uc (p : M A) (f : A -> M B) :
  wp p (fun tr o => Forall echoed tr -> tracks uc tr /\
    match o with Done a => follows (endOf uc tr) (f a) | Crash _ => True end) ->
  follows uc (p ≫= f).
Proof.
  intros H. apply wp_bind. eapply wp_mono; [exact H|]. intros tr [a|m] Ha; [|intros He; by apply Ha].
  apply wp_exec. intros tr' o Hex [He He']%Forall_app. destruct (Ha He) as [Hp Hf].
  apply tracks_app. split; [done|]. exact (proj1 (wp_exec _ _) Hf _ _ Hex He').
Qed.

Lemma follows_bind {A B} uc (p : M A) (f : A -> M B) :
  all_ev no_rewrite p -> (forall a tr, exec p tr (Done a) -> follows uc (f a)) -> follows uc (p ≫= f).
Proof.
  intros Hp Hf. apply follows_bind_gen, wp_exec. intros tr o Hex _.
  destruct (no_rewrite_tracks uc _ (all_ev_exec _ _ _ _ Hp Hex)) as [Ht ->]. split; [done|].
  destruct o as [a|m]; [by eapply Hf|done].
Qed.

Lemma follows_write {B} uc w (f : result UpgradeConfig -> M B) :
  status_step uc w -> uc_ResourceVersion w = uc_ResourceVersion uc ->
  (forall rv, follows (set_ResourceVersion rv w) (f (Ok (set_ResourceVersion rv w)))) ->
  (forall e, follows w (f (Err e))) -> follows uc (call (StatusUpdate w) ≫= f).
Proof.
  intros Hs Hrv Hok Herr. apply follows_bind_gen. wp_cbn. intros r [He _]%Forall_cons_1. split; [by split|].
  cbn. destruct r as [w'|e]; [|apply Herr]. destruct He as [rv ->]. apply Hok.
Qed.

Ltac silent := eapply all_ev_impl; [apply no_uc_write_no_rewrite|].
Ltac silent_reads := silent; eapply all_ev_impl; [apply reads_no_uc_write|].

(** Writing a history of the desired version. *)
Lemma updateStatus_step uc h h' :
  historyOf uc = Some h -> Version h' = ucVersionOf uc -> hist_Conditions h' = hist_Conditions h ->
  phase_edge (Some (Phase h)) (Phase h') -> (times_recorded h -> times_recorded h') ->
  status_step uc (set_History (SetHistory h' (History uc)) uc).
Proof.
  intros Hh Hv Hc He Ht. unfold status_step, historyOf, phaseOf in *. cbn [uc_Name uc_Namespace Spec History set_History].
  split_and!; try done.
  - intros v Hne. rewrite SetHistory_lookup, Hv. by case_bool_decide.
  - exists h'. change (ucVersionOf (set_History _ uc)) with (ucVersionOf uc). rewrite SetHistory_lookup, Hv, bool_decide_true by done.
    split_and!; [done| |].
    + unfold historyOf. rewrite Hh. exact He.
    + intros H. apply Ht, H. exact Hh.
  - intros Hwf. apply SetHistory_wf; [done|]. rewrite Hc. by eapply wf_histories_conditions.
Qed.

Section Lemmas.
Context {yaml : Yaml controllerConfig} {builders : Builders}.

(** The end of a run of the upgrader, from the phase Upgrading. *)
Lemma upgradeCluster_follows u uc h :
  historyOf uc = Some h -> Phase h = UpgradePhaseUpgrading -> follows uc (upgradeCluster u uc).
Proof.
  intros Hh Hp. unfold upgradeCluster. apply follows_bind; [silent; apply cu_UpgradeCluster_events|].
  intros [[uc1 ph] err] tr Hex.
  assert (is_Some (GetHistory (History uc) (ucVersionOf uc))) as Hsome by by exists h.
  destruct (cu_UpgradeCluster_result _ _ _ _ _ Hsome Hex) as (Hs & Hwf & Hph).
  pose proof (same_but_conditions_version _ _ Hs) as Hv.
  destruct (sbc_desired _ _ Hs _ Hh) as [cs Hcs]. rewrite <- Hv in Hcs. rewrite Hcs. cbn [deref].
  change (Ret ?a ≫= ?f) with (f a). cbv beta.
  apply follows_bind; [case_bool_decide; [by split|exact I]|]. intros h1 tr1 Hex1.
  assert (Version h1 = ucVersionOf uc /\ hist_Conditions h1 = cs /\ Phase h1 = ph /\ StartTime h1 = StartTime h /\
    (ph = UpgradePhaseUpgraded -> is_Some (CompleteTime h1))) as (H1 & H2 & H3 & H4 & H5).
  { assert (Version h = ucVersionOf uc) as Hver by by eapply GetHistory_Version.
    case_bool_decide; cbn in Hex1; [destruct Hex1 as (t & ? & _ & _ & [= ->])|destruct Hex1 as [_ [= ->]]]; cbn;
      split_and!; try done; intros _; by eexists. }
  unfold updateStatus. apply follows_write.
  - unfold status_step, historyOf, phaseOf. cbn [uc_Name uc_Namespace Spec History set_History]. split_and!.
    + exact (sbc_Name _ _ Hs).
    + exact (sbc_Namespace _ _ Hs).
    + exact (sbc_Spec _ _ Hs).
    + intros v Hne. rewrite SetHistory_lookup, H1. rewrite bool_decide_false by done. by apply (sbc_other _ _ Hs).
    + exists h1. change (ucVersionOf (set_History _ uc1)) with (ucVersionOf uc1). rewrite SetHistory_lookup, H1, Hv, bool_decide_true by done.
      split; [done|]. unfold historyOf. unfold historyOf in Hh. rewrite Hh, H3. cbn. rewrite Hp. split.
      * destruct Hph as [->|[->|[->|(h2 & Hh2 & ->)]]]; try constructor. rewrite Hh in Hh2. injection Hh2 as <-. rewrite Hp. constructor.
      * intros Ht. specialize (Ht h eq_refl) as [Hst _]. split; [intros _; rewrite H4; apply Hst; rewrite Hp; by left|].
        intros Hup. apply H5. congruence.
    + intros Hw. apply SetHistory_wf; [auto|]. rewrite H2. apply (wf_histories_conditions (History uc1) (ucVersionOf uc1) (set_Conditions cs h)); auto.
  - exact (sbc_RV _ _ Hs).
  - intros rv. apply follows_ret.
  - intros e. apply follows_ret.
Qed.

Lemma requeueAfter_follows uc d : follows uc (requeueAfter d).
Proof. apply follows_ret. Qed.
Lemma reconciled_follows uc : follows uc reconciled.
Proof. apply follows_ret. Qed.
Lemma reconcileError_follows uc e : follows uc (reconcileError e).
Proof. apply follows_ret. Qed.
Hint Resolve requeueAfter_follows reconciled_follows reconcileError_follows follows_ret : muo.

Lemma IsReadyToUpgrade_reads uc d : all_ev reads (IsReadyToUpgrade uc d).
Proof. unfold IsReadyToUpgrade. destruct (parseRFC3339 _); [|exact I]. cbn. done. Qed.

Lemma reconcileNew_follows cfg u uc h :
  historyOf uc = Some h -> Phase h = UpgradePhaseNew -> follows uc (reconcileNew cfg u uc h).
Proof.
  intros Hh Hp. pose proof (GetHistory_Version _ _ _ Hh) as Hv. unfold reconcileNew. cbn zeta.
  apply follows_bind; [silent_reads; apply IsReadyToUpgrade_reads|]. intros s tr _.
  apply follows_bind.
  - destruct (_ && _); [|exact I]. apply all_ev_bind; [silent; apply cu_HealthCheck_events|]. intros r. exact I.
  - intros _ tr' _. unfold updateStatus. apply follows_write; [|done|intros; auto with muo..].
    eapply updateStatus_step; [exact Hh|done|done|rewrite Hp; constructor|]. intros [H1 H2]. split; cbn; intros H;
      repeat destruct H as [H|H]; done.
Qed.

Lemma startUpgrade_follows u uc h :
  historyOf uc = Some h -> Phase h = UpgradePhasePending -> follows uc (startUpgrade u uc h).
Proof.
  intros Hh Hp. pose proof (GetHistory_Version _ _ _ Hh) as Hv. unfold startUpgrade.
  apply follows_bind; [silent; apply NewUpgradeConfigManager_events|]. intros [m|e] tr _; [|auto with muo].
  apply follows_bind; [apply rm_Refresh_events|]. intros r tr' _.
  assert (follows uc (r0 ← updateStatus (set_Phase UpgradePhaseNew h) uc;
    match r0 with Ok _ => reconciled | Err err => reconcileError err end)) as Hchanged.
  { unfold updateStatus. apply follows_write; [|done|intros; auto with muo..].
    eapply updateStatus_step; [exact Hh|done|done|rewrite Hp; constructor|]. intros [H1 H2]. split; cbn; intros H;
      repeat destruct H as [H|H]; done. }
  destruct (match r with Ok remoteChanged => Ok remoteChanged | Err err => _ end) as [[|]|e]; [exact Hchanged| |auto with muo].
  apply follows_bind; [by split|]. intros t tr'' _. unfold updateStatus. apply follows_write; [|done|intros rv|intros; auto with muo].
  - eapply updateStatus_step; [exact Hh|done|done|rewrite Hp; constructor|]. intros _. split; cbn; intros H; [by eexists|done].
  - apply (upgradeCluster_follows u _ (set_Version (ucVersionOf uc) (set_StartTime (Some t) (set_Phase UpgradePhaseUpgrading h))));
      [|reflexivity]. unfold historyOf. cbn [History set_ResourceVersion set_History].
    change (ucVersionOf _) with (ucVersionOf uc). rewrite SetHistory_lookup. cbn [Version set_Version].
    by rewrite bool_decide_true.
Qed.

Lemma reconcilePending_follows target cfg u uc h cv :
  desired_Image (Desired (Spec uc)) = "" -> historyOf uc = Some h -> Phase h = UpgradePhasePending ->
  follows uc (reconcilePending target cfg u uc h cv).
Proof.
  intros Hi Hh Hp. pose proof (GetHistory_Version _ _ _ Hh) as Hv. unfold reconcilePending.
  apply follows_bind; [silent; apply NewValidator_events|]. intros [v|e] tr _; [|auto with muo].
  apply follows_bind; [silent; by apply val_version_events|]. intros [uc' [vr err]] tr' Hex.
  rewrite (val_version_result _ _ _ _ _ Hi Hex). cbn beta iota. destruct (negb (vr_IsValid vr) || _).
  { apply follows_bind; [by split|]. intros. apply follows_ret. }
  apply follows_bind; [by split|]. intros _ tr1 _. destruct (negb (IsAvailableUpdate vr)); [auto with muo|].
  apply follows_bind; [silent_reads; apply IsReadyToUpgrade_reads|]. intros s tr2 _.
  destruct (IsReady s); [by apply startUpgrade_follows|]. unfold updateStatus. apply follows_write.
  - eapply updateStatus_step; [exact Hh|done|done|rewrite Hp; constructor|]. intros [H1 H2]. split; cbn; intros H;
      repeat destruct H as [H|H]; done.
  - done.
  - intros rv. destruct (_ && _); auto with muo.
  - intros e. auto with muo.
Qed.

Lemma reportUpgradeMetrics_reads n p v t1 t2 : all_ev reads (reportUpgradeMetrics n p v t1 t2).
Proof.
  unfold reportUpgradeMetrics, AlertsFromUpgrade, Query. cbv zeta. repeat first [ev_step | done].
Qed.

Lemma reconcilePhase_follows target cfg u uc h cv :
  desired_Image (Desired (Spec uc)) = "" -> historyOf uc = Some h ->
  follows uc (reconcilePhase target cfg u uc h cv).
Proof.
  intros Hi Hh. unfold reconcilePhase. destruct (Phase h) eqn:Hp; auto with muo.
  - by apply reconcileNew_follows.
  - by apply reconcilePending_follows.
  - by eapply upgradeCluster_follows.
  - apply follows_silent. silent_reads. repeat first [apply reportUpgradeMetrics_reads | ev_step].
Qed.

(** The history that a version gets when it has none. *)
Lemma newHistory_wp uc cv :
  wp (newHistory uc cv) (fun tr o => forall h, o = Done (Ok h) ->
    Version h = ucVersionOf uc /\ hist_Conditions h = [] /\ phase_edge None (Phase h) /\ times_recorded h).
Proof.
  unfold newHistory, now. cbn zeta. apply wp_bind, wp_exec. intros t [[[|]|e]|m] _; wp_cbn; [|intros h [= <-]|done..].
  - intros t1 h [= <-]. split_and!; [done|done|constructor|]. split; cbn; [intros _; by eexists|done].
  - split_and!; [done|done|constructor|]. split; cbn; [intros [H|[H|H]]; done|done].
Qed.

Lemma newHistory_reads uc cv : all_ev reads (newHistory uc cv).
Proof. unfold newHistory. cbv zeta. apply all_ev_bind; [auto with muo|]. intros [[|]|e]; repeat first [ev_step | done]. Qed.

Lemma newHistory_step uc h :
  historyOf uc = None -> Version h = ucVersionOf uc -> hist_Conditions h = [] ->
  phase_edge None (Phase h) -> times_recorded h -> status_step uc (set_History (h :: History uc) uc).
Proof.
  intros Hn Hv Hc He Ht. unfold status_step, phaseOf. rewrite Hn. unfold historyOf in *.
  cbn [uc_Name uc_Namespace Spec History set_History GetHistory]. change (ucVersionOf (set_History _ uc)) with (ucVersionOf uc).
  split_and!; try done.
  - intros v Hne. by rewrite bool_decide_false by congruence.
  - exists h. rewrite bool_decide_true by done. by split_and!.
  - intros [Hnd Hf]. split; [|constructor; [by rewrite Hc; constructor|done]].
    cbn [map]. constructor; [|done]. rewrite Hv. by apply GetHistory_None.
Qed.

Lemma ensureHistory_follows {B} uc cv (f : result (UpgradeConfig * UpgradeHistory) -> M B) :
  (forall uc' h, Spec uc' = Spec uc -> historyOf uc' = Some h -> follows uc' (f (Ok (uc', h)))) ->
  (forall uc' e, follows uc' (f (Err e))) -> follows uc (ensureHistory uc cv ≫= f).
Proof.
  intros Hok Herr. unfold ensureHistory. destruct (GetHistory _ _) as [h|] eqn:Hh; [by apply Hok|].
  apply follows_bind_gen, wp_bindr, wp_exec. intros t o Hex.
  assert (tracks uc t /\ endOf uc t = uc) as [Ht He].
  { apply no_rewrite_tracks. refine (all_ev_exec _ _ _ _ _ Hex). silent_reads. apply newHistory_reads. }
  destruct o as [[h|e]|m]; [|rewrite He; by split|by split].
  destruct (proj1 (wp_exec _ _) (newHistory_wp uc cv) _ _ Hex h eq_refl) as (Hv & Hc & Hed & Htimes).
  pose proof (newHistory_step uc h Hh Hv Hc Hed Htimes) as Hs. wp_cbn.
  intros r; destruct r as [uc'|e]; wp_cbn; intros [_ [Hecho _]%Forall_cons]%Forall_app;
    (split; [apply tracks_app; rewrite He; split; [exact Ht|split; [by split|done]]|]); unfold endOf in *; rewrite foldl_app, He; cbn; [|apply Herr].
  cbn in Hecho. destruct Hecho as [rv ->]. apply Hok; [done|].
  unfold historyOf. cbn [History set_ResourceVersion set_History GetHistory].
  change (ucVersionOf _) with (ucVersionOf uc). by rewrite bool_decide_true.
Qed.

Lemma reconcileInstance_follows Namespace eventClient instance :
  desired_Image (Desired (Spec instance)) = "" -> follows instance (reconcileInstance Namespace eventClient instance).
Proof.
  intros Hi. apply follows_bind; [by split|]. intros [cv|e] t1 _; [|auto with muo].
  apply ensureHistory_follows; [|intros; auto with muo]. intros uc h Hs Hh.
  apply follows_bind; [silent_reads; apply NewCMTarget_reads|]. intros [target|e] t2 _; [|auto with muo].
  apply follows_bind; [silent_reads; apply Into_reads|]. intros [cfg|e] t3 _; [|auto with muo].
  apply follows_bind; [silent; apply NewUpgrader_events|]. intros [u|e] t4 _; [|auto with muo].
  apply reconcilePhase_follows; [by rewrite Hs|done].
Qed.

(** Nothing is written before the resource is read; the rest of the execution
    reconciles what was read. *)
Definition reads_then (Namespace Name : string) (tr : list (obs Eff)) (Q : UpgradeConfig -> list (obs Eff) -> Prop) : Prop :=
  statusWrites tr = [] \/
  exists t1 instance t2, tr = t1 ++ Obs (GetUpgradeConfig Name Namespace) (Ok instance) :: t2 /\ statusWrites t1 = [] /\
    Q instance t2.

Lemma Reconcile_exec Namespace Name tr o (Q : UpgradeConfig -> list (obs Eff) -> Prop) :
  exec (Reconcile Namespace Name) tr o ->
  (forall em instance t, ((Obs (GetUpgradeConfig Name Namespace) (Ok instance) : obs Eff) ∈ tr) -> t ⊆ tr ->
     exec (reconcileInstance Namespace em instance) t o -> Q instance t) ->
  reads_then Namespace Name tr Q.
Proof.
  assert (forall {A} (p : M A) tr o, all_ev no_rewrite p -> exec p tr o -> statusWrites tr = []) as Hquiet.
  { intros A p t o' Hp Hex. apply no_rewrite_writes. exact (all_ev_exec _ _ _ _ Hp Hex). }
  unfold Reconcile. intros [(r1 & t1 & t' & -> & H1 & Hex)|(m & -> & H1)]%exec_bind Hq.
  2: { left. eapply Hquiet; [|exact H1]. silent. apply NewMetricsClient_events. }
  apply Hquiet in H1; [|silent; apply NewMetricsClient_events].
  destruct r1 as [[]|e]; [|destruct Hex as [-> _]; left; by rewrite app_nil_r].
  apply exec_bind in Hex as [(r2 & t2 & t3 & -> & H2 & Hex)|(m & -> & H2)].
  2: { left. rewrite statusWrites_app, H1. eapply Hquiet; [|exact H2]. silent. apply NewEventManager_events. }
  apply Hquiet in H2; [|silent; apply NewEventManager_events].
  destruct r2 as [em|e]; [|destruct Hex as [-> _]; left; by rewrite app_nil_r, statusWrites_app, H1, H2].
  unfold call in Hex. cbn [mbind prog_mbind prog_bind exec] in Hex. destruct Hex as (r & t4 & -> & Hex). destruct r as [instance|e].
  - right. exists (t1 ++ t2), instance, t4. rewrite <- app_assoc. split; [done|].
    split; [by rewrite statusWrites_app, H1, H2|]. eapply Hq; [| |exact Hex].
    + do 2 apply app_sub_r. by left.
    + intros x Hx. by apply app_sub_r, app_sub_r; right.
  - left. assert (statusWrites t4 = []) as H4.
    { destruct (IsNotFound e); [|by destruct Hex as [-> _]]. eapply Hquiet; [|exact Hex].
      apply all_ev_bind; [silent_reads; apply resetAll_reads|]. intros []. exact I. }
    rewrite !statusWrites_app, H1, H2. exact H4.
Qed.

End Lemmas.

(** ** Lemmas: the life of a resource *)

(** The resources that can be stored: created without histories, served under a
    new resource version, or written by a reconciliation. *)
Inductive lifeline : UpgradeConfig -> Prop :=
| life_created uc : History uc = [] -> lifeline uc
| life_served rv uc : lifeline uc -> lifeline (set_ResourceVersion rv uc)
| life_written uc w : lifeline uc -> status_step uc w -> lifeline w.

Lemma path_lifeline uc ws : lifeline uc -> path uc ws -> Forall lifeline ws.
Proof.
  revert uc. induction ws as [|w ws IH]; intros uc Hl; [done|]. intros [Hs Hp].
  assert (lifeline w) by by eapply life_written. constructor; [done|]. by eapply IH.
Qed.

Lemma GetHistory_single hs v :
  NoDup (map Version hs) -> (forall v', v' <> v -> GetHistory hs v' = None) -> hs = [] \/ exists h, hs = [h] /\ Version h = v.
Proof.
  intros Hnd Hno. assert (forall h, h ∈ hs -> Version h = v) as Hall.
  { intros h Hin. destruct (decide (Version h = v)) as [|Hne]; [done|].
    apply Hno, GetHistory_None in Hne. destruct Hne. apply list_elem_of_fmap. by exists h. }
  destruct hs as [|h [|h' hs]]; [by left|right; exists h; split; [done|apply Hall; by left]|].
  exfalso. cbn in Hnd. apply NoDup_cons in Hnd as [Hn _]. apply Hn. rewrite (Hall h) by by left.
  rewrite <- (Hall h') by (right; by left). by left.
Qed.

(** The state of a stored resource: at most one history, that of the desired
    version, whose phase tells the times it records. *)
Definition stored_state (uc : UpgradeConfig) : Prop :=
  wf_histories (History uc) /\ (forall v, v <> ucVersionOf uc -> GetHistory (History uc) v = None) /\
  (forall h, historyOf uc = Some h -> times_recorded h).

Lemma lifeline_stored_state uc : lifeline uc -> stored_state uc.
Proof.
  induction 1 as [uc Hn|rv uc _ IH|uc w _ (Hwf & Hv & Ht) Hs].
  - unfold stored_state, historyOf. rewrite Hn. split_and!; [by split; constructor|done|done].
  - exact IH.
  - destruct Hs as (_ & _ & Hspec & Hother & (h & Hh & _ & Hrec) & Hw).
    assert (ucVersionOf w = ucVersionOf uc) as Hvw by (unfold ucVersionOf; by rewrite Hspec).
    split_and!; [by apply Hw|intros v Hne; rewrite Hvw in Hne; rewrite Hother by done; by apply Hv|].
    intros h' Hh'. rewrite Hh in Hh'. injection Hh' as <-. by apply Hrec.
Qed.

Definition finished (p : UpgradePhase) : Prop := p = UpgradePhaseUpgraded \/ p = UpgradePhaseFailed.

Lemma status_step_phase uc w : status_step uc w -> exists p, phaseOf w = Some p /\ phase_edge (phaseOf uc) p.
Proof. intros (_ & _ & _ & _ & (h & Hh & He & _) & _). exists (Phase h). unfold phaseOf at 1. by rewrite Hh. Qed.

Lemma phase_edge_started p q : phase_edge (Some p) q -> started p -> started q /\ ~ finished p.
Proof.
  intros H Hs. inversion H; subst; try (by destruct Hs as [|[|]]); (split; [unfold started; tauto|by intros [|]]).
Qed.

Lemma path_one_way uc ws p :
  path uc ws -> phaseOf uc = Some p -> started p ->
  (finished p -> ws = []) /\ Forall (fun w => exists q, phaseOf w = Some q /\ started q) ws.
Proof.
  revert uc p. induction ws as [|w ws IH]; intros uc p; [done|]. intros [Hs Hp] Hu Hst.
  destruct (status_step_phase _ _ Hs) as (q & Hq & He). rewrite Hu in He.
  destruct (phase_edge_started _ _ He Hst) as [Hsq Hnf]. split; [done|].
  constructor; [by exists q|]. by destruct (IH w q Hp Hq Hsq).
Qed.

(** ** Lemmas: what starts an upgrade *)

Section Start.
Context {yaml : Yaml controllerConfig} {builders : Builders}.

(** The validator accepted the resource, the clock had passed the scheduled
    time, and a refresh left the resource as it was. *)
Definition start_justified (uc : UpgradeConfig) (tr : list (obs Eff)) : Prop :=
  (exists (v : Validator) cV r t, exec (val_IsValidUpgradeConfig v uc cV) t (Done (uc, r)) /\ accepted r /\ t ⊆ tr) /\
  (exists upgradeAt n, parseRFC3339 (UpgradeAt (Spec uc)) = Ok upgradeAt /\ ((Obs Now n : obs Eff) ∈ tr) /\ (upgradeAt < n)%Z) /\
  (exists (m : RefreshManager) r t, exec (rm_Refresh m) t (Done r) /\ t ⊆ tr /\
     (r = Ok false \/ exists e, r = Err e /\ is_sentinel ErrNotConfigured e = true)).

Lemma updateStatus_phase uc h :
  Version h = ucVersionOf uc -> phaseOf (set_History (SetHistory h (History uc)) uc) = Some (Phase h).
Proof.
  intros Hv. unfold phaseOf, historyOf. cbn [History set_History]. change (ucVersionOf (set_History _ uc)) with (ucVersionOf uc).
  by rewrite SetHistory_lookup, Hv, bool_decide_true.
Qed.

(** A started phase is only written with the justification. *)
Definition starts_only {A} (J : list (obs Eff) -> Prop) (p : M A) : Prop :=
  wp p (fun tr _ => Forall echoed tr -> forall w q, w ∈ statusWrites tr -> phaseOf w = Some q -> started q -> J tr).

Lemma starts_silent {A} J (p : M A) : all_ev no_rewrite p -> starts_only J p.
Proof.
  intros Hp. apply wp_exec. intros tr o Hex _ w q Hw. rewrite (no_rewrite_writes _ (all_ev_exec _ _ _ _ Hp Hex)) in Hw.
  by apply elem_of_nil in Hw.
Qed.

Lemma starts_bind {A B} (J : list (obs Eff) -> Prop) (p : M A) (f : A -> M B) :
  all_ev no_rewrite p -> (forall a tr, exec p tr (Done a) -> starts_only (fun tr' => J (tr ++ tr')) (f a)) ->
  starts_only J (p ≫= f).
Proof.
  intros Hp Hf. apply wp_bind, wp_exec. intros tr [a|m] Hex.
  - eapply wp_mono; [exact (Hf a tr Hex)|]. intros tr' o H [_ He]%Forall_app w q. rewrite statusWrites_app.
    rewrite (no_rewrite_writes _ (all_ev_exec _ _ _ _ Hp Hex)). by apply H.
  - intros _ w q Hw. rewrite (no_rewrite_writes _ (all_ev_exec _ _ _ _ Hp Hex)) in Hw. by apply elem_of_nil in Hw.
Qed.

(** A write of a resource whose phase starts nothing. *)
Lemma starts_write {B} (J : list (obs Eff) -> Prop) w p (f : result UpgradeConfig -> M B) :
  phaseOf w = Some p -> ~ started p ->
  (forall rv, starts_only (fun tr => forall ob, J (ob :: tr)) (f (Ok (set_ResourceVersion rv w)))) ->
  (forall e, all_ev no_rewrite (f (Err e))) ->
  starts_only J (call (StatusUpdate w) ≫= f).
Proof.
  intros Hp Hn Hok Herr. unfold starts_only. cbn [call mbind prog_mbind prog_bind wp]. intros r. apply wp_exec.
  intros tr o Hex [He Htr]%Forall_cons w' q Hw Hp' Hq. unfold statusWrites in Hw. cbn in Hw.
  apply elem_of_cons in Hw as [->|Hw]; [congruence|]. fold (statusWrites tr) in Hw. destruct r as [u|e].
  - cbn in He. destruct He as [rv ->]. by eapply (proj1 (wp_exec _ _) (Hok rv) _ _ Hex Htr).
  - rewrite (no_rewrite_writes _ (all_ev_exec _ _ _ _ (Herr e) Hex)) in Hw. by apply elem_of_nil in Hw.
Qed.

(** The last write of a reconciliation. *)
Lemma starts_last {B} J uc h (f : result UpgradeConfig -> M B) :
  Version h = ucVersionOf uc -> ~ started (Phase h) -> (forall r, all_ev no_rewrite (f r)) ->
  starts_only J (updateStatus h uc ≫= f).
Proof.
  intros Hv Hn Hf. eapply starts_write; [by apply updateStatus_phase|done| |intros; apply Hf].
  intros rv. apply starts_silent, Hf.
Qed.

Lemma starts_always {A} (J : list (obs Eff) -> Prop) (p : M A) : (forall tr, J tr) -> starts_only J p.
Proof. intros H. apply wp_exec. intros tr o _ _ w q _ _ _. apply H. Qed.

Definition refresh_unchanged (tr : list (obs Eff)) : Prop :=
  exists (m : RefreshManager) r t, exec (rm_Refresh m) t (Done r) /\ t ⊆ tr /\
     (r = Ok false \/ exists e, r = Err e /\ is_sentinel ErrNotConfigured e = true).

Lemma startUpgrade_starts u uc h :
  Version h = ucVersionOf uc -> starts_only refresh_unchanged (startUpgrade u uc h).
Proof.
  intros Hv. unfold startUpgrade. apply starts_bind; [silent; apply NewUpgradeConfigManager_events|].
  intros [m|e] t1 _; [|by apply starts_silent].
  apply starts_bind; [apply rm_Refresh_events|]. intros r t2 Hex.
  assert ((r = Ok false \/ exists e, r = Err e /\ is_sentinel ErrNotConfigured e = true) ->
    forall tr', refresh_unchanged (t1 ++ t2 ++ tr')) as Hj.
  { intros Hr tr'. exists m, r, t2. split_and!; [done| |done]. intros x Hx. by apply app_sub_r, app_sub_l. }
  destruct r as [[|]|e].
  - apply starts_last; [done|by intros [|[|]]|]. intros [?|?]; exact I.
  - apply starts_always, Hj. by left.
  - destruct (is_sentinel ErrNotConfigured e) eqn:E; [|by apply starts_silent]. apply starts_always, Hj. right. by exists e.
Qed.

Lemma IsReadyToUpgrade_ready uc d tr s :
  exec (IsReadyToUpgrade uc d) tr (Done s) -> IsReady s = true ->
  exists upgradeAt n, parseRFC3339 (UpgradeAt (Spec uc)) = Ok upgradeAt /\ tr = [Obs Now n] /\ (upgradeAt < n)%Z.
Proof.
  unfold IsReadyToUpgrade. destruct (parseRFC3339 _) as [t|e]; [|intros [_ [= ->]]; done].
  intros (n & t' & -> & -> & [= ->]). unfold After. destruct (Z.ltb_spec t n); [|done]. intros _. by exists t, n.
Qed.

Lemma reconcilePending_starts target cfg u uc h cv :
  desired_Image (Desired (Spec uc)) = "" -> historyOf uc = Some h ->
  starts_only (start_justified uc) (reconcilePending target cfg u uc h cv).
Proof.
  intros Hi Hh. pose proof (GetHistory_Version _ _ _ Hh) as Hv. unfold reconcilePending.
  apply starts_bind; [silent; apply NewValidator_events|]. intros [v|e] t1 _; [|by apply starts_silent].
  apply starts_bind; [silent; by apply val_version_events|]. intros [uc' [vr err]] t2 Hval.
  pose proof (val_version_result _ _ _ _ _ Hi Hval) as ->. cbn beta iota.
  destruct (negb (vr_IsValid vr) || bool_decide (is_Some err)) eqn:Ev.
  { apply starts_silent, all_ev_bind; [by split|]. intros []. exact I. }
  apply orb_false_iff in Ev as [Ev1%negb_false_iff Ev2]. apply bool_decide_eq_false in Ev2.
  apply starts_bind; [by split|]. intros [] t3 _.
  destruct (IsAvailableUpdate vr) eqn:Ea; cbn [negb]; [|by apply starts_silent].
  apply starts_bind; [silent_reads; apply IsReadyToUpgrade_reads|]. intros s t4 Hs.
  destruct (IsReady s) eqn:Er.
  - eapply wp_mono; [apply startUpgrade_starts; exact Hv|]. intros t5 o H He w q Hw Hp Hq.
    destruct (H He w q Hw Hp Hq) as (m & r & t & Hm & Ht & Hr).
    destruct (IsReadyToUpgrade_ready _ _ _ _ Hs Er) as (at_ & n & Hat & -> & Hlt).
    split; [|split].
    + exists v, cv, (vr, err), t2. split; [done|]. split.
      * split_and!; [done|done|]. destruct err; [destruct Ev2; by eexists|done].
      * intros x Hx. by apply app_sub_r, app_sub_l.
    + exists at_, n. split_and!; [done| |done]. do 3 apply app_sub_r. by left.
    + exists m, r, t. split_and!; [done| |done]. intros x Hx. do 4 apply app_sub_r. by apply Ht.
  - apply starts_last; [done|by intros [|[|]]|]. intros [?|?]; [|exact I]. destruct (_ && _); exact I.
Qed.

Lemma reconcileNew_starts J cfg u uc h :
  Version h = ucVersionOf uc -> starts_only J (reconcileNew cfg u uc h).
Proof.
  intros Hv. unfold reconcileNew. cbn zeta.
  apply starts_bind; [silent_reads; apply IsReadyToUpgrade_reads|]. intros s t1 _.
  apply starts_bind.
  - destruct (_ && _); [|exact I]. apply all_ev_bind; [silent; apply cu_HealthCheck_events|]. intros r. exact I.
  - intros _ t2 _. apply starts_last; [done|by intros [|[|]]|]. intros [?|?]; exact I.
Qed.

(** The cluster had already been told to go to the version. *)
Definition found_upgrading (uc : UpgradeConfig) (tr : list (obs Eff)) : Prop :=
  historyOf uc = None /\ exists t, exec (HasUpgradeCommenced uc) t (Done (Ok true)) /\ t ⊆ tr.

Definition may_start (uc : UpgradeConfig) (tr : list (obs Eff)) : Prop :=
  start_justified uc tr \/ found_upgrading uc tr.

Lemma start_justified_sub uc t tr : t ⊆ tr -> start_justified uc t -> start_justified uc tr.
Proof.
  intros Hs ((v & cV & r & t1 & H1 & H2 & H3) & (at_ & n & H4 & H5 & H6) & (m & r' & t2 & H7 & H8 & H9)).
  split; [|split].
  - exists v, cV, r, t1. split_and!; [done|done|]. by etrans.
  - exists at_, n. split_and!; [done|by apply Hs|done].
  - exists m, r', t2. split_and!; [done|by etrans|done].
Qed.

Lemma reconcilePhase_starts target cfg u uc h cv :
  desired_Image (Desired (Spec uc)) = "" -> historyOf uc = Some h -> ~ started (Phase h) ->
  starts_only (start_justified uc) (reconcilePhase target cfg u uc h cv).
Proof.
  intros Hi Hh Hn. pose proof (GetHistory_Version _ _ _ Hh) as Hv. unfold reconcilePhase.
  destruct (Phase h) eqn:Hp; try (by apply starts_silent).
  - by apply reconcileNew_starts.
  - by apply reconcilePending_starts.
  - destruct Hn. by left.
  - destruct Hn. right. by left.
Qed.
Lemma newHistory_phase uc cv t h :
  historyOf uc = None -> exec (newHistory uc cv) t (Done (Ok h)) ->
  Version h = ucVersionOf uc /\ (Phase h = UpgradePhaseNew \/ Phase h = UpgradePhaseUpgrading /\ found_upgrading uc t).
Proof.
  intros Hn. unfold newHistory. cbn zeta. intros [(r & t1 & t2 & -> & H1 & H2)|(m & [=] & _)]%exec_bind.
  destruct r as [[|]|e]; [|destruct H2 as [_ [= ->]]; split; [done|by left]|by destruct H2 as [_ [=]]].
  unfold now, call in H2. cbn [mbind prog_mbind prog_bind exec] in H2. destruct H2 as (n & t3 & -> & _ & [= ->]).
  split; [done|]. right. split; [done|]. split; [done|]. exists t1. split; [done|]. intros x Hx. by apply app_sub_l.
Qed.

Lemma ensureHistory_starts {B} uc cv (f : result (UpgradeConfig * UpgradeHistory) -> M B) :
  (forall h, historyOf uc = Some h -> starts_only (start_justified uc) (f (Ok (uc, h)))) ->
  (forall J uc' h, Version h = ucVersionOf uc' -> Phase h = UpgradePhaseNew -> starts_only J (f (Ok (uc', h)))) ->
  (forall e, all_ev no_rewrite (f (Err e))) -> starts_only (may_start uc) (ensureHistory uc cv ≫= f).
Proof.
  intros Hold Hnew Herr. unfold ensureHistory. destruct (GetHistory _ _) as [h|] eqn:Hh.
  { eapply wp_mono; [by apply Hold|]. intros tr o H He w q Hw Hp Hq. left. by eapply H. }
  apply wp_bind, wp_bindr, wp_exec. intros t o Hex.
  assert (statusWrites t = []) as Hw0.
  { apply no_rewrite_writes. refine (all_ev_exec _ _ _ _ _ Hex). silent_reads. apply newHistory_reads. }
  destruct o as [[h|e]|m]; [|eapply wp_mono; [apply (starts_silent (fun _ => False)); apply Herr|]|].
  2: { intros tr o H [_ He]%Forall_app w q. rewrite statusWrites_app, Hw0. intros Hw Hp Hq. destruct (H He w q Hw Hp Hq). }
  2: { intros _ w q Hw. rewrite Hw0 in Hw. by apply elem_of_nil in Hw. }
  destruct (newHistory_phase _ _ _ _ Hh Hex) as [Hv [Hp|[_ Hf]]]; wp_cbn; intros r; wp_cbn.
  - assert (phaseOf (set_History (h :: History uc) uc) = Some UpgradePhaseNew) as Hpw.
    { unfold phaseOf, historyOf. cbn [History set_History GetHistory]. change (ucVersionOf (set_History _ uc)) with (ucVersionOf uc).
      rewrite bool_decide_true by done. by rewrite <- Hp. }
    destruct r as [uc'|e]; wp_cbn; apply wp_exec; intros tr o Htr; rewrite <- app_assoc;
      intros [_ [Hecho He]%Forall_cons]%Forall_app w q; rewrite statusWrites_app, Hw0; cbn; (intros [->|Hw]%elem_of_cons Hpq Hq;
        [rewrite Hpw in Hpq; injection Hpq as <-; by destruct Hq as [|[|]]|]); exfalso.
    + cbn in Hecho. destruct Hecho as [rv ->].
      exact (proj1 (wp_exec _ _) (Hnew (fun _ => False) (set_ResourceVersion rv (set_History (h :: History uc) uc)) h Hv Hp) _ _ Htr He w q Hw Hpq Hq).
    + exact (proj1 (wp_exec _ _) (starts_silent (fun _ => False) _ (Herr e)) _ _ Htr He w q Hw Hpq Hq).
  - assert (forall tr, may_start uc (t ++ tr)) as Hm.
    { intros tr. right. destruct Hf as (Hn & t1 & H1 & H2). split; [done|]. exists t1. split; [done|]. intros x Hx. by apply app_sub_l, H2. }
    destruct r as [uc'|e]; wp_cbn; apply wp_exec; intros tr o _ _ w q _ _ _; rewrite <- ?app_assoc; apply Hm.
Qed.

Lemma reconcileInstance_starts Namespace em uc :
  desired_Image (Desired (Spec uc)) = "" -> (forall p, phaseOf uc = Some p -> ~ started p) ->
  starts_only (may_start uc) (reconcileInstance Namespace em uc).
Proof.
  intros Hi Hn. unfold reconcileInstance.
  assert (forall {A B} (J : list (obs Eff) -> Prop) (p : M A) (f : A -> M B),
    (forall t tr, J tr -> J (t ++ tr)) -> all_ev no_rewrite p -> (forall a, starts_only J (f a)) -> starts_only J (p ≫= f)) as Hbind.
  { intros A B J p f HJ Hp Hf. apply starts_bind; [done|]. intros a t _. eapply wp_mono; [apply Hf|].
    intros tr o H He w q Hw Hpq Hq. by eapply HJ, H. }
  assert (forall t tr, start_justified uc tr -> start_justified uc (t ++ tr)) as HJ.
  { intros t tr. apply start_justified_sub. intros x Hx. by apply app_sub_r. }
  assert (forall t tr, may_start uc tr -> may_start uc (t ++ tr)) as HM.
  { intros t tr [H|(H1 & t1 & H2 & H3)]; [left; by apply HJ|right]. split; [done|]. exists t1. split; [done|]. intros x Hx. by apply app_sub_r, H3. }
  apply Hbind; [done|by split|]. intros [cv|e]; [|by apply starts_silent].
  apply ensureHistory_starts; [intros h Hh|intros J uc' h Hv Hp|done].
  - apply Hbind; [done|silent_reads; apply NewCMTarget_reads|]. intros [target|e]; [|by apply starts_silent].
    apply Hbind; [done|silent_reads; apply Into_reads|]. intros [cfg|e]; [|by apply starts_silent].
    apply Hbind; [done|silent; apply NewUpgrader_events|]. intros [u|e]; [|by apply starts_silent].
    apply reconcilePhase_starts; [done|done|]. apply Hn. unfold phaseOf. by rewrite Hh.
  - apply starts_bind; [silent_reads; apply NewCMTarget_reads|]. intros [target|e] t1 _; [|by apply starts_silent].
    apply starts_bind; [silent_reads; apply Into_reads|]. intros [cfg|e] t2 _; [|by apply starts_silent].
    apply starts_bind; [silent; apply NewUpgrader_events|]. intros [u|e] t3 _; [|by apply starts_silent].
    unfold reconcilePhase. rewrite Hp. by apply reconcileNew_starts.
Qed.
End Start.

(** ** Properties *)

(** The resource that is reconciled has no image. *)
Definition versioned (ob : obs Eff) : Prop :=
  match ob_event ob in Eff X return X -> Prop with
  | GetUpgradeConfig _ _ => fun r => match r with Ok uc => desired_Image (Desired (Spec uc)) = "" | Err _ => True end
  | _ => fun _ => True
  end (ob_resp ob).

Lemma Reconcile_tracks {yaml : Yaml controllerConfig} {builders : Builders} Namespace Name tr o :
  exec (Reconcile Namespace Name) tr o -> Forall echoed tr -> Forall versioned tr ->
  reads_then Namespace Name tr (fun uc t => tracks uc t).
Proof.
  intros Hex He Hv. eapply Reconcile_exec; [exact Hex|]. intros em uc t Hin Hsub Ht.
  refine (proj1 (wp_exec _ _) (reconcileInstance_follows Namespace em uc _) _ _ Ht _).
  - exact (proj1 (list.Forall_forall _ _) Hv _ Hin).
  - apply list.Forall_forall. intros x Hx. by eapply list.Forall_forall, Hsub.
Qed.

Lemma Reconcile_path {yaml : Yaml controllerConfig} {builders : Builders} Namespace Name tr o :
  exec (Reconcile Namespace Name) tr o -> Forall echoed tr -> Forall versioned tr ->
  reads_then Namespace Name tr (fun uc t => path uc (statusWrites t)).
Proof.
  intros Hex He Hv. destruct (Reconcile_tracks Namespace Name tr o Hex He Hv)
    as [Hw|(t1 & uc & t2 & -> & Hw & Hp)]; [by left|right]. exists t1, uc, t2. split; [done|]. split; [done|].
  apply tracks_path; [|done]. apply Forall_app in He as [_ He]. by apply Forall_cons in He as [_ He].
Qed.

(** C1: whatever the environment answers, the statuses that one reconciliation of
    a versioned UpgradeConfig writes form a path of the life cycle that starts at
    the resource it read: the spec, the name and the histories of other versions
    are left alone, and the phase of the desired version follows the edges. *)
Theorem reconcile_follows_lifecycle {yaml : Yaml controllerConfig} {builders : Builders} Namespace Name tr o :
  exec (Reconcile Namespace Name) tr o -> Forall echoed tr -> Forall versioned tr ->
  reads_then Namespace Name tr (fun uc t => path uc (statusWrites t)).
Proof. apply Reconcile_path. Qed.

(** C5: a resource that was created without histories and since then written only
    by reconciliations has at most one history, that of its desired version, with
    the start time of a started upgrade and the completion time of an upgraded
    one; and the life cycle is one way: a started upgrade stays started, and
    nothing is written once it is Upgraded or Failed. *)
Theorem lifecycle_is_one_way {yaml : Yaml controllerConfig} {builders : Builders} Namespace Name tr o :
  exec (Reconcile Namespace Name) tr o -> Forall echoed tr -> Forall versioned tr ->
  (forall uc, ((Obs (GetUpgradeConfig Name Namespace) (Ok uc) : obs Eff) ∈ tr) -> lifeline uc) ->
  reads_then Namespace Name tr (fun uc t =>
    Forall (fun w => lifeline w /\ stored_state w) (uc :: statusWrites t) /\
    forall p, phaseOf uc = Some p -> started p ->
      (finished p -> statusWrites t = []) /\ Forall (fun w => exists q, phaseOf w = Some q /\ started q) (statusWrites t)).
Proof.
  intros Hex He Hv Hl. destruct (Reconcile_path Namespace Name tr o Hex He Hv)
    as [Hw|(t1 & uc & t2 & -> & Hw & Hp)]; [by left|right]. exists t1, uc, t2. split; [done|]. split; [done|].
  assert (lifeline uc) as Hluc by (apply Hl, elem_of_app; right; by left).
  split; [|intros p; by apply path_one_way].
  assert (Forall lifeline (uc :: statusWrites t2)) as Hall by (constructor; [|eapply path_lifeline]; eauto).
  eapply Forall_impl; [exact Hall|]. intros w Hlw. split; [done|by apply lifeline_stored_state].
Qed.


(** *** Witnesses *)

Definition demo_noon : Time := 1709294400000000000%Z.  (* 2024-03-01T12:00:00Z *)

(** An upgrader that is at work until noon. *)
Definition demo_upgrade (uc : UpgradeConfig) : M (UpgradeConfig * UpgradePhase * option error) :=
  t ← now; mret (uc, if (t <? demo_noon)%Z then UpgradePhaseUpgrading else UpgradePhaseUpgraded, None).
Lemma demo_upgrade_result uc tr uc' ph err :
  is_Some (GetHistory (History uc) (ucVersionOf uc)) -> exec (demo_upgrade uc) tr (Done (uc', ph, err)) -> upgrade_result uc uc' ph.
Proof.
  intros _ (t & t' & _ & _ & [= -> -> _]). split; [apply same_but_conditions_refl|]. split; [done|].
  destruct (t <? demo_noon)%Z; auto.
Qed.
Definition demo_ctrl_upgrader : ClusterUpgrader :=
  {| cu_HealthCheck uc := mret (Ok true); cu_UpgradeCluster := demo_upgrade; cu_UpgradeCluster_result := demo_upgrade_result;
     cu_HealthCheck_events uc := I; cu_UpgradeCluster_events uc := conj I (fun _ => I) |}.

Lemma demo_validator_result (uC : UpgradeConfig) (cV : ClusterVersion) tr uC' r :
  desired_Image (Desired (Spec uC)) = "" ->
  exec (mret (uC, (validationPassed, None)) : M (UpgradeConfig * (ValidatorResult * option error))) tr (Done (uC', r)) -> uC' = uC.
Proof. by intros _ [_ [= ->]]. Qed.
Definition demo_validator : Validator :=
  {| val_IsValidUpgradeConfig uC cV := mret (uC, (validationPassed, None));
     val_version_events uC cV _ := I; val_version_result := demo_validator_result |}.
Definition demo_refresher : RefreshManager := {| rm_Refresh := mret (Ok false); rm_Refresh_events := I |}.

Definition demo_builders : Builders :=
  {| NewMetricsClient := mret (Ok tt); NewEventManager := mret (Ok demo_quiet_em);
     NewUpgrader em target ut := mret (Ok demo_ctrl_upgrader); NewValidator target := mret (Ok demo_validator);
     NewUpgradeConfigManager := mret (Ok demo_refresher);
     NewMetricsClient_events := I; NewEventManager_events := I; NewUpgrader_events em target ut := I;
     NewValidator_events target := I; NewUpgradeConfigManager_events := I |}.
Definition demo_ctrl_yaml : Yaml controllerConfig := fun _ => Ok (mkControllerConfig 120 30 [PreHealthCheckFeatureGate]).

(** The clock shows [t]. *)
Definition demo_ctrl_other (t : Time) X (e : Eff X) : X :=
  match e in Eff X return X with
  | Now => t
  | GetCV => Ok demo_cv
  | GetConfigMap _ _ => Ok ∅
  | e' => default_resp e'
  end.
Definition demo_reconcile (t : Time) (uc : UpgradeConfig) :=
  run (api_server "muo" (demo_ctrl_other t)) (@Reconcile demo_ctrl_yaml demo_builders "muo" "managed-upgrade-config") (Some uc).

(** The scheduled resource, at ten past ten. *)
Definition demo_pending : UpgradeConfig :=
  set_History [mkHistory "4.15.1" "4.14.9" UpgradePhasePending [] None None None None] demo_target.
Definition demo_started : Time := (demo_noon - 110 * Minute)%Z.

(** The storing API server echoes what it is given. *)
Lemma api_server_echoed {A} ns other (p : M A) s : Forall echoed (run (api_server ns other) p s).1.1.
Proof.
  revert s. induction p as [a|m|X e k IH]; intros s; cbn; [constructor..|].
  destruct (api_server ns other X e s) as [x s'] eqn:E. specialize (IH x s').
  destruct (run (api_server ns other) (k x) s') as [[tr o] s'']. constructor; [|exact IH].
  destruct e; try exact I. cbn. destruct s; cbn in E; injection E as <- <-; [|done]. exists (uc_ResourceVersion uc). by destruct uc.
Qed.

Lemma demo_versioned : Forall versioned (demo_reconcile demo_started demo_pending).1.1.
Proof. vm_compute. repeat constructor. Qed.
(** What was read, if it is the resource. *)
Definition readOf (ob : obs Eff) : option (result UpgradeConfig) :=
  match ob_event ob in Eff X return X -> option (result UpgradeConfig) with
  | GetUpgradeConfig _ _ => Some | _ => fun _ => None
  end (ob_resp ob).
Lemma demo_read uc :
  ((Obs (GetUpgradeConfig "managed-upgrade-config" "muo") (Ok uc) : obs Eff) ∈ (demo_reconcile demo_started demo_pending).1.1) ->
  uc = demo_pending.
Proof.
  intros Hin. assert (Ok uc ∈ omap readOf (demo_reconcile demo_started demo_pending).1.1) as H.
  { apply list_elem_of_omap. by eexists. }
  assert (omap readOf (demo_reconcile demo_started demo_pending).1.1 = [Ok demo_pending]) as E by (vm_compute; reflexivity).
  rewrite E in H. apply list_elem_of_singleton in H. congruence.
Qed.
Lemma demo_lifeline : lifeline demo_pending.
Proof.
  eapply (life_written (set_History [mkHistory "4.15.1" "4.14.9" UpgradePhaseNew [] None None None None] demo_target)).
  - eapply (life_written demo_target); [by constructor|].
    refine (newHistory_step demo_target (mkHistory "4.15.1" "4.14.9" UpgradePhaseNew [] None None None None) _ _ _ _ _); try reflexivity; [constructor|].
    split; cbn; intros H; repeat destruct H as [H|H]; done.
  - refine (updateStatus_step _ (mkHistory "4.15.1" "4.14.9" UpgradePhaseNew [] None None None None)
      (mkHistory "4.15.1" "4.14.9" UpgradePhasePending [] None None None None) _ _ _ _ _); try reflexivity; [constructor|].
    intros _. split; cbn; intros H; repeat destruct H as [H|H]; done.
Qed.

Lemma reconcile_follows_lifecycle_witness :
  map phaseOf (statusWrites (demo_reconcile demo_started demo_pending).1.1) = [Some UpgradePhaseUpgrading; Some UpgradePhaseUpgrading] /\
  reads_then "muo" "managed-upgrade-config" (demo_reconcile demo_started demo_pending).1.1 (fun uc t => path uc (statusWrites t)).
Proof.
  split; [vm_compute; reflexivity|].
  eapply (@reconcile_follows_lifecycle demo_ctrl_yaml demo_builders); [exact (run_exec _ _ _)|apply api_server_echoed|apply demo_versioned].
Defined.

Lemma lifecycle_is_one_way_witness :
  (demo_reconcile demo_started demo_pending).1.2 = Done (mkReconcileResult false Minute, None) /\
  reads_then "muo" "managed-upgrade-config" (demo_reconcile demo_started demo_pending).1.1 (fun uc t =>
    Forall (fun w => lifeline w /\ stored_state w) (uc :: statusWrites t) /\
    forall p, phaseOf uc = Some p -> started p ->
      (finished p -> statusWrites t = []) /\ Forall (fun w => exists q, phaseOf w = Some q /\ started q) (statusWrites t)).
Proof.
  split; [vm_compute; reflexivity|].
  eapply (@lifecycle_is_one_way demo_ctrl_yaml demo_builders);
    [exact (run_exec _ _ _)|apply api_server_echoed|apply demo_versioned|].
  intros uc Hin. assert (uc = demo_pending) as -> by exact (demo_read uc Hin). exact demo_lifeline.
Defined.

