(* ===== verification/Watches.v ===== *)
(** * Watches and wake-ups (SetupWithManager, main.go)

    When a controller reconciles again: on the events that its filters let
    pass, on the periodic resynchronisation of the cache, and when its last
    result asked for it.  The filter of the UpgradeConfig controller drops every
    change of the status, its own writes included, so an upgrade goes on only
    because of the results and of the resynchronisation.  [wakes_in_time] says for
    every phase when the next reconciliation comes. *)

From stdpp Require Import base gmap strings list.
From Stdlib Require Import ZArith Lia.
From S2P Require Import Prelude GoTime Api Effects Config Interfaces UpgradeSteps ClusterVersion Scheduler.
From S2P Require Import Metrics SpecProvider UpgradeConfigManager Notifier EventManager HealthChecks Upgraders Validation.
From S2P Require Import Controller ControllerCorrect Machinery NodeKeeper.

(** ** Events and filters *)

Inductive Event (O : Type) :=
| CreateEvent (Object : O)
| UpdateEvent (ObjectOld ObjectNew : option O)
| DeleteEvent (Object : O)
| GenericEvent (Object : O).
Arguments CreateEvent {O} _.
Arguments UpdateEvent {O} _ _.
Arguments DeleteEvent {O} _.
Arguments GenericEvent {O} _.

(** [predicate.Funcs] *)
Record Funcs (O : Type) := mkFuncs {
  CreateFunc : option (O -> bool);
  UpdateFunc : option (option O -> option O -> bool);
  DeleteFunc : option (O -> bool);
  GenericFunc : option (O -> bool);
}.
Arguments mkFuncs {O} _ _ _ _.
Arguments CreateFunc {O} _.
Arguments UpdateFunc {O} _.
Arguments DeleteFunc {O} _.
Arguments GenericFunc {O} _.

Definition StatusChangedPredicate : Funcs UpgradeConfig :=
  mkFuncs None (Some StatusChangedPredicate_Update) None None.

Definition ManagedUpgradePredicate : Funcs UpgradeConfig :=
  let managed uc := isManagedUpgrade (uc_Name uc) in
  mkFuncs (Some managed) (Some (fun _ ObjectNew => match ObjectNew with Some uc => managed uc | None => false end))
          (Some managed) (Some managed).

Definition ignoreMasters : Funcs Node :=
  mkFuncs (Some IgnoreMasterPredicate)
          (Some (fun _ ObjectNew => match ObjectNew with Some newNode => IgnoreMasterPredicate newNode | None => false end))
          (Some IgnoreMasterPredicate) (Some IgnoreMasterPredicate).

(** Machine config pools by their names. *)
Definition isWorkerPredicate : Funcs string :=
  mkFuncs (Some isWorkerPool) (Some (fun _ ObjectNew => match ObjectNew with Some mp => isWorkerPool mp | None => false end))
          (Some isWorkerPool) (Some isWorkerPool).

(** The filters that the SetupWithManager methods register. *)
Definition upgradeConfigFilters : list (Funcs UpgradeConfig) := [StatusChangedPredicate; ManagedUpgradePredicate].
Definition nodeFilters : list (Funcs Node) := [ignoreMasters].
Definition poolFilters : list (Funcs string) := [isWorkerPredicate].

Section Watch.
(** What the library answers for a function that is not set. *)
Context (unset : bool).

Definition admits {O} (f : Funcs O) (e : Event O) : bool :=
  match e with
  | CreateEvent o => match CreateFunc f with Some g => g o | None => unset end
  | UpdateEvent o n => match UpdateFunc f with Some g => g o n | None => unset end
  | DeleteEvent o => match DeleteFunc f with Some g => g o | None => unset end
  | GenericEvent o => match GenericFunc f with Some g => g o | None => unset end
  end.

(** An event has to pass every filter. *)
Definition watched {O} (filters : list (Funcs O)) (e : Event O) : bool := forallb (fun f => admits f e) filters.

Lemma watched_update old new : watched upgradeConfigFilters (UpdateEvent old new) = filteredUpdate old new.
Proof. unfold filteredUpdate. cbn [watched upgradeConfigFilters forallb admits UpdateFunc StatusChangedPredicate ManagedUpgradePredicate]. by rewrite andb_true_r. Qed.

(** A status write is an event only when it changed nothing. *)
Lemma watched_write uc w :
  status_step uc w -> watched upgradeConfigFilters (UpdateEvent (Some uc) (Some w)) = true -> History w = History uc.
Proof. rewrite watched_update. intros _. unfold filteredUpdate, StatusChangedPredicate_Update. intros [H _]%andb_true_iff. by apply bool_decide_eq_true in H. Qed.

Lemma watched_resync uc :
  isManagedUpgrade (uc_Name uc) = true -> watched upgradeConfigFilters (UpdateEvent (Some uc) (Some uc)) = true.
Proof. rewrite watched_update. intros H. unfold filteredUpdate, StatusChangedPredicate_Update. by rewrite H, bool_decide_true. Qed.

End Watch.

(** ** Wake-ups *)

(** The time after a result without an error until the next reconciliation:
    what the result asks for, or the next resynchronisation. *)
Definition wakeAfter (resync : Duration) (res : ReconcileResult) : Duration :=
  if (0 <? RequeueAfter res)%Z then Z.min resync (RequeueAfter res) else resync.

(** The result of waiting for a time that is [d] away. *)
Definition soon (d : Duration) : ReconcileResult :=
  mkReconcileResult false (if (0 <? d)%Z && (d <? SyncPeriodDefault)%Z then d else 0).

Lemma wakeAfter_soon resync d :
  (0 < resync <= SyncPeriodDefault)%Z -> (0 < d)%Z -> (0 < wakeAfter resync (soon d) <= d)%Z.
Proof.
  intros Hr Hd. unfold wakeAfter, soon. cbn [RequeueAfter]. rewrite (proj2 (Z.ltb_lt 0 d) Hd). cbn [andb].
  destruct (Z.ltb_spec d SyncPeriodDefault); [rewrite (proj2 (Z.ltb_lt 0 d) Hd)|]; cbn; lia.
Qed.

Lemma wakeAfter_minute resync res :
  (0 < resync <= SyncPeriodDefault)%Z -> RequeueAfter res = Minute -> (0 < wakeAfter resync res <= Minute)%Z.
Proof. intros Hr Hm. unfold wakeAfter. rewrite Hm. change (0 <? Minute)%Z with true. cbv iota. unfold Minute, Second. lia. Qed.

(** The result of waiting for the scheduled time, from a reading of the clock. *)
Definition waits (uc : UpgradeConfig) (tr : list (obs Eff)) (res : ReconcileResult) : Prop :=
  match parseRFC3339 (UpgradeAt (Spec uc)) with
  | Err _ => res = noRequeue
  | Ok upgradeAt => exists n, ((Obs Now n : obs Eff) ∈ tr) /\ (n <= upgradeAt)%Z /\ res = soon (TimeSub upgradeAt n)
  end.

(** The status was written with the upgrade as started. *)
Definition startWritten (tr : list (obs Eff)) : Prop :=
  exists w, w ∈ statusWrites tr /\ phaseOf w = Some UpgradePhaseUpgrading.

(** A validator judged the resource, which it may have completed with the version
    of an image. *)
Definition judged (uc : UpgradeConfig) (tr : list (obs Eff)) (uc' : UpgradeConfig) (verdict : ValidatorResult * option error) : Prop :=
  exists (v : Validator) cv tv, exec (val_IsValidUpgradeConfig v uc cv) tv (Done (uc', verdict)) /\ tv ⊆ tr.

(** The refresh said that the upgrade policy has changed. *)
Definition refreshed (tr : list (obs Eff)) : Prop :=
  exists (m : RefreshManager) tm, exec (rm_Refresh m) tm (Done (Ok true)) /\ tm ⊆ tr.

(** Why a pending upgrade was not started although nothing failed, and what is
    asked of the queue: only a schedule ahead asks for anything. *)
Inductive postponed (uc : UpgradeConfig) (tr : list (obs Eff)) : ReconcileResult -> Prop :=
| postponed_refused uc' verdict :
    judged uc tr uc' verdict -> vr_IsValid verdict.1 = false -> postponed uc tr noRequeue
| postponed_unavailable uc' verdict :
    judged uc tr uc' verdict -> vr_IsValid verdict.1 = true -> IsAvailableUpdate verdict.1 = false -> postponed uc tr noRequeue
| postponed_ahead uc' verdict res :
    judged uc tr uc' verdict -> accepted verdict -> waits uc' tr res -> postponed uc tr res
| postponed_changed uc' verdict :
    judged uc tr uc' verdict -> accepted verdict -> refreshed tr -> postponed uc tr noRequeue.

(** What a reconciliation of [uc] without an error asks of the queue. *)
Definition leaves (uc : UpgradeConfig) (tr : list (obs Eff)) (res : ReconcileResult) : Prop :=
  match phaseOf uc with
  | None | Some UpgradePhaseNew | Some UpgradePhaseUpgrading => RequeueAfter res = Minute
  | Some UpgradePhasePending => RequeueAfter res = Minute /\ startWritten tr \/ postponed uc tr res
  | Some _ => res = noRequeue /\ statusWrites tr = []
  end.

Definition settles (uc : UpgradeConfig) (p : M (ReconcileResult * option error)) : Prop :=
  wp p (fun tr o => forall res, o = Done (res, None) -> leaves uc tr res).
(** The next reconciliation in a minute. *)
Definition minutely (p : M (ReconcileResult * option error)) : Prop :=
  wp p (fun _ o => forall res, o = Done (res, None) -> RequeueAfter res = Minute).

(** ** Lemmas *)

Lemma minutely_bind {A} (p : M A) f : (forall a, minutely (f a)) -> minutely (p ≫= f).
Proof. intros H. apply wp_bind, wp_exec. intros tr [a|m] _; [|done]. eapply wp_mono; [apply H|]. done. Qed.

Lemma minutely_error e : minutely (reconcileError e).
Proof. by intros res [=]. Qed.
Lemma minutely_requeue e : minutely (mret (mkReconcileResult false Minute, e)).
Proof. by intros res [= <- _]. Qed.

Lemma waits_sub uc t tr res : t ⊆ tr -> waits uc t res -> waits uc tr res.
Proof. intros Hs. unfold waits. destruct (parseRFC3339 _); [|done]. intros (n & Hn & H). exists n. auto. Qed.

Lemma startWritten_sub t tr : t ⊆ tr -> startWritten t -> startWritten tr.
Proof.
  intros Hs (w & Hw & Hp). exists w. split; [|done]. unfold statusWrites in *.
  apply list_elem_of_omap in Hw as (ob & Hob & He). apply list_elem_of_omap. exists ob. auto.
Qed.

Lemma postponed_sub uc t tr res : t ⊆ tr -> postponed uc t res -> postponed uc tr res.
Proof.
  intros Hs. assert (forall uc' verdict, judged uc t uc' verdict -> judged uc tr uc' verdict) as Hj.
  { intros uc' verdict (v & cv & tv & Hex & Hv). exists v, cv, tv. split; [done|]. by etransitivity. }
  intros [uc' vd Hv ?|uc' vd Hv ? ?|uc' vd r Hv ? Hw|uc' vd Hv ? (m & tm & Hm & Hsub)]; apply Hj in Hv.
  - by eapply postponed_refused.
  - by eapply postponed_unavailable.
  - eapply postponed_ahead; [done..|]. by eapply waits_sub.
  - eapply postponed_changed; [done..|]. exists m, tm. split; [done|]. by etransitivity.
Qed.

Section Settle.
Context {yaml : Yaml controllerConfig} {builders : Builders}.

Lemma minutely_upgradeCluster u uc : minutely (upgradeCluster u uc).
Proof.
  unfold upgradeCluster. apply minutely_bind. intros [[uc1 ph] err]. do 3 (apply minutely_bind; intros ?). apply minutely_requeue.
Qed.
Lemma minutely_reconcileNew cfg u uc h : minutely (reconcileNew cfg u uc h).
Proof.
  unfold reconcileNew. cbn zeta. do 3 (apply minutely_bind; intros ?). case_match; [apply minutely_requeue|apply minutely_error].
Qed.

(** A validated upgrade whose time has come is started, unless the policy changed. *)
Lemma startUpgrade_outcome u uc h :
  wp (startUpgrade u uc h) (fun tr o => forall res, o = Done (res, None) ->
    RequeueAfter res = Minute /\ startWritten tr \/ res = noRequeue /\ refreshed tr).
Proof.
  unfold startUpgrade. apply wp_bind, wp_exec. intros t1 [[m|e]|msg] _; [|by intros res [=]|done].
  apply wp_bind, wp_exec. intros t2 [r|msg] Hr; [|done].
  assert (wp (t ← now; let history := set_Version (ucVersionOf uc) (set_StartTime (Some t) (set_Phase UpgradePhaseUpgrading h)) in
    r ← updateStatus history uc; match r with Err err => reconcileError err | Ok instance => upgradeCluster u instance end)
    (fun tr o => forall res, o = Done (res, None) -> RequeueAfter res = Minute /\ startWritten tr)) as Hgo.
  { unfold updateStatus, now. wp_cbn. intros t [uc'|e]; [|by wp_cbn; intros res [=]].
    eapply wp_mono; [apply minutely_upgradeCluster|]. intros tr o H res Ho. split; [by apply H|].
    eexists. split; [by left|]. by apply updateStatus_phase. }
  assert (forall q : M (ReconcileResult * option error), wp q (fun tr o => forall res, o = Done (res, None) -> RequeueAfter res = Minute /\ startWritten tr) ->
    wp q (fun tr o => forall res, o = Done (res, None) ->
      RequeueAfter res = Minute /\ startWritten (t1 ++ t2 ++ tr) \/ res = noRequeue /\ refreshed (t1 ++ t2 ++ tr))) as Hstart.
  { intros q Hq. eapply wp_mono; [exact Hq|]. intros tr o H res Ho. left. destruct (H res Ho) as [Hm Hw]. split; [done|].
    eapply startWritten_sub; [|exact Hw]. intros x Hx. by do 2 apply app_sub_r. }
  destruct r as [[|]|e]; [|by apply Hstart|destruct (is_sentinel ErrNotConfigured e); [by apply Hstart|by intros res [=]]].
  unfold updateStatus. wp_cbn. intros [uc'|e]; [|by intros res [=]]. wp_cbn. intros res [= <-]. right. split; [done|].
  exists m, t2. split; [done|]. intros x Hx. by apply app_sub_r, app_sub_l.
Qed.

Lemma IsReadyToUpgrade_waits uc d tr s :
  exec (IsReadyToUpgrade uc d) tr (Done s) -> IsReady s = false ->
  waits uc tr (soon (TimeUntilUpgrade s)).
Proof.
  unfold IsReadyToUpgrade, waits. destruct (parseRFC3339 _) as [t|e]; [|by intros [-> [= ->]]].
  intros (n & t' & -> & -> & [= ->]). unfold After. destruct (Z.ltb_spec t n); [by case_match|]. intros _. exists n.
  split_and!; [by left|lia|done].
Qed.

Lemma pending_outcome target cfg u uc h cv :
  wp (reconcilePending target cfg u uc h cv) (fun tr o => forall res, o = Done (res, None) ->
    RequeueAfter res = Minute /\ startWritten tr \/ postponed uc tr res).
Proof.
  unfold reconcilePending. apply wp_bind, wp_exec. intros t1 [[v|e]|m] _; [|by intros res [=]|done].
  apply wp_bind, wp_exec. intros t2 [[uc' [vr err]]|m] Hval; [|done].
  assert (forall tr, judged uc (t1 ++ t2 ++ tr) uc' (vr, err)) as Hj.
  { intros tr. exists v, cv, t2. split; [done|]. intros x Hx. by apply app_sub_r, app_sub_l. }
  destruct (vr_IsValid vr) eqn:Ev; cbn [negb orb].
  2: { wp_cbn. intros [] res [= <- ->]. right. eapply postponed_refused; [apply Hj|done]. }
  destruct err as [err|]; cbn [bool_decide]; [by wp_cbn; intros [] res [= <- ?]|].
  apply wp_bind, wp_exec. intros t3 [[]|m] _; [|done].
  destruct (IsAvailableUpdate vr) eqn:Ea; cbn [negb].
  2: { wp_cbn. intros res [= <-]. right. by eapply postponed_unavailable; [apply Hj|..]. }
  assert (accepted (vr, None)) as Hacc by done.
  apply wp_bind, wp_exec. intros t4 [s|m] Hs; [|done]. destruct (IsReady s) eqn:Er.
  - eapply wp_mono; [apply startUpgrade_outcome|]. intros tr o H res Ho.
    assert (tr ⊆ t1 ++ t2 ++ t3 ++ t4 ++ tr) as Hsub by (intros x Hx; by do 4 apply app_sub_r).
    destruct (H res Ho) as [[Hm Hw]|[-> (m & tm & Hm & Htm)]]; [left|right].
    + split; [done|]. by eapply startWritten_sub.
    + eapply postponed_changed; [apply Hj|done|]. exists m, tm. split; [done|]. by etransitivity.
  - pose proof (IsReadyToUpgrade_waits _ _ _ _ Hs Er) as Hw. unfold updateStatus. wp_cbn.
    intros [uc''|e]; [|by intros res [=]].
    assert (forall tr, postponed uc (t1 ++ t2 ++ t3 ++ t4 ++ tr) (soon (TimeUntilUpgrade s))) as Hp.
    { intros tr. eapply postponed_ahead; [apply Hj|done|]. eapply waits_sub; [|exact Hw].
      intros x Hx. by apply app_sub_r, app_sub_r, app_sub_r, app_sub_l. }
    unfold soon in Hp. destruct (_ && _); wp_cbn; intros res [= <-]; right; apply Hp.
Qed.

Lemma settles_phase target cfg u uc h cv :
  historyOf uc = Some h -> settles uc (reconcilePhase target cfg u uc h cv).
Proof.
  intros Hh. unfold settles, leaves, phaseOf. rewrite Hh. cbn [fmap option_fmap option_map].
  unfold reconcilePhase. destruct (Phase h) eqn:Hp; try (wp_cbn; by intros res [= <-]).
  - apply minutely_reconcileNew.
  - apply pending_outcome.
  - apply minutely_upgradeCluster.
  - apply wp_bind, wp_exec. intros t1 [st|m] H1; [|done]. apply wp_bind, wp_exec. intros t2 [ct|m] H2; [|done].
    apply wp_bind, wp_exec. intros t3 [err|m] H3; [|done]. wp_cbn. intros res [= <- _]. split; [done|].
    rewrite !statusWrites_app, app_nil_r.
    rewrite (no_rewrite_writes t1), (no_rewrite_writes t2), (no_rewrite_writes t3); [done|..].
    + refine (all_ev_exec _ _ _ _ _ H3). silent_reads. apply reportUpgradeMetrics_reads.
    + refine (all_ev_exec _ _ _ _ _ H2). destruct (CompleteTime h); exact I.
    + refine (all_ev_exec _ _ _ _ _ H1). destruct (StartTime h); exact I.
Qed.

Lemma minutely_instance_rest Namespace em uc h cv :
  (Phase h = UpgradePhaseNew \/ Phase h = UpgradePhaseUpgrading) ->
  minutely (r ← NewCMTarget (mkTarget "" Namespace "");
    match r with Err err => reconcileError err | Ok cmTarget =>
    r ← Into cmTarget;
    match r with Err err => reconcileError err | Ok cfg =>
    r ← NewUpgrader em cmTarget (Type_ (Spec uc));
    match r with Err err => reconcileError err | Ok upgrader => reconcilePhase cmTarget cfg upgrader uc h cv end end end).
Proof.
  intros Hp. do 3 (apply minutely_bind; intros [?|?]; [|apply minutely_error]).
  unfold reconcilePhase. destruct Hp as [->| ->]; [apply minutely_reconcileNew|apply minutely_upgradeCluster].
Qed.

(** What came before does not matter, except that it may not write a finished
    resource. *)
Lemma leaves_later uc t tr res : statusWrites t = [] -> leaves uc tr res -> leaves uc (t ++ tr) res.
Proof.
  intros Ht. unfold leaves. assert (tr ⊆ t ++ tr) as Hs by (intros x Hx; by apply app_sub_r).
  destruct (phaseOf uc) as [[]|]; rewrite ?statusWrites_app, ?Ht; try done.
  intros [[Hm Hw]|Hp]; [left|right; by eapply postponed_sub]. split; [done|]. by eapply startWritten_sub.
Qed.

Lemma settles_bind {A} uc (p : M (result A)) (f : A -> M (ReconcileResult * option error)) :
  all_ev no_rewrite p -> (forall a, settles uc (f a)) ->
  settles uc (r ← p; match r with Err err => reconcileError err | Ok a => f a end).
Proof.
  intros Hp Hf. apply wp_bind, wp_exec. intros tr [[a|e]|m] Hex; [|by intros res [=]|done].
  eapply wp_mono; [apply Hf|]. intros tr' o H res Ho. apply leaves_later; [|by apply H].
  apply no_rewrite_writes. exact (all_ev_exec _ _ _ _ Hp Hex).
Qed.

Lemma settles_instance Namespace em uc : settles uc (reconcileInstance Namespace em uc).
Proof.
  unfold reconcileInstance. apply settles_bind; [by split|]. intros cv.
  unfold ensureHistory. destruct (GetHistory _ _) as [h|] eqn:Hh.
  - apply wp_bind, wp_exec. intros t1 [r|m] [-> [= ->]].
    apply settles_bind; [silent_reads; apply NewCMTarget_reads|]. intros target.
    apply settles_bind; [silent_reads; apply Into_reads|]. intros cfg.
    apply settles_bind; [silent; apply NewUpgrader_events|]. intros u. by apply settles_phase.
  - unfold settles, leaves, phaseOf. change (historyOf uc) with (GetHistory (History uc) (ucVersionOf uc)). rewrite Hh.
    cbn [fmap option_fmap option_map]. apply wp_bind, wp_bindr, wp_exec. intros t [[h|e]|m] Hex; [|by wp_cbn; intros res [=]|done].
    destruct (newHistory_phase _ _ _ _ Hh Hex) as [_ Hp]. wp_cbn. intros [uc'|e]; wp_cbn; [|by intros res [=]].
    eapply wp_mono; [apply minutely_instance_rest; tauto|]. intros tr o H. exact H.
Qed.

(** A reconciliation without an error has read the resource, or learnt that there
    is none. *)
Lemma Reconcile_reads Namespace Name tr res :
  exec (Reconcile Namespace Name) tr (Done (res, None)) ->
  (exists t1 e t2, tr = t1 ++ Obs (GetUpgradeConfig Name Namespace) (Err e) :: t2 /\ IsNotFound e = true /\ statusWrites tr = []) \/
  exists t1 uc em t2, tr = t1 ++ Obs (GetUpgradeConfig Name Namespace) (Ok uc) :: t2 /\ statusWrites t1 = [] /\
    exec (reconcileInstance Namespace em uc) t2 (Done (res, None)).
Proof.
  assert (forall {A} (p : M A) tr o, all_ev no_rewrite p -> exec p tr o -> statusWrites tr = []) as Hquiet.
  { intros A p t o' Hp Hex. apply no_rewrite_writes. exact (all_ev_exec _ _ _ _ Hp Hex). }
  unfold Reconcile. intros (r1 & t1 & t' & -> & H1 & Hex)%exec_bind_done.
  apply Hquiet in H1; [|silent; apply NewMetricsClient_events].
  destruct r1 as [[]|e]; [|by destruct Hex as [_ [=]]].
  apply exec_bind_done in Hex as (r2 & t2 & t3 & -> & H2 & Hex).
  apply Hquiet in H2; [|silent; apply NewEventManager_events].
  destruct r2 as [em|e]; [|by destruct Hex as [_ [=]]].
  apply exec_bind_done in Hex as (r3 & t4 & t5 & -> & (r & t6 & -> & -> & [= <-]) & Hex). destruct r3 as [uc|e].
  - right. exists (t1 ++ t2), uc, em, t5. split; [by rewrite <- app_assoc|]. split; [by rewrite statusWrites_app, H1, H2|done].
  - left. exists (t1 ++ t2), e, t5. split; [by rewrite <- app_assoc|]. destruct (IsNotFound e); [|by destruct Hex as [_ [=]]].
    split; [done|]. rewrite !statusWrites_app, H1, H2. cbn [app].
    change (statusWrites (Obs (GetUpgradeConfig Name Namespace) (Err e) :: t5)) with (statusWrites t5).
    eapply Hquiet; [|exact Hex]. apply all_ev_bind; [unfold ResetEphemeralMetrics|intros []; exact I].
    repeat (split; [done|intros []]). exact I.
Qed.
End Settle.

(** ** Properties *)


(** *** Witnesses *)

(** The scheduled resource, two minutes before its time. *)
Definition demo_early : Time := (demo_noon - 122 * Minute)%Z.

