(* ===== verification/ControllerLive.v ===== *)
(** * The upgrade completes

    The UpgradeConfig lives on a storing API server and is reconciled again and
    again.  When the collaborators of the controller work, the clock passes the
    scheduled time and the upgrader finishes, the resource reaches the phase
    Upgraded and stays there. *)

From stdpp Require Import base gmap strings list.
From Stdlib Require Import ZArith Lia.
From S2P Require Import Prelude GoTime Api Effects Config Interfaces UpgradeSteps ClusterVersion Scheduler.
From S2P Require Import Metrics SpecProvider UpgradeConfigManager Notifier EventManager Upgraders Validation Controller.
From S2P Require Import ControllerCorrect.

Section Live.
Context {yaml : Yaml controllerConfig} {builders : Builders}.
Context (ns Name : string) (sp : UpgradeConfigSpec).

Section Environment.
Context (other : forall X, Eff X -> X).
Notation h := (api_server ns other).
Notation result_of p s := (run h p s).1.2.

(** The collaborators answer; the validator accepts the resource, and the
    upgrader, when it is asked, has not failed. *)
Record working : Prop := {
  works_metrics s : result_of NewMetricsClient s = Done (Ok tt);
  works_events s : exists em, result_of NewEventManager s = Done (Ok em);
  works_cv : exists cv, other _ GetCV = Ok cv;
  works_config : exists m cfg, other _ (GetConfigMap ConfigMapName ns) = Ok m /\
    Unmarshal (default "" (m !! ConfigField)) = Ok (cfg : controllerConfig) /\ IsValid cfg = None;
  works_upgrader em target s : exists u, result_of (NewUpgrader em target (Type_ sp)) s = Done (Ok u);
  works_health em target s u uc s' : result_of (NewUpgrader em target (Type_ sp)) s = Done (Ok u) ->
    exists r, result_of (cu_HealthCheck u uc) s' = Done r;
  works_upgrade em target s u uc s' : result_of (NewUpgrader em target (Type_ sp)) s = Done (Ok u) ->
    Spec uc = sp -> is_Some (historyOf uc) ->
    exists uc' ph err, result_of (cu_UpgradeCluster u uc) s' = Done (uc', ph, err) /\
      (ph = UpgradePhaseUpgrading \/ ph = UpgradePhaseUpgraded);
  works_validator target s : exists v, result_of (NewValidator target) s = Done (Ok v) /\
    forall uc cv s', Spec uc = sp -> exists r, result_of (val_IsValidUpgradeConfig v uc cv) s' = Done (uc, r) /\ accepted r;
  works_manager s : exists m, result_of NewUpgradeConfigManager s = Done (Ok m) /\
    forall s', ends h (rm_Refresh m) s' (Ok false) s';
}.

(** The scheduled time has passed, and the upgrader finishes. *)
Definition due : Prop := exists upgradeAt, parseRFC3339 (UpgradeAt sp) = Ok upgradeAt /\ (upgradeAt < other _ Now)%Z.
Definition finishing : Prop := forall em target s u uc s',
  result_of (NewUpgrader em target (Type_ sp)) s = Done (Ok u) -> Spec uc = sp -> is_Some (historyOf uc) ->
  exists uc' err, result_of (cu_UpgradeCluster u uc) s' = Done (uc', UpgradePhaseUpgraded, err).

Lemma api_server_no_uc_write X (e : Eff X) s : no_uc_write X e -> (h X e s).2 = s.
Proof. by destruct e. Qed.

(** A collaborator's program that writes no UpgradeConfig. *)
Lemma ends_quietly {A} (p : M A) s a : all_ev no_uc_write p -> result_of p s = Done a -> ends h p s a s.
Proof. apply ends_still, api_server_no_uc_write. Qed.
Lemma ends_reading {A} (p : M A) s a : all_ev reads p -> result_of p s = Done a -> ends h p s a s.
Proof. apply ends_still, api_server_reads. Qed.

(** The stage of the resource: its phase, with the times of the phase. *)
Definition at_stage (p : option UpgradePhase) (uc : UpgradeConfig) : Prop :=
  Spec uc = sp /\ match historyOf uc with None => p = None | Some hist => p = Some (Phase hist) /\ times_recorded hist end.

Lemma at_stage_written p uc hist :
  Spec uc = sp -> Version hist = ucVersionOf uc -> Phase hist = p -> times_recorded hist ->
  at_stage (Some p) (set_History (SetHistory hist (History uc)) uc).
Proof.
  intros Hs Hv Hp Ht. split; [done|]. unfold historyOf. cbn [History set_History].
  change (ucVersionOf (set_History _ uc)) with (ucVersionOf uc). rewrite SetHistory_lookup, Hv, bool_decide_true by done.
  by rewrite Hp.
Qed.

(** A status update on a cluster that has the resource. *)
Lemma ends_write {B} w stored (f : result UpgradeConfig -> M B) b s :
  ends h (f (Ok w)) (Some w) b s -> ends h (call (StatusUpdate w) ≫= f) (Some stored) b s.
Proof. intros Hf. eapply ends_bind; [apply ends_call|]. exact Hf. Qed.

Lemma upgradeCluster_ends u uc hist stored uc' ph err :
  Spec uc = sp -> historyOf uc = Some hist -> Phase hist = UpgradePhaseUpgrading -> times_recorded hist ->
  result_of (cu_UpgradeCluster u uc) (Some stored) = Done (uc', ph, err) ->
  ph = UpgradePhaseUpgrading \/ ph = UpgradePhaseUpgraded ->
  exists r w, ends h (upgradeCluster u uc) (Some stored) r (Some w) /\ at_stage (Some ph) w.
Proof.
  intros Hs Hh Hp Ht Hr Hph.
  pose proof (run_exec h (cu_UpgradeCluster u uc) (Some stored)) as Hex. rewrite Hr in Hex.
  destruct (cu_UpgradeCluster_result _ _ _ _ _ ltac:(by exists hist) Hex) as (Hsame & _ & _).
  pose proof (same_but_conditions_version _ _ Hsame) as Hv. pose proof (sbc_Spec _ _ Hsame) as Hspec.
  destruct (sbc_desired _ _ Hsame _ Hh) as [cs Hcs]. rewrite <- Hv in Hcs.
  pose proof (GetHistory_Version _ _ _ Hh) as Hver.
  set (h1 := if bool_decide (ph = UpgradePhaseUpgraded)
             then set_CompleteTime (Some (other _ Now)) (set_Phase ph (set_Conditions cs hist)) else set_Phase ph (set_Conditions cs hist)).
  exists (mkReconcileResult false Minute, errorOrNil (multierror_Append None (multierror_Append err []))).
  exists (set_History (SetHistory h1 (History uc')) uc'). split.
  - unfold upgradeCluster. eapply ends_bind; [apply ends_quietly; [apply cu_UpgradeCluster_events|exact Hr]|].
    cbn beta iota zeta. rewrite Hcs. eapply ends_bind; [exact (ends_ret h _ _)|]. cbn beta.
    eapply (ends_bind h _ _ _ h1); [unfold h1, now; case_bool_decide; [|exact (ends_ret h _ _)]; split; reflexivity|].
    unfold updateStatus. apply ends_write. split; reflexivity.
  - apply at_stage_written; [by rewrite Hspec|unfold h1; case_bool_decide; cbn; by rewrite Hver, Hv|unfold h1; by case_bool_decide|].
    destruct Ht as [Ht _]. assert (is_Some (StartTime hist)) by (apply Ht; by left).
    unfold h1. case_bool_decide as Hup; split; cbn; intros; first [done|by eexists].
Qed.

(** Where a reconciliation may leave the phase, and where it has to when the
    upgrade is due and finishes. *)
Definition progress (p q : option UpgradePhase) : Prop :=
  match p with
  | None | Some UpgradePhaseNew =>
      q = Some UpgradePhasePending \/ q = Some UpgradePhaseUpgrading \/ q = Some UpgradePhaseUpgraded
  | Some UpgradePhasePending =>
      (q = Some UpgradePhasePending \/ q = Some UpgradePhaseUpgrading \/ q = Some UpgradePhaseUpgraded) /\
      (due -> finishing -> q = Some UpgradePhaseUpgraded)
  | Some UpgradePhaseUpgrading =>
      (q = Some UpgradePhaseUpgrading \/ q = Some UpgradePhaseUpgraded) /\
      (finishing -> q = Some UpgradePhaseUpgraded)
  | Some UpgradePhaseUpgraded => q = Some UpgradePhaseUpgraded
  | _ => True
  end.

Definition advances {A} (p : option UpgradePhase) (prg : M A) (stored : UpgradeConfig) : Prop :=
  exists r w q, ends h prg (Some stored) r (Some w) /\ at_stage q w /\ progress p q.

Hypothesis Hw : working.
Hypothesis Hi : desired_Image (Desired sp) = "".
Hypothesis Hc : desired_Channel (Desired sp) <> "".
Hypothesis Hver : desired_Version (Desired sp) <> "".

Lemma built_upgrader_upgrades em target s u uc hist stored :
  result_of (NewUpgrader em target (Type_ sp)) s = Done (Ok u) ->
  Spec uc = sp -> historyOf uc = Some hist -> Phase hist = UpgradePhaseUpgrading -> times_recorded hist ->
  advances (Some UpgradePhaseUpgrading) (upgradeCluster u uc) stored.
Proof.
  intros Hu Hs Hh Hp Ht.
  destruct (works_upgrade Hw _ _ _ _ _ (Some stored) Hu Hs ltac:(by exists hist)) as (uc' & ph & err & Hr & Hph).
  destruct (upgradeCluster_ends _ _ _ _ _ _ _ Hs Hh Hp Ht Hr Hph) as (r & w & He & Hst).
  exists r, w, (Some ph). split_and!; [done|done|]. split; [destruct Hph as [->| ->]; auto|]. intros Hf.
  destruct (Hf _ _ _ _ _ (Some stored) Hu Hs ltac:(by exists hist)) as (uc2 & err2 & Hr2). congruence.
Qed.

Lemma IsReadyToUpgrade_ends uc d stored : Spec uc = sp ->
  exists s, ends h (IsReadyToUpgrade uc d) (Some stored) s (Some stored) /\ (due -> IsReady s = true).
Proof.
  intros Hs. unfold IsReadyToUpgrade, due. rewrite Hs. destruct (parseRFC3339 (UpgradeAt sp)) as [at_|e].
  - eexists. split; [split; reflexivity|]. cbn. intros (at' & [= ->] & Hlt). unfold After. cbn.
    rewrite (proj2 (Z.ltb_lt _ _) Hlt). by destruct (_ <? _)%Z.
  - eexists. split; [split; reflexivity|]. by intros (at' & [=] & _).
Qed.

Lemma reconcileNew_ends cfg em target s u uc hist stored :
  result_of (NewUpgrader em target (Type_ sp)) s = Done (Ok u) ->
  Spec uc = sp -> historyOf uc = Some hist -> Phase hist = UpgradePhaseNew ->
  advances (Some UpgradePhaseNew) (reconcileNew cfg u uc hist) stored.
Proof.
  intros Hu Hs Hh Hp. pose proof (GetHistory_Version _ _ _ Hh) as Hv.
  destruct (IsReadyToUpgrade_ends uc (controller_GetUpgradeWindowTimeOutDuration cfg) stored Hs) as (sr & Hsr & _).
  destruct (works_health Hw _ _ _ _ uc (Some stored) Hu) as [r Hr].
  eexists _, _, (Some UpgradePhasePending). split_and!.
  - unfold reconcileNew. eapply ends_bind; [exact Hsr|]. cbn zeta. eapply (ends_bind h _ _ _ tt (Some stored)).
    + destruct (_ && _); [|exact (ends_ret h _ _)]. eapply ends_bind; [apply ends_quietly; [apply cu_HealthCheck_events|exact Hr]|].
      exact (ends_ret h _ _).
    + unfold updateStatus. apply ends_write. exact (ends_ret h _ _).
  - apply at_stage_written; [done|done|done|]. split; cbn; intros Hst; repeat destruct Hst as [Hst|Hst]; done.
  - by left.
Qed.

(** Whatever a status update writes, what follows sees the written resource. *)
Lemma startUpgrade_ends em target s u uc hist stored :
  result_of (NewUpgrader em target (Type_ sp)) s = Done (Ok u) ->
  Spec uc = sp -> historyOf uc = Some hist ->
  advances (Some UpgradePhaseUpgrading) (startUpgrade u uc hist) stored.
Proof.
  intros Hu Hs Hh. destruct (works_manager Hw (Some stored)) as (m & Hm & Hr).
  set (h1 := set_Version (ucVersionOf uc) (set_StartTime (Some (other _ Now)) (set_Phase UpgradePhaseUpgrading hist))).
  set (w := set_History (SetHistory h1 (History uc)) uc).
  assert (historyOf w = Some h1) as Hw1.
  { unfold historyOf, w. cbn [History set_History]. change (ucVersionOf (set_History _ uc)) with (ucVersionOf uc).
    rewrite SetHistory_lookup. by rewrite bool_decide_true. }
  destruct (built_upgrader_upgrades em target s u w h1 w Hu Hs Hw1 eq_refl) as (r & w' & q & He & Hst & Hq).
  { split; cbn; [intros _; by eexists|done]. }
  exists r, w', q. split_and!; [|done|done]. unfold startUpgrade.
  eapply ends_bind; [apply ends_quietly; [apply NewUpgradeConfigManager_events|exact Hm]|]. cbn beta iota.
  eapply ends_bind; [apply Hr|]. cbn beta iota. eapply ends_bind; [apply (ends_call h Now)|]. cbn zeta.
  unfold updateStatus. by apply ends_write.
Qed.

Lemma reconcilePending_ends cfg em target s u uc hist cv stored :
  result_of (NewUpgrader em target (Type_ sp)) s = Done (Ok u) ->
  Spec uc = sp -> historyOf uc = Some hist -> Phase hist = UpgradePhasePending ->
  advances (Some UpgradePhasePending) (reconcilePending target cfg u uc hist cv) stored.
Proof.
  intros Hu Hs Hh Hp. pose proof (GetHistory_Version _ _ _ Hh) as Hv.
  destruct (works_validator Hw target (Some stored)) as (v & Hval & Hacc).
  destruct (Hacc uc cv (Some stored) Hs) as ([vr err] & Hr & Hv1 & Hv2 & Hv3).
  destruct (IsReadyToUpgrade_ends uc (controller_GetUpgradeWindowTimeOutDuration cfg) stored Hs) as (sr & Hsr & Hdue).
  destruct vr as [valid avail msg]. cbn [vr_IsValid IsAvailableUpdate fst snd] in Hv1, Hv2, Hv3. subst valid avail err.
  destruct (IsReady sr) eqn:Er.
  - destruct (startUpgrade_ends em target s u uc hist stored Hu Hs Hh) as (r & w & q & He & Hst & [Hq Hf]).
    exists r, w, q. split_and!; [|done|split; [tauto|by intros _]].
    unfold reconcilePending. eapply ends_bind; [apply ends_quietly; [apply NewValidator_events|exact Hval]|]. cbn beta iota.
    eapply ends_bind; [apply ends_quietly; [apply val_version_events; by rewrite Hs|exact Hr]|].
    cbn beta iota delta [vr_IsValid IsAvailableUpdate negb]. eapply ends_bind; [apply ends_call|].
    eapply ends_bind; [exact Hsr|]. rewrite Er. exact He.
  - exists (if (0 <? TimeUntilUpgrade sr)%Z && (TimeUntilUpgrade sr <? SyncPeriodDefault)%Z
            then (mkReconcileResult false (TimeUntilUpgrade sr), None) else (noRequeue, None)).
    eexists _, (Some UpgradePhasePending). split_and!.
    + unfold reconcilePending. eapply ends_bind; [apply ends_quietly; [apply NewValidator_events|exact Hval]|]. cbn beta iota.
      eapply ends_bind; [apply ends_quietly; [apply val_version_events; by rewrite Hs|exact Hr]|].
      cbn beta iota delta [vr_IsValid IsAvailableUpdate negb]. eapply ends_bind; [apply ends_call|].
      eapply ends_bind; [exact Hsr|]. rewrite Er. unfold updateStatus. apply ends_write. cbn zeta.
      by destruct (_ && _).
    + apply at_stage_written; [done|done|done|]. split; cbn; intros Hst; repeat destruct Hst as [Hst|Hst]; done.
    + split; [by left|]. intros Hd. by specialize (Hdue Hd).
Qed.

(** The phases that the life of the resource goes through. *)
Definition alive (p : option UpgradePhase) : Prop :=
  p = None \/ p = Some UpgradePhasePending \/ p = Some UpgradePhaseUpgrading \/ p = Some UpgradePhaseUpgraded.

Lemma reconcilePhase_ends cfg em target s u uc hist cv :
  result_of (NewUpgrader em target (Type_ sp)) s = Done (Ok u) ->
  Spec uc = sp -> historyOf uc = Some hist -> times_recorded hist ->
  Phase hist = UpgradePhaseNew \/ alive (Some (Phase hist)) ->
  advances (Some (Phase hist)) (reconcilePhase target cfg u uc hist cv) uc.
Proof.
  intros Hu Hs Hh Ht Ha. unfold reconcilePhase. destruct (Phase hist) eqn:Hp.
  - by eapply reconcileNew_ends.
  - by eapply reconcilePending_ends.
  - by eapply built_upgrader_upgrades.
  - destruct Ht as [H1 H2]. destruct (H1 ltac:(right; left; done)) as [t1 E1]. destruct (H2 Hp) as [t2 E2].
    assert (no_panic (reportUpgradeMetrics (uc_Name uc) (PrecedingVersion hist) (ucVersionOf uc) t1 t2)) as Hnp.
    { unfold reportUpgradeMetrics, AlertsFromUpgrade, Query, UpdateMetricUpgradeResult, setGauge, now. np_auto. }
    destruct (no_panic_run h _ (Some uc) Hnp) as [r Hr].
    exists (noRequeue, r), uc, (Some UpgradePhaseUpgraded). split_and!; [|split; [done|]|done].
    + rewrite E1, E2. cbn [deref]. eapply ends_bind; [exact (ends_ret h _ _)|]. eapply ends_bind; [exact (ends_ret h _ _)|].
      eapply ends_bind; [apply ends_reading; [apply reportUpgradeMetrics_reads|exact Hr]|]. exact (ends_ret h _ _).
    + rewrite Hh. split; [by rewrite Hp|done].
  - destruct Ha as [Ha|[Ha|[Ha|[Ha|Ha]]]]; done.
  - destruct Ha as [Ha|[Ha|[Ha|[Ha|Ha]]]]; done.
  - destruct Ha as [Ha|[Ha|[Ha|[Ha|Ha]]]]; done.
Qed.

(** The collaborators after the history is there. *)
Lemma built_ends em uc hist cv stored :
  Spec uc = sp -> historyOf uc = Some hist -> times_recorded hist ->
  Phase hist = UpgradePhaseNew \/ alive (Some (Phase hist)) -> stored = uc ->
  advances (Some (Phase hist)) (r ← NewCMTarget (mkTarget "" ns "");
    match r with
    | Err err => reconcileError err
    | Ok cmTarget =>
      r ← Into cmTarget;
      match r with
      | Err err => reconcileError err
      | Ok cfg =>
        r ← NewUpgrader em cmTarget (Type_ (Spec uc));
        match r with
        | Err err => reconcileError err
        | Ok upgrader => reconcilePhase cmTarget cfg upgrader uc hist cv
        end end end) stored.
Proof.
  intros Hs Hh Ht Ha ->. destruct (works_config Hw) as (m & cfg & Hm & Hy & Hval).
  set (target := mkTarget ConfigMapName ns ConfigField).
  assert (ends h (NewCMTarget (mkTarget "" ns "")) (Some uc) (Ok target) (Some uc)) as H1.
  { unfold NewCMTarget. cbn [tgt_Name ConfigKey tgt_Namespace]. rewrite String.eqb_refl.
    destruct (String.eqb_spec ns "") as [->|]; split; reflexivity. }
  assert (ends h (Into target) (Some uc) (Ok cfg) (Some uc)) as H2.
  { unfold Into, target. cbn [tgt_Name ConfigKey tgt_Namespace]. eapply ends_bindr; [split; [|done]; cbn; by rewrite Hm|].
    cbn zeta. rewrite Hy, Hval. exact (ends_ret h _ _). }
  destruct (works_upgrader Hw em target (Some uc)) as [u Hu].
  destruct (reconcilePhase_ends cfg em target (Some uc) u uc hist cv Hu Hs Hh Ht Ha) as (r & w & q & He & Hst).
  exists r, w, q. split; [|exact Hst]. eapply ends_bind; [exact H1|]. cbn beta iota. eapply ends_bind; [exact H2|]. cbn beta iota.
  rewrite Hs. eapply ends_bind; [apply ends_quietly; [apply NewUpgrader_events|exact Hu]|]. exact He.
Qed.

Lemma newHistory_ends uc cv stored : Spec uc = sp ->
  exists hist, ends h (newHistory uc cv) stored (Ok hist) stored /\ Version hist = ucVersionOf uc /\
    times_recorded hist /\ (Phase hist = UpgradePhaseNew \/ Phase hist = UpgradePhaseUpgrading).
Proof.
  intros Hs. destruct (works_cv Hw) as [cv' Hcv].
  assert (ends h (HasUpgradeCommenced uc) stored (Ok (isEqualVersion cv' uc)) stored) as H1.
  { unfold HasUpgradeCommenced, checkUpgradeSource. rewrite Hs, Hi. apply String.eqb_neq in Hc, Hver. rewrite Hc, Hver.
    eapply ends_bindr; [split; [|done]; cbn; by rewrite Hcv|]. cbn. by destruct (isEqualVersion cv' uc). }
  destruct (isEqualVersion cv' uc).
  - exists (mkHistory (ucVersionOf uc) (GetPrecedingVersion cv uc) UpgradePhaseUpgrading [] (Some (other _ Now)) None None None).
    split_and!; [|done|split; cbn; [intros _; by eexists|done]|by right].
    unfold newHistory. cbn zeta. eapply ends_bind; [exact H1|]. split; reflexivity.
  - exists (mkHistory (ucVersionOf uc) (GetPrecedingVersion cv uc) UpgradePhaseNew [] None None None None).
    split_and!; [|done|split; cbn; intros Hst; repeat destruct Hst as [Hst|Hst]; done|by left].
    unfold newHistory. cbn zeta. eapply ends_bind; [exact H1|]. split; reflexivity.
Qed.

Lemma reconcileInstance_ends em uc p :
  at_stage p uc -> alive p -> advances p (reconcileInstance ns em uc) uc.
Proof.
  intros [Hs Hst] Ha. destruct (works_cv Hw) as [cv Hcv].
  assert (forall hist uc' p', Spec uc' = sp -> historyOf uc' = Some hist -> times_recorded hist ->
    Phase hist = UpgradePhaseNew \/ alive (Some (Phase hist)) ->
    (forall q, progress (Some (Phase hist)) q -> progress p' q) ->
    ends h (ensureHistory uc cv) (Some uc) (Ok (uc', hist)) (Some uc') ->
    advances p' (reconcileInstance ns em uc) uc) as Hrest.
  { intros hist uc' p' Hs' Hh' Ht' Ha' Hp' Hens.
    destruct (built_ends em uc' hist cv uc' Hs' Hh' Ht' Ha' eq_refl) as (r & w & q & He & Hq & Hpr).
    exists r, w, q. split_and!; [|done|by apply Hp']. unfold reconcileInstance.
    eapply ends_bind; [split; [|done]; cbn; by rewrite Hcv|]. cbn beta iota.
    eapply ends_bind; [exact Hens|]. exact He. }
  destruct (historyOf uc) as [hist|] eqn:Hh.
  - destruct Hst as [-> Ht]. apply (Hrest hist uc); try done; [by right|].
    unfold ensureHistory. unfold historyOf in Hh. rewrite Hh. exact (ends_ret h _ _).
  - subst p. destruct (newHistory_ends uc cv (Some uc) Hs) as (hist & Hn & Hv & Ht & Hp).
    apply (Hrest hist (set_History (hist :: History uc) uc)); try done.
    + unfold historyOf. cbn [History set_History GetHistory]. change (ucVersionOf (set_History _ uc)) with (ucVersionOf uc).
      by rewrite bool_decide_true.
    + destruct Hp as [->| ->]; [by left|right; right; right; by left].
    + destruct Hp as [->| ->]; cbn; [done|]. intros q [[->| ->] _]; auto.
    + unfold ensureHistory. unfold historyOf in Hh. rewrite Hh. eapply ends_bindr; [exact Hn|]. cbn. split; reflexivity.
Qed.

Lemma Reconcile_ends uc p : at_stage p uc -> alive p -> advances p (Reconcile ns Name) uc.
Proof.
  intros Hst Ha. destruct (works_events Hw (Some uc)) as [em Hem].
  destruct (reconcileInstance_ends em uc p Hst Ha) as (r & w & q & He & Hq).
  exists r, w, q. split; [|done]. unfold Reconcile.
  eapply ends_bind; [apply ends_quietly; [apply NewMetricsClient_events|apply (works_metrics Hw)]|]. cbn beta iota.
  eapply ends_bind; [apply ends_quietly; [apply NewEventManager_events|exact Hem]|]. cbn beta iota.
  eapply ends_bind; [split; reflexivity|]. exact He.
Qed.

End Environment.
(** The resource after each reconciliation, in a sequence of environments. *)
Fixpoint reconciles (others : nat -> forall X, Eff X -> X) (n : nat) (s : option UpgradeConfig) : option UpgradeConfig :=
  match n with
  | O => s
  | S n => (run (api_server ns (others n)) (Reconcile ns Name) (reconciles others n s)).2
  end.

Lemma reconciles_step others n s uc p :
  desired_Image (Desired sp) = "" -> desired_Channel (Desired sp) <> "" -> desired_Version (Desired sp) <> "" ->
  working (others n) -> reconciles others n s = Some uc -> at_stage p uc -> alive p ->
  exists uc' q, reconciles others (S n) s = Some uc' /\ at_stage q uc' /\ progress (others n) p q /\ alive q.
Proof.
  intros Hi Hc Hv Hw Hr Hst Ha. destruct (Reconcile_ends (others n) Hw Hi Hc Hv uc p Hst Ha) as (r & w & q & [_ He] & Hq & Hp).
  exists w, q. cbn [reconciles]. rewrite Hr. split_and!; [done|done|done|].
  destruct Ha as [->|[->|[->| ->]]]; cbn in Hp; unfold alive; tauto.
Qed.

End Live.

(** ** Properties *)

(** C8: an UpgradeConfig with a channel and a version that is reconciled again and
    again reaches the phase Upgraded, and stays there: it is enough that the
    collaborators answer, that the upgrader does not fail, and that from some
    reconciliation on the scheduled time has passed and the upgrader finishes. *)
Theorem upgrade_completes {yaml : Yaml controllerConfig} {builders : Builders} ns Name sp others uc0 k n :
  Spec uc0 = sp -> History uc0 = [] -> desired_Image (Desired sp) = "" ->
  desired_Channel (Desired sp) <> "" -> desired_Version (Desired sp) <> "" ->
  (forall i, working ns sp (others i)) ->
  (forall i, k <= i -> due sp (others i) /\ finishing ns sp (others i)) -> k + 2 <= n ->
  exists uc, reconciles ns Name others n (Some uc0) = Some uc /\ Spec uc = sp /\ phaseOf uc = Some UpgradePhaseUpgraded.
Proof.
  intros Hs Hh Hi Hc Hv Hw Hk Hn.
  assert (forall m, exists uc p, reconciles ns Name others m (Some uc0) = Some uc /\ at_stage sp p uc /\ alive p /\
    (k + 1 <= m -> p <> None) /\ (k + 2 <= m -> p = Some UpgradePhaseUpgraded)) as H.
  { induction m as [|m (uc & p & Hr & Hst & Ha & H1 & H2)].
    - exists uc0, None. split_and!; [done| |by left|lia|lia]. split; [done|]. unfold historyOf. by rewrite Hh.
    - destruct (reconciles_step ns Name sp others m (Some uc0) uc p Hi Hc Hv (Hw m) Hr Hst Ha) as (uc' & q & Hr' & Hst' & Hp & Ha').
      exists uc', q. split_and!; [done|done|done| |].
      + intros _. destruct Ha as [->|[->|[->| ->]]]; cbn in Hp; naive_solver.
      + intros Hm. destruct (Hk m ltac:(lia)) as [Hd Hf]. specialize (H1 ltac:(lia)).
        destruct Ha as [->|[->|[->| ->]]]; cbn in Hp; naive_solver. }
  destruct (H n) as (uc & p & Hr & [Hsp Hst] & _ & _ & Hp). rewrite (Hp Hn) in Hst.
  exists uc. split_and!; [done|done|]. unfold phaseOf. destruct (historyOf uc); [|done]. by destruct Hst as [-> _].
Qed.

(** *** Witnesses *)

(** Every half hour from eight o'clock; the upgrade is due at ten and the
    upgrader is at work until noon. *)
Definition demo_others (i : nat) : forall X, Eff X -> X :=
  demo_ctrl_other (demo_noon - 240 * Minute + Z.of_nat i * (30 * Minute))%Z.

Lemma demo_working i : @working demo_ctrl_yaml demo_builders "muo" (Spec demo_target) (demo_others i).
Proof.
  split; intros; try (eexists; reflexivity).
  - exists ∅, (mkControllerConfig 120 30 [PreHealthCheckFeatureGate]). done.
  - assert (u = demo_ctrl_upgrader) as -> by (cbn in H; congruence). by eexists.
  - assert (u = demo_ctrl_upgrader) as -> by (cbn in H; congruence). eexists _, _, _. split; [reflexivity|].
    destruct (_ <? _)%Z; auto.
  - exists demo_validator. split; [reflexivity|]. intros uc cv s' _. exists (validationPassed, None).
    split; [reflexivity|exact validationPassed_accepted].
  - exists demo_refresher. split; [reflexivity|]. intros s'. by split.
Qed.

Lemma demo_due i : 8 <= i ->
  due (Spec demo_target) (demo_others i) /\ @finishing demo_builders "muo" (Spec demo_target) (demo_others i).
Proof.
  intros Hi. assert (parseRFC3339 (UpgradeAt (Spec demo_target)) = Ok (demo_noon - 120 * Minute)%Z) as Hp by (vm_compute; reflexivity).
  unfold demo_others. split.
  - eexists. split; [exact Hp|]. cbn [demo_ctrl_other]. unfold Minute, Second. lia.
  - intros em target s u uc s' Hu _ _. assert (u = demo_ctrl_upgrader) as -> by (cbn in Hu; congruence).
    exists uc, None. assert ((demo_noon - 240 * Minute + Z.of_nat i * (30 * Minute) <? demo_noon)%Z = false) as E.
    { apply Z.ltb_ge. unfold Minute, Second. lia. }
    transitivity (Done (uc, if (demo_noon - 240 * Minute + Z.of_nat i * (30 * Minute) <? demo_noon)%Z
                            then UpgradePhaseUpgrading else UpgradePhaseUpgraded, @None error)); [reflexivity|by rewrite E].
Qed.

(** Ten reconciliations are enough; the first ones are before the time. *)
Lemma upgrade_completes_witness :
  (@reconciles demo_ctrl_yaml demo_builders "muo" "managed-upgrade-config" demo_others 3 (Some demo_target) ≫= phaseOf)
    = Some UpgradePhasePending /\
  exists uc, @reconciles demo_ctrl_yaml demo_builders "muo" "managed-upgrade-config" demo_others 10 (Some demo_target) = Some uc /\
    Spec uc = Spec demo_target /\ phaseOf uc = Some UpgradePhaseUpgraded.
Proof.
  split; [vm_compute; reflexivity|].
  apply (@upgrade_completes demo_ctrl_yaml demo_builders "muo" "managed-upgrade-config" (Spec demo_target) demo_others demo_target 8 10);
    first [reflexivity | discriminate | exact demo_working | exact demo_due | lia].
Defined.
