(* ===== verification/Operator.v ===== *)
(** * The operator assembled (main.go)

    [main] gives the UpgradeConfig controller the builders of the other
    packages.  [operatorBuilders] is that composition: it discharges the
    interfaces that the controller is verified against with the event manager,
    the upgraders, the validator and the UpgradeConfig manager of this
    development, so the theorems on [Reconcile] hold for the whole program. *)

From stdpp Require Import base gmap strings list.
From Stdlib Require Import ZArith Lia.
From S2P Require Import Prelude GoTime Api Effects Config Interfaces UpgradeSteps ClusterVersion Scheduler.
From S2P Require Import Metrics SpecProvider UpgradeConfigManager Notifier EventManager UpgraderConfig Availability.
From S2P Require Import Upgraders UpgradersEvents UpgradersCorrect Validation Controller ControllerCorrect.

(** ** Programs that carry a property of their result *)

(** Every result of [p] satisfies [P]. *)
Fixpoint certified {A} (P : A -> Prop) (p : M (result A)) : Prop :=
  match p with
  | Ret (Ok a) => P a
  | Ret (Err _) | Panic _ => True
  | Vis e k => forall x, certified P (k x)
  end.

Definition certify_result {A} (P : A -> Prop) (r : result A) : certified P (Ret r) -> result { a | P a } :=
  match r with
  | Ok a => fun H => Ok (exist _ a H)
  | Err e => fun _ => Err e
  end.
Fixpoint certify {A} (P : A -> Prop) (p : M (result A)) : certified P p -> M (result { a | P a }) :=
  match p with
  | Ret r => fun H => Ret (certify_result P r H)
  | Panic m => fun _ => Panic m
  | Vis e k => fun H => Vis e (fun x => certify P (k x) (H x))
  end.

Lemma certified_wp {A} (P : A -> Prop) (p : M (result A)) :
  wp p (fun _ o => forall a, o = Done (Ok a) -> P a) -> certified P p.
Proof.
  induction p as [[a|e]|m|X e k IH]; cbn; [|done..|].
  - intros H. by apply H.
  - intros H x. apply IH. eapply wp_mono; [exact (H x)|]. cbn. auto.
Qed.

(** The certificate changes neither the events nor the result. *)
Definition forget {A} {P : A -> Prop} (r : result { a | P a }) : result A :=
  match r with Ok a => Ok (`a) | Err e => Err e end.

Lemma certify_events {A} (P : A -> Prop) (p : M (result A)) H C : all_ev C p -> all_ev C (certify P p H).
Proof.
  induction p as [r|m|X e k IH]; cbn; [done..|]. intros [He Hk]. split; [done|]. intros x. by apply IH.
Qed.

Lemma certify_exec {A} (P : A -> Prop) (p : M (result A)) H tr r :
  exec (certify P p H) tr (Done r) -> exec p tr (Done (forget r)).
Proof.
  revert tr. induction p as [r0|m|X e k IH]; intros tr; cbn.
  - intros [-> [= ->]]. split; [done|]. destruct r0; done.
  - by intros [_ [=]].
  - intros (x & t & -> & Hx). exists x, t. split; [done|]. by eapply IH.
Qed.

Section Operator.
Context {regexp : Regexp} {semver : Semver} {urlparse : UrlParse}.
Context {imageparse : ImageParse} {json : RegistryJson} {uuid : UuidParse}.
Context {yaml_spec : Yaml SpecProviderConfig} {yaml_local : Yaml Local.LocalProviderConfig}.
Context {yaml_ocm : Yaml Ocm.OcmProviderConfig}.
Context {yaml_notifier : Yaml NotifierConfig} {yaml_ocmNotifier : Yaml OcmNotifierConfig} {yaml_feature : Yaml OcmFeatureConfig}.
Context {yaml_upgrader : Yaml upgraderConfig} {yaml_validation : Yaml ValidationConfig}.

(** The iteration order of the notifier's state map, and the number of polls
    that the waiting library makes. *)
Context (order : list (MuoState * string)) (attempts : nat).

(** ** The builders *)

Definition metrics_NewClient : M (result unit) := call (NewClient "metrics").

(** [upgradeConfigManagerBuilder.NewManager] builds and does nothing else. *)
Definition ucm_NewManager : M (result UpgradeConfigManager) := mret (Ok upgradeConfigManager).

Definition notifierBuilder_New : M (result Notifier) := @notifier_New _ upgradeConfigManager _ _ _ order.

(** [eventManagerBuilder.NewManager] *)
Definition eventmanager_NewManager : M (result EventManager) :=
  ucm ←? ucm_NewManager;
  _ ←? metrics_NewClient;
  notifier ←? notifierBuilder_New;
  mret (Ok (@eventManager ucm notifier)).

Lemma newOcmClient_reads u : all_ev reads (Ocm.newOcmClient u).
Proof. unfold Ocm.newOcmClient. ev_auto; done. Qed.
#[local] Hint Resolve newOcmClient_reads : muo.
Lemma notifierBuilder_New_reads : all_ev reads notifierBuilder_New.
Proof.
  unfold notifierBuilder_New, notifier_New, readNotifierConfig, readOcmFeatureGate, readOcmNotifierConfig, NewOCMNotifier. ev_auto.
Qed.
#[local] Hint Resolve notifierBuilder_New_reads : muo.
Lemma eventmanager_NewManager_reads : all_ev reads eventmanager_NewManager.
Proof. unfold eventmanager_NewManager, ucm_NewManager, metrics_NewClient. ev_auto; done. Qed.

(** [clusterUpgraderBuilder.NewClient]: what it builds keeps the checks of the
    configuration, which makes it a [ClusterUpgrader]. *)
Definition quietCheckers (u : clusterUpgrader) : Prop := Forall (fun c => all_ev quiet_event c) (checkersOf u).

Lemma upgraders_NewClient_certified target ut : certified quietCheckers (upgraders_NewClient target ut).
Proof.
  apply certified_wp. eapply wp_mono; [apply NewClient_wp|]. intros tr o H u Hu. destruct (H u Hu) as (_ & Hc & _).
  unfold quietCheckers. rewrite Hc. apply AvailabilityChecks_quiet.
Qed.

Lemma notifierBuilder_New_quiet : all_ev quiet_event notifierBuilder_New.
Proof. eapply all_ev_impl; [apply reads_quiet|apply notifierBuilder_New_reads]. Qed.

Definition upgrader_NewClient (em : EventManager) (target : Target) (ut : UpgradeType) : M (result ClusterUpgrader) :=
  u ←? certify quietCheckers (upgraders_NewClient target ut) (upgraders_NewClient_certified target ut);
  mret (Ok (@clusterUpgraderImpl regexp semver em notifierBuilder_New notifierBuilder_New_quiet (`u) (proj2_sig u))).

Lemma upgraders_NewClient_reads target ut : all_ev reads (upgraders_NewClient target ut).
Proof.
  unfold upgraders_NewClient, NewOSDUpgrader, NewAROUpgrader. destruct ut; ev_auto; done.
Qed.

Lemma upgrader_NewClient_events em target ut : all_ev reads (upgrader_NewClient em target ut).
Proof. apply all_ev_bindr; [apply certify_events, upgraders_NewClient_reads|]. intros u. exact I. Qed.

(** [validationBuilder.NewClient] *)
Lemma IsValidUpgradeConfig_reads cincinnati uC cV :
  desired_Image (Desired (Spec uC)) = "" -> all_ev reads (IsValidUpgradeConfig cincinnati uC cV).
Proof.
  intros Hi. unfold IsValidUpgradeConfig, versionValidation, validateEdge, fetchCVOUpdates, currentVersionText.
  cbn zeta. rewrite Hi. cbn [String.eqb negb]. ev_auto; done.
Qed.

Lemma IsValidUpgradeConfig_same cincinnati uC cV tr uC' r :
  desired_Image (Desired (Spec uC)) = "" ->
  exec (IsValidUpgradeConfig cincinnati uC cV) tr (Done (uC', r)) -> uC' = uC.
Proof.
  intros Hi Hex. exact (proj1 (proj1 (wp_exec _ _) (IsValidUpgradeConfig_version_wp cincinnati uC cV Hi) _ _ Hex _ _ eq_refl)).
Qed.

Definition validatorImpl (cincinnati : bool) : Validator :=
  {| val_IsValidUpgradeConfig := IsValidUpgradeConfig cincinnati;
     val_version_events uC cV Hi := all_ev_impl reads no_uc_write _ reads_no_uc_write (IsValidUpgradeConfig_reads cincinnati uC cV Hi);
     val_version_result := IsValidUpgradeConfig_same cincinnati |}.

Definition validator_NewClient (target : Target) : M (result Validator) :=
  cincinnati ←? validation_NewClient target;
  mret (Ok (validatorImpl cincinnati)).
Lemma validator_NewClient_reads target : all_ev reads (validator_NewClient target).
Proof. unfold validator_NewClient, validation_NewClient. ev_auto. Qed.

(** The UpgradeConfig manager with the provider of the configuration. *)
Definition operatorProvider : SpecProviderBuilder := specProviderBuilder.

Definition refreshManager : RefreshManager := {| rm_Refresh := @Refresh attempts operatorProvider; rm_Refresh_events := Refresh_no_rewrite attempts |}.

(** ** The assembly *)

Lemma reads_all_no_uc_write {A} (p : M A) : all_ev reads p -> all_ev no_uc_write p.
Proof. apply all_ev_impl, reads_no_uc_write. Qed.

#[export] Instance operatorBuilders : Builders :=
  {| NewMetricsClient := metrics_NewClient;
     NewEventManager := eventmanager_NewManager;
     NewUpgrader := upgrader_NewClient;
     NewValidator := validator_NewClient;
     NewUpgradeConfigManager := mret (Ok refreshManager);
     NewMetricsClient_events := conj I (fun _ => I);
     NewEventManager_events := reads_all_no_uc_write _ eventmanager_NewManager_reads;
     NewUpgrader_events em target ut := reads_all_no_uc_write _ (upgrader_NewClient_events em target ut);
     NewValidator_events target := reads_all_no_uc_write _ (validator_NewClient_reads target);
     NewUpgradeConfigManager_events := I |}.

(** ** What precedes a commencement *)

(** The resource was read, or written, with its upgrade under way. *)
Definition recordedUpgrading (tr : list (obs Eff)) : Prop :=
  exists w, phaseOf w = Some UpgradePhaseUpgrading /\
    (w ∈ statusWrites tr \/ exists Name Namespace, (Obs (GetUpgradeConfig Name Namespace) (Ok w) : obs Eff) ∈ tr).

Lemma recordedUpgrading_sub t t' : t ⊆ t' -> recordedUpgrading t -> recordedUpgrading t'.
Proof.
  intros Hs (w & Hp & H). exists w. split; [done|]. destruct H as [H|(n & n' & H)]; [left|right; exists n, n'; by apply Hs].
  unfold statusWrites in *. apply list_elem_of_omap in H as (ob & Hob & He). apply list_elem_of_omap. exists ob. auto.
Qed.

(** The ClusterVersion is patched only after a prefix with [J]. *)
Definition patches_after {A} (J : list (obs Eff) -> Prop) (p : M A) : Prop :=
  wp p (fun tr _ => forall t1 x t2, tr = t1 ++ x :: t2 -> isPatch x -> J t1).

Lemma patches_never {A} J (p : M A) : all_ev not_PatchCV p -> patches_after J p.
Proof.
  intros Hp. apply wp_exec. intros tr o Hex t1 x t2 -> Hx. pose proof (all_ev_exec _ _ _ _ Hp Hex) as H.
  apply Forall_app in H as [_ [H _]%Forall_cons]. by destruct Hx.
Qed.

Lemma patches_always {A} (J : list (obs Eff) -> Prop) (p : M A) : (forall t, J t) -> patches_after J p.
Proof. intros H. apply wp_exec. intros tr o _ t1 x t2 _ _. apply H. Qed.

Lemma patches_bind {A B} (J : list (obs Eff) -> Prop) (p : M A) (f : A -> M B) :
  all_ev not_PatchCV p -> (forall a tr, exec p tr (Done a) -> patches_after (fun t => J (tr ++ t)) (f a)) ->
  patches_after J (p ≫= f).
Proof.
  intros Hp Hf. apply wp_bind, wp_exec. intros tr [a|m] Hex.
  - eapply wp_mono; [exact (Hf a tr Hex)|]. intros t o H t1 x t2 E Hx.
    pose proof (all_ev_exec _ _ _ _ Hp Hex) as Hn. destruct (app_eq_app _ _ _ _ E) as (l & [[-> El]|[-> El]]).
    + destruct l as [|y l]; cbn in El; [specialize (H [] x t2 (eq_sym El) Hx); by rewrite !app_nil_r in H|].
      injection El as -> ->. apply Forall_app in Hn as [_ [Hn _]%Forall_cons]. by destruct Hx.
    + by eapply H.
  - intros t1 x t2 -> Hx. pose proof (all_ev_exec _ _ _ _ Hp Hex) as H.
    apply Forall_app in H as [_ [H _]%Forall_cons]. by destruct Hx.
Qed.

(** A status update adds its resource to the prefix. *)
Lemma patches_write {B} (J : list (obs Eff) -> Prop) w (f : result UpgradeConfig -> M B) :
  (forall r, patches_after (fun t => J (Obs (StatusUpdate w) r :: t)) (f r)) ->
  patches_after J (call (StatusUpdate w) ≫= f).
Proof.
  intros H. apply (patches_bind J (call (StatusUpdate w)) f); [by split|]. intros r tr (r' & t & -> & -> & [= ->]). exact (H r').
Qed.

Lemma not_PatchCV_quiet {A} (p : M A) : all_ev quiet_event p -> all_ev not_PatchCV p.
Proof. apply all_ev_impl, quiet_not_PatchCV. Qed.
Lemma not_PatchCV_reads {A} (p : M A) : all_ev reads p -> all_ev not_PatchCV p.
Proof. intros H. apply not_PatchCV_quiet. eapply all_ev_impl; [apply reads_quiet|exact H]. Qed.

Lemma Refresh_not_PatchCV : all_ev not_PatchCV (@Refresh attempts operatorProvider).
Proof.
  pose proof (not_PatchCV_reads _ GetOperatorNamespace_reads). pose proof (not_PatchCV_reads _ ucm_Get_reads).
  pose proof (not_PatchCV_reads _ (@provider_New_reads operatorProvider)).
  pose proof (fun pp => not_PatchCV_reads _ (@provider_Get_reads pp)). pose proof (fun n => not_PatchCV_reads _ (confirmDeleted_reads n)).
  unfold Refresh, recreateUpgradeConfigOnChange. cbn zeta. ev_auto; done.
Qed.

(** What an upgrader of the builder is. *)
Lemma built_HealthCheck em target ut tr u uc :
  exec (upgrader_NewClient em target ut) tr (Done (Ok u)) -> all_ev not_PatchCV (cu_HealthCheck u uc).
Proof.
  intros [(r & t1 & t2 & -> & _ & H2)|(m & [=] & _)]%exec_bind. destruct r as [[u' Hq]|e]; destruct H2 as [_ [= ->]].
  cbn. apply not_PatchCV_quiet. destruct u'; apply PreUpgradeHealthCheck_quiet.
Qed.

Context {yaml_ctrl : Yaml controllerConfig}.

Lemma startUpgrade_patches u uc h :
  Version h = ucVersionOf uc -> patches_after recordedUpgrading (startUpgrade u uc h).
Proof.
  intros Hv. unfold startUpgrade. cbn [NewUpgradeConfigManager operatorBuilders mbind prog_mbind prog_bind mret prog_ret].
  apply patches_bind; [apply Refresh_not_PatchCV|]. intros r t1 _.
  assert (forall b, b = true \/ b = false -> patches_after (fun t => recordedUpgrading (t1 ++ t))
    (match b with
     | true => r ← updateStatus (set_Phase UpgradePhaseNew h) uc; match r with Err err => reconcileError err | Ok _ => reconciled end
     | false =>
          t ← now;
          let history := set_Version (ucVersionOf uc) (set_StartTime (Some t) (set_Phase UpgradePhaseUpgrading h)) in
          r ← updateStatus history uc;
          match r with Err err => reconcileError err | Ok instance => upgradeCluster u instance end
     end)) as Hb.
  { intros [|] _.
    - unfold updateStatus. apply patches_write. intros [uc'|e]; by apply patches_never.
    - apply patches_bind; [by split|]. intros t t2 _. cbn zeta. unfold updateStatus. apply patches_write. intros r'.
      apply patches_always. intros t3. eexists. split; cycle 1.
      + left. rewrite !statusWrites_app. apply elem_of_app. right. apply elem_of_app. right. by left.
      + exact (updateStatus_phase _ (set_Version _ (set_StartTime (Some t) (set_Phase UpgradePhaseUpgrading h))) eq_refl). }
  destruct r as [[|]|e]; [apply (Hb true); by left|apply (Hb false); by right|].
  destruct (is_sentinel ErrNotConfigured e); [apply (Hb false); by right|by apply patches_never].
Qed.

(** A pending history is that of the desired version of a versioned resource. *)
Definition pendingSound (uc : UpgradeConfig) (h : UpgradeHistory) : Prop :=
  Phase h = UpgradePhasePending -> desired_Image (Desired (Spec uc)) = "" /\ Version h = ucVersionOf uc.

Lemma reconcilePhase_patches em target target' cfg u uc h cv tr :
  exec (upgrader_NewClient em target' (Type_ (Spec uc))) tr (Done (Ok u)) ->
  pendingSound uc h -> Phase h <> UpgradePhaseUpgrading ->
  patches_after recordedUpgrading (reconcilePhase target cfg u uc h cv).
Proof.
  intros Hu Hs Hn. unfold reconcilePhase.
  destruct (Phase h) eqn:Hp; try (by apply patches_never); try done.
  - unfold reconcileNew. cbn zeta. apply patches_bind; [apply not_PatchCV_reads, IsReadyToUpgrade_reads|]. intros s t1 _.
    apply patches_never, all_ev_bind.
    + destruct (_ && _); [|exact I]. apply all_ev_bind; [by eapply built_HealthCheck|]. intros r. exact I.
    + intros _. unfold updateStatus. apply all_ev_bind; [by split|]. intros [?|?]; exact I.
  - destruct (Hs Hp) as [Hi Hv]. unfold reconcilePending. cbn [NewValidator operatorBuilders].
    apply patches_bind; [apply not_PatchCV_reads, validator_NewClient_reads|]. intros [v|e] t1 Hv1; [|by apply patches_never].
    apply exec_bind in Hv1 as [([b|e] & t & t' & -> & _ & H2)|(m & [=] & _)]; destruct H2 as [_ [= ->]].
    apply patches_bind; [by apply not_PatchCV_reads, IsValidUpgradeConfig_reads|]. intros [uc' [vr err]] t2 Hval.
    pose proof (val_version_result _ _ _ _ _ Hi Hval) as ->. cbn beta iota.
    destruct (negb (vr_IsValid vr) || bool_decide (is_Some err)).
    { apply patches_never, all_ev_bind; [by split|]. intros []. exact I. }
    apply patches_bind; [by split|]. intros [] t3 _. destruct (negb (IsAvailableUpdate vr)); [by apply patches_never|].
    apply patches_bind; [apply not_PatchCV_reads, IsReadyToUpgrade_reads|]. intros s t4 _. destruct (IsReady s).
    + eapply wp_mono; [by apply startUpgrade_patches|]. intros t5 o H ta x tb E Hx.
      eapply recordedUpgrading_sub; [|exact (H ta x tb E Hx)]. intros y Hy. by do 4 apply app_sub_r.
    + apply patches_never. unfold updateStatus. apply all_ev_bind; [by split|]. intros [?|?]; [|exact I]. destruct (_ && _); exact I.
  - apply patches_never. apply all_ev_bind; [destruct (StartTime h); exact I|]. intros t. apply all_ev_bind; [destruct (CompleteTime h); exact I|].
    intros t'. apply all_ev_bind; [apply not_PatchCV_reads, reportUpgradeMetrics_reads|]. intros e. exact I.
Qed.

(** The collaborators of a reconciliation, and the phase it is in. *)
Lemma reconcileRest_patches em ns uc h cv :
  pendingSound uc h -> Phase h <> UpgradePhaseUpgrading ->
  patches_after recordedUpgrading (r ← NewCMTarget (mkTarget "" ns "");
    match r with
    | Err err => reconcileError err
    | Ok cmTarget =>
      r ← Into cmTarget;
      match r with
      | Err err => reconcileError err
      | Ok cfg =>
        r ← NewUpgrader em cmTarget (Type_ (Spec uc));
        match r with
        | Err err => reconcileError err
        | Ok upgrader => reconcilePhase cmTarget cfg upgrader uc h cv
        end end end).
Proof.
  assert (forall {A B} (p : M A) (f : A -> M B), all_ev reads p ->
    (forall a t, exec p t (Done a) -> patches_after recordedUpgrading (f a)) -> patches_after recordedUpgrading (p ≫= f)) as Hb.
  { intros A B p f Hp Hf. apply patches_bind; [by apply not_PatchCV_reads|]. intros a t Ht.
    eapply wp_mono; [by eapply Hf|]. intros t' o H t1 x t2 E Hx. eapply recordedUpgrading_sub; [|by eapply H].
    intros y Hy. by apply app_sub_r. }
  intros Hs Hn. apply Hb; [apply NewCMTarget_reads|]. intros [target|e] t1 _; [|by apply patches_never].
  apply Hb; [apply Into_reads|]. intros [cfg|e] t2 _; [|by apply patches_never].
  apply Hb; [apply upgrader_NewClient_events|]. intros [u|e] t3 Hu; [|by apply patches_never].
  by eapply reconcilePhase_patches.
Qed.

Lemma reconcileInstance_patches em ns uc :
  desired_Image (Desired (Spec uc)) = "" -> phaseOf uc <> Some UpgradePhaseUpgrading ->
  patches_after recordedUpgrading (reconcileInstance ns em uc).
Proof.
  intros Hi Hn. unfold reconcileInstance.
  assert (forall t (f : M (ReconcileResult * option error)), patches_after recordedUpgrading f ->
    patches_after (fun t' => recordedUpgrading (t ++ t')) f) as Hsub.
  { intros t f Hf. eapply wp_mono; [exact Hf|]. intros t' o H t1 x t2 E Hx.
    eapply recordedUpgrading_sub; [|by eapply H]. intros y Hy. by apply app_sub_r. }
  apply patches_bind; [by split|]. intros [cv|e] t1 _; [apply Hsub|by apply patches_never]. unfold ensureHistory.
  destruct (GetHistory _ _) as [h|] eqn:Hh.
  { apply reconcileRest_patches; [|intros Hp; apply Hn; unfold phaseOf, historyOf; rewrite Hh; cbn; by rewrite Hp].
    intros _. split; [done|]. by eapply GetHistory_Version. }
  apply wp_bindr_bind, patches_bind; [apply not_PatchCV_reads, newHistory_reads|].
  intros [h|e] t2 Hex; [|by apply patches_never].
  destruct (newHistory_phase _ _ _ _ Hh Hex) as [Hv Hp]. apply wp_bindr_bind, patches_write. intros r. destruct Hp as [Hp|[Hp _]].
  - destruct r as [uc'|e]; [|by apply patches_never]. cbn [mret prog_ret mbind prog_mbind prog_bind].
    eapply wp_mono; [apply reconcileRest_patches; [unfold pendingSound|]; by rewrite Hp|]. intros t' o H ta x tb E Hx.
    eapply recordedUpgrading_sub; [|by eapply H]. intros y Hy. apply app_sub_r. by right.
  - apply patches_always. intros t. eexists. split; [|left; rewrite statusWrites_app; apply elem_of_app; right; by left].
    unfold phaseOf, historyOf. cbn [History set_History GetHistory]. change (ucVersionOf (set_History _ uc)) with (ucVersionOf uc).
    rewrite bool_decide_true by done. by rewrite <- Hp.
Qed.

Lemma Reconcile_patches ns Name :
  patches_after (fun t => Forall versioned t -> recordedUpgrading t) (Reconcile ns Name).
Proof.
  unfold Reconcile. apply patches_bind; [by split|]. intros [[]|e] t1 _; [|by apply patches_never].
  apply patches_bind; [apply not_PatchCV_reads, eventmanager_NewManager_reads|]. intros [em|e] t2 _; [|by apply patches_never].
  apply patches_bind; [by split|]. intros [uc|e] t3 (r & t & -> & -> & [= <-]).
  - destruct (decide (phaseOf uc = Some UpgradePhaseUpgrading)) as [Hp|Hp].
    + apply patches_always. intros t _. exists uc. split; [done|]. right. exists Name, ns. do 2 apply app_sub_r. by left.
    + destruct (decide (desired_Image (Desired (Spec uc)) = "")) as [Hi|Hi].
      * eapply wp_mono; [by apply reconcileInstance_patches|]. intros t o H ta x tb E Hx _.
        eapply recordedUpgrading_sub; [|by eapply H]. intros y Hy. by do 3 apply app_sub_r.
      * apply patches_always. intros t [_ [_ [Hv _]%Forall_app]%Forall_app]%Forall_app. by apply Forall_cons in Hv as [Hv _].
  - apply patches_never. destruct (IsNotFound e); [|exact I].
    apply all_ev_bind; [apply not_PatchCV_reads, resetAll_reads|]. intros []. exact I.
Qed.

End Operator.

(** ** Properties *)

(** C3: in the assembled operator, whatever the environment answers, the
    ClusterVersion is patched only after the same reconciliation read the
    UpgradeConfig with its upgrade under way, or wrote that it is. *)
Theorem patches_only_started_upgrades {regexp : Regexp} {semver : Semver} {urlparse : UrlParse} {imageparse : ImageParse}
    {json : RegistryJson} {uuid : UuidParse} {yaml_spec : Yaml SpecProviderConfig} {yaml_local : Yaml Local.LocalProviderConfig}
    {yaml_ocm : Yaml Ocm.OcmProviderConfig} {yaml_notifier : Yaml NotifierConfig} {yaml_ocmNotifier : Yaml OcmNotifierConfig}
    {yaml_feature : Yaml OcmFeatureConfig} {yaml_upgrader : Yaml upgraderConfig} {yaml_validation : Yaml ValidationConfig}
    {yaml_ctrl : Yaml controllerConfig} order attempts ns Name (tr : list (obs Eff)) o t1 x t2 :
  exec (@Reconcile _ (operatorBuilders order attempts) ns Name) tr o -> Forall versioned tr ->
  tr = t1 ++ x :: t2 -> isPatch x -> recordedUpgrading t1.
Proof.
  intros Hex Hv -> Hx. apply Forall_app in Hv as [Hv _].
  exact (proj1 (wp_exec _ _) (Reconcile_patches order attempts ns Name) _ _ Hex t1 x t2 eq_refl Hx Hv).
Qed.

(** *** Witnesses *)

Definition demo_op_env X (e : Eff X) (u : unit) : X * unit :=
  match e in Eff X return X * unit with
  | GetUpgradeConfig _ _ => (Ok demo_up_uc, u)
  | StatusUpdate uc => (Ok uc, u)
  | LookupEnv _ => (Some "muo", u)
  | e' => demo_up_env 0 _ e' u
  end.
Definition demo_operator : Builders :=
  @operatorBuilders substringRegexp plainSemver plainUrl demo_imageParse demo_json demo_uuid
    (fun _ => Ok (mkSpecProviderConfig "OSD" "LOCAL")) (fun _ => Ok (Local.mkLocalProviderConfig UPGRADECONFIG_CR_NAME))
    (fun _ => unavailable) (fun _ => Ok (mkNotifierConfig "LOCAL")) (fun _ => unavailable) (fun _ => Ok (mkOcmFeatureConfig []))
    demo_up_yaml (fun _ => Ok (mkValidationConfig true)) stateMap 12.
Definition demo_op_run := run demo_op_env (@Reconcile demo_ctrl_yaml demo_operator "muo" "managed-upgrade-config") tt.
Definition demo_op_before : list (obs Eff) := take (beforePatch demo_op_run.1.1) demo_op_run.1.1.

Lemma demo_op_versioned {A} (p : M A) u : Forall versioned (run demo_op_env p u).1.1.
Proof.
  revert u. induction p as [a|m|X e k IH]; intros u; cbn [run]; [constructor..|].
  destruct (demo_op_env X e u) as [x u'] eqn:E. specialize (IH x u'). destruct (run demo_op_env (k x) u') as [[tr o] u''].
  constructor; [|exact IH]. destruct e; try exact I. cbn in E. injection E as <- _. reflexivity.
Qed.

(** A reconciliation of the assembled operator that patches the ClusterVersion. *)
Lemma patches_only_started_upgrades_witness : recordedUpgrading demo_op_before.
Proof.
  assert (exists x, demo_op_run.1.1 !! beforePatch demo_op_run.1.1 = Some x /\ isPatch x) as (x & Hx & Hp).
  { eexists. split; [vm_compute; reflexivity|]. intros []. }
  eapply (@patches_only_started_upgrades substringRegexp plainSemver plainUrl demo_imageParse demo_json demo_uuid
    _ _ _ _ _ _ demo_up_yaml _ demo_ctrl_yaml stateMap 12 "muo" "managed-upgrade-config" demo_op_run.1.1 demo_op_run.1.2
    demo_op_before x _).
  - exact (run_exec demo_op_env _ tt).
  - apply demo_op_versioned.
  - symmetry. exact (take_drop_middle _ _ _ Hx).
  - exact Hp.
Defined.
