(* ===== verification/PointerUpgrade.v ===== *)
(** * An upgrading reconciliation through pointers (pkg/upgraders, controllers/upgradeconfig)

    The reconciler receives a deep copy of a cached resource, hands the pointer
    to the upgrader, which runs its steps or declares the upgrade failed, and
    then writes phase and completion time through the same pointer.  This file
    has these functions over the heap ([DeepCopy], [Aliasing]) and shows that the
    reconciliation does what [Upgraders] and [Controller] say on values, and that
    the cached resource never changes. *)

From stdpp Require Import base gmap strings list.
From Stdlib Require Import ZArith Lia.
From S2P Require Import Prelude Api Effects Config Interfaces UpgradeSteps DeepCopy Aliasing.
From S2P Require Import ClusterVersion Metrics SpecProvider UpgradeConfigManager Notifier EventManager.
From S2P Require Import Drain Scaler Availability UpgraderConfig HealthChecks Upgraders UpgradersCorrect Controller.

(** ** The upgraders (osdupgrader.go, aroupgrader.go) *)

Section Upgraders.
Context {MT : MetaTypes} {ML : MetaLib}.
Context {regexp : Regexp} {semver : Semver} {em : EventManager}.
Context (notifier_builder : M (result Notifier)).

Definition failedConditionStruct (s : ConditionStatus) : conditionStruct :=
  mkConditionStruct "FailedUpgrade" s None None None None "Upgrade failed" "FailedUpgrade notification sent".

(** [h.Conditions.SetCondition( *condition)] on the copy of the history, which is
    not written back. *)
Definition setConditionOfCopyAt (c : conditionStruct) (h : option historyStruct) : HM unit :=
  history ← hderef h;
  _ ← Conditions_SetCondition c (hs_Conditions history);
  mret tt.

(** [upgradeConfig] is the pointer; the phase and the error. *)
Definition performUpgradeFailureAt (upgradeConfig : loc) : HM (UpgradePhase * option error) :=
  h ← historyOf upgradeConfig;
  let stop : HM (UpgradePhase * option error) :=
    _ ← setConditionOfCopyAt (failedConditionStruct ConditionFalse) h;
    history ← hderef h;
    mret (hs_Phase history, None) in
  r ← lift (EnsureScaleDownNodes None);
  match r with
  | Err _ => stop
  | Ok _ =>
      e ← lift (em_Notify _ MuoStateFailed);
      match e with
      | Some _ => stop
      | None =>
          uc ← view upgradeConfig;
          _ ← lift (UpdateMetricUpgradeWindowBreached (uc_Name uc));
          _ ← lift ResetFailureMetrics;
          _ ← setConditionOfCopyAt (failedConditionStruct ConditionTrue) h;
          mret (UpgradePhaseFailed, None)
      end
  end.

Definition osd_UpgradeClusterAt (cfg : upgraderConfig) (acs : list (M (option error))) (upgradeConfig : loc)
    : HM (UpgradePhase * option error) :=
  uc ← view upgradeConfig;
  cancelUpgrade ← lift (shouldFailUpgrade cfg uc);
  match cancelUpgrade with
  | Ok true => performUpgradeFailureAt upgradeConfig
  | _ => RunAt upgradeConfig (osdSteps notifier_builder cfg acs)
  end.

Definition aro_UpgradeClusterAt (cfg : upgraderConfig) (acs : list (M (option error))) (upgradeConfig : loc)
    : HM (UpgradePhase * option error) :=
  RunAt upgradeConfig (aroSteps notifier_builder cfg acs).

Definition UpgradeClusterAt (u : clusterUpgrader) : loc -> HM (UpgradePhase * option error) :=
  match u with
  | osdUpgrader cfg acs => osd_UpgradeClusterAt cfg acs
  | aroUpgrader cfg acs => aro_UpgradeClusterAt cfg acs
  end.

End Upgraders.

(** ** The controller (upgradeconfig_controller.go) *)

Section Controller.
Context {MT : MetaTypes} {ML : MetaLib}.

Definition with_Phase (p : UpgradePhase) (x : historyStruct) : historyStruct :=
  mkHistoryStruct (hs_Version x) (hs_PrecedingVersion x) p (hs_Conditions x) (hs_StartTime x)
    (hs_CompleteTime x) (hs_WorkerStartTime x) (hs_WorkerCompleteTime x).
Definition with_CompleteTime (t : option loc) (x : historyStruct) : historyStruct :=
  mkHistoryStruct (hs_Version x) (hs_PrecedingVersion x) (hs_Phase x) (hs_Conditions x) (hs_StartTime x)
    t (hs_WorkerStartTime x) (hs_WorkerCompleteTime x).

(** [upgrader] is the method [UpgradeCluster] of the upgrader. *)
Definition upgradeClusterAt (upgrader : loc -> HM (UpgradePhase * option error)) (uc : loc)
    : HM (ReconcileResult * option error) :=
  r ← upgrader uc;
  let '(phase, err) := (r : UpgradePhase * option error) in
  let me := multierror_Append err [] in
  o ← historyOf uc;
  history ← hderef o;
  let history := with_Phase phase history in
  history ← (if bool_decide (phase = UpgradePhaseUpgraded)
             then t ← lift now; l ← alloc (CTime t); mret (with_CompleteTime (Some l) history)
             else mret history : HM historyStruct);
  _ ← storeHistory history uc;
  v ← view uc;
  r ← lift (call (StatusUpdate v));
  let me := multierror_Append (match r with Err err => Some err | Ok _ => None end) me in
  mret (mkReconcileResult false Minute, errorOrNil me).

End Controller.

(** ** Refinement *)

Section Refinement.
Context {MT : MetaTypes} {ML : MetaLib}.
Implicit Types (h : Heap) (p : loc).

(** The history of the desired version, on the heap and as a value. *)
Lemma historyOf_value h0 p m h uc :
  Inv h0 p m h uc ->
  exists ho, historyOf p h = Ret (ho, h) /\
    match ho, GetHistory (History uc) (ucVersionOf uc) with
    | Some hst, Some hv => ld h hst = Some hv
    | None, None => True
    | _, _ => False
    end.
Proof.
  intros (o & Ho & Hsep & _ & _ & <- & _). pose proof (historyOf_spec h p o Ho Hsep) as HH.
  rewrite GetHistory_find. change (ucVersionOf (object_config o)) with (desired_Version (Desired (obj_Spec o))).
  change (History (object_config o)) with (obj_History o).
  destruct (list_find _ (obj_History o)) as [[i hv]|]; [|by exists None].
  destruct HH as (hst & R & Hat). exists (Some hst). split; [done|]. apply Hat.
Qed.

(** The resource changes exactly when it has a condition of the type already. *)
Lemma setConditionOfCopyAt_rel h0 p m h uc nc c ho :
  Inv h0 p m h uc -> ld h nc = Some c -> historyOf p h = Ret (ho, h) ->
  prog_rel (Inv_result h0 p m) (setConditionOfCopyAt nc ho h) (setConditionOfCopy c uc).
Proof.
  intros (o & Ho & Hsep & Hown & Hsub & <- & Hm) Hc Hho.
  pose proof (historyOf_spec h p o Ho Hsep) as HH.
  unfold setConditionOfCopy. rewrite GetHistory_find.
  change (ucVersionOf (object_config o)) with (desired_Version (Desired (obj_Spec o))).
  change (History (object_config o)) with (obj_History o).
  destruct (list_find _ (obj_History o)) as [[i hv]|] eqn:Ef; cycle 1.
  { rewrite Hho in HH. injection HH as ->. constructor. }
  destruct HH as (hst & R & Hat). rewrite Hho in R. injection R as ->.
  pose proof Hat as (_ & _ & _ & (Hcs & _)%ld_history_Some & _).
  unfold setConditionOfCopyAt. rewrite (hm_bind (hderef (Some hst)) _ h hst h eq_refl).
  refine (rel_bind _ _ _ (t1 ← now; t2 ← now; mret (t1, t2)) _
    (fun ts => Ret match replaceCondition (stampTimes (Some ts.1) (Some ts.2) c) (hist_Conditions hv) with
                   | Some (cs, _) => set_History (SetHistory (set_Conditions cs hv) (obj_History o))
                                       (object_config o)
                   | None => object_config o
                   end)
    (Conditions_SetCondition_rel h (hs_Conditions hst) _ nc c Hcs Hc) _).
  intros [[s' b] h1] [t1 t2] [St Hcase]. cbn [fst snd] in *. constructor. unfold Inv_result.
  unfold SetCondition in St. cbn [snd].
  destruct (replaceCondition _ (hist_Conditions hv)) as [[cs b']|] eqn:Er.
  - subst s'. rewrite (SetHistory_find _ _ i hv).
    + exact (Inv_step h0 p m h h1 o (object_with_History _ o) Ho Hsep Hown Hsub Hm Hm
               (inner_condition_step h h1 p o i hst hv cs Hat St)).
    + apply list_find_Some in Ef as (? & Hv & ?). cbn in *. rewrite Hv. by apply list_find_Some.
  - destruct (ptr_local h h1 p o Ho) as (L1 & L2 & _ & L4);
      [apply sub_agree; [done|by eapply ptr_dom]|].
    exists o. rewrite L2. split_and!; try done; [by apply L4|by transitivity h].
Qed.

(** A history whose phase and time stamps change, to stamps that are its own or
    new. *)
Lemma history_fields_step h h1 (x y : historyStruct) (v w : UpgradeHistory) :
  ld h x = Some v -> h ⊆ h1 -> ld h1 y = Some w -> hs_Conditions y = hs_Conditions x ->
  (forall l, l ∈ history_times y -> l ∈ dom h -> l ∈ history_times x) -> step h h1 x y w.
Proof.
  intros Hx Hs Hy Hc Ht. pose proof Hx as (Hcs & _)%ld_history_Some.
  destruct (obj_sub h h1 _ _ Hcs Hs) as (_ & E2 & _ & E4). split; [done| | | |].
  - cbn. unfold sep_history. rewrite Hc. apply E4, conditions_sep.
  - intros l. cbn. unfold own_history. rewrite Hc, E2, !elem_of_union. naive_solver.
  - intros l [c Hl]%elem_of_dom _. rewrite Hl. by eapply lookup_weaken.
  - intros l t Hl. by eapply lookup_weaken.
Qed.

Context {regexp : Regexp} {semver : Semver} {em : EventManager} (notifier_builder : M (result Notifier)).

Lemma failedCondition_ld h s : ld h (failedConditionStruct s) = Some (failedCondition s).
Proof. done. Qed.

Lemma performUpgradeFailureAt_rel h0 p m h uc :
  Inv h0 p m h uc ->
  prog_rel (run_result h0 p m) (performUpgradeFailureAt p h) (performUpgradeFailure uc).
Proof.
  intros HI. destruct (historyOf_value h0 p m h uc HI) as (ho & Hho & Hhv).
  assert (Hstop : prog_rel (run_result h0 p m)
    ((_ ← setConditionOfCopyAt (failedConditionStruct ConditionFalse) ho;
      history ← hderef ho; mret (hs_Phase history, None)) h)
    (uc' ← setConditionOfCopy (failedCondition ConditionFalse) uc;
     hv ← deref (GetHistory (History uc) (ucVersionOf uc)); mret (uc', Phase hv, None))).
  { refine (rel_bind _ _ _ _ _ _ (setConditionOfCopyAt_rel h0 p m h uc _ _ ho HI
              (failedCondition_ld h _) Hho) _).
    intros [[] h1] uc' HI1. cbn [fst snd].
    destruct ho as [hst|], (GetHistory _ _) as [hv|]; try done; [|constructor].
    apply ld_history_Some in Hhv as (_ & _ & _ & _ & _ & _ & _ & Hph).
    constructor. split; [done|]. cbn. by rewrite Hph. }
  unfold performUpgradeFailureAt. rewrite (hm_bind _ _ _ _ _ Hho).
  refine (rel_bind _ _ _ _ _ _ (lift_rel (EnsureScaleDownNodes None) h) _).
  intros ? r ->. cbn [fst snd]. destruct r as [b|err]; [|exact Hstop].
  refine (rel_bind _ _ _ _ _ _ (lift_rel (em_Notify _ MuoStateFailed) h) _).
  intros ? e ->. cbn [fst snd]. destruct e as [err|]; [exact Hstop|].
  rewrite (hm_bind _ _ _ _ _ (Inv_view _ _ _ _ _ HI)).
  refine (rel_bind _ _ _ _ _ _ (lift_rel (UpdateMetricUpgradeWindowBreached (uc_Name uc)) h) _).
  intros ? [] ->. cbn [fst snd].
  refine (rel_bind _ _ _ _ _ _ (lift_rel ResetFailureMetrics h) _). intros ? [] ->. cbn [fst snd].
  refine (rel_bind _ _ _ _ _ _ (setConditionOfCopyAt_rel h0 p m h uc _ _ ho HI
            (failedCondition_ld h _) Hho) _).
  intros [[] h1] uc' HI1. by constructor.
Qed.

Lemma UpgradeClusterAt_rel u h0 p m h uc :
  Inv h0 p m h uc ->
  prog_rel (run_result h0 p m) (UpgradeClusterAt notifier_builder u p h)
    (UpgradeCluster notifier_builder u uc).
Proof.
  intros HI. destruct u as [cfg acs|cfg acs]; cbn [UpgradeClusterAt UpgradeCluster].
  - unfold osd_UpgradeClusterAt, osd_UpgradeCluster.
    rewrite (hm_bind _ _ _ _ _ (Inv_view _ _ _ _ _ HI)).
    refine (rel_bind _ _ _ _ _ _ (lift_rel (shouldFailUpgrade cfg uc) h) _).
    intros ? r ->. cbn [fst snd].
    destruct r as [[]|]; [by apply performUpgradeFailureAt_rel|by apply RunAt_rel..].
  - by apply RunAt_rel.
Qed.

(** The result is the same, and the invariant holds for some resource. *)
Definition reconciled_result h0 p m (r : ReconcileResult * option error * Heap)
    (v : ReconcileResult * option error) : Prop := r.1 = v /\ exists uc, Inv h0 p m r.2 uc.

(** The last write of the history and the status update. *)
Lemma finish_rel h0 p m h h1 o i hst hv hst' hv' me :
  own_uc h p ## dom h0 -> h0 ⊆ h -> (obj_TypeMeta o, obj_ObjectMeta o) = m ->
  at_history h p o i hst hv -> step h h1 hst hst' hv' -> hs_Version hst' = hs_Version hst ->
  prog_rel (reconciled_result h0 p m)
    ((_ ← storeHistory hst' p; v ← view p; r ← lift (call (StatusUpdate v));
      mret (mkReconcileResult false Minute,
            errorOrNil (multierror_Append (match r with Err err => Some err | Ok _ => None end) me))) h1)
    (r ← updateStatus hv' (object_config o);
     mret (mkReconcileResult false Minute,
           errorOrNil (multierror_Append (match r with Err err => Some err | Ok _ => None end) me))).
Proof.
  intros Hown Hsub Hm Hat St Hver. pose proof Hat as (Ho & Hsep & Hf & Hhv & _).
  destruct (storeHistory_step h h1 p o i hst hv hst' hv' Hat St Hver) as (h2 & R & St2).
  pose proof (Inv_step h0 p m h h2 o (object_with_History _ o) Ho Hsep Hown Hsub Hm Hm St2) as HI.
  rewrite (hm_bind _ _ _ _ _ R), (hm_bind _ _ _ _ _ (Inv_view _ _ _ _ _ HI)).
  assert (SetHistory hv' (History (object_config o)) = <[i := hv']> (obj_History o)) as Hset.
  { apply (SetHistory_find _ _ i hv).
    pose proof (step_ld _ _ _ _ _ St) as (_ & _ & _ & _ & _ & V' & _)%ld_history_Some.
    apply ld_history_Some in Hhv as (_ & _ & _ & _ & _ & V & _).
    apply list_find_Some in Hf as (H1 & H2 & H3). cbn in *.
    apply list_find_Some. split_and!; [done|congruence|]. intros j y Hj Hlt Hy.
    apply (H3 j y Hj Hlt). congruence. }
  unfold updateStatus. rewrite Hset. constructor. intros r. constructor. split; [done|]. eauto.
Qed.

Lemma upgradeClusterAt_rel (upgrader : ClusterUpgrader) (f : loc -> HM (UpgradePhase * option error))
    h0 p m h uc :
  Inv h0 p m h uc ->
  prog_rel (run_result h0 p m) (f p h) (cu_UpgradeCluster upgrader uc) ->
  prog_rel (reconciled_result h0 p m) (upgradeClusterAt f p h) (upgradeCluster upgrader uc).
Proof.
  intros HI Hf. refine (rel_bind _ _ _ _ _ _ Hf _).
  intros [[phase err] h1] [[uc1 phase'] err'] [HI1 E]. cbn [fst snd] in *. injection E as -> ->.
  destruct HI1 as (o & Ho & Hsep & Hown & Hsub & <- & Hm).
  pose proof (historyOf_spec h1 p o Ho Hsep) as HH. rewrite GetHistory_find.
  change (ucVersionOf (object_config o)) with (desired_Version (Desired (obj_Spec o))).
  change (History (object_config o)) with (obj_History o).
  destruct (list_find _ (obj_History o)) as [[i hv]|]; cycle 1.
  { rewrite (hm_bind _ _ _ _ _ HH). constructor. }
  destruct HH as (hst & R & Hat). rewrite (hm_bind _ _ _ _ _ R).
  rewrite (hm_bind (hderef (Some hst)) _ h1 hst h1 eq_refl). cbn [fmap option_fmap option_map snd].
  pose proof Hat as (_ & _ & _ & Hhv & _).
  pose proof Hhv as (V1 & V2 & V3 & V4 & V5 & V6 & V7 & V8)%ld_history_Some.
  case_bool_decide as Hph; cbn [deref].
  - constructor. intros t. set (l := fresh (dom h1)).
    assert (Hs : h1 ⊆ <[l := CTime t]> h1) by apply insert_fresh_sub, alloc_fresh.
    refine (finish_rel h0 p m h1 (<[l := CTime t]> h1) o i hst hv
      (with_CompleteTime (Some l) (with_Phase phase' hst)) (set_CompleteTime (Some t) (set_Phase phase' hv))
      _ Hown Hsub Hm Hat _ eq_refl).
    eapply history_fields_step; [exact Hhv|exact Hs| |done|].
    + destruct (obj_sub h1 _ _ _ Hhv Hs) as ((W1 & W2 & W3 & W4 & W5 & W6 & W7 & W8)%ld_history_Some & _).
      apply ld_history_Some. cbn. rewrite lookup_insert_eq. by split_and!.
    + unfold history_times. cbn. intros l' Hl' Hd. pose proof (alloc_fresh h1). set_solver.
  - refine (finish_rel h0 p m h1 h1 o i hst hv (with_Phase phase' hst) (set_Phase phase' hv)
      _ Hown Hsub Hm Hat _ eq_refl).
    eapply history_fields_step; [exact Hhv|done| |done|done]. by apply ld_history_Some.
Qed.

End Refinement.

(** C13: The reconciler upgrades a deep copy of a cached resource through pointers,
    with writes into arrays that structs share.  It behaves as the
    reconciliation on values: it has the same executions, with the same
    requests (status updates with the same resources among them) and the same
    results, and panics in the same ones; and when it returns the cached resource
    still stands for what it stood for. *)
Theorem upgrade_on_copy_refines {MT : MetaTypes} {ML : MetaLib}
    {regexp : Regexp} {semver : Semver} {em : EventManager} (notifier_builder : M (result Notifier))
    (Hb : all_ev quiet_event notifier_builder) (u : clusterUpgrader)
    (Hacs : Forall (fun c => all_ev quiet_event c) (checkersOf u))
    (h : Heap) (p : loc) (o : object) :
  ld_uc h p = Some o ->
  exists q h1, UpgradeConfig_DeepCopy (Some p) h = Ret (Some q, h1) /\
    let onHeap := upgradeClusterAt (UpgradeClusterAt notifier_builder u) q h1 in
    let onValues := upgradeCluster (clusterUpgraderImpl notifier_builder Hb u Hacs) (object_config o) in
    (forall tr r h2, exec onHeap tr (Done (r, h2)) -> exec onValues tr (Done r) /\ ld_uc h2 p = Some o) /\
    (forall tr r, exec onValues tr (Done r) -> exists h2, exec onHeap tr (Done (r, h2))) /\
    (forall tr, (exists s, exec onHeap tr (Crash s)) <-> (exists s, exec onValues tr (Crash s))).
Proof.
  intros Ho. destruct (copyPointer_spec zeroConfigStruct _ h p o UpgradeConfig_copies Ho)
    as (q & h1 & R & _). exists q, h1. split; [exact R|]. intros onHeap onValues.
  pose proof (copy_Inv h p o q h1 Ho R) as HI.
  pose proof (upgradeClusterAt_rel (clusterUpgraderImpl notifier_builder Hb u Hacs) _ _ _ _ _ _ HI
    (UpgradeClusterAt_rel notifier_builder u _ _ _ _ _ HI)) as HR.
  pose proof (rel_flip _ _ _ HR) as HR'. split_and!.
  - intros tr r h2 Hex. destruct (rel_exec _ _ _ _ _ HR Hex) as ([v|] & Hv & Hrel); [|done].
    destruct Hrel as [<- [uc HI2]]. split; [exact Hv|]. by eapply Inv_old.
  - intros tr r Hex. destruct (rel_exec _ _ _ _ _ HR' Hex) as ([[r' h2]|] & Hv & Hrel); [|done].
    destruct Hrel as [E _]. cbn in E. subst r'. by exists h2.
  - intros tr. split; intros [s Hex].
    + destruct (rel_exec _ _ _ _ _ HR Hex) as ([|s'] & Hv & Hrel); [done|by exists s'].
    + destruct (rel_exec _ _ _ _ _ HR' Hex) as ([|s'] & Hv & Hrel); [done|by exists s'].
Qed.

(** The cached [sample_config], with an OSD upgrader without availability checks. *)
Lemma upgrade_on_copy_refines_witness :
  ld_uc sample_config 7%positive = Some sample_object /\
  exists q h1, UpgradeConfig_DeepCopy (Some 7%positive) sample_config = Ret (Some q, h1) /\
    forall tr r h2,
      exec (upgradeClusterAt (@UpgradeClusterAt sample_types sample_lib substringRegexp plainSemver
              demo_quiet_em demo_no_notifier (osdUpgrader demo_cfg [])) q h1) tr (Done (r, h2)) ->
      ld_uc h2 7%positive = Some sample_object.
Proof.
  assert (H : ld_uc sample_config 7%positive = Some sample_object) by (vm_compute; reflexivity).
  split; [exact H|].
  destruct (@upgrade_on_copy_refines sample_types sample_lib substringRegexp plainSemver demo_quiet_em
    demo_no_notifier I (osdUpgrader demo_cfg []) (List.Forall_nil _) sample_config 7%positive
    sample_object H) as (q & h1 & R & Hr & _).
  exists q, h1. split; [exact R|]. intros tr r h2 Hex. exact (proj2 (Hr tr r h2 Hex)).
Defined.
