(* ===== verification/Environment.v ===== *)
(** * A healthy cluster, as an environment

    The environment of a program is a relation: which answers it may give to a
    request, and how its state may move.  [must] is the total-correctness
    condition under such an environment: the program returns, without a panic,
    in a state and with a result of the post-condition, whatever the environment
    does.  [healthy] is the environment of a cluster on which an upgrade can be
    carried out: its API server stores the UpgradeConfig, its clients answer,
    and its ClusterVersion and its surge capacity go through the stages of
    [Stage]. *)

From stdpp Require Import base gmap strings list.
From Stdlib Require Import ZArith Lia.
From S2P Require Import Prelude GoTime Api Effects Config Interfaces UpgradeSteps ClusterVersion Metrics.
From S2P Require Import SpecProvider UpgradeConfigManager Notifier EventManager Machinery Maintenance Availability.
From S2P Require Import UpgraderConfig HealthChecks Validation Scaler ControllerCorrect.

(** ** Programs in an environment *)

Section Must.
Context {S : Type} (R : forall X, Eff X -> S -> X -> S -> Prop).

Fixpoint must {A} (p : M A) (s : S) (Q : A -> S -> Prop) : Prop :=
  match p with
  | Ret a => Q a s
  | Panic _ => False
  | Vis e k => forall x s', R _ e s x s' -> must (k x) s' Q
  end.

(** The environment can go along a trace. *)
Fixpoint path (s : S) (tr : list (obs Eff)) (s' : S) : Prop :=
  match tr with
  | [] => s' = s
  | ob :: tr => exists s1, R _ (ob_event ob) s (ob_resp ob) s1 /\ path s1 tr s'
  end.

(** An execution of a program in the environment. *)
Definition plays {A} (p : M A) (s : S) (o : outcome A) (s' : S) : Prop := exists tr, exec p tr o /\ path s tr s'.

Lemma must_mono {A} (p : M A) s (Q Q' : A -> S -> Prop) :
  must p s Q -> (forall a s', Q a s' -> Q' a s') -> must p s Q'.
Proof.
  intros H HQ. revert s H. induction p as [a|m|X e k IH]; intros s; cbn; [auto|done|].
  intros H x s' Hx. apply IH, H, Hx.
Qed.

Lemma must_bind {A B} (p : M A) (f : A -> M B) s Q :
  must p s (fun a s' => must (f a) s' Q) -> must (p ≫= f) s Q.
Proof.
  revert s. induction p as [a|m|X e k IH]; intros s; cbn; [done..|]. intros H x s' Hx. by apply IH, H.
Qed.

Lemma must_call {X} (e : Eff X) s Q : (forall x s', R X e s x s' -> Q x s') -> must (call e) s Q.
Proof. done. Qed.

(** Every execution in the environment ends as the condition says. *)
Lemma must_plays {A} (p : M A) s Q o s' : must p s Q -> plays p s o s' -> exists a, o = Done a /\ Q a s'.
Proof.
  intros H (tr & Hex & Hp). revert s tr H Hex Hp. induction p as [a|m|X e k IH]; intros s tr; cbn; [|done|].
  - intros H [-> ->] ->. by exists a.
  - intros H (x & t & -> & Hex) (s1 & Hx & Hp). exact (IH x s1 t (H x s1 Hx) Hex Hp).
Qed.

(** Facts about all executions can be used. *)
Lemma must_exec {A} (p : M A) s (Q : A -> S -> Prop) :
  no_panic p -> (forall tr a s', exec p tr (Done a) -> path s tr s' -> Q a s') -> must p s Q.
Proof.
  revert s Q. induction p as [a|m|X e k IH]; intros s Q; cbn; [|done|].
  - intros _ H. by apply (H []).
  - intros Hn H x s' Hx. apply IH; [apply Hn|]. intros tr a s2 He Hp. apply (H (Obs e x :: tr)); [by exists x, tr|].
    exists s'. by split.
Qed.

Lemma must_and_exec {A} (p : M A) s (Q : A -> S -> Prop) :
  must p s Q -> must p s (fun a s' => Q a s' /\ exists tr, exec p tr (Done a)).
Proof.
  revert s. induction p as [a|m|X e k IH]; intros s; cbn; [|done|].
  - intros H. split; [done|]. by exists [].
  - intros H x s' Hx. eapply must_mono; [by apply IH, H|]. intros a s2 [Ha (tr & Hex)]. split; [done|].
    exists (Obs e x :: tr). by exists x, tr.
Qed.

(** A handler that obeys the environment gives one of its executions. *)
Lemma run_plays {A} (h : forall X, Eff X -> S -> X * S) (p : M A) s :
  (forall X (e : Eff X) s, R X e s (h X e s).1 (h X e s).2) -> plays p s (run h p s).1.2 (run h p s).2.
Proof.
  intros Hh. exists (run h p s).1.1. split; [apply run_exec|]. revert s. induction p as [a|m|X e k IH]; intros s; cbn; [done..|].
  specialize (Hh X e s). destruct (h X e s) as [x s1]. cbn in Hh. specialize (IH x s1).
  destruct (run h (k x) s1) as [[tr o] s2]. exists s1. by split.
Qed.
End Must.

(** ** The stages of an upgrade *)

(** The ClusterVersion wants another version; it wants the version of the
    UpgradeConfig; it has reached it and the workers are up to date. *)
Inductive Progress := Idle | Commenced | Finished.

(** The surge capacity: never asked for; its MachineSets are there; their
    machines are ready; it is being removed; it is gone. *)
Inductive Surge := NoSurge | Rising | Risen | Falling | Gone.
Definition rank (u : Surge) : nat :=
  match u with NoSurge => 0 | Rising => 1 | Risen => 2 | Falling => 3 | Gone => 4 end.
Definition razed (u : Surge) : bool := match u with Falling | Gone => true | _ => false end.

Record Stage := mkStage { progress : Progress; surge : Surge }.
Definition commenced (g : Stage) : bool := match progress g with Idle => false | _ => true end.

(** The cluster finishes by itself, and never goes back; its machines come up
    and go away by themselves. *)
Definition proceeds (p p' : Progress) : Prop := p' = p \/ p = Commenced /\ p' = Finished.
Definition drifts (u u' : Surge) : Prop := u' = u \/ u = Rising /\ u' = Risen \/ u = Falling /\ u' = Gone.

(** What a stage can become without the patch: the surge capacity is only added
    before it and only removed after it. *)
Definition evolves (g g' : Stage) : Prop :=
  proceeds (progress g) (progress g') /\ rank (surge g) <= rank (surge g') /\
  if commenced g then surge g = NoSurge -> surge g' = NoSurge else razed (surge g') = razed (surge g).

Record Sys := mkSys { stored : option UpgradeConfig; stage : Stage }.

(** What stays the same: the namespace of the operator, the spec of the
    UpgradeConfig, the content of the config map with the configuration of the
    upgrader in it, the order in which Go visits the notifier's states, the
    MachineSets of the workers and of the other pools, and, when OCM is the source
    of the spec, the kind of the upgrades and the cluster it knows. *)
Record Cluster := mkCluster {
  cl_Namespace : string; cl_Spec : UpgradeConfigSpec; cl_ConfigMap : gmap string string;
  cl_Config : upgraderConfig; cl_order : list (MuoState * string);
  cl_Workers : list MachineSet; cl_Pooled : list MachineSet;
  cl_Source : option (UpgradeType * OcmCluster) }.

(** A spec with a channel and a version. *)
Definition versionedSpec (sp : UpgradeConfigSpec) : Prop :=
  desired_Image (Desired sp) = "" /\ desired_Channel (Desired sp) <> "" /\ desired_Version (Desired sp) <> "".

Section Healthy.
Context {semver : Semver} {urlparse : UrlParse} {uuid : UuidParse}.
(** The cluster, and the time of the reconciliation. *)
Context (c : Cluster) (lo hi : Time).
Notation ns := (cl_Namespace c).
Notation sp := (cl_Spec c).
Notation cm := (cl_ConfigMap c).
Notation cfg := (cl_Config c).
Notation order := (cl_order c).

Definition wanted : UpgradeConfig := mkUpgradeConfig "" "" "" sp [].

(** The ClusterVersion at a stage. *)
Record cv_healthy (g : Stage) (cv : ClusterVersion) : Prop := {
  hcv_commenced : isEqualVersion cv wanted = commenced g;
  hcv_current : exists r, GetCurrentVersion cv = Ret r;
  hcv_upgrade : progress g = Idle -> isUpgrade wanted cv;
  hcv_listed : progress g = Idle -> (findUpdate cv (desired_Version (Desired sp))).1 = true;
  hcv_upgradeable : progress g = Idle ->
    Forall (fun c => ~ (sc_Type c = "Upgradeable" /\ sc_Status c = ConditionFalse)) (cv_Conditions cv);
  hcv_service : is_ok (uuid_Parse (cv_ClusterID cv)) = true /\ is_ok (url_Parse (getUpstreamURL cv)) = true;
  hcv_completed : progress g = Finished -> HasUpgradeCompleted cv wanted = true;
}.

(** A policy of OCM that is the one of the UpgradeConfig. *)
Definition policyMatches (policy : UpgradePolicy) : bool :=
  String.eqb (policy_Version policy) (desired_Version (Desired sp)) &&
  String.eqb (formatRFC3339 (policy_NextRun policy)) (UpgradeAt sp).

(** The MachineSets of the surge capacity: there is one for the first worker set,
    and none is being deleted while they come up; when they are up their counts
    agree. *)
Definition surgeSets (u : Surge) (l : list MachineSet) : Prop :=
  match u with
  | NoSurge | Gone => l = []
  | Rising | Risen => Forall (fun ms => ms_DeletionTimestamp ms = None) l /\
      match cl_Workers c with ms :: _ => hasClone l ms = true | [] => False end /\
      (u = Risen -> Forall (fun ms => ms_Replicas ms = ms_ReadyReplicas ms) l)
  | Falling => True
  end.

(** The policies of OCM, when it is the source of the spec: the next one is the
    upgrade that is wanted. *)
Definition servesSpec (total : Z) (items : list UpgradePolicy) : Prop :=
  match cl_Source c with
  | Some (ut, cluster) => (0 < total)%Z /\ Ocm.buildUpgradeConfigSpecs (Ocm.getNextOccurringUpgradePolicy items) cluster ut = Ok [sp]
  | None => True
  end.

Definition nodeHealthy (n : Node) : bool :=
  negb (manuallyCordoned n) && negb (HasMemoryPressure n || HasDiskPressure n || HasPidPressure n).

(** The answers of a healthy cluster at a stage.  Answers that no reconciliation
    depends on are free. *)
Definition answers (g : Stage) X (e : Eff X) : X -> Prop :=
  match e in Eff X return X -> Prop with
  | Now => fun t => (lo <= t <= hi)%Z
  | LookupEnv _ => fun v => v = Some ns
  | NewClient _ => fun r => r = Ok tt
  | GetConfigMap _ _ => fun r => r = Ok cm
  | GetCV => fun r => exists cv, r = Ok cv /\ cv_healthy g cv
  | PatchCV _ _ => fun r => is_ok r = true
  | CincinnatiGetUpdates _ _ _ _ => fun r => exists ups, r = Ok ups /\
      hasVersion (desired_Version (Desired sp)) (ups.1 ++ ups.2) = true
  | ListClusterOperators => fun r => exists cos, r = Ok cos /\ degradedOperators cos = []
  | ListNodes _ => fun r => exists nodes, r = Ok nodes /\ forallb nodeHealthy nodes = true
  | GetMachineConfigPool _ => fun r => exists p, r = Ok p /\ (progress g = Finished -> MachineCount p = UpdatedMachineCount p)
  | ListMachineSets sel => fun r => exists l, r = Ok l /\ (sel = workerSets -> l = cl_Workers c) /\
      (sel = pooledSets -> l = cl_Pooled c) /\ (sel = upgradeSets -> surgeSets (surge g) l)
  | CreateMachineSet _ => fun r => is_ok r = true
  | DeleteMachineSet _ => fun r => is_ok r = true
  | ListMachines sel => fun r => exists ms, r = Ok ms /\ Forall (fun m => is_Some (machine_Phase m)) ms /\
      (sel = upgradeSets -> surge g = NoSurge \/ surge g = Gone -> ms = []) /\
      (forall n, sel = upgradeMachinesOf n -> (length ms = 1 -> Forall (fun m => is_Some (NodeRef m)) ms) /\
         (progress g = Idle -> surge g = Risen -> length ms = 1))
  | GetNode _ => fun r => exists n, r = Ok n /\ (progress g = Idle -> surge g = Risen -> nodeIsReady n = true)
  | ListPDBs => fun r => exists pdbs, r = Ok pdbs /\ (checkBudgets pdbs).2 = None
  | DvoNew => fun r => r = Ok tt
  | DvoGetMetrics => fun r => exists m, r = Ok m /\ badPDBExists m = false
  | PromQuery q => fun r => exists rs, r = Ok rs /\ (q = healthCheckQuery (cfg_HealthCheck cfg) -> rs = [])
  | AmListSilences => fun r => is_ok r = true
  | AmPostSilence _ _ _ _ _ => fun r => is_ok r = true
  | AmDeleteSilence _ => fun r => is_ok r = true
  | HttpGet _ _ => fun r => exists status body, r = Ok (status, body) /\ (status < 400)%Z
  | GetFileIntegrity _ _ => fun r => is_ok r = true
  | UpdateFileIntegrity _ _ _ => fun r => is_ok r = true
  | OcmGetCluster => fun r => exists cluster, r = Ok cluster /\
      match cl_Source c with Some (_, cluster') => cluster = cluster' | None => True end
  | OcmPostServiceLog _ _ => fun r => is_ok r = true
  | OcmGetUpgradePolicies _ => fun r => exists n items, r = Ok (n, items) /\ existsb policyMatches items = true /\ servesSpec n items
  | OcmGetPolicyState _ _ => fun r => exists st, r = Ok st /\ is_Some (currentMuoState order st) /\
      (is_Some (cl_Source c) -> progress g = Idle -> ToLower (ps_Value st) ∉ ["pending"; "completed"; "cancelled"])
  | OcmSetState _ _ _ _ => fun r => is_ok r = true
  | _ => fun _ => True
  end.

(** The requests that the store of UpgradeConfigs answers. *)
Definition storeAnswers {X} (e : Eff X) (s : option UpgradeConfig) : option (X * option UpgradeConfig) :=
  match e with
  | GetUpgradeConfig _ _ | ListUpgradeConfigs _ _ | UpdateUpgradeConfig _ | StatusUpdate _
  | CreateUpgradeConfig _ | DeleteUpgradeConfig _ _ => Some (api_server ns (fun X => default_resp) X e s)
  | _ => None
  end.

(** The patch that asks for the version of the UpgradeConfig. *)
Definition asksFor (version : string) : string :=
  "{" +:+ quoted "spec" +:+ ":{" +:+ quoted "desiredUpdate" +:+ ":{" +:+ quoted "version" +:+ ":" +:+ quoted version +:+ ",".
Definition commencing {X} (e : Eff X) : bool :=
  match e with PatchCV _ patch => HasPrefix patch (asksFor (desired_Version (Desired sp))) | _ => false end.

(** The MachineSets that are created are the clones of the operator. *)
Definition surges {X} (e : Eff X) (u u' : Surge) : Prop :=
  match e with
  | CreateMachineSet _ => match u with NoSurge => u' = Rising \/ u' = Risen | _ => drifts u u' end
  | DeleteMachineSet _ => match u with Rising | Risen => u' = Falling \/ u' = Gone | _ => drifts u u' end
  | _ => drifts u u'
  end.

(** The cluster evolves; an idle one starts when it is patched. *)
Definition moves {X} (e : Eff X) (g g' : Stage) : Prop :=
  surges e (surge g) (surge g') /\
  (commencing e = true /\ progress g = Idle /\ commenced g' = true \/
   (commencing e = true -> progress g <> Idle) /\ proceeds (progress g) (progress g')).

(** One request to the healthy cluster. *)
Definition healthy X (e : Eff X) (s : Sys) (x : X) (s' : Sys) : Prop :=
  match storeAnswers e (stored s) with
  | Some r => x = r.1 /\ stored s' = r.2
  | None => answers (stage s') X e x /\ stored s' = stored s
  end /\ moves e (stage s) (stage s').

(** ** Programs that leave the cluster at its stage *)

(** The store is the same and the upgrade has commenced or not, as before. *)
Definition keeps (s s' : Sys) : Prop := stored s' = stored s /\ evolves (stage s) (stage s').

Lemma proceeds_commenced g g' : proceeds (progress g) (progress g') -> commenced g' = commenced g.
Proof. unfold commenced. by intros [->|[-> ->]]. Qed.
Lemma evolves_commenced g g' : evolves g g' -> commenced g' = commenced g.
Proof. intros [H _]. by apply proceeds_commenced. Qed.
Lemma evolves_finished g g' : evolves g g' -> progress g = Finished -> progress g' = Finished.
Proof. by intros [[->|[-> ->]] _]. Qed.
Lemma evolves_idle g g' : evolves g g' -> progress g = Idle -> progress g' = Idle.
Proof. by intros [[->|[-> ->]] _]. Qed.
Lemma evolves_was_idle g g' : evolves g g' -> progress g' = Idle -> progress g = Idle.
Proof. by intros [[->|[-> ->]] _]. Qed.

Lemma evolves_self g : evolves g g.
Proof. split_and!; [by left|done|]. by destruct (commenced g). Qed.
Lemma evolves_trans g1 g2 g3 : evolves g1 g2 -> evolves g2 g3 -> evolves g1 g3.
Proof.
  intros H12 H23. pose proof (evolves_commenced _ _ H12) as Hc. destruct H12 as (P1 & R1 & S1), H23 as (P2 & R2 & S2).
  split_and!; [unfold proceeds in *; intuition congruence|lia|]. rewrite Hc in S2. destruct (commenced g1); [auto|congruence].
Qed.

Lemma keeps_refl s : keeps s s.
Proof. split; [done|apply evolves_self]. Qed.
Lemma keeps_trans s1 s2 s3 : keeps s1 s2 -> keeps s2 s3 -> keeps s1 s3.
Proof. intros [H1 H2] [H3 H4]. split; [congruence|by eapply evolves_trans]. Qed.
Lemma keeps_commenced s s' : keeps s s' -> commenced (stage s') = commenced (stage s).
Proof. intros [_ H]. by apply evolves_commenced. Qed.
Lemma keeps_finished s s' : keeps s s' -> progress (stage s) = Finished -> progress (stage s') = Finished.
Proof. intros [_ H]. by apply evolves_finished. Qed.
Lemma keeps_idle s s' : keeps s s' -> progress (stage s) = Idle -> progress (stage s') = Idle.
Proof. intros [_ H]. by apply evolves_idle. Qed.

Lemma idle_commenced g : progress g = Idle <-> commenced g = false.
Proof. unfold commenced. by destruct (progress g). Qed.

(** The surge capacity goes up, by itself or by the operator. *)
Lemma drifts_rank u u' : drifts u u' -> rank u <= rank u' /\ razed u' = razed u /\ (u = NoSurge -> u' = NoSurge).
Proof. intros [->|[[-> ->]|[-> ->]]]; cbn; (split_and!; [lia|done|done]). Qed.
Lemma drifts_evolves g g' : drifts (surge g) (surge g') -> proceeds (progress g) (progress g') -> evolves g g'.
Proof. intros (H1 & H2 & H3)%drifts_rank Hp. split_and!; [done|done|]. by destruct (commenced g). Qed.

(** The surge capacity is up while an idle cluster stays so. *)
Lemma evolves_risen g g' : evolves g g' -> progress g = Idle -> surge g = Risen -> surge g' = Risen.
Proof.
  intros (_ & Hr & Hz) Hi Hs. unfold commenced in Hz. rewrite Hi, Hs in Hz. rewrite Hs in Hr.
  destruct (surge g'); cbn in Hr, Hz; try done; lia.
Qed.
Lemma evolves_razed g g' : evolves g g' -> progress g = Idle -> razed (surge g') = razed (surge g).
Proof. intros (_ & _ & Hz) Hi. unfold commenced in Hz. by rewrite Hi in Hz. Qed.
Lemma evolves_surged g g' : evolves g g' -> surge g <> NoSurge -> surge g' <> NoSurge.
Proof. intros (_ & Hr & _) Hs Hs'. rewrite Hs' in Hr. destruct (surge g); cbn in Hr; try done; lia. Qed.

(** There is no surge capacity, or none that stays. *)
Definition lowered (u : Surge) : Prop := u = NoSurge \/ razed u = true.
Lemma evolves_lowered g g' : evolves g g' -> commenced g = true -> lowered (surge g) -> lowered (surge g').
Proof.
  intros (_ & Hr & Hs) Hc [Hn|Hz]; rewrite Hc in Hs; [left; auto|right].
  destruct (surge g), (surge g'); cbn in *; try done; lia.
Qed.

(** Nothing is left to be done: the cluster has finished, and is without the
    surge capacity that it was given. *)
Definition settled (g : Stage) : Prop :=
  progress g = Finished /\ (CapacityReservation sp = true -> surge g = NoSurge \/ surge g = Gone).
Lemma evolves_settled g g' : evolves g g' -> settled g -> settled g'.
Proof.
  intros He [Hf Hs]. split; [by eapply evolves_finished|]. intros Hc. destruct He as (_ & Hr & Hn).
  unfold commenced in Hn. rewrite Hf in Hn. destruct (Hs Hc) as [E|E]; [left; auto|right]. rewrite E in Hr.
  destruct (surge g'); cbn in Hr; try done; lia.
Qed.

(** From any state that [s] evolves to, [p] returns with a result of [Q]. *)
Definition sure {A} (s : Sys) (p : M A) (Q : A -> Prop) : Prop :=
  forall s1, keeps s s1 -> must healthy p s1 (fun a s2 => keeps s s2 /\ Q a).

Lemma sure_ret {A} s (a : A) (Q : A -> Prop) : Q a -> sure s (mret a) Q.
Proof. intros H s1 H1. by split. Qed.

Lemma sure_bind {A B} s (p : M A) (f : A -> M B) P Q :
  sure s p P -> (forall a, P a -> sure s (f a) Q) -> sure s (p ≫= f) Q.
Proof.
  intros Hp Hf s1 H1. apply must_bind. eapply must_mono; [exact (Hp s1 H1)|].
  intros a s2 [H2 Ha]. exact (Hf a Ha s2 H2).
Qed.

Lemma sure_bindr {A B} s (p : M (result A)) (f : A -> M (result B)) P Q :
  sure s p (fun r => exists a, r = Ok a /\ P a) -> (forall a, P a -> sure s (f a) Q) -> sure s (bindr p f) Q.
Proof. intros Hp Hf. eapply sure_bind; [exact Hp|]. intros r (a & -> & Ha). by apply Hf. Qed.

(** Programs of which only the end is of interest. *)
Lemma safe_bind {A B} s (p : M A) (f : A -> M B) :
  sure s p (fun _ => True) -> (forall a, sure s (f a) (fun _ => True)) -> sure s (p ≫= f) (fun _ => True).
Proof. intros Hp Hf. eapply sure_bind; [exact Hp|]. intros a _. apply Hf. Qed.
Lemma safe_bindr {A B} s (p : M (result A)) (f : A -> M (result B)) :
  sure s p (fun _ => True) -> (forall a, sure s (f a) (fun _ => True)) -> sure s (bindr p f) (fun _ => True).
Proof. intros Hp Hf. apply safe_bind; [exact Hp|]. intros [a|e]; [apply Hf|by apply sure_ret]. Qed.

Lemma sure_mono {A} s (p : M A) (P Q : A -> Prop) : sure s p P -> (forall a, P a -> Q a) -> sure s p Q.
Proof. intros Hp HQ s1 H1. eapply must_mono; [exact (Hp s1 H1)|]. intros a s2 [H2 Ha]. auto. Qed.

Lemma sure_and {A} s (p : M A) (P Q : A -> Prop) : sure s p P -> sure s p Q -> sure s p (fun a => P a /\ Q a).
Proof.
  intros HP HQ s1 H1. specialize (HP s1 H1). specialize (HQ s1 H1). clear H1. revert s1 HP HQ.
  induction p as [a|m|X e k IH]; intros s1; cbn; [tauto|done|]. intros HP HQ x s2 Hx. by apply IH; [apply HP|apply HQ].
Qed.

(** A sure program before one that moves the cluster. *)
Lemma must_sure {A B} s (p : M A) (f : A -> M B) P Q :
  sure s p P -> (forall a s', keeps s s' -> P a -> must healthy (f a) s' Q) -> must healthy (p ≫= f) s Q.
Proof.
  intros Hp Hf. apply must_bind. eapply must_mono; [exact (Hp s (keeps_refl s))|]. intros a s' [H1 H2]. auto.
Qed.

(** ** Requests *)

Lemma calm_keeps X (e : Eff X) s x s' : calm X e -> healthy X e s x s' -> keeps s s'.
Proof.
  intros He [Hs [Hd [[Hc _]|[_ Hm]]]]; [by destruct e|].
  split; [by destruct e; cbn in Hs, He; try done; destruct Hs|]. apply drifts_evolves; [by destruct e|done].
Qed.

(** MachineSets are created before the patch and deleted after it. *)
Lemma create_keeps s ms x s' :
  progress (stage s) = Idle -> healthy _ (CreateMachineSet ms) s x s' ->
  keeps s s' /\ is_ok x = true /\ surge (stage s') <> NoSurge.
Proof.
  intros Hi [[Ha Hs] [Hd [[Hc _]|[_ Hm]]]]; [done|]. cbn in Ha, Hd.
  assert (surge (stage s') <> NoSurge /\ rank (surge (stage s)) <= rank (surge (stage s')) /\
    razed (surge (stage s')) = razed (surge (stage s))) as (H1 & H2 & H3).
  { destruct (surge (stage s)) eqn:E; [by destruct Hd as [->| ->]; cbn; split_and!; try lia|..];
      (pose proof (drifts_rank _ _ Hd) as (H1 & H2 & _); cbn in H1; split_and!; [|done|done]); intros H; rewrite H in H1; cbn in H1; lia. }
  split_and!; [split; [done|]|done|done]. split_and!; [done|done|]. unfold commenced. by rewrite Hi.
Qed.
Lemma delete_keeps s ms x s' :
  commenced (stage s) = true -> healthy _ (DeleteMachineSet ms) s x s' ->
  keeps s s' /\ is_ok x = true /\ lowered (surge (stage s')).
Proof.
  intros Hi [[Ha Hs] [Hd [[Hc _]|[_ Hm]]]]; [done|]. cbn in Ha, Hd.
  assert (lowered (surge (stage s')) /\ rank (surge (stage s)) <= rank (surge (stage s')) /\
    (surge (stage s) = NoSurge -> surge (stage s') = NoSurge)) as (H1 & H2 & H3).
  { unfold lowered. destruct (surge (stage s)) eqn:E.
    2,3: by destruct Hd as [->| ->]; (split_and!; [by right|cbn; lia|done]).
    all: pose proof (drifts_rank _ _ Hd) as (H1 & H2 & H3); split_and!; auto. }
  split_and!; [split; [done|]|done|done]. split_and!; [done|done|]. by rewrite Hi.
Qed.

(** A request that the store does not answer. *)
Lemma sure_call {X} s (e : Eff X) (Q : X -> Prop) :
  calm X e -> storeAnswers e (stored s) = None ->
  (forall g x, evolves (stage s) g -> answers g X e x -> Q x) -> sure s (call e) Q.
Proof.
  intros He Hn HQ s1 H1 x s2 Hx. pose proof (calm_keeps _ _ _ _ _ He Hx) as H2.
  pose proof (keeps_trans _ _ _ H1 H2) as H3. split; [done|]. destruct Hx as [Hx _].
  rewrite (proj1 H1), Hn in Hx. exact (HQ _ _ (proj2 H3) (proj1 Hx)).
Qed.

Lemma sure_GetUpgradeConfig s n ns' uc :
  stored s = Some uc -> sure s (call (GetUpgradeConfig n ns')) (fun r => r = Ok uc).
Proof.
  intros Hs s1 H1 x s2 Hx. pose proof (calm_keeps _ (GetUpgradeConfig n ns') _ _ _ I Hx) as H2.
  split; [exact (keeps_trans _ _ _ H1 H2)|]. destruct Hx as [[Hx _] _]. by rewrite (proj1 H1), Hs in Hx.
Qed.

Lemma sure_ListUpgradeConfigs s n ns' uc :
  stored s = Some uc -> sure s (call (ListUpgradeConfigs n ns')) (fun r => r = Ok [uc]).
Proof.
  intros Hs s1 H1 x s2 Hx. pose proof (calm_keeps _ (ListUpgradeConfigs n ns') _ _ _ I Hx) as H2.
  split; [exact (keeps_trans _ _ _ H1 H2)|]. destruct Hx as [[Hx _] _]. by rewrite (proj1 H1), Hs in Hx.
Qed.

(** A status update on a cluster that has the resource. *)
Lemma must_StatusUpdate {B} s w (f : result UpgradeConfig -> M B) Q :
  is_Some (stored s) -> (forall s', stored s' = Some w -> evolves (stage s) (stage s') -> must healthy (f (Ok w)) s' Q) ->
  must healthy (call (StatusUpdate w) ≫= f) s Q.
Proof.
  intros [uc Hs] Hf. apply must_bind. cbn [must call]. intros x s' [Hx [Hd [(Hm & _)|[_ Hm]]]]; [done|].
  cbn in Hx. rewrite Hs in Hx. destruct Hx as [-> Hx]. apply Hf; [done|]. by apply drifts_evolves.
Qed.

(** A program without writes, of which nothing needs to be known. *)
Lemma sure_quiet {A} s (p : M A) : no_panic p -> all_ev calm p -> sure s p (fun _ => True).
Proof.
  intros Hn Hq s1 H1. revert s1 H1 Hn Hq. induction p as [a|m|X e k IH]; intros s1 H1; cbn; [done|done|].
  intros Hn [He Hk] x s2 Hx. apply IH; [|done|done]. exact (keeps_trans _ _ _ H1 (calm_keeps _ _ _ _ _ He Hx)).
Qed.

(** What the executions of such a program have in common. *)
Lemma sure_exec {A} s (p : M A) (Q : A -> Prop) :
  no_panic p -> all_ev calm p ->
  (forall tr a, exec p tr (Done a) ->
     Forall (fun ob : obs Eff => exists g st, evolves (stage s) g /\
       (storeAnswers (ob_event ob) st = None -> answers g _ (ob_event ob) (ob_resp ob))) tr -> Q a) ->
  sure s p Q.
Proof.
  intros Hn Hq HQ s1 H1. revert s1 H1 Hn Hq HQ. induction p as [a|m|X e k IH]; intros s1 H1; cbn; [|done|].
  - intros _ _ HQ. split; [done|]. by apply (HQ []).
  - intros Hn [He Hk] HQ x s2 Hx. pose proof (keeps_trans _ _ _ H1 (calm_keeps _ _ _ _ _ He Hx)) as H2.
    apply IH; [done|done|done|]. intros tr a Hex Hf. apply (HQ (Obs e x :: tr)); [by exists x, tr|].
    constructor; [|done]. exists (stage s2), (stored s1). split; [by destruct H2|]. intros Hst. destruct Hx as [Hx _].
    cbn in Hst. rewrite Hst in Hx. by destruct Hx.
Qed.

Lemma sure_now s : sure s now (fun t => (lo <= t <= hi)%Z).
Proof. apply sure_call; [exact I|done|]. by intros g x _ H. Qed.
Lemma sure_GetOperatorNamespace s : sure s GetOperatorNamespace (fun r => r = Ok ns).
Proof.
  eapply sure_bind; [apply (sure_call s (LookupEnv _) (fun v => v = Some ns)); [exact I|done|by intros g x _ H]|].
  intros v ->. by apply sure_ret.
Qed.
Lemma sure_NewClient s n : sure s (call (NewClient n)) (fun r => r = Ok tt).
Proof. apply sure_call; [exact I|done|]. by intros g x _ H. Qed.
Lemma sure_query s q : sure s (Query q) (fun r => exists rs, r = Ok rs /\ (q = healthCheckQuery (cfg_HealthCheck cfg) -> rs = [])).
Proof. apply sure_call; [exact I|done|]. by intros g x _ H. Qed.

(** An answer of which only the success matters. *)
Lemma sure_ok {A} s (e : Eff (result A)) :
  calm _ e -> storeAnswers e (stored s) = None -> (forall g x, answers g _ e x -> is_ok x = true) ->
  sure s (call e) (fun r => exists a, r = Ok a /\ True).
Proof.
  intros He Hn Ha. apply sure_call; [done|done|]. intros g x _ Hx. specialize (Ha g x Hx). destruct x as [a|]; [|done]. by exists a.
Qed.

(** The ClusterVersion: the stage is known as far as it can be. *)
Record cv_seen (g : Stage) (cv : ClusterVersion) : Prop := {
  seen_commenced uc : Spec uc = sp -> isEqualVersion cv uc = commenced g;
  seen_current : exists r, GetCurrentVersion cv = Ret r;
  seen_upgrade uc : Spec uc = sp -> progress g = Idle -> isUpgrade uc cv;
  seen_listed : progress g = Idle -> (findUpdate cv (desired_Version (Desired sp))).1 = true;
  seen_upgradeable : progress g = Idle ->
    Forall (fun c => ~ (sc_Type c = "Upgradeable" /\ sc_Status c = ConditionFalse)) (cv_Conditions cv);
  seen_service : is_ok (uuid_Parse (cv_ClusterID cv)) = true /\ is_ok (url_Parse (getUpstreamURL cv)) = true;
  seen_completed uc : Spec uc = sp -> progress g = Finished -> HasUpgradeCompleted cv uc = true;
}.

Lemma cv_healthy_seen g g' cv : evolves g g' -> cv_healthy g' cv -> cv_seen g cv.
Proof.
  intros He [H1 H2 H3 H4 H5 H6 H7]. pose proof (evolves_commenced _ _ He) as Hc.
  pose proof (evolves_idle _ _ He) as Hi. pose proof (evolves_finished _ _ He) as Hf. split; auto.
  - intros uc Hs. rewrite <- Hc, <- H1. unfold isEqualVersion. by rewrite Hs.
  - intros uc Hs Hg. specialize (H3 (Hi Hg)). unfold isUpgrade, ucVersionOf in *. by rewrite Hs.
  - intros uc Hs Hg. rewrite <- (H7 (Hf Hg)). unfold HasUpgradeCompleted. by rewrite Hs.
Qed.

Lemma cv_seen_idle g g' cv : progress g = Idle -> progress g' = Idle -> cv_seen g cv -> cv_seen g' cv.
Proof.
  intros Hg Hg' [H1 H2 H3 H4 H5 H6 H7]. split; auto; [|congruence]. intros uc Hs. rewrite (H1 uc Hs). unfold commenced. by rewrite Hg, Hg'.
Qed.

Lemma sure_GetCV s : sure s GetClusterVersion (fun r => exists cv, r = Ok cv /\ cv_seen (stage s) cv).
Proof.
  apply sure_call; [exact I|done|]. intros g x Hg (cv & -> & Hcv). exists cv. split; [done|]. by eapply cv_healthy_seen.
Qed.

Context (Hsp : versionedSpec sp).

Lemma checkUpgradeSource_versioned uc : Spec uc = sp -> checkUpgradeSource uc = Ok UpgradeWithChannelVersion.
Proof.
  destruct Hsp as (Hi & Hc & Hv). intros Hs. unfold checkUpgradeSource. rewrite Hs, Hi.
  apply String.eqb_neq in Hc, Hv. cbn. by rewrite Hc, Hv.
Qed.

Lemma sure_HasUpgradeCommenced s uc :
  Spec uc = sp -> sure s (HasUpgradeCommenced uc) (fun r => exists b, r = Ok b /\ b = commenced (stage s)).
Proof.
  intros Hs. unfold HasUpgradeCommenced. eapply sure_bindr; [apply sure_GetCV|]. intros cv Hcv. apply sure_ret.
  rewrite (checkUpgradeSource_versioned uc Hs), (seen_commenced _ _ Hcv uc Hs). exists (commenced (stage s)).
  split; [|done]. by destruct (commenced (stage s)).
Qed.

(** ** Configuration *)

Lemma sure_Into {C} `{!Yaml C} `{!ConfigValidator C} s target (cf : C) :
  Unmarshal (default "" (cm !! ConfigKey target)) = Ok cf -> IsValid cf = None -> sure s (Into target) (fun r => r = Ok cf).
Proof.
  intros Hu Hval. unfold Into. eapply (sure_bindr _ _ _ (fun m => m = cm)).
  - apply sure_call; [exact I|done|]. intros g x _ H. by exists cm.
  - intros m ->. apply sure_ret. cbn zeta. by rewrite Hu, Hval.
Qed.

Lemma sure_readConfig {C} `{!Yaml C} `{!ConfigValidator C} s (cf : C) :
  Unmarshal (default "" (cm !! ConfigField)) = Ok cf -> IsValid cf = None -> sure s readConfig (fun r => r = Ok cf).
Proof.
  intros Hu Hval. unfold readConfig. eapply (sure_bindr _ _ _ (fun t => ConfigKey t = ConfigField)).
  - unfold NewCMTarget. cbn [tgt_Name tgt_Namespace ConfigKey]. cbn zeta.
    eapply (sure_bindr _ _ _ (fun _ => True)); [eapply sure_mono; [apply sure_GetOperatorNamespace|]; intros r ->; by exists ns|].
    intros n _. apply sure_ret. eexists. split; [reflexivity|]. exact eq_refl.
  - intros t Ht. eapply (sure_bindr _ _ _ (fun c' => c' = cf)).
    + eapply sure_mono; [apply sure_Into; [by rewrite Ht|done]|]. intros r ->. by exists cf.
    + intros c' ->. apply sure_ret. by rewrite Hval.
Qed.

(** ** The gauges *)

Lemma sure_gauge s m vs v : sure s (setGauge m vs v) (fun _ => True).
Proof. apply sure_quiet; [by intros []|split; [exact I|by intros []]]. Qed.
Lemma sure_resetAll s ms : sure s (resetAll ms) (fun _ => True).
Proof. apply sure_quiet; [by induction ms as [|m ms IH]; cbn; [|intros []]|eapply all_ev_impl; [apply reads_calm|apply resetAll_reads]]. Qed.
End Healthy.
