(* ===== verification/ScalerLive.v ===== *)
(** * Surge capacity on a healthy cluster

    The scaler and the node drains in the environment of [Environment]: a
    scale-up of an idle cluster asks for the machines that are missing, and is
    done, or given up, when they are there or late; a scale-down of a commenced
    cluster asks for their removal, and is done when nothing is left. *)

From stdpp Require Import base gmap strings list.
From Stdlib Require Import ZArith Lia.
From S2P Require Import Prelude GoSort GoTime Api Effects Config Interfaces UpgradeSteps ClusterVersion Metrics.
From S2P Require Import SpecProvider UpgradeConfigManager Notifier EventManager Machinery Drain Scaler Maintenance.
From S2P Require Import Availability UpgraderConfig HealthChecks Upgraders UpgradersEvents Validation ControllerCorrect Environment.

Section Scaling.
Context {regexp : Regexp} {semver : Semver} {urlparse : UrlParse} {uuid : UuidParse}.
Context (c : Cluster) (lo hi : Time).
Notation sp := (cl_Spec c).
Notation cfg := (cl_Config c).
Notation sure := (sure c lo hi).
Notation must := (must (healthy c lo hi)).
Notation safe s p := (sure s p (fun _ => True)).

(** The stored UpgradeConfig is the one to reconcile. *)
Definition stores (s : Sys) : Prop := exists uc, stored s = Some uc /\ Spec uc = sp.

(** A notifier that gets through. *)
Definition faithful (n : Notifier) : Prop := forall s st d, stores s -> sure s (NotifyState n st d) (fun e => e = None).

(** Capacity can be reserved: there are worker MachineSets, every set that is
    cloned has the labels that a clone extends, and the patterns of namespaces
    that a drain ignores compile. *)
Record reservable : Prop := {
  res_workers : cl_Workers c <> [];
  res_labels : Forall (fun ms => is_Some (ms_TemplateLabels ms) /\ is_Some (ms_MatchLabels ms)) (cl_Workers c ++ cl_Pooled c);
  res_config : scaleConfig_IsValid (cfg_Scale cfg) = None;
  res_patterns : Forall (fun pat => forall x, is_Some (regexp_match pat x)) (IgnoredNamespacePatterns (cfg_NodeDrain cfg));
}.
Context (Hres : reservable).

Lemma sure_ListMachineSets s sel :
  sure s (call (ListMachineSets sel)) (fun r => exists l, r = Ok l /\
    (sel = workerSets -> l = cl_Workers c) /\ (sel = pooledSets -> l = cl_Pooled c)).
Proof. apply sure_call; [exact I|done|]. intros g x _ (l & -> & Hw & Hp & _). by exists l. Qed.

Lemma sure_CanScale s : sure s CanScale (fun r => r = Ok true).
Proof.
  unfold CanScale. eapply sure_bindr; [apply sure_ListMachineSets|]. intros l [-> _]; [|done].
  apply sure_ret. pose proof (res_workers Hres). by destruct (cl_Workers c).
Qed.

(** ** Scaling up *)

Lemma matchedSets_from patterns sets matched out (P : MachineSet -> Prop) :
  Forall P sets -> Forall P matched -> matchedSets patterns sets matched = Ok out -> Forall P out.
Proof.
  revert matched. induction sets as [|ms sets IH]; intros matched Hs Hm; cbn [matchedSets]; [by intros [= <-]|].
  apply Forall_cons in Hs as [Hms Hs]. destruct (String.eqb _ "worker"); [by apply IH|].
  destruct (matchesPools patterns (poolOf ms)) as [[|]|]; [|by apply IH|done]. apply IH; [done|]. apply Forall_app_2; [done|by constructor].
Qed.

(** The sets that are cloned: the workers, and some of the others. *)
Lemma sure_originalSets s pools :
  sure s (originalSets pools) (fun l => exists l', l = cl_Workers c ++ l' /\
    Forall (fun ms => is_Some (ms_TemplateLabels ms) /\ is_Some (ms_MatchLabels ms)) l).
Proof.
  pose proof (proj1 (Forall_app _ _ _) (res_labels Hres)) as [Hw Hp]. unfold originalSets.
  eapply sure_bind; [apply sure_ListMachineSets|]. intros r (l & -> & Hl & _). rewrite (Hl eq_refl). cbn zeta.
  destruct (Nat.ltb _ _); [|apply sure_ret; exists []; by rewrite app_nil_r].
  eapply sure_bind.
  - unfold listMachineSetsByPoolPatterns. eapply sure_bind; [apply sure_ListMachineSets|]. intros r (l' & -> & _ & Hl').
    rewrite (Hl' eq_refl). by apply (sure_ret _ _ _ _ _ (fun r => r = matchedSets pools (cl_Pooled c) [])).
  - intros r ->. apply sure_ret. eexists. split; [done|]. apply Forall_app_2; [done|].
    destruct (matchedSets _ _ _) eqn:E; [|done]. exact (matchedSets_from _ _ _ _ _ Hp (Forall_nil_2 _) E).
Qed.

Lemma upgradeClone_ret ms :
  is_Some (ms_TemplateLabels ms) -> is_Some (ms_MatchLabels ms) -> exists newMs, upgradeClone ms = mret newMs.
Proof. intros [tl Ht] [ml Hm]. unfold upgradeClone, setKey. rewrite Ht, Hm. by eexists. Qed.

(** Without surge capacity every set is cloned. *)
Lemma extraMachineSetCreated_surges s l :
  progress (stage s) = Idle -> Forall (fun ms => is_Some (ms_TemplateLabels ms) /\ is_Some (ms_MatchLabels ms)) l ->
  must (extraMachineSetCreated l []) s (fun r s' => r = Ok true /\ keeps s s' /\ (l <> [] -> surge (stage s') <> NoSurge)).
Proof.
  intros Hi Hl. revert s Hi. induction Hl as [|ms l [Ht Hm] _ IH]; intros s Hi; cbn [extraMachineSetCreated].
  { split_and!; [done|apply keeps_refl|done]. }
  cbn [hasClone existsb]. destruct (upgradeClone_ret ms Ht Hm) as [newMs ->]. cbn [mbind prog_mbind prog_bind mret prog_ret].
  apply must_bind. intros x s1 Hx. destruct (create_keeps _ _ _ _ _ _ _ Hi Hx) as (Hk & Hok & Hs). destruct x as [[]|]; [|done].
  cbn [Environment.must]. eapply must_mono; [apply IH; by eapply keeps_idle|]. intros r s2 (-> & Hk2 & _).
  split_and!; [done|by eapply keeps_trans|]. intros _. eapply evolves_surged; [apply Hk2|done].
Qed.

(** The waiting machines are ready, or late, or have to be waited for. *)
Lemma sure_nodesAreReady s timeOut l :
  (progress (stage s) = Idle -> surge (stage s) = Risen -> Forall (fun ms => ms_Replicas ms = ms_ReadyReplicas ms) l) ->
  sure s (nodesAreReady timeOut l) (fun r => r = Ok true \/ (exists e, r = Err e /\ IsScaleTimeOutError e = true) \/
    r = Ok false /\ (progress (stage s) = Idle -> surge (stage s) <> Risen)).
Proof.
  assert (forall t0 (m : string) (Q : result bool -> Prop), Q (Ok false) -> Q (Err (NewScaleTimeOutError m)) -> sure s (t ← now;
    if After t (TimeAdd t0 timeOut) then mret (Err (NewScaleTimeOutError m)) else mret (Ok false)) Q) as Hlate.
  { intros t0 m Q H1 H2. eapply sure_bind; [apply sure_now|]. intros t _. destruct (After _ _); by apply sure_ret. }
  induction l as [|ms l IH]; intros Hl; cbn [nodesAreReady]; [apply sure_ret; by left|]. cbn zeta.
  destruct (Z.eqb_spec (ms_Replicas ms) (ms_ReadyReplicas ms)) as [He|He]; cbn [negb].
  2: { apply Hlate; [|right; left; by eexists]. right. right. split; [done|]. intros Hi Hr.
       by specialize (Hl Hi Hr) as [? _]%Forall_cons. }
  eapply (sure_bindr _ _ _ _ _ _ (fun ms => (length ms = 1 -> Forall (fun m => is_Some (NodeRef m)) ms) /\
    (progress (stage s) = Idle -> surge (stage s) = Risen -> length ms = 1))).
  { apply sure_call; [exact I|done|]. intros g x Hg (machines & -> & _ & _ & Hm). exists machines.
    destruct (Hm _ eq_refl) as [H1 H2]. split_and!; [done|done|]. intros Hi Hr.
    apply H2; [by eapply evolves_idle|by eapply evolves_risen]. }
  intros machines [Href Hlen]. destruct machines as [|m [|m' machines]]; [|clear Hlen|].
  1,3: apply sure_ret; right; right; split; [done|]; intros Hi Hr; by specialize (Hlen Hi Hr).
  specialize (Href eq_refl) as [[nodeRef ->] _]%Forall_cons. cbn [deref mbind prog_mbind prog_bind].
  eapply (sure_bindr _ _ _ _ _ _ (fun n => progress (stage s) = Idle -> surge (stage s) = Risen -> nodeIsReady n = true)).
  { apply sure_call; [exact I|done|]. intros g x Hg (n & -> & Hn). exists n. split; [done|]. intros Hi Hr.
    apply Hn; [by eapply evolves_idle|by eapply evolves_risen]. }
  intros n Hn. destruct (nodeIsReady n).
  - apply IH. intros Hi Hr. by specialize (Hl Hi Hr) as [_ ?]%Forall_cons.
  - apply Hlate; [|right; left; by eexists]. right. right. split; [done|]. intros Hi Hr. by specialize (Hn Hi Hr).
Qed.

(** What a scale-up of an idle cluster comes to. *)
Lemma EnsureScaleUpNodes_must s timeOut pools :
  progress (stage s) = Idle -> razed (surge (stage s)) = false ->
  must (EnsureScaleUpNodes timeOut pools) s (fun r s' => keeps s s' /\
    (r = Ok true \/ (exists e, r = Err e /\ IsScaleTimeOutError e = true) \/
     r = Ok false /\ surge (stage s) <> Risen /\ surge (stage s') <> NoSurge)).
Proof.
  intros Hi Hz. unfold EnsureScaleUpNodes. apply must_bind. intros x s1 Hx.
  pose proof (calm_keeps c lo hi _ (ListMachineSets upgradeSets) _ _ _ I Hx) as Hk1.
  destruct Hx as [[(l & -> & _ & _ & Hl) _] _]. specialize (Hl eq_refl). cbn [Environment.must].
  pose proof (keeps_idle _ _ Hk1 Hi) as Hi1. assert (razed (surge (stage s1)) = false) as Hz1.
  { destruct Hk1 as [_ (_ & _ & Hk1)]. apply idle_commenced in Hi. rewrite Hi in Hk1. by rewrite Hk1. }
  eapply must_sure; [apply sure_originalSets|]. intros os s2 Hk2 (rest & -> & Hlab).
  pose proof (res_workers Hres) as Hne. destruct (cl_Workers c) as [|w ws] eqn:Hw; [done|]. cbn [length app Nat.eqb].
  pose proof (keeps_trans _ _ _ Hk1 Hk2) as Hk12. pose proof (keeps_idle _ _ Hk2 Hi1) as Hi2.
  apply must_bind. assert (surge (stage s1) <> NoSurge -> hasClone l w = true ->
    must (extraMachineSetCreated (w :: ws ++ rest) l) s2 (fun r s3 => must (match r with
      | Ok created => if (created : bool) then mret (Ok false) else nodesAreReady timeOut l
      | Err e => mret (Err e) end) s3 (fun r s' => keeps s s' /\ (r = Ok true \/ (exists e, r = Err e /\ IsScaleTimeOutError e = true) \/
        r = Ok false /\ surge (stage s) <> Risen /\ surge (stage s') <> NoSurge)))) as Hwait.
  { intros Hs1 Hcl. cbn [extraMachineSetCreated]. rewrite Hcl. cbn [Environment.must mret prog_ret].
    eapply must_mono; [apply (sure_nodesAreReady s1 timeOut l); [|exact Hk2]|].
    - intros _ Hr. rewrite Hr in Hl. by destruct Hl as (_ & _ & Hl); apply Hl.
    - intros r s3 [Hk3 Hr]. split; [exact (keeps_trans _ _ _ Hk1 Hk3)|]. destruct Hr as [->|[He|[-> Hr]]]; auto. right. right.
      split_and!; [done| |by eapply evolves_surged; [apply Hk3|]].
      intros Hs. apply (Hr Hi1). by eapply evolves_risen; [apply Hk1|..]. }
  destruct (surge (stage s1)) eqn:Hs1; cbn in Hz1; try done; cbn [surgeSets] in Hl.
  - subst l. eapply must_mono; [apply extraMachineSetCreated_surges; [exact Hi2|exact Hlab]|]. intros r s3 (-> & Hk3 & Hs3). cbn [Environment.must].
    split; [exact (keeps_trans _ _ _ Hk12 Hk3)|]. right. right. split_and!; [done| |auto].
    intros Hr. pose proof (evolves_risen _ _ (proj2 Hk1) Hi Hr). congruence.
  - apply Hwait; [done|]. rewrite Hw in Hl. by destruct Hl as (_ & Hcl & _).
  - apply Hwait; [done|]. rewrite Hw in Hl. by destruct Hl as (_ & Hcl & _).
Qed.

(** ** Drains *)

(** A filter that never panics. *)
Definition total (f : PodPredicate) : Prop := forall p, is_Some (f p).

Lemma FilterPods_total filters pods : Forall total filters -> is_Some (FilterPods pods filters).
Proof.
  intros Hf. induction pods as [|p pods [out IH]]; cbn [FilterPods]; [by eexists|].
  assert (is_Some (matchAll filters p)) as [b ->].
  { clear IH. induction Hf as [|f fs Hf _ IH]; cbn [matchAll]; [by eexists|]. destruct (Hf p) as [[|] ->]; [done|by eexists]. }
  rewrite IH. by eexists.
Qed.

Lemma isAllowedNamespace_total : total (isAllowedNamespace (IgnoredNamespacePatterns (cfg_NodeDrain cfg))).
Proof.
  intros p. unfold isAllowedNamespace. pose proof (res_patterns Hres) as H.
  induction H as [|pat pats Hp _ IH]; cbn [containsIgnoredNamespace]; [by eexists|].
  destruct (Hp (pod_Namespace p)) as [[|] ->]; [by eexists|done].
Qed.

Lemma safe_quiet {A} s (p : M A) : no_panic p -> all_ev calm p -> safe s p.
Proof. apply sure_quiet. Qed.

Lemma safe_GetPodList s node filters : Forall total filters -> safe s (GetPodList node filters).
Proof.
  intros Hf. apply safe_bindr; [by apply sure_call|]. intros pods.
  destruct (FilterPods_total filters pods Hf) as [out ->]. by apply sure_ret.
Qed.

Lemma safe_DeletePods s pl ign g : safe s (DeletePods pl ign g).
Proof.
  apply safe_bind; [|intros []; by apply sure_ret]. apply safe_quiet; [|apply deletePodsLoop_calm].
  assert (forall me m, no_panic (deletePodsLoop pl ign g me m)) as H; [|apply H].
  induction pl as [|p pl IH]; intros me m; cbn [deletePodsLoop]; [exact I|]. destruct (_ || _); [|apply IH]. intros []; apply IH.
Qed.
Lemma safe_RemoveFinalizersFromPod s pl : safe s (RemoveFinalizersFromPod pl).
Proof.
  apply safe_bind; [|intros []; by apply sure_ret]. apply safe_quiet; [|apply removeFinalizersLoop_calm].
  assert (forall me m, no_panic (removeFinalizersLoop pl me m)) as H; [|apply H].
  induction pl as [|p pl IH]; intros me m; cbn [removeFinalizersLoop]; [exact I|]. destruct (negb _); [|apply IH]. intros []; apply IH.
Qed.

(** A strategy that always returns. *)
Definition mild (tds : timedStrategy) : Prop := forall s node,
  safe s (strategy_Execute (GetStrategy tds) node) /\ safe s (strategy_IsValid (GetStrategy tds) node).

Lemma timedStrategies_mild uc pdbs : Forall mild (timedStrategies uc (cfg_NodeDrain cfg) pdbs).
Proof.
  pose proof isAllowedNamespace_total as Ha.
  assert (forall f, total f -> forall node, Forall total ([isOnNode node] ++ [isNotDaemonSet] ++ [f; isAllowedNamespace (IgnoredNamespacePatterns (cfg_NodeDrain cfg))]) /\
    Forall total ([isOnNode node; hasFinalizers] ++ [isNotDaemonSet] ++ [f; isAllowedNamespace (IgnoredNamespacePatterns (cfg_NodeDrain cfg))]) /\
    Forall total ([isOnNode node; hasNoFinalizers; isTerminating] ++ [isNotDaemonSet] ++ [f; isAllowedNamespace (IgnoredNamespacePatterns (cfg_NodeDrain cfg))])) as Hf.
  { intros f Hf node. cbn [app]. split_and!; repeat apply Forall_cons_2; try apply Forall_nil_2; try done; intros p; by eexists. }
  assert (total (isNotPdbPod pdbs) /\ total (isPdbPod pdbs)) as [Hn Hp] by (split; intros p; by eexists).
  unfold timedStrategies. cbn zeta. repeat apply Forall_cons_2; try apply Forall_nil_2; intros s node;
    cbn [GetStrategy strategy_Execute strategy_IsValid podDeletionStrategy removeFinalizersStrategy stuckTerminatingStrategy];
    (split; [apply safe_bindr; [by apply safe_GetPodList, Hf|intros pods]|
      apply safe_bindr; [by apply safe_GetPodList, Hf|intros pods; by apply sure_ret]]);
    (apply safe_bind; [first [apply safe_DeletePods|apply safe_RemoveFinalizersFromPod]|intros [res err]; by apply sure_ret]).
Qed.

(** A drain of the configured kind, whose notifications get through. *)
Definition gentle (ds : osdDrainStrategy) : Prop := faithful (ds_notifier ds) /\ Forall mild (timedDrainStrategies ds).

Lemma safe_isAfter s t d : safe s (isAfter t d).
Proof. apply safe_quiet; [apply isAfter_no_panic|apply isAfter_calm]. Qed.

Lemma safe_notifyDrainDelay s uc n : stores s -> faithful n -> safe s (notifyDrainDelay uc n).
Proof.
  intros Hs Hn. unfold notifyDrainDelay, IsMetricNotificationEventSentSet. apply safe_bind.
  - apply safe_bindr; [by apply sure_call|intros rs; by apply sure_ret].
  - intros [[|]|e]; [by apply sure_ret| |by apply sure_ret]. eapply sure_bind; [by apply Hn|]. intros e ->.
    apply safe_bind; [apply sure_gauge|intros _; by apply sure_ret].
Qed.

Lemma safe_drain s ds node : stores s -> gentle ds -> safe s (drain_Execute ds node) /\ safe s (drain_HasFailed ds node).
Proof.
  intros Hs [Hn Hm]. split.
  - unfold drain_Execute. cbn zeta. destruct (IsCordoned _); [|by apply sure_ret]. destruct (AddedAt _) as [a|]; [|by apply sure_ret].
    generalize (@nil ExecutedStrategy). induction Hm as [|tds ss Ht _ IH]; intros res; cbn [executeStrategies]; [by apply sure_ret|].
    cbn zeta. apply safe_bind; [apply safe_isAfter|]. intros [|]; [|apply IH].
    apply safe_bindr; [apply Ht|]. intros r. destruct (HasExecuted r); [|apply IH].
    apply safe_bindr; [|intros _; apply IH]. destruct (String.eqb _ _); [by apply safe_notifyDrainDelay|by apply sure_ret].
  - unfold drain_HasFailed. cbn zeta. destruct (AddedAt _) as [a|]; [|by apply sure_ret].
    assert (forall t d, safe s (b ← isAfter t d; mret (@Ok bool b))) as Hd.
    { intros t d. apply safe_bind; [apply safe_isAfter|intros b; by apply sure_ret]. }
    destruct (Nat.eqb _ _); [apply Hd|]. apply safe_bind.
    { apply safe_quiet; [|apply executedOf_calm]. generalize (sortDuration (timedDrainStrategies ds)). intros ss.
      induction ss as [|x ss IH]; cbn [executedOf]; [exact I|]. apply no_panic_bind; [apply isAfter_no_panic|intros b].
      apply no_panic_bind; [exact IH|by intros]. }
    intros ex. apply safe_bindr.
    + assert (Forall mild (drop (length ex) (sortDuration (timedDrainStrategies ds)))) as Hv.
      { apply Forall_drop. apply Forall_forall. intros x Hx. apply (proj1 (Forall_forall _ _) Hm).
        rewrite list_elem_of_In in *. eapply Permutation_in; [apply insertionSort_perm|exact Hx]. }
      induction Hv as [|tds ss Ht _ IH]; cbn [validOf]; [by apply sure_ret|]. apply safe_bindr; [apply Ht|]. intros b.
      apply safe_bindr; [exact IH|]. intros l. by apply sure_ret.
    + intros l. destruct (Nat.ltb _ _); [by apply sure_ret|]. destruct (last ex); [|apply Hd].
      destruct (_ <? _)%Z; apply Hd.
Qed.

Lemma safe_handleDrainStrategy s ds nodes : stores s -> gentle ds -> safe s (handleDrainStrategy ds nodes).
Proof.
  intros Hs Hg. apply safe_bindr; [|intros _]; induction nodes as [|n nodes IH]; cbn [executeAll noneFailed]; try by apply sure_ret.
  - apply safe_bindr; [by apply safe_drain|intros _; exact IH].
  - apply safe_bindr; [by apply safe_drain|intros [|]; [by apply sure_ret|exact IH]].
Qed.

Context (builder : M (result Notifier)) (Hbuilder : forall s, sure s builder (fun r => exists n, r = Ok n /\ faithful n)).

Lemma sure_NewNodeDrainStrategy s uc :
  sure s (NewNodeDrainStrategy builder uc (cfg_NodeDrain cfg)) (fun r => exists ds, r = Ok ds /\ gentle ds).
Proof.
  unfold NewNodeDrainStrategy. eapply (sure_bind _ _ _ _ _ _ (fun r => exists pdbs, r = Ok pdbs)).
  { apply sure_call; [exact I|done|]. intros g x _ (pdbs & -> & _). by exists pdbs. }
  intros r (pdbs & ->). eapply (sure_bindr _ _ _ _ _ _ (fun _ => True)); [apply sure_ret; by eexists|]. intros l _.
  eapply sure_bindr; [apply Hbuilder|]. intros n Hn.
  eapply (sure_bindr _ _ _ _ _ _ (fun _ => True)); [eapply sure_mono; [apply sure_NewClient|]; intros r ->; by eexists|]. intros _ _.
  apply sure_ret. eexists. split; [done|]. split; [exact Hn|apply timedStrategies_mild].
Qed.

(** ** Scaling down *)

Context (Hcap : CapacityReservation sp = true).

(** A settled cluster has no surge capacity. *)
Lemma sure_surgeMachines s :
  sure s (call (ListMachines upgradeSets)) (fun r => exists ms, r = Ok ms /\ Forall (fun m => is_Some (machine_Phase m)) ms /\
    (settled c (stage s) -> ms = [])).
Proof.
  apply sure_call; [exact I|done|]. intros g x Hg (ms & -> & Hph & Hm & _). exists ms. split_and!; [done|done|].
  intros Hs. apply Hm; [done|]. by apply (evolves_settled _ _ _ Hg Hs).
Qed.

Lemma sure_extraNodesOf s ms nodes extra :
  Forall (fun m => is_Some (machine_Phase m)) ms -> sure s (extraNodesOf ms nodes extra) (fun r => ms = [] -> r = Ok extra).
Proof.
  intros Hph. revert extra. induction Hph as [|m ms [ph Hp] _ IH]; intros extra; cbn [extraNodesOf]; [by apply sure_ret|].
  rewrite Hp. cbn [deref mbind prog_mbind prog_bind]. eapply (sure_mono _ _ _ _ _ (fun _ => True)); [|done].
  assert (forall extra, safe s (extraNodesOf ms nodes extra)) as Hr by (intros e; eapply sure_mono; [apply IH|done]).
  destruct (_ || _); [|apply Hr]. apply safe_bindr; [by apply sure_ret|intros e; apply Hr].
Qed.

Lemma sure_getExtraUpgradeNodes s : sure s getExtraUpgradeNodes (fun r => settled c (stage s) -> r = Ok []).
Proof.
  unfold getExtraUpgradeNodes. eapply (sure_bindr _ _ _ _ _ _ (fun _ => True)).
  { apply sure_call; [exact I|done|]. intros g x _ (nodes & -> & _). by exists nodes. }
  intros nodes _. eapply sure_bindr; [apply sure_surgeMachines|]. intros ms [Hph Hm].
  eapply sure_mono; [by apply sure_extraNodesOf|]. auto.
Qed.

(** The deletions leave no surge capacity that stays. *)
Lemma deleteSets_lowers l s :
  commenced (stage s) = true ->
  must (deleteSets l) s (fun r s' => r = Ok tt /\ keeps s s' /\
    (lowered (surge (stage s)) \/ l <> [] /\ Forall (fun ms => ms_DeletionTimestamp ms = None) l -> lowered (surge (stage s')))).
Proof.
  revert s. induction l as [|ms l IH]; intros s Hc; cbn [deleteSets].
  { split_and!; [done|apply keeps_refl|]. by intros [?|[? _]]. }
  destruct (ms_DeletionTimestamp ms) eqn:Hd.
  - eapply must_mono; [by apply IH|]. intros r s' (-> & Hk & Hl). split_and!; [done|done|]. intros [Hw|[_ Hf]]; [auto|].
    apply Forall_cons in Hf as [Hf _]. congruence.
  - apply must_bind. intros x s1 Hx. destruct (delete_keeps _ _ _ _ _ _ _ Hc Hx) as (Hk & Hok & Hs). destruct x as [[]|]; [|done].
    cbn [Environment.must]. eapply must_mono; [apply IH; by rewrite (keeps_commenced _ _ Hk)|].
    intros r s2 (-> & Hk2 & Hl). split_and!; [done|by eapply keeps_trans|auto].
Qed.

(** A scale-down of a commenced cluster. *)
Lemma EnsureScaleDownNodes_must s ds :
  stores s -> gentle ds -> commenced (stage s) = true ->
  must (EnsureScaleDownNodes (Some ds)) s (fun r s' => keeps s s' /\ lowered (surge (stage s')) /\
    (settled c (stage s) -> r = Ok true)).
Proof.
  intros Hst Hds Hc. unfold EnsureScaleDownNodes. apply must_bind. intros x s1 Hx.
  pose proof (calm_keeps c lo hi _ (ListMachineSets upgradeSets) _ _ _ I Hx) as Hk1.
  destruct Hx as [[(l & -> & _ & _ & Hl) _] _]. specialize (Hl eq_refl). cbn [Environment.must].
  assert (commenced (stage s1) = true) as Hc1 by by rewrite (keeps_commenced _ _ Hk1).
  apply must_bind. eapply must_mono; [by apply deleteSets_lowers|]. intros r s2 (-> & Hk2 & Hlow). cbn [Environment.must].
  assert (lowered (surge (stage s2))) as Hlow2.
  { apply Hlow. pose proof (res_workers Hres). unfold lowered. destruct (surge (stage s1)) eqn:E; auto; cbn [surgeSets] in Hl;
      (right; destruct Hl as (Hd & Hcl & _); split; [|done]; intros ->; by destruct (cl_Workers c)). }
  pose proof (keeps_trans _ _ _ Hk1 Hk2) as Hk12.
  assert (forall Q, sure s2 (_ ←? (upgradeNodes ←? getExtraUpgradeNodes; handleDrainStrategy ds upgradeNodes);
    originalMachines ←? call (ListMachines upgradeSets); mret (Ok (Nat.eqb (length originalMachines) 0))) Q -> must
    (_ ←? (upgradeNodes ←? getExtraUpgradeNodes; handleDrainStrategy ds upgradeNodes);
    originalMachines ←? call (ListMachines upgradeSets); mret (Ok (Nat.eqb (length originalMachines) 0))) s2 (fun r s' =>
    keeps s s' /\ lowered (surge (stage s')) /\ Q r)) as Hend.
  { intros Q HQ. eapply must_mono; [exact (HQ s2 (keeps_refl s2))|]. intros r s3 [Hk3 Hr]. split_and!; [exact (keeps_trans _ _ _ Hk12 Hk3)| |done].
    eapply evolves_lowered; [apply Hk3| |done]. by rewrite (keeps_commenced _ _ Hk2). }
  apply Hend. apply (sure_mono _ _ _ _ _ (fun r => settled c (stage s2) -> r = Ok true)).
  2: { intros r Hr Hs. apply Hr. eapply evolves_settled; [apply Hk12|done]. }
  assert (stores s2) as Hst2 by (destruct Hst as (uc & Hu & Hsp); exists uc; by rewrite (proj1 Hk12)).
  eapply (sure_bind _ _ _ _ _ _ (fun r => settled c (stage s2) -> exists b : bool, r = Ok b)).
  - eapply sure_bind; [apply sure_getExtraUpgradeNodes|]. intros [nodes|e] Hn; [|apply sure_ret; intros Hs; by specialize (Hn Hs)].
    destruct nodes as [|n nodes]; [by apply (sure_ret _ _ _ _ (Ok true)); eexists|].
    eapply sure_mono; [by apply safe_handleDrainStrategy|]. intros r _ Hs. by specialize (Hn Hs).
  - intros [b|e] Hb; [|apply sure_ret; intros Hs; by destruct (Hb Hs)]. eapply sure_bindr; [apply sure_surgeMachines|].
    intros ms [_ Hm]. apply sure_ret. intros Hs. by rewrite (Hm Hs).
Qed.
End Scaling.
