(* ===== verification/UpgradersLive.v ===== *)
(** * The upgrade on a healthy cluster

    Every step of the upgraders in the environment of [Environment]: the steps
    before the patch are passed, up to the wait for the surge capacity, the patch
    commences the upgrade, and the steps after it are passed when the cluster has
    finished and its surge capacity is gone.  So [UpgradeCluster] returns without
    a panic, upgrading or upgraded, and upgraded when nothing is left to do. *)

From stdpp Require Import base gmap strings list.
From Stdlib Require Import ZArith Lia.
From S2P Require Import Prelude GoTime Api Effects Config Interfaces UpgradeSteps ClusterVersion Metrics.
From S2P Require Import SpecProvider UpgradeConfigManager Notifier EventManager Machinery Drain Scaler Maintenance.
From S2P Require Import Availability UpgraderConfig HealthChecks Upgraders UpgradersEvents UpgradersCorrect Validation ControllerCorrect Environment ScalerLive.

Section Live.
Context {regexp : Regexp} {semver : Semver} {urlparse : UrlParse} {uuid : UuidParse}.
Context (c : Cluster) (lo hi : Time) (Hsp : versionedSpec (cl_Spec c)).
Notation sp := (cl_Spec c).
Notation cfg := (cl_Config c).
Notation sure := (sure c lo hi).

Notation stores := (stores c).
Notation faithful := (faithful c lo hi).

(** ** Notifications *)

Lemma sure_manager_Get s : stores s -> sure s (manager_Get upgradeConfigManager) (fun r => exists uc, r = Ok uc /\ Spec uc = sp).
Proof.
  intros (uc & Hs & Hspec). cbn [manager_Get upgradeConfigManager]. unfold ucm_Get.
  eapply sure_bind; [apply sure_GetOperatorNamespace|]. intros r ->.
  eapply sure_bind; [by apply sure_GetUpgradeConfig|]. intros r ->. apply sure_ret. by exists uc.
Qed.

Lemma logNotifier_faithful : faithful logNotifier.
Proof. intros s st d _. by apply sure_ret. Qed.

Lemma ocmNotifier_faithful b : faithful (@ocmNotifier upgradeConfigManager (cl_order c) b).
Proof.
  intros s st d Hs. cbn [NotifyState ocmNotifier]. unfold ocmNotifier_NotifyState.
  eapply (sure_bind _ _ _ _ _ _ (fun r => exists cluster, r = Ok cluster)).
  { apply sure_call; [exact I|done|]. intros g x _ (cluster & -> & _). by exists cluster. }
  intros r (cluster & ->). eapply (sure_bind _ _ _ _ _ _ (fun e => e = None)).
  { unfold sendServiceLog. destruct b; [|by apply sure_ret].
    destruct (HasSuffix (toString st) "SL") eqn:Hsl; [|by apply sure_ret].
    assert (is_Some (mapSLState st serviceLogMap)) as [sl ->] by (destruct st; first [by vm_compute in Hsl|by eexists]).
    cbn zeta. eapply sure_bind; [apply sure_ok; [exact I|done|by intros g x H]|]. intros r (u & -> & _). by apply sure_ret. }
  intros e ->. eapply (sure_bind _ _ _ _ _ _ (fun r => exists id, r = Ok id)).
  { unfold getPolicyIdForUpgradeConfig. eapply sure_bindr; [by apply sure_manager_Get|]. intros uc Huc.
    eapply (sure_bindr _ _ _ _ _ _ (fun ps => existsb (policyMatches c) ps.2 = true)).
    - apply sure_call; [exact I|done|]. intros g x _ (n & items & -> & Hm & _). by exists (n, items).
    - intros ps Hps. apply sure_ret. apply existsb_exists in Hps as (p & Hp & Hm).
      destruct (List.find _ ps.2) as [q|] eqn:Hf; [by eexists|]. apply (find_none _ _ Hf) in Hp.
      unfold policyMatches in Hm. unfold ucVersionOf in Hp. rewrite Huc in Hp. congruence. }
  intros r (id & ->). eapply (sure_bind _ _ _ _ _ _ (fun r => exists st, r = Ok st /\ is_Some (currentMuoState (cl_order c) st))).
  { apply sure_call; [exact I|done|]. intros g x _ (cur & -> & Hm & _). by exists cur. }
  intros r (cur & -> & [m ->]). destruct (negb (validateStateTransition m st)); [by apply sure_ret|].
  eapply sure_bind; [apply sure_ok; [exact I|done|by intros g x H]|]. intros r (u & -> & _). by apply sure_ret.
Qed.

Section Steps.
Context (notifier : Notifier) (Hn : faithful notifier).
Definition em : EventManager := @eventManager upgradeConfigManager notifier.

Lemma sure_pendingConfig s st :
  stores s -> sure s (@pendingConfig upgradeConfigManager st) (fun r => r = Ok None \/ exists uc, r = Ok (Some uc)).
Proof.
  intros Hs. unfold pendingConfig. eapply sure_bind; [by apply sure_manager_Get|]. intros r (uc & -> & _).
  unfold IsMetricNotificationEventSentSet.
  eapply (sure_bind _ _ _ _ _ _ (fun r => exists b, r = Ok b)).
  - eapply sure_bindr; [apply sure_query|]. intros rs _. apply sure_ret. by eexists.
  - intros r [[|] ->]; apply sure_ret; [by left|right; by eexists].
Qed.

Lemma sure_Notify s st :
  stores s -> (forall uc, is_Some (notifyDescription st uc)) -> sure s (em_Notify em st) (fun e => e = None).
Proof.
  intros Hs Hd. cbn [em_Notify em eventManager]. unfold Notify.
  eapply sure_bind; [by apply sure_pendingConfig|]. intros r [->|[uc ->]]; [by apply sure_ret|].
  destruct (Hd uc) as [d ->]. eapply sure_bind; [by apply Hn|]. intros e ->.
  eapply sure_bind; [apply sure_gauge|]. intros _ _. eapply sure_bind; [apply sure_gauge|]. intros _ _. by apply sure_ret.
Qed.

Lemma sure_NotifyResult s st r :
  stores s -> (forall uc, is_Some (resultDescription st uc r)) -> sure s (em_NotifyResult em st r) (fun e => e = None).
Proof.
  intros Hs Hd. cbn [em_NotifyResult em eventManager]. unfold NotifyResult.
  eapply sure_bind; [by apply sure_pendingConfig|]. intros x [->|[uc ->]]; [by apply sure_ret|].
  destruct (Hd uc) as [d ->]. eapply sure_bind; [by apply Hn|]. intros e ->.
  eapply sure_bind; [apply sure_gauge|]. intros _ _. by apply sure_ret.
Qed.

(** [okOr] of a notification that gets through. *)
Lemma sure_notified s st :
  stores s -> (forall uc, is_Some (notifyDescription st uc)) ->
  sure s (okOr (em_Notify em st)) (fun r => exists u, r = Ok u /\ True).
Proof.
  intros Hs Hd. eapply sure_bind; [by apply sure_Notify|]. intros e ->. apply sure_ret. by eexists.
Qed.

Lemma sure_GetClusterId s : sure s GetClusterId (fun _ => True).
Proof.
  unfold GetClusterId. eapply sure_bind; [apply sure_GetCV|]. intros r _. by apply sure_ret.
Qed.

(** A clock reading, a gauge. *)
Ltac sure_pass :=
  repeat first [ eapply sure_bind; [apply sure_gauge|]; intros _ _
               | eapply sure_bind; [apply sure_now|]; intros ? ?
               | eapply sure_bind; [apply sure_GetClusterId|]; intros ? _ ].

(** ** Health checks *)

(** The resource in an upgrade: it has the spec and a history. *)
Definition inUpgrade (uc : UpgradeConfig) : Prop := Spec uc = sp /\ is_Some (GetHistory (History uc) (ucVersionOf uc)).

Lemma sure_upgradeState s uc : inUpgrade uc -> sure s (upgradeState uc) (fun _ => True).
Proof. intros [_ [h Hh]]. unfold upgradeState. rewrite Hh. by apply sure_ret. Qed.

Lemma sure_CriticalAlerts s uc v : inUpgrade uc -> sure s (CriticalAlerts cfg uc v) (fun r => r = Ok true).
Proof.
  intros Hu. unfold CriticalAlerts. eapply sure_bind; [by apply sure_upgradeState|]. intros st _.
  eapply sure_bind; [apply sure_query|]. intros r (rs & -> & Hrs). rewrite (Hrs eq_refl). sure_pass. by apply sure_ret.
Qed.

Lemma sure_ClusterOperators s uc v : inUpgrade uc -> sure s (ClusterOperators uc v) (fun r => r = Ok true).
Proof.
  intros Hu. unfold ClusterOperators. eapply sure_bind; [by apply sure_upgradeState|]. intros st _.
  eapply (sure_bind _ _ _ _ _ _ (fun r => r = Ok [])).
  - unfold HasDegradedOperators. eapply (sure_bindr _ _ _ _ _ _ (fun cos => degradedOperators cos = [])).
    + apply sure_call; [exact I|done|]. by intros g x _ H.
    + intros cos Hcos. apply sure_ret. by rewrite Hcos.
  - intros r ->. sure_pass. by apply sure_ret.
Qed.

Lemma sure_ListNodes s l : sure s (call (ListNodes l)) (fun r => exists nodes, r = Ok nodes /\ forallb nodeHealthy nodes = true).
Proof. apply sure_call; [exact I|done|]. by intros g x _ H. Qed.

Lemma healthy_nodes (p : Node -> bool) nodes :
  (forall n, nodeHealthy n = true -> p n = false) -> forallb nodeHealthy nodes = true -> existsb p nodes = false.
Proof.
  intros Hp Hf. apply not_true_is_false. intros (n & Hin & Hpn)%existsb_exists.
  rewrite forallb_forall in Hf. specialize (Hp n (Hf n Hin)). congruence.
Qed.

Lemma sure_ManuallyCordonedNodes s uc v : inUpgrade uc -> sure s (ManuallyCordonedNodes uc v) (fun r => r = ([], None)).
Proof.
  intros Hu. unfold ManuallyCordonedNodes. eapply sure_bind; [by apply sure_upgradeState|]. intros st _.
  eapply sure_bind; [apply sure_ListNodes|]. intros r (nodes & -> & Hf). cbn zeta.
  rewrite (healthy_nodes manuallyCordoned nodes); [|intros n; unfold nodeHealthy; by destruct (manuallyCordoned n)|done].
  sure_pass. by apply sure_ret.
Qed.

Lemma sure_NodeUnschedulableTaints s uc v : inUpgrade uc -> sure s (NodeUnschedulableTaints uc v) (fun r => r = ([], None)).
Proof.
  intros Hu. unfold NodeUnschedulableTaints. eapply sure_bind; [by apply sure_upgradeState|]. intros st _.
  eapply sure_bind; [apply sure_ListNodes|]. intros r (nodes & -> & Hf). cbn zeta.
  rewrite (healthy_nodes _ nodes); [|intros n; unfold nodeHealthy|done].
  - sure_pass. by apply sure_ret.
  - by intros [_ ?%negb_true_iff]%andb_prop.
Qed.

Lemma sure_HealthCheckPDB s uc v : inUpgrade uc -> sure s (HealthCheckPDB true uc v) (fun r => r.2 = Ok true).
Proof.
  intros Hu. unfold HealthCheckPDB. eapply sure_bind; [by apply sure_upgradeState|]. intros st _.
  eapply (sure_bind _ _ _ _ _ _ (fun r => r.2 = None)).
  { unfold checkPodDisruptionBudgets.
    eapply (sure_bind _ _ _ _ _ _ (fun r => exists pdbs, r = Ok pdbs /\ (checkBudgets pdbs).2 = None)).
    - apply sure_call; [exact I|done|]. by intros g x _ H.
    - intros r (pdbs & -> & Hp). apply sure_ret. destruct (checkBudgets pdbs) as [d e]. cbn in Hp. by subst e. }
  intros [d f] Hf. cbn in Hf. subst f. eapply (sure_bind _ _ _ _ _ _ (fun r => r = None)).
  - unfold checkDvoMetrics. cbn [negb].
    eapply sure_bind; [apply (sure_call _ _ _ _ _ (fun r => r = Ok tt)); [exact I|done|by intros g x _ H]|]. intros r ->.
    eapply (sure_bind _ _ _ _ _ _ (fun r => exists m, r = Ok m /\ badPDBExists m = false)).
    + apply sure_call; [exact I|done|]. by intros g x _ H.
    + intros r (m & -> & Hm). rewrite Hm. by apply sure_ret.
  - intros r ->. sure_pass. by apply sure_ret.
Qed.

Lemma sure_getCurrentVersion s : sure s upgraders_getCurrentVersion (fun _ => True).
Proof.
  unfold upgraders_getCurrentVersion. eapply sure_bind; [apply sure_GetCV|]. intros r (cv & -> & Hcv).
  destruct (seen_current _ _ _ Hcv) as [r ->]. by apply sure_ret.
Qed.

(** Capacity can be reserved when it has to be, and a health check has the client
    it needs. *)
Context (Hcap : CapacityReservation sp = true -> reservable c).
Definition checkable (dvo : bool) : Prop := dvo = true \/ IsFeatureEnabled cfg PreHealthCheckFeatureGate = false.

Lemma sure_allHealthChecks s uc v : inUpgrade uc -> sure s (allHealthChecks cfg true uc v) (fun l => l = []).
Proof.
  intros Hu. unfold allHealthChecks. eapply sure_bind; [by apply sure_upgradeState|]. intros st _.
  eapply sure_bind; [by apply sure_CriticalAlerts|]. intros r ->.
  eapply sure_bind; [by apply sure_ClusterOperators|]. intros r ->.
  eapply (sure_bind _ _ _ _ _ _ (fun l => l = [])).
  { unfold capacityFailures. destruct Hu as [-> _]. destruct (CapacityReservation sp) eqn:Hc; [|by apply sure_ret].
    eapply sure_bind; [apply sure_CanScale; auto|]. intros r ->. sure_pass. by apply sure_ret. }
  intros l ->. eapply sure_bind; [by apply sure_ManuallyCordonedNodes|]. intros r ->.
  eapply sure_bind; [by apply sure_NodeUnschedulableTaints|]. intros r ->.
  eapply sure_bind; [by apply sure_HealthCheckPDB|]. intros [d r] Hr. cbn in Hr. subst r. by apply sure_ret.
Qed.

Lemma sure_PreUpgradeHealthCheck s dvo uc :
  checkable dvo -> inUpgrade uc -> sure s (@PreUpgradeHealthCheck em cfg dvo uc) (fun r => r = Ok true).
Proof.
  intros Hd Hu. unfold PreUpgradeHealthCheck. eapply sure_bindr; [apply sure_HasUpgradeCommenced, Hu; exact Hsp|].
  intros b _. destruct b; [by apply sure_ret|]. eapply sure_bind; [apply sure_getCurrentVersion|]. intros v _.
  eapply (sure_bind _ _ _ _ _ _ (fun r => r = Ok true)).
  - destruct (IsFeatureEnabled _ _); cbn [negb]; [by apply sure_ret|].
    eapply (sure_bindr _ _ _ _ _ _ (fun b => b = true)).
    + eapply sure_mono; [by apply sure_CriticalAlerts|]. intros r ->. by exists true.
    + intros b ->. cbn [negb]. by apply sure_ClusterOperators.
  - intros r ->. destruct (IsFeatureEnabled _ _) eqn:Hf; [|by apply sure_ret].
    destruct Hd as [->|Hd]; [|congruence]. eapply sure_bind; [by apply sure_allHealthChecks|]. intros l ->. by apply sure_ret.
Qed.

Lemma sure_PostUpgradeHealthCheck s uc : inUpgrade uc -> sure s (PostUpgradeHealthCheck cfg uc) (fun r => r = Ok true).
Proof.
  intros Hu. unfold PostUpgradeHealthCheck. eapply sure_bind; [apply sure_getCurrentVersion|]. intros v _.
  eapply (sure_bindr _ _ _ _ _ _ (fun b => b = true)).
  { eapply sure_mono; [by apply sure_CriticalAlerts|]. intros r ->. by exists true. }
  intros b ->. cbn [negb]. eapply (sure_bindr _ _ _ _ _ _ (fun b => b = true)).
  { eapply sure_mono; [by apply sure_ClusterOperators|]. intros r ->. by exists true. }
  intros b ->. cbn [negb]. eapply sure_bind; [apply sure_quiet; [by intros []|split; [exact I|by intros []]]|].
  intros _ _. by apply sure_ret.
Qed.

(** ** Maintenance windows *)

Lemma sure_Filter s ps : sure s (Filter ps) (fun r => exists l, r = Ok l /\ True).
Proof.
  unfold Filter. eapply sure_bindr; [apply sure_ok; [exact I|done|by intros g x H]|]. intros l _. apply sure_ret. by eexists.
Qed.
Lemma sure_post s ms a b cr cm : sure s (call (AmPostSilence ms a b cr cm)) (fun r => exists u, r = Ok u /\ True).
Proof. apply sure_ok; [exact I|done|by intros g x H]. Qed.

Lemma sure_StartControlPlane s e v ign : sure s (StartControlPlane e v ign) (fun r => exists u, r = Ok u /\ True).
Proof.
  unfold StartControlPlane. eapply sure_bindr; [apply sure_Filter|]. intros l _. cbn zeta.
  eapply sure_bindr; [apply sure_Filter|]. intros l' _. cbn zeta.
  destruct (_ && _); [apply sure_ret; by eexists|]. sure_pass.
  eapply (sure_bindr _ _ _ _ _ _ (fun _ => True)).
  - destruct (negb _); [apply sure_post|apply sure_ret; by eexists].
  - intros u _. destruct (_ && _); [apply sure_post|apply sure_ret; by eexists].
Qed.

Lemma sure_SetWorker s e v n : sure s (SetWorker e v n) (fun r => exists u, r = Ok u /\ True).
Proof.
  unfold SetWorker. cbn zeta. eapply sure_bindr; [apply sure_Filter|]. intros l _.
  destruct (exists_ l); [apply sure_ret; by eexists|]. eapply sure_bindr; [apply sure_Filter|]. intros l' _.
  eapply (sure_bindr _ _ _ _ _ _ (fun _ => True)).
  - destruct l' as [|o l']; [apply sure_ret; by eexists|]. apply sure_ok; [exact I|done|by intros g x H].
  - intros u _. sure_pass. apply sure_post.
Qed.

Lemma sure_EndSilences s cm : sure s (EndSilences cm) (fun r => exists u, r = Ok u /\ True).
Proof.
  unfold EndSilences. eapply sure_bindr; [apply sure_Filter|]. intros l _.
  eapply (sure_bind _ _ _ _ _ _ (fun errs => errs = [])).
  - assert (forall errs, errs = [] -> sure s (deleteSilences l errs) (fun errs => errs = [])) as H; [|by apply H].
    induction l as [|x l IH]; intros errs ->; cbn [deleteSilences]; [by apply sure_ret|].
    eapply sure_bind; [apply sure_ok; [exact I|done|by intros g y H]|]. intros r (u & -> & _). by apply IH.
  - intros errs ->. apply sure_ret. by eexists.
Qed.

(** ** External dependencies *)

Lemma goroutine_healthy timeout url tr r :
  exec (goroutine timeout url) tr (Done r) ->
  Forall (fun ob : obs Eff => exists g, answers c lo hi g _ (ob_event ob) (ob_resp ob)) tr -> r = None.
Proof.
  intros (x & t & -> & Hex) Hf. apply Forall_cons in Hf as [(g & Ha) _]. cbn in Ha.
  destruct Ha as (st & body & -> & Hst).
  cbn in Hex. destruct (Z.leb_spec 500 st); [lia|]. destruct (Z.leb_spec 400 st); [lia|].
  cbn in Hex. by destruct Hex as [_ [= <-]].
Qed.

(** The trace of a check without a store. *)
Definition off_store X (e : Eff X) : Prop := forall st, storeAnswers c e st = None.

Lemma goroutine_off_store timeout url : all_ev off_store (goroutine timeout url).
Proof.
  unfold goroutine. assert (all_ev off_store (checkTarget timeout url)) as Hc by (split; [done|by intros x]).
  generalize Second. generalize 3. induction n as [|n IH]; intros d; cbn [retry]; (apply all_ev_bind; [exact Hc|]);
    intros [[e|e]|]; try done. destruct n; [done|]. split; [done|]. intros j. split; [done|]. intros []. apply IH.
Qed.

Lemma sure_AvailabilityCheck s h : all_ev calm (AvailabilityCheck h) -> sure s (AvailabilityCheck h) (fun e => e = None).
Proof.
  clear Hn. intros Hq. apply sure_exec; [|done|].
  - apply no_panic_wp_iff. eapply wp_mono; [apply AvailabilityCheck_wp|]. intros tr o (e & -> & _). by exists e.
  - intros tr e Hex Hf. destruct (proj1 (wp_exec _ _) (AvailabilityCheck_wp h) _ _ Hex) as (e' & [= ->] & He).
    destruct He as (ends & H2 & _ & Hsub & [_ Hn] & _).
    apply Hn. split; [done|]. apply Forall_lookup. intros i [t r] Hi.
    destruct (Forall2_lookup_r _ _ _ _ _ H2 Hi) as (p & Hp & Hg). apply list_elem_of_lookup_2, list_elem_of_fmap in Hp as (url & -> & _).
    eapply goroutine_healthy; [exact Hg|]. apply Forall_forall. intros ob Hob.
    assert (ob ∈ tr) as Hin by (eapply sublist_subseteq; [exact (proj1 (Forall_lookup _ _) Hsub _ _ Hi)|done]).
    destruct (proj1 (Forall_forall _ _) Hf ob Hin) as (g & st & _ & Ha). exists g. apply Ha.
    apply (proj1 (Forall_forall _ _) (all_ev_exec _ _ _ _ (goroutine_off_store _ _) Hg) ob Hob).
Qed.

Lemma sure_runChecks s : sure s (runChecks (GetAvailabilityCheckers (cfg_ExtDependencyAvailabilityCheck cfg))) (fun r => r = Ok true).
Proof.
  pose proof (AvailabilityChecks_calm (cfg_ExtDependencyAvailabilityCheck cfg)) as Hq. unfold GetAvailabilityCheckers in *.
  destruct (Nat.ltb _ _); cbn [runChecks]; [|by apply sure_ret]. apply Forall_cons in Hq as [Hq _].
  eapply (sure_bindr _ _ _ _ _ _ (fun _ => True)); [|intros u _; by apply sure_ret].
  eapply sure_bind; [by apply sure_AvailabilityCheck|]. intros e ->. apply sure_ret. by eexists.
Qed.

(** ** The steps before the patch *)

(** The reconciliation in which the upgrade started was at [since] or later,
    when the cluster does not yet want the version; the surge capacity is then not
    being removed. *)
Context (since : Time).

(** The resource under way. *)
Definition underway (s : Sys) (uc : UpgradeConfig) : Prop :=
  Spec uc = sp /\ (exists h t, GetHistory (History uc) (ucVersionOf uc) = Some h /\ StartTime h = Some t /\
    (commenced (stage s) = false -> (since <= t)%Z)) /\
  (commenced (stage s) = false -> razed (surge (stage s)) = false).

Lemma underway_inUpgrade s uc : underway s uc -> inUpgrade uc.
Proof. intros (Hs & (h & t & Hh & _) & _). split; [done|by exists h]. Qed.
#[local] Hint Resolve underway_inUpgrade : muo.

Lemma stores_moved s s' : stored s' = stored s -> stores s -> stores s'.
Proof. intros H (uc & Hs & Hsp'). exists uc. by rewrite H. Qed.
Lemma stores_keeps s s' : keeps s s' -> stores s -> stores s'.
Proof. intros [H _]. by apply stores_moved. Qed.
Lemma underway_commenced s s' uc : commenced (stage s') = true -> underway s uc -> underway s' uc.
Proof. intros H (Hs & (h & t & Hh & Ht & _) & _). split_and!; [done| |congruence]. exists h, t. split_and!; [done|done|congruence]. Qed.
Lemma underway_keeps s s' uc : keeps s s' -> underway s uc -> underway s' uc.
Proof.
  intros Hk Hu. destruct (commenced (stage s')) eqn:Hc; [by eapply underway_commenced|].
  pose proof (keeps_commenced _ _ Hk) as Hc'. destruct Hu as (Hs & (h & t & Hh & Ht & Hlo) & Hz).
  assert (commenced (stage s) = false) as Hc0 by congruence. split_and!; [done|exists h, t; auto|].
  intros _. rewrite (evolves_razed _ _ (proj2 Hk)); [auto|by apply idle_commenced].
Qed.
Lemma underway_same s uc uc' : same_but_conditions uc uc' -> underway s uc -> underway s uc'.
Proof.
  intros Hsame (Hs & (h & t & Hh & Ht & Hlo) & Hz). split_and!; [by rewrite (sbc_Spec _ _ Hsame)| |done].
  destruct (sbc_desired _ _ Hsame _ Hh) as [cs Hcs]. exists (set_Conditions cs h), t.
  by rewrite (same_but_conditions_version _ _ Hsame).
Qed.

(** A step that the upgrade passes, unless it [stops]. *)
Definition passes (stops : Stage -> Stage -> Prop) (f : actionFunction) : Prop :=
  forall s uc, stores s -> underway s uc ->
    must (healthy c lo hi) (f uc) s (fun r s' => keeps s s' /\ (r = Ok true \/ stops (stage s) (stage s'))).

(** Before the patch: the cluster waits for its surge capacity, which it has
    asked for. *)
Definition waits (g g' : Stage) : Prop :=
  progress g = Idle /\ surge g <> Risen /\ progress g' = Idle /\ surge g' <> NoSurge.
(** After it: the cluster has not finished, or is not settled. *)
Definition unfinished (g g' : Stage) : Prop := progress g <> Finished.
Definition unsettled (g g' : Stage) : Prop := ~ settled c g.
Notation early := (passes waits).
Notation late := (passes unfinished).

Lemma sure_passes stops f :
  (forall s uc, stores s -> underway s uc -> sure s (f uc) (fun r => r = Ok true)) -> passes stops f.
Proof. intros H s uc Hs Hu. eapply must_mono; [exact (H s uc Hs Hu s (keeps_refl s))|]. intros r s' [Hk ->]. auto. Qed.
Lemma sure_late f :
  (forall s uc, stores s -> underway s uc -> sure s (f uc) (fun r => progress (stage s) = Finished -> r = Ok true)) -> late f.
Proof.
  intros H s uc Hs Hu. eapply must_mono; [exact (H s uc Hs Hu s (keeps_refl s))|]. intros r s' [Hk Hr]. split; [done|].
  unfold unfinished. destruct (progress (stage s)); auto.
Qed.

(** The opening of a step that is skipped when the upgrade has commenced. *)
Lemma must_unless_commenced s uc (p : M (result bool)) Q :
  underway s uc -> (forall s', keeps s s' -> commenced (stage s') = true -> Q (Ok true) s') ->
  (forall s', keeps s s' -> progress (stage s') = Idle -> must (healthy c lo hi) p s' Q) ->
  must (healthy c lo hi) (upgradeCommenced ←? HasUpgradeCommenced uc; if (upgradeCommenced : bool) then mret (Ok true) else p) s Q.
Proof.
  intros [Hs _] Hq Hp. eapply must_sure; [by apply sure_HasUpgradeCommenced|]. intros r s1 Hk (b & -> & ->).
  rewrite <- (keeps_commenced _ _ Hk). destruct (commenced (stage s1)) eqn:Hc; [by apply Hq|].
  apply Hp; [done|by apply idle_commenced].
Qed.
Lemma sure_unless_commenced s uc (p : M (result bool)) :
  underway s uc -> (progress (stage s) = Idle -> sure s p (fun r => r = Ok true)) ->
  sure s (upgradeCommenced ←? HasUpgradeCommenced uc; if (upgradeCommenced : bool) then mret (Ok true) else p)
    (fun r => r = Ok true).
Proof.
  intros [Hs _] Hp. eapply sure_bindr; [by apply sure_HasUpgradeCommenced|]. intros b ->. unfold commenced.
  destruct (progress (stage s)); [by apply Hp|by apply sure_ret..].
Qed.

Lemma SendStartedNotification_early : early (@SendStartedNotification_step em).
Proof.
  apply sure_passes. intros s uc Hs Hu. apply sure_unless_commenced; [done|]. intros _.
  eapply sure_bindr; [by apply sure_notified|]. intros u _. sure_pass. by apply sure_ret.
Qed.

Lemma UpgradeDelayedCheck_early : early (@UpgradeDelayedCheck em cfg).
Proof.
  apply sure_passes. intros s uc Hs Hu. apply sure_unless_commenced; [done|]. intros _. destruct Hu as (_ & (h & t & -> & Ht & _) & _).
  eapply (sure_bind _ _ _ _ _ _ (fun _ => True)); [rewrite Ht; by apply sure_ret|]. intros t' _. cbn zeta.
  destruct (_ && _); [|by apply sure_ret]. sure_pass. destruct (After _ _); [|by apply sure_ret].
  eapply sure_bindr; [by apply sure_notified|]. intros u _. by apply sure_ret.
Qed.

Context (at_ : Time) (Hat : parseRFC3339 (UpgradeAt sp) = Ok at_).

Lemma IsUpgradeable_early : early IsUpgradeable.
Proof.
  apply sure_passes. intros s uc Hs Hu. apply sure_unless_commenced; [done|]. intros Hg. destruct Hu as [Hspec _].
  eapply sure_bindr; [apply sure_GetCV|]. intros cv Hcv.
  destruct (seen_upgrade _ _ _ Hcv uc Hspec Hg) as (current & dv & cvv & Hdv & Hcur & Hcvv & _).
  rewrite Hcur. eapply (sure_bindr _ _ _ _ _ _ (fun v => v = current)); [apply sure_ret; by eexists|]. intros v ->.
  eapply (sure_bindr _ _ _ _ _ _ (fun v => v = cvv)); [apply sure_ret; by eexists|]. intros v ->. cbn zeta.
  eapply (sure_bindr _ _ _ _ _ _ (fun v => v = dv)); [apply sure_ret; by eexists|]. intros v ->.
  rewrite Hspec, Hat. destruct (List.find _ _) as [cond|] eqn:Hf; [|by apply sure_ret].
  apply find_some in Hf as [Hin Hb]. pose proof (seen_upgradeable _ _ _ Hcv Hg) as Ha.
  apply list_elem_of_In in Hin. destruct (proj1 (Forall_forall _ _) Ha cond Hin).
  unfold blocksMinor in Hb. apply andb_prop in Hb as [Hb _]. apply andb_prop in Hb as [Hb _]. apply andb_prop in Hb as [H1 H2].
  split; [by apply String.eqb_eq|by apply bool_decide_eq_true in H2].
Qed.

Lemma PreUpgradeHealthCheck_early dvo : checkable dvo -> early (@PreUpgradeHealthCheck em cfg dvo).
Proof. intros Hd. apply sure_passes. intros s uc Hs Hu. eauto using sure_PreUpgradeHealthCheck with muo. Qed.

Lemma ExternalDependency_early :
  early (ExternalDependencyAvailabilityCheck (GetAvailabilityCheckers (cfg_ExtDependencyAvailabilityCheck cfg))).
Proof. apply sure_passes. intros s uc Hs Hu. apply sure_unless_commenced; [done|]. intros _. apply sure_runChecks. Qed.

Lemma EnsureExtraUpgradeWorkers_early : early (@EnsureExtraUpgradeWorkers em cfg).
Proof.
  intros s uc Hs Hu. unfold EnsureExtraUpgradeWorkers. rewrite (proj1 Hu).
  destruct (CapacityReservation sp) eqn:Hc; cbn [negb]; [|split; [apply keeps_refl|by left]].
  pose proof (Hcap eq_refl) as Hres. rewrite (res_config _ Hres). cbn [configOk bindr mret prog_ret mbind prog_mbind prog_bind].
  apply must_unless_commenced; [done|by auto|]. intros s1 Hk1 Hi1.
  pose proof (proj2 (proj2 (underway_keeps _ _ _ Hk1 Hu)) (proj1 (idle_commenced _) Hi1)) as Hz1.
  eapply must_sure; [by apply sure_CanScale|]. intros r s2 Hk2 ->. cbn [negb andb].
  pose proof (keeps_idle _ _ Hk2 Hi1) as Hi2.
  assert (razed (surge (stage s2)) = false) as Hz2 by by rewrite (evolves_razed _ _ (proj2 Hk2) Hi1).
  apply must_bind. eapply must_mono; [by apply EnsureScaleUpNodes_must|]. intros r s3 [Hk3 Hr].
  pose proof (keeps_trans _ _ _ Hk1 (keeps_trans _ _ _ Hk2 Hk3)) as Hk.
  destruct Hr as [->|[(e & -> & He)|(-> & Hr2 & Hs3)]].
  - eapply must_sure; [apply sure_gauge|]. intros _ s4 Hk4 _. split; [by eapply keeps_trans|by left].
  - rewrite He. eapply must_sure; [apply sure_gauge|]. intros _ s4 Hk4 _.
    pose proof (keeps_trans _ _ _ Hk Hk4) as Hk'. assert (stores s4) as Hs4 by by eapply stores_keeps.
    eapply must_sure; [apply (sure_notified s4 MuoStateSkipped); [done|by eexists]|]. intros r s5 Hk5 (u & -> & _).
    split; [by eapply keeps_trans|by left].
  - split; [done|]. right. split_and!.
    + exact (evolves_was_idle _ _ (proj2 Hk1) Hi1).
    + intros Hr. apply Hr2. eapply evolves_risen; [exact (proj2 (keeps_trans _ _ _ Hk1 Hk2))| |done].
      exact (evolves_was_idle _ _ (proj2 Hk1) Hi1).
    + exact (keeps_idle _ _ Hk3 Hi2).
    + done.
Qed.

Lemma CreateControlPlaneMaintWindow_early : early (CreateControlPlaneMaintWindow cfg).
Proof.
  apply sure_passes. intros s uc Hs Hu. unfold CreateControlPlaneMaintWindow. sure_pass. cbn zeta.
  eapply sure_bindr; [apply sure_StartControlPlane|]. intros u _. by apply sure_ret.
Qed.

(** ** The patch *)

Lemma channel_patch_not_commencing cv ch : commencing c (PatchCV cv (channel_patch ch)) = false.
Proof. reflexivity. Qed.
Lemma version_patch_commencing cv image : commencing c (PatchCV cv (version_patch (desired_Version (Desired sp)) image)) = true.
Proof.
  cbn [commencing]. unfold version_patch.
  match goal with |- HasPrefix ?p _ = true => assert (p = asksFor (desired_Version (Desired sp)) +:+
    (quoted "image" +:+ ":" +:+ (if String.eqb image "" then "null" else quoted image) +:+ "}}}")) as -> end.
  { unfold asksFor. by rewrite !string_app_assoc. }
  apply HasPrefix_app.
Qed.

(** A patch of something else leaves an idle cluster idle. *)
Lemma patch_keeps s cv p x s' : commencing c (PatchCV cv p) = false -> healthy c lo hi _ (PatchCV cv p) s x s' -> keeps s s' /\ is_ok x = true.
Proof. intros Hp [[Ha Hs] [Hd [(Hx & _)|[_ He]]]]; [congruence|]. split; [|done]. split; [done|]. by apply drifts_evolves. Qed.

Lemma sure_patch s cv p : commencing c (PatchCV cv p) = false -> sure s (call (PatchCV cv p)) (fun r => exists cv', r = Ok cv' /\ True).
Proof.
  intros Hp s1 H1 x s2 Hx. destruct (patch_keeps _ _ _ _ _ Hp Hx) as [H2 Hok]. split; [by eapply keeps_trans|].
  destruct x as [cv'|]; [by exists cv'|done].
Qed.

(** The upgrade has commenced; nothing else has changed. *)
Definition started (s s' : Sys) : Prop :=
  stored s' = stored s /\ commenced (stage s') = true /\ (commenced (stage s) = true -> evolves (stage s) (stage s')).

Lemma keeps_started s s1 s2 : keeps s s1 -> started s1 s2 -> started s s2.
Proof.
  intros Hk (H3 & H4 & H5). split_and!; [rewrite H3; apply Hk|done|]. intros Hc.
  eapply evolves_trans; [apply Hk|]. apply H5. by rewrite (keeps_commenced _ _ Hk).
Qed.
Lemma started_keeps s s1 s2 : started s s1 -> keeps s1 s2 -> started s s2.
Proof.
  intros (H1 & H2 & H3) Hk. split_and!; [rewrite (proj1 Hk); exact H1|by rewrite (keeps_commenced _ _ Hk)|].
  intros Hc. eapply evolves_trans; [by apply H3|apply Hk].
Qed.

(** A ClusterVersion that lists the update is patched. *)
Lemma version_patch_commences s uc (p : M (result ClusterVersion)) :
  Spec uc = sp -> progress (stage s) = Idle -> sure s p (fun r => exists cv, r = Ok cv /\ cv_seen c (stage s) cv) ->
  must (healthy c lo hi) (cv ←? p;
    let '(updateAvailable, image) := findUpdate cv (desired_Version (Desired (Spec uc))) in
    if negb updateAvailable then mret (Ok false)
    else let cv := set_Overrides [] cv in
      _ ←? call (PatchCV cv (version_patch (desired_Version (Desired (Spec uc))) image)); mret (Ok true)) s
    (fun r s' => r = Ok true /\ started s s').
Proof.
  intros Hspec Hg Hp. apply must_bind. eapply must_mono; [exact (Hp s (keeps_refl s))|].
  intros r s1 [H1 (cv & -> & Hcv)]. pose proof (seen_listed _ _ _ Hcv Hg) as Hl. rewrite Hspec.
  destruct (findUpdate cv _) as [av image]. cbn [fst] in Hl. subst av. cbn [negb]. cbn zeta.
  apply must_bind. cbn [must call]. intros x s2 [[Hx Hs2] [_ Hm]]. pose proof (keeps_idle _ _ H1 Hg) as Hg1.
  assert (commenced (stage s2) = true) as Hc2.
  { destruct Hm as [(_ & _ & Hm)|[Hm _]]; [done|]. exfalso. by apply Hm; [apply version_patch_commencing|]. }
  destruct x as [cv'|]; [|done]. cbn [bindr mret prog_ret must]. split; [done|]. split_and!; [rewrite Hs2; apply H1|done|].
  intros Hc. apply idle_commenced in Hg. congruence.
Qed.

Lemma EnsureDesiredConfig_commences s uc :
  Spec uc = sp -> progress (stage s) = Idle -> must (healthy c lo hi) (EnsureDesiredConfig uc) s (fun r s' => r = Ok true /\ started s s').
Proof.
  intros Hspec Hg. unfold EnsureDesiredConfig. apply must_bind. eapply must_mono; [exact (sure_GetCV c lo hi s s (keeps_refl s))|].
  intros r s1 [H1 (cv & -> & Hcv)]. rewrite (checkUpgradeSource_versioned c Hsp uc Hspec).
  pose proof (keeps_idle _ _ H1 Hg) as Hg1. pose proof (cv_seen_idle c _ _ _ Hg Hg1 Hcv) as Hcv1.
  eapply must_mono; [apply version_patch_commences; [done|done|]|].
  - destruct (negb _); [|apply sure_ret; by exists cv].
    eapply sure_bindr; [apply sure_patch, channel_patch_not_commencing|]. intros cv' _. apply sure_GetCV.
  - intros r s2 [-> H2]. split; [done|]. by eapply keeps_started.
Qed.

Lemma CommenceUpgrade_commences s uc :
  stores s -> underway s uc -> must (healthy c lo hi) (@CommenceUpgrade em uc) s (fun r s' => r = Ok true /\ started s s').
Proof.
  intros Hs [Hspec _]. unfold CommenceUpgrade. apply must_bind.
  eapply must_mono; [exact (sure_gauge c lo hi s _ _ _ s (keeps_refl s))|]. intros [] s1 [H1 _].
  apply must_bind. eapply must_mono; [exact (sure_HasUpgradeCommenced c lo hi Hsp s uc Hspec s1 H1)|].
  intros r s2 [H2 (b & -> & ->)]. destruct (commenced (stage s)) eqn:Hc.
  { split; [done|]. split_and!; [apply H2|by rewrite (keeps_commenced _ _ H2)|intros _; apply H2]. }
  apply idle_commenced in Hc as Hg. pose proof (keeps_idle _ _ H2 Hg) as Hg2.
  assert (sure s (okOr (em_Notify em MuoStateControlPlaneUpgradeStartedSL)) (fun r => exists u, r = Ok u /\ True)) as Hnt
    by by apply sure_notified.
  apply must_bind. eapply must_mono; [exact (Hnt s2 H2)|]. intros r s3 [H3 (u & -> & _)].
  apply must_bind. eapply must_mono; [exact (sure_GetClusterId s s3 H3)|]. intros id s4 [H4 _].
  apply must_bind. eapply must_mono; [exact (sure_now c lo hi s s4 H4)|]. intros t s5 [H5 _].
  apply must_bind. eapply must_mono; [exact (sure_gauge c lo hi s _ _ _ s5 H5)|]. intros [] s6 [H6 _].
  eapply must_mono; [apply EnsureDesiredConfig_commences; [done|by eapply keeps_idle]|].
  intros r s7 [-> H7]. split; [done|]. by eapply keeps_started.
Qed.

(** ** The steps after the patch *)

Lemma ControlPlaneUpgraded_late : late (@ControlPlaneUpgraded em cfg).
Proof.
  apply sure_late. intros s uc Hs [Hspec _]. unfold ControlPlaneUpgraded. eapply sure_bindr; [apply sure_GetCV|]. intros cv Hcv.
  destruct (HasUpgradeCompleted cv uc) eqn:Hd.
  - eapply sure_bindr; [by apply sure_notified|]. intros u _. sure_pass. by apply sure_ret.
  - assert (progress (stage s) <> Finished) as Hf by (intros Hf; by rewrite (seen_completed _ _ _ Hcv uc Hspec Hf) in Hd).
    destruct (controlPlaneStart cv uc) as [t|e]; [|by apply sure_ret].
    eapply (sure_bindr _ _ _ _ _ _ (fun _ => True)); [apply sure_ret; by eexists|]. intros t' _. cbn zeta.
    destruct (negb _); [|by apply sure_ret]. sure_pass. destruct (After _ _); [|by apply sure_ret]. sure_pass. by apply sure_ret.
Qed.

Lemma RemoveControlPlane_late : late RemoveControlPlaneMaintWindow_step.
Proof.
  apply sure_late. intros s uc Hs Hu. eapply sure_bindr; [apply sure_EndSilences|]. intros u _. by apply sure_ret.
Qed.
Lemma RemoveMaintWindow_passes stops : passes stops RemoveMaintWindow_step.
Proof. apply sure_passes. intros s uc Hs Hu. eapply sure_bindr; [apply sure_EndSilences|]. intros u _. by apply sure_ret. Qed.

Lemma sure_IsUpgrading s t :
  sure s (machinery_IsUpgrading t) (fun r => exists u, r = Ok u /\ (progress (stage s) = Finished -> IsUpgrading u = false)).
Proof.
  unfold machinery_IsUpgrading.
  eapply (sure_bindr _ _ _ _ _ _ (fun p => progress (stage s) = Finished -> MachineCount p = UpdatedMachineCount p)).
  - apply sure_call; [exact I|done|]. intros g x Hg (p & -> & Hp). exists p. split; [done|]. intros Hf. apply Hp.
    by eapply evolves_finished.
  - intros p Hp. apply sure_ret. eexists. split; [done|]. intros Hf. cbn. by rewrite (Hp Hf), Z.eqb_refl.
Qed.

Lemma CreateWorkerMaintWindow_late : late (CreateWorkerMaintWindow cfg).
Proof.
  apply sure_late. intros s uc Hs Hu. unfold CreateWorkerMaintWindow. eapply sure_bindr; [apply sure_IsUpgrading|]. intros u _.
  destruct (negb _); [by apply sure_ret|]. cbn zeta. destruct (_ <? 1)%Z; [by apply sure_ret|]. sure_pass.
  eapply sure_bindr; [apply sure_SetWorker|]. intros w _. by apply sure_ret.
Qed.

Lemma AllWorkersUpgraded_late : late (@AllWorkersUpgraded em).
Proof.
  apply sure_late. intros s uc Hs Hu. unfold AllWorkersUpgraded. eapply sure_bindr; [apply sure_IsUpgrading|]. intros u Hf.
  eapply (sure_bindr _ _ _ _ _ _ (fun _ => True)).
  { unfold maintenance_IsActive. eapply sure_bindr; [apply sure_Filter|]. intros l _. apply sure_ret. by eexists. }
  intros active _. destruct (IsUpgrading u) eqn:Hu'.
  - eapply (sure_bind _ _ _ _ _ _ (fun _ => True)); [destruct (negb active); apply sure_gauge|]. intros _ _.
    apply sure_ret. intros Hg. specialize (Hf Hg). congruence.
  - eapply sure_bindr; [by apply sure_notified|]. intros w _. sure_pass. by apply sure_ret.
Qed.

(** The scale-down, which leaves nothing to stay. *)
Context (builder : M (result Notifier)) (Hbuilder : forall s, sure s builder (fun r => exists n, r = Ok n /\ faithful n)).

Lemma RemoveExtraScaledNodes_must s uc :
  stores s -> underway s uc -> commenced (stage s) = true ->
  must (healthy c lo hi) (RemoveExtraScaledNodes_step builder cfg uc) s (fun r s' => keeps s s' /\
    (CapacityReservation sp = true -> lowered (surge (stage s'))) /\ (settled c (stage s) -> r = Ok true)).
Proof.
  intros Hs Hu Hcm. unfold RemoveExtraScaledNodes_step. rewrite (proj1 Hu).
  destruct (CapacityReservation sp) eqn:Hc; cbn [negb]; [|split_and!; [apply keeps_refl|done|done]].
  pose proof (Hcap eq_refl) as Hres. rewrite (res_config _ Hres). cbn [configOk bindr mret prog_ret mbind prog_mbind prog_bind].
  eapply must_sure; [by apply sure_CanScale|]. intros r s1 Hk1 ->. cbn [negb andb].
  eapply must_sure; [by apply sure_NewNodeDrainStrategy|]. intros r s2 Hk2 (ds & -> & Hds).
  pose proof (keeps_trans _ _ _ Hk1 Hk2) as Hk12. assert (commenced (stage s2) = true) as Hc2 by by rewrite (keeps_commenced _ _ Hk12).
  apply must_bind. eapply must_mono; [apply EnsureScaleDownNodes_must; [done|done|by eapply stores_keeps|done|done]|].
  intros r s3 (Hk3 & Hlow & Hr). pose proof (keeps_trans _ _ _ Hk12 Hk3) as Hk.
  assert (settled c (stage s) -> r = Ok true) as Hr' by (intros Hst; apply Hr; eapply evolves_settled; [apply Hk12|done]).
  assert (forall (p : M (result bool)), sure s3 p (fun r' => settled c (stage s) -> r' = Ok true) ->
    must (healthy c lo hi) p s3 (fun r s' => keeps s s' /\ (true = true -> lowered (surge (stage s'))) /\ (settled c (stage s) -> r = Ok true))) as Hend.
  { intros p Hp. eapply must_mono; [exact (Hp s3 (keeps_refl s3))|]. intros r' s4 [Hk4 Hr4]. split_and!; [by eapply keeps_trans| |done].
    intros _. eapply evolves_lowered; [apply Hk4|by rewrite (keeps_commenced _ _ Hk3)|done]. }
  apply Hend. destruct r as [[|]|e].
  - eapply sure_bind; [apply (sure_resetAll c lo hi s3 [metricNodeDrainFailed])|]. intros _ _. by apply sure_ret.
  - apply sure_ret. intros Hst. by specialize (Hr' Hst).
  - destruct (IsDrainTimeOutError e); [|apply sure_ret; intros Hst; by specialize (Hr' Hst)].
    eapply sure_bind; [apply sure_gauge|]. intros _ _. apply sure_ret. intros Hst. by specialize (Hr' Hst).
Qed.

Lemma PostUpgradeHealthCheck_passes stops : passes stops (PostUpgradeHealthCheck cfg).
Proof. apply sure_passes. intros s uc Hs Hu. eauto using sure_PostUpgradeHealthCheck with muo. Qed.

Lemma PostUpgradeProcedures_passes stops : passes stops (PostUpgradeProcedures cfg).
Proof.
  apply sure_passes. intros s uc Hs Hu. unfold PostUpgradeProcedures. destruct (negb _); [by apply sure_ret|].
  eapply (sure_bindr _ _ _ _ _ _ (fun _ => True)); [|intros u _; by apply sure_ret].
  unfold postUpgradeFIOReInit. eapply sure_bind; [apply sure_ok; [exact I|done|by intros g x H]|]. intros r (u & -> & _).
  apply sure_ok; [exact I|done|by intros g x H].
Qed.

Lemma SendCompletedNotification_passes stops : passes stops (@SendCompletedNotification_step em).
Proof.
  apply sure_passes. intros s uc Hs Hu. eapply sure_bindr; [by apply sure_notified|]. intros u _. sure_pass. by apply sure_ret.
Qed.

(** ** The runner *)

Lemma sure_setConditionStart s st uc :
  underway s uc -> sure s (setConditionStart st uc) (fun uc1 => underway s uc1 /\ is_Some (conditionOf uc1 (step_name st))).
Proof.
  intros Hu. pose proof (underway_inUpgrade _ _ Hu) as [_ Hh]. apply sure_exec.
  - destruct Hh as [h Hh]. unfold setConditionStart, SetCondition_now, now. rewrite Hh. cbn [deref]. np_auto.
  - apply setConditionStart_calm.
  - intros tr uc1 Hex _. destruct (setConditionStart_exec _ _ _ _ Hh Hex) as (Hsame & _ & _ & Hc).
    split; [by eapply underway_same|done].
Qed.
Lemma sure_setConditionComplete s st uc :
  underway s uc -> is_Some (conditionOf uc (step_name st)) -> sure s (setConditionComplete st uc) (underway s).
Proof.
  intros Hu Hc. pose proof (underway_inUpgrade _ _ Hu) as [_ Hh]. apply sure_exec.
  - destruct Hh as [h Hh]. unfold setConditionComplete, SetCondition_now, now. rewrite Hh. cbn [deref]. np_auto.
  - apply setConditionComplete_calm.
  - intros tr uc1 Hex _. destruct (setConditionComplete_exec _ _ _ _ Hc Hex) as (Hsame & _). by eapply underway_same.
Qed.
Lemma sure_setConditionInProgress s st msg uc : underway s uc -> sure s (setConditionInProgress st msg uc) (fun _ => True).
Proof.
  intros Hu. pose proof (underway_inUpgrade _ _ Hu) as [_ [h Hh]]. apply sure_quiet.
  - unfold setConditionInProgress, SetCondition_now, now. rewrite Hh. cbn [deref]. np_auto.
  - apply setConditionInProgress_calm.
Qed.

(** A run of steps: it goes on to the next ones, or stops. *)
Lemma Run_passes stops steps rest s uc Q :
  (forall g0 g g' g'', evolves g0 g -> stops g g' -> evolves g' g'' -> stops g0 g'') ->
  Forall (fun st => passes stops (step_f st)) steps -> stores s -> underway s uc ->
  (forall uc' s', keeps s s' -> underway s' uc' -> must (healthy c lo hi) (Run uc' rest) s' Q) ->
  (forall uc' err s', keeps s s' -> stops (stage s) (stage s') -> Q (uc', UpgradePhaseUpgrading, err) s') ->
  must (healthy c lo hi) (Run uc (steps ++ rest)) s Q.
Proof.
  intros Hstops Hf. revert s uc. induction Hf as [|st steps Hst _ IH]; intros s uc Hs Hu Hrest Hstop.
  { apply Hrest; [apply keeps_refl|done]. }
  cbn [app Run]. apply must_bind. eapply must_mono; [exact (sure_setConditionStart s st uc Hu s (keeps_refl s))|].
  intros uc1 s1 [H1 [Hu1 Hc1]]. apply must_bind. pose proof (underway_keeps _ _ _ H1 Hu1) as Hu1'.
  eapply must_mono; [apply Hst; [by eapply stores_keeps|done]|]. intros r s2 [H2 Hr].
  pose proof (keeps_trans _ _ _ H1 H2) as H12. pose proof (underway_keeps _ _ _ H2 Hu1') as Hu2.
  assert (forall msg err, r <> Ok true -> must (healthy c lo hi) (uc ← setConditionInProgress st msg uc1;
    mret (uc, UpgradePhaseUpgrading, err)) s2 Q) as Hend.
  { intros msg err Hne. eapply must_sure; [by apply sure_setConditionInProgress|]. intros uc' s3 H3 _.
    apply Hstop; [exact (keeps_trans _ _ _ H12 H3)|]. destruct Hr as [->|Hr]; [done|]. exact (Hstops _ _ _ _ (proj2 H1) Hr (proj2 H3)). }
  destruct r as [[|]|e]; [|by apply Hend..]. clear Hend.
  apply must_bind. eapply must_mono; [exact (sure_setConditionComplete s2 st uc1 Hu2 Hc1 s2 (keeps_refl s2))|].
  intros uc2 s3 [H3 Hu3]. pose proof (keeps_trans _ _ _ H12 H3) as H13.
  apply IH; [exact (stores_keeps _ _ H13 Hs)|exact (underway_keeps _ _ _ H3 Hu3)| |].
  - intros uc' s' Hk Hu'. apply Hrest; [exact (keeps_trans _ _ _ H13 Hk)|done].
  - intros uc' err s' Hk Hst'. apply Hstop; [exact (keeps_trans _ _ _ H13 Hk)|]. exact (Hstops _ _ _ _ (proj2 H13) Hst' (evolves_self _)).
Qed.

Lemma waits_between g0 g g' g'' : evolves g0 g -> waits g g' -> evolves g' g'' -> waits g0 g''.
Proof.
  intros H0 (H1 & H2 & H3 & H4) H5. split_and!.
  - by eapply evolves_was_idle.
  - intros Hr. apply H2. eapply evolves_risen; [done| |done]. by eapply evolves_was_idle.
  - by eapply evolves_idle.
  - by eapply evolves_surged.
Qed.
Lemma unfinished_between g0 g g' g'' : evolves g0 g -> unfinished g g' -> evolves g' g'' -> unfinished g0 g''.
Proof. intros H0 H1 _ Hf. apply H1. by eapply evolves_finished. Qed.

(** The steps after the patch: they are done when the cluster is settled, and
    leave no surge capacity to a cluster that has finished. *)
Lemma Run_after post1 name post2 s uc :
  Forall (fun st => late (step_f st)) post1 -> Forall (fun st => passes (fun _ _ => False) (step_f st)) post2 ->
  stores s -> underway s uc -> commenced (stage s) = true ->
  must (healthy c lo hi) (Run uc (post1 ++ Action name (RemoveExtraScaledNodes_step builder cfg) :: post2)) s (fun r s' =>
    keeps s s' /\ (r.1.2 = UpgradePhaseUpgrading \/ r.1.2 = UpgradePhaseUpgraded) /\
    (settled c (stage s) -> r.1.2 = UpgradePhaseUpgraded) /\
    (progress (stage s) = Finished \/ r.1.2 = UpgradePhaseUpgraded -> CapacityReservation sp = true -> lowered (surge (stage s')))).
Proof.
  intros H1 H2 Hs Hu Hc. eapply Run_passes; [exact unfinished_between|done..| |].
  2: { intros uc' err s' Hk Hst. split_and!; [done|by left|by intros [Hf _]|by intros [Hf|Hf]]. }
  intros uc1 s1 Hk1 Hu1. cbn [Run]. eapply must_sure; [by apply sure_setConditionStart|]. intros uc2 s2 Hk2 [Hu2 Hc2].
  pose proof (keeps_trans _ _ _ Hk1 Hk2) as Hk12. assert (commenced (stage s2) = true) as Hcm by by rewrite (keeps_commenced _ _ Hk12).
  pose proof (underway_keeps _ _ _ Hk2 Hu2) as Hu2'. cbn [step_run].
  apply must_bind. eapply must_mono; [apply RemoveExtraScaledNodes_must; [exact (stores_keeps _ _ Hk12 Hs)|done|done]|].
  intros r s3 (Hk3 & Hlow & Hr). pose proof (keeps_trans _ _ _ Hk12 Hk3) as Hk13. pose proof (underway_keeps _ _ _ Hk3 Hu2') as Hu3.
  assert (commenced (stage s3) = true) as Hcm3 by by rewrite (keeps_commenced _ _ Hk3).
  assert (settled c (stage s) -> r = Ok true) as Hr' by (intros Hst; apply Hr; eapply evolves_settled; [apply Hk12|done]).
  assert (forall (uc' : UpgradeConfig) ph (err : option error) s', keeps s3 s' -> ph = UpgradePhaseUpgraded \/ ph = UpgradePhaseUpgrading /\ r <> Ok true ->
    (fun r s' => keeps s s' /\ (r.1.2 = UpgradePhaseUpgrading \/ r.1.2 = UpgradePhaseUpgraded) /\
    (settled c (stage s) -> r.1.2 = UpgradePhaseUpgraded) /\
    (progress (stage s) = Finished \/ r.1.2 = UpgradePhaseUpgraded -> CapacityReservation sp = true -> lowered (surge (stage s')))) (uc', ph, err) s') as Hq.
  { intros uc' ph err s' Hk Hph. cbn [fst snd]. split_and!; [exact (keeps_trans _ _ _ Hk13 Hk)|tauto| |].
    - intros Hst. specialize (Hr' Hst). tauto.
    - intros _ Hcr. eapply evolves_lowered; [apply Hk|done|auto]. }
  destruct r as [[|]|e].
  - eapply must_sure; [by apply sure_setConditionComplete|]. intros uc3 s4 Hk4 Hu4. rewrite <- (app_nil_r post2).
    pose proof (keeps_trans _ _ _ Hk13 Hk4) as Hk14.
    eapply (Run_passes (fun _ _ => False)); [tauto|done|exact (stores_keeps _ _ Hk14 Hs)|exact (underway_keeps _ _ _ Hk4 Hu4)| |done].
    intros uc4 s5 Hk5 _. apply Hq; [exact (keeps_trans _ _ _ Hk4 Hk5)|by left].
  - eapply must_sure; [by apply sure_setConditionInProgress|]. intros uc3 s4 Hk4 _. apply Hq; [done|by right].
  - eapply must_sure; [by apply sure_setConditionInProgress|]. intros uc3 s4 Hk4 _. apply Hq; [done|by right].
Qed.

(** ** The upgraders *)

(** What becomes of a stage, and of the phase: the cluster waits for its surge
    capacity; or it has commenced, the upgrade is done when nothing is left to do,
    and then, or when the cluster has finished, it keeps no surge capacity. *)
Definition runsTo (g : Stage) (ph : UpgradePhase) (g' : Stage) : Prop :=
  ph = UpgradePhaseUpgrading /\ evolves g g' /\ waits g g' \/
  (ph = UpgradePhaseUpgrading \/ ph = UpgradePhaseUpgraded) /\ commenced g' = true /\ (commenced g = true -> evolves g g') /\
  (settled c g -> ph = UpgradePhaseUpgraded) /\ 
  (progress g = Finished \/ ph = UpgradePhaseUpgraded -> CapacityReservation sp = true -> lowered (surge g')).

Definition upgradeRuns (u : UpgradeConfig -> M (UpgradeConfig * UpgradePhase * option error)) : Prop :=
  forall s uc, stores s -> underway s uc ->
    must (healthy c lo hi) (u uc) s (fun r s' => stored s' = stored s /\ runsTo (stage s) r.1.2 (stage s')).

Lemma runsTo_from g0 g ph g' : evolves g0 g -> runsTo g ph g' -> runsTo g0 ph g'.
Proof.
  intros He [(-> & H1 & H2)|(H1 & H2 & H3 & H4 & H5)]; [left|right].
  - split_and!; [done|by eapply evolves_trans|]. eapply waits_between; [done|done|apply evolves_self].
  - pose proof (evolves_commenced _ _ He) as Hc. split_and!; [done|done| | |].
    + intros Hc0. eapply evolves_trans; [done|]. apply H3. congruence.
    + intros Hs. apply H4. by eapply evolves_settled.
    + intros [Hf|Hf]; apply H5; [left; by eapply evolves_finished|by right].
Qed.

Lemma runsTo_to g ph g' g'' : runsTo g ph g' -> evolves g' g'' -> runsTo g ph g''.
Proof.
  intros [(-> & H1 & H2)|(H1 & H2 & H3 & H4 & H5)] He; [left|right].
  - split_and!; [done|by eapply evolves_trans|]. by eapply waits_between; [apply evolves_self|..].
  - split_and!; [done|by rewrite (evolves_commenced _ _ He)| |done|].
    + intros Hc. eapply evolves_trans; [by apply H3|done].
    + intros Hf Hc. eapply evolves_lowered; [done|done|auto].
Qed.

Lemma Run_runs pre name post1 name' post2 :
  Forall (fun st => early (step_f st)) pre -> Forall (fun st => late (step_f st)) post1 ->
  Forall (fun st => passes (fun _ _ => False) (step_f st)) post2 ->
  upgradeRuns (fun uc => Run uc (pre ++ Action name (@CommenceUpgrade em) ::
    (post1 ++ Action name' (RemoveExtraScaledNodes_step builder cfg) :: post2))).
Proof.
  intros Hpre Hp1 Hp2 s uc Hs Hu. eapply Run_passes; [exact waits_between|done..| |].
  2: { intros uc' err s' Hk Hw. split; [apply Hk|]. left. split_and!; [done|apply Hk|done]. }
  intros uc1 s1 Hk1 Hu1. cbn [Run]. eapply must_sure; [by apply sure_setConditionStart|]. intros uc2 s2 Hk2 [Hu2 Hc2].
  pose proof (keeps_trans _ _ _ Hk1 Hk2) as Hk. pose proof (underway_keeps _ _ _ Hk2 Hu2) as Hu2'. cbn [step_run].
  apply must_bind. eapply must_mono; [by apply CommenceUpgrade_commences; [exact (stores_keeps _ _ Hk Hs)|]|].
  intros r s3 [-> H3]. pose proof (keeps_started _ _ _ Hk H3) as Hst. destruct H3 as (H31 & H32 & H33).
  pose proof (underway_commenced _ _ _ H32 Hu2') as Hu3. eapply must_sure; [by apply sure_setConditionComplete|].
  intros uc3 s4 Hk4 Hu4. pose proof (started_keeps _ _ _ Hst Hk4) as Hst4. destruct Hst4 as (H41 & H42 & H43).
  eapply must_mono; [apply Run_after; [done|done|exact (stores_moved _ _ H41 Hs)|exact (underway_keeps _ _ _ Hk4 Hu4)|done]|].
  intros ret s5 (Hk5 & Hph & Hset & Hlow). split; [rewrite (proj1 Hk5); exact H41|]. right.
  assert (forall g, progress (stage s) = g -> g <> Idle -> commenced (stage s) = true) as Hcm.
  { intros g <- Hg. unfold commenced. by destruct (progress (stage s)). }
  split_and!; [done|by rewrite (keeps_commenced _ _ Hk5)| | |].
  - intros Hc. eapply evolves_trans; [by apply H43|apply Hk5].
  - intros Hsd. apply Hset. eapply evolves_settled; [|done]. apply H43. destruct Hsd as [Hf _]. by eapply Hcm.
  - intros [Hf|Hf]; apply Hlow; [left|by right]. eapply evolves_finished; [|done]. apply H43. by eapply Hcm.
Qed.

Notation acs := (GetAvailabilityCheckers (cfg_ExtDependencyAvailabilityCheck cfg)).

#[local] Hint Resolve SendStartedNotification_early UpgradeDelayedCheck_early IsUpgradeable_early PreUpgradeHealthCheck_early
  ExternalDependency_early EnsureExtraUpgradeWorkers_early CreateControlPlaneMaintWindow_early
  ControlPlaneUpgraded_late RemoveControlPlane_late CreateWorkerMaintWindow_late AllWorkersUpgraded_late
  RemoveMaintWindow_passes PostUpgradeHealthCheck_passes PostUpgradeProcedures_passes SendCompletedNotification_passes : muo.

Lemma osd_steps_run : upgradeRuns (fun uc => Run uc (@osdSteps regexp semver em builder cfg acs)).
Proof.
  assert (checkable true) as Hd by by left. pose (l := @osdSteps regexp semver em builder cfg acs).
  intros s uc. refine (Run_runs (take 7 l) _ (take 4 (drop 8 l)) _ (drop 13 l) _ _ _ s uc);
    repeat constructor; cbn [step_f]; auto with muo.
Qed.

Lemma aro_steps_run : checkable false -> upgradeRuns (fun uc => Run uc (@aroSteps regexp em builder cfg acs)).
Proof.
  intros Hd s uc. pose (l := @aroSteps regexp em builder cfg acs).
  refine (Run_runs (take 5 l) _ (take 4 (drop 6 l)) _ (drop 11 l) _ _ _ s uc);
    repeat constructor; cbn [step_f]; auto with muo.
Qed.

(** The window is not over while the cluster waits for its surge capacity. *)
Context (Hround : let w := GetUpgradeWindowTimeOutDuration (cfg_UpgradeWindow cfg) in (0 < w)%Z -> (hi <= since + w)%Z).

Lemma sure_shouldFailUpgrade s uc : underway s uc -> sure s (shouldFailUpgrade cfg uc) (fun r => r = Ok false).
Proof.
  intros (Hspec & (h & t & Hh & Ht & Hlo) & _). unfold shouldFailUpgrade.
  eapply sure_bindr; [by apply sure_HasUpgradeCommenced|]. intros b ->.
  destruct (commenced (stage s)); [by apply sure_ret|]. rewrite Hh. specialize (Hlo eq_refl).
  eapply (sure_bind _ _ _ _ _ _ (fun t' => t' = t)); [rewrite Ht; by apply sure_ret|]. intros t' ->. cbn zeta.
  destruct (negb (IsZero t)); cbn [andb]; [|by apply sure_ret].
  destruct (Z.ltb_spec 0 (GetUpgradeWindowTimeOutDuration (cfg_UpgradeWindow cfg))) as [Hw|]; [|by apply sure_ret].
  eapply sure_bind; [apply sure_now|]. intros n Hnow. apply sure_ret. unfold After, TimeAdd. f_equal. apply Z.ltb_ge.
  specialize (Hround Hw). cbn beta in Hnow. lia.
Qed.

(** The upgrader of a configuration that its kind can use. *)
Definition usable (ut : UpgradeType) : Prop := ut = ARO -> IsFeatureEnabled cfg PreHealthCheckFeatureGate = false.
Definition upgraderFor (ut : UpgradeType) : clusterUpgrader :=
  match ut with ARO => aroUpgrader cfg acs | _ => osdUpgrader cfg acs end.

Lemma UpgradeCluster_runs ut : usable ut -> upgradeRuns (@UpgradeCluster regexp semver em builder (upgraderFor ut)).
Proof.
  intros Hut s uc Hs Hu. assert (forall u, u = osdUpgrader cfg acs -> must (healthy c lo hi) (@UpgradeCluster regexp semver em builder u uc) s
    (fun r s' => stored s' = stored s /\ runsTo (stage s) r.1.2 (stage s'))) as Hosd.
  { intros u ->. cbn [UpgradeCluster]. unfold osd_UpgradeCluster. apply must_bind.
    eapply must_mono; [exact (sure_shouldFailUpgrade s uc Hu s (keeps_refl s))|]. intros r s1 [H1 ->].
    eapply must_mono; [apply osd_steps_run; [exact (stores_keeps _ _ H1 Hs)|exact (underway_keeps _ _ _ H1 Hu)]|].
    intros ret s2 [H2 Hr]. split; [rewrite H2; apply H1|]. eapply runsTo_from; [apply H1|done]. }
  destruct ut; [by apply Hosd| |by apply Hosd]. apply aro_steps_run; [|done|done]. right. by apply Hut.
Qed.

Lemma HealthCheck_sure ut s uc :
  usable ut -> inUpgrade uc -> sure s (@HealthCheck em (upgraderFor ut) uc) (fun r => r = Ok true).
Proof.
  intros Hut Hu. destruct ut; cbn [HealthCheck upgraderFor]; apply sure_PreUpgradeHealthCheck; try done; first [by left|right; by apply Hut].
Qed.
End Steps.
End Live.
