(* ===== verification/OperatorLive.v ===== *)
(** * The operator completes the upgrade

    The assembled operator of [Operator] on the healthy cluster of
    [Environment]: an UpgradeConfig that is reconciled again and again is
    validated, started when its time has come, commenced by a patch of the
    ClusterVersion once its surge capacity is there, and recorded as upgraded once
    the cluster has finished and the surge capacity is gone. *)

From stdpp Require Import base gmap strings list.
From Stdlib Require Import ZArith Lia.
From S2P Require Import Prelude GoTime Api Effects Config Interfaces UpgradeSteps ClusterVersion Scheduler Metrics.
From S2P Require Import SpecProvider UpgradeConfigManager Notifier EventManager UpgraderConfig Availability.
From S2P Require Import HealthChecks Upgraders UpgradersEvents UpgradersCorrect Validation Controller ControllerCorrect ControllerLive Operator.
From S2P Require Import Scaler Environment ScalerLive UpgradersLive.

(** The certificate does not change what a program does. *)
Lemma must_certify {S} (R : forall X, Eff X -> S -> X -> S -> Prop) {A} (P : A -> Prop) (p : M (result A)) H s Q :
  must R p s Q -> must R (certify P p H) s (fun r s' => Q (forget r) s').
Proof.
  revert s. induction p as [r|m|X e k IH]; intros s; cbn; [|done|].
  - by destruct r.
  - intros Hm x s' Hx. apply IH, Hm, Hx.
Qed.

Section Operator.
Context {regexp : Regexp} {semver : Semver} {urlparse : UrlParse}.
Context {imageparse : ImageParse} {json : RegistryJson} {uuid : UuidParse}.
Context {yaml_spec : Yaml SpecProviderConfig} {yaml_local : Yaml Local.LocalProviderConfig}.
Context {yaml_ocm : Yaml Ocm.OcmProviderConfig}.
Context {yaml_notifier : Yaml NotifierConfig} {yaml_ocmNotifier : Yaml OcmNotifierConfig} {yaml_feature : Yaml OcmFeatureConfig}.
Context {yaml_upgrader : Yaml upgraderConfig} {yaml_validation : Yaml ValidationConfig} {yaml_ctrl : Yaml controllerConfig}.
Context (c : Cluster) (attempts : nat).
Notation sp := (cl_Spec c).
Notation cfg := (cl_Config c).
Notation text := (default "" (cl_ConfigMap c !! ConfigField)).

(** A part of the configuration that is there and valid. *)
Definition configures {C} `{!Yaml C} `{!ConfigValidator C} (x : C) : Prop := Unmarshal text = Ok x /\ IsValid x = None.

(** What the operator is configured to do: OCM or the UpgradeConfig in the cluster
    is the source of the spec, and OCM or the log is notified. *)
Record configured : Prop := {
  conf_controller : exists x : controllerConfig, configures x;
  conf_upgrader : configures cfg;
  conf_validation : exists x : ValidationConfig, configures x;
  conf_provider : exists x : SpecProviderConfig, configures x /\
    match cl_Source c with
    | Some (ut, cluster) => ToUpper (Source x) = "OCM" /\ GetUpgradeType x = ut /\ ocm_ID cluster <> "" /\
        exists y : Ocm.OcmProviderConfig, configures y
    | None => ToUpper (Source x) = "LOCAL" /\ exists y : Local.LocalProviderConfig, configures y
    end;
  conf_notifier : exists x : NotifierConfig, configures x /\
    (ToUpper (notifier_Source x) = "OCM" -> exists y : OcmNotifierConfig, configures y);
  conf_feature : exists x : OcmFeatureConfig, configures x;
}.

(** An UpgradeConfig that can be carried out: it names a version in a channel, a
    time, and an upgrader that the configuration suits; when it reserves capacity,
    the cluster can provide it. *)
Record carriable (at_ : Time) : Prop := {
  carry_versioned : versionedSpec sp;
  carry_time : parseRFC3339 (UpgradeAt sp) = Ok at_;
  carry_upgrader : usable c (Type_ sp);
  carry_capacity : CapacityReservation sp = true -> reservable c;
}.

Section Round.
Context (lo hi : Time).
Notation sure := (sure c lo hi).
Notation must := (must (healthy c lo hi)).

(** ** Building the collaborators *)

Context (Hconf : configured).

Lemma sure_configured {C} `{!Yaml C} `{!ConfigValidator C} (x : C) s :
  configures x -> sure s readConfig (fun r => exists y, r = Ok y /\ y = x).
Proof. intros [Hu Hv]. eapply sure_mono; [by apply sure_readConfig|]. intros r ->. by exists x. Qed.

Lemma sure_newOcmClient s u : sure s (Ocm.newOcmClient (Some u)) (fun r => exists y, r = Ok y /\ True).
Proof.
  unfold Ocm.newOcmClient. cbn [deref]. eapply (sure_bind _ _ _ _ _ _ (fun _ => True)); [by apply sure_ret|]. intros u' _.
  destruct (Contains _ _); (eapply sure_mono; [apply sure_NewClient|]); intros r ->; by eexists.
Qed.

Lemma sure_notifierBuilder s :
  sure s (notifierBuilder_New (cl_order c)) (fun r => exists n, r = Ok n /\ faithful c lo hi n).
Proof.
  unfold notifierBuilder_New, notifier_New, readNotifierConfig, readOcmFeatureGate, readOcmNotifierConfig.
  destruct (conf_notifier Hconf) as (x & Hx & Hocm). destruct (conf_feature Hconf) as [f Hf].
  eapply sure_bindr; [exact (sure_configured x s Hx)|]. intros x' ->.
  eapply sure_bindr; [exact (sure_configured f s Hf)|]. intros f' ->.
  cbn zeta. destruct (String.eqb_spec (ToUpper (notifier_Source x)) "OCM") as [Ho|].
  - destruct (Hocm Ho) as [y Hy]. eapply sure_bindr; [exact (sure_configured y s Hy)|]. intros y' ->.
    destruct Hy as [_ Hy]. unfold IsValid, OcmNotifierConfig_IsValid in Hy. unfold notifier_GetOCMBaseURL.
    destruct (url_Parse _) as [u|]; [|done]. unfold NewOCMNotifier. eapply sure_bindr; [apply sure_newOcmClient|].
    intros _ _. apply sure_ret. eexists. split; [done|]. apply ocmNotifier_faithful.
  - apply sure_ret. eexists. split; [done|]. apply logNotifier_faithful.
Qed.

Lemma sure_NewEventManager s :
  sure s (@NewEventManager (operatorBuilders (cl_order c) attempts))
    (fun r => exists n, r = Ok (em n) /\ faithful c lo hi n).
Proof.
  cbn [NewEventManager operatorBuilders]. unfold eventmanager_NewManager, ucm_NewManager.
  eapply (sure_bindr _ _ _ _ _ _ (fun m => m = upgradeConfigManager)); [apply sure_ret; by eexists|]. intros m ->.
  eapply (sure_bindr _ _ _ _ _ _ (fun _ => True)).
  { eapply sure_mono; [apply sure_NewClient|]. intros r ->. by eexists. }
  intros _ _. eapply sure_bindr; [apply sure_notifierBuilder|]. intros n Hn. apply sure_ret. by exists n.
Qed.

Lemma sure_NewUpgrader s n ns' name ut :
  sure s (@NewUpgrader (operatorBuilders (cl_order c) attempts) (em n) (mkTarget name ns' ConfigField) ut)
    (fun r => exists u, r = Ok u /\
       cu_UpgradeCluster u = @UpgradeCluster regexp semver (em n) (notifierBuilder_New (cl_order c)) (upgraderFor c ut) /\
       cu_HealthCheck u = @HealthCheck (em n) (upgraderFor c ut)).
Proof.
  cbn [NewUpgrader operatorBuilders]. unfold upgrader_NewClient.
  eapply (sure_bindr _ _ _ _ _ _ (fun u => `u = upgraderFor c ut)).
  - intros s1 H1. destruct (conf_upgrader Hconf) as [Hu Hv].
    eapply must_mono; [apply (must_certify _ _ _ _ _ (fun r s2 => keeps s s2 /\ r = Ok (upgraderFor c ut)))|].
    + revert s1 H1. change (sure s (upgraders_NewClient (mkTarget name ns' ConfigField) ut) (fun r => r = Ok (upgraderFor c ut))).
      unfold upgraders_NewClient, NewOSDUpgrader, NewAROUpgrader.
      destruct ut; (eapply (sure_bindr _ _ _ _ _ _ (fun x => x = cfg));
        [eapply sure_mono; [by apply (sure_Into c lo hi s (mkTarget name ns' ConfigField) cfg)|]; intros r ->; by eexists|]; intros x ->;
        eapply (sure_bindr _ _ _ _ _ _ (fun _ => True));
        [eapply sure_mono; [apply sure_NewClient|]; intros r ->; by eexists|]; intros _ _; by apply sure_ret).
    + intros [u|e] s2 [H2 Hr]; [|done]. split; [done|]. exists u. split; [done|]. by injection Hr.
  - intros [u Hq] Hu. cbn in Hu. subst u. apply sure_ret. by eexists.
Qed.

Lemma sure_NewValidator s name ns' :
  sure s (@NewValidator (operatorBuilders (cl_order c) attempts) (mkTarget name ns' ConfigField))
    (fun r => exists b, r = Ok (validatorImpl b)).
Proof.
  cbn [NewValidator operatorBuilders]. unfold validator_NewClient, validation_NewClient.
  destruct (conf_validation Hconf) as (x & Hu & Hv).
  eapply (sure_bindr _ _ _ _ _ _ (fun _ => True)); [|intros b _; apply sure_ret; by eexists].
  eapply (sure_bindr _ _ _ _ _ _ (fun y => y = x)); [|intros y ->; apply sure_ret; by eexists].
  eapply sure_mono; [by apply (sure_Into c lo hi s (mkTarget name ns' ConfigField) x)|]. intros r ->. by eexists.
Qed.

(** ** Validation and the refresh *)

Context (at_ : Time) (Hcarry : carriable at_).
Let Hsp := carry_versioned at_ Hcarry.
Let Hat := carry_time at_ Hcarry.

Lemma findUpdate_listed cv v :
  (findUpdate cv v).1 = true -> hasVersion v (AvailableUpdates cv) || hasVersion v (ConditionalUpdates cv) = true.
Proof.
  unfold findUpdate. set (f := fun '(available, image) (u : Release) => _).
  assert (forall us av im, (fold_left f us (av, im)).1 = true -> av = true \/ hasVersion v us = true) as H.
  { induction us as [|u us IH]; intros av im; cbn [fold_left]; [by left|].
    destruct (f (av, im) u) as [av' im'] eqn:E. intros [Ha|Hu]%IH; unfold hasVersion in *; cbn [existsb]; [|right; by rewrite Hu, orb_true_r].
    subst av'. cbn in E. destruct (String.eqb (rel_Version u) v) eqn:Ev; cbn in E |- *; [by right|].
    injection E as -> _. by left. }
  intros [Hav|Hcu]%H; [|by rewrite Hcu, orb_true_r]. apply orb_true_iff. left. unfold hasVersion.
  apply existsb_exists in Hav as (u & Hin & Hu). apply existsb_exists. exists u. split; [done|].
  by apply andb_prop in Hu as [-> _].
Qed.

Lemma sure_fetchCVOUpdates s g cv uc :
  Spec uc = sp -> cv_seen c g cv ->
  sure s (fetchCVOUpdates cv uc) (fun r => exists us, r = Ok us /\ hasVersion (desired_Version (Desired sp)) us = true).
Proof.
  intros Hs Hcv. destruct (seen_service _ _ _ Hcv) as [Hid Hurl]. unfold fetchCVOUpdates.
  destruct (uuid_Parse _) as [id|]; [|done]. destruct (url_Parse _) as [url|]; [|done].
  eapply (sure_bindr _ _ _ _ _ _ (fun _ => True)); [apply sure_ret; by eexists|]. intros id' _.
  eapply (sure_bindr _ _ _ _ _ _ (fun _ => True)); [apply sure_ret; by eexists|]. intros url' _.
  eapply (sure_bind _ _ _ _ _ _ (fun _ => True)).
  { unfold currentVersionText. destruct (seen_current _ _ _ Hcv) as [r ->]. by apply sure_ret. }
  intros [v pv] _. eapply (sure_bindr _ _ _ _ _ _ (fun ups => hasVersion (desired_Version (Desired sp)) (ups.1 ++ ups.2) = true)).
  - apply sure_call; [exact I|done|]. by intros g' x _ H.
  - intros ups Hups. cbn zeta. destruct (Nat.ltb_spec 0 (length (ups.1 ++ ups.2))) as [|Hl]; [apply sure_ret; by eexists|].
    destruct (ups.1 ++ ups.2); [done|]. cbn in Hl. lia.
Qed.

Lemma sure_validator s cincinnati uc cv :
  Spec uc = sp -> progress (stage s) = Idle -> cv_seen c (stage s) cv ->
  sure s (val_IsValidUpgradeConfig (validatorImpl cincinnati) uc cv) (fun r => r = (uc, (validationPassed, None))).
Proof.
  intros Hs Hg Hcv. cbn [val_IsValidUpgradeConfig validatorImpl]. unfold IsValidUpgradeConfig. cbn zeta.
  pose proof Hsp as (Hi & Hc & Hv). rewrite Hs, Hat, Hi. cbn [String.eqb negb].
  apply String.eqb_neq in Hv as Hv'. rewrite Hv'. cbn [andb].
  destruct (seen_upgrade _ _ _ Hcv uc Hs Hg) as (current & dv & cvv & Hdv & Hcur & Hcvv & Hcmp).
  unfold ucVersionOf in Hdv. rewrite Hs in Hdv.
  eapply (sure_bind _ _ _ _ _ _ (fun r => r = (true, true, None))).
  { unfold versionValidation. rewrite Hdv, Hcur. cbn [mbind prog_mbind prog_bind]. rewrite Hcvv.
    unfold compareVersions. cbn zeta. rewrite Hcmp. by apply sure_ret. }
  intros r ->. eapply (sure_bind _ _ _ _ _ _ (fun r => r = (validationPassed, None))); [|intros r ->; by apply sure_ret].
  unfold validateEdge. cbn zeta. eapply (sure_bind _ _ _ _ _ _ (fun r => r = Ok tt)).
  - destruct (_ && _); [|by apply sure_ret]. eapply sure_bindr; [by eapply sure_fetchCVOUpdates|]. intros us Hus.
    apply sure_ret. unfold channelValidation, ucVersionOf. by rewrite Hs, Hus.
  - intros r ->. cbn beta iota zeta. destruct (String.eqb (desired_Channel _) _); [|by apply sure_ret].
    unfold ucVersionOf. rewrite Hs, (findUpdate_listed cv _ (seen_listed _ _ _ Hcv Hg)). by apply sure_ret.
Qed.

(** The provider answers with the spec of the resource. *)
Lemma sure_localProvider s uc h :
  stored s = Some uc -> Spec uc = sp -> historyOf uc = Some h -> Phase h <> UpgradePhaseUpgraded ->
  sure s (provider_Get Local.localProvider) (fun r => r = Ok [sp]).
Proof.
  intros Hst Hs Hh Hp. cbn [provider_Get Local.localProvider]. unfold Local.localProvider_Get, Local.fetchUpgradeConfigs.
  eapply (sure_bindr _ _ _ _ _ _ (fun l => l = [uc])).
  - eapply (sure_bindr _ _ _ _ _ _ (fun _ => True)).
    + eapply sure_mono; [apply sure_GetOperatorNamespace|]. intros r ->. by eexists.
    + intros n _. eapply sure_mono; [by apply sure_ListUpgradeConfigs|]. intros r ->. by eexists.
  - intros l ->. apply sure_ret. cbn [Local.readSpecFromConfig]. unfold historyOf in Hh. rewrite Hh.
    by rewrite bool_decide_true, Hs by done.
Qed.

Lemma sure_ocmProvider s ut cluster :
  cl_Source c = Some (ut, cluster) -> ocm_ID cluster <> "" -> progress (stage s) = Idle ->
  sure s (provider_Get (Ocm.ocmProvider ut)) (fun r => r = Ok [sp]).
Proof.
  intros Hsrc Hid Hg. cbn [provider_Get Ocm.ocmProvider]. unfold Ocm.ocmProvider_Get.
  eapply (sure_bind _ _ _ _ _ _ (fun r => r = Ok cluster)).
  { apply sure_call; [exact I|done|]. intros g x _ (cl & -> & Hcl). rewrite Hsrc in Hcl. by rewrite Hcl. }
  intros r ->. apply String.eqb_neq in Hid. rewrite Hid.
  eapply (sure_bind _ _ _ _ _ _ (fun r => exists n items, r = Ok (n, items) /\ (0 < n)%Z /\
    Ocm.buildUpgradeConfigSpecs (Ocm.getNextOccurringUpgradePolicy items) cluster ut = Ok [sp])).
  { apply sure_call; [exact I|done|]. intros g x _ (n & items & -> & _ & Hsv). unfold servesSpec in Hsv. rewrite Hsrc in Hsv. by exists n, items. }
  intros r (n & items & -> & Hn & Hb). rewrite (proj2 (Z.ltb_lt _ _) Hn). cbn zeta.
  eapply (sure_bindr _ _ _ _ _ _ (fun st => ToLower (ps_Value st) ∉ ["pending"; "completed"; "cancelled"])).
  { apply sure_call; [exact I|done|]. intros g x He (st & -> & _ & Hst). exists st. split; [done|].
    apply Hst; [rewrite Hsrc; by eexists|by eapply evolves_idle]. }
  intros st Hst. assert (Ocm.isActionableUpgradePolicy (Ocm.getNextOccurringUpgradePolicy items) st = true) as ->.
  { unfold Ocm.isActionableUpgradePolicy. cbn zeta. rewrite !not_elem_of_cons in Hst. destruct Hst as (H1 & H2 & H3 & _).
    apply String.eqb_neq in H1, H2, H3. rewrite H1, H2, H3. destruct (Nat.eqb_spec (String.length (policy_Version (Ocm.getNextOccurringUpgradePolicy items))) 0) as [Hl|]; [|done].
    destruct Hsp as (_ & _ & Hv). exfalso. apply Hv. unfold Ocm.buildUpgradeConfigSpecs in Hb.
    destruct (Ocm.inferUpgradeChannelFromChannelGroup _ _); [|done]. injection Hb as <-. cbn. by destruct (policy_Version _). }
  cbn [negb]. rewrite Hb. by apply sure_ret.
Qed.

Lemma sure_provider_New s uc h :
  stored s = Some uc -> Spec uc = sp -> historyOf uc = Some h -> Phase h <> UpgradePhaseUpgraded -> progress (stage s) = Idle ->
  sure s (@provider_New operatorProvider) (fun r => exists pp, r = Ok pp /\ sure s (provider_Get pp) (fun r => r = Ok [sp])).
Proof.
  intros Hst Hs Hh Hp Hg. cbn [provider_New operatorProvider specProviderBuilder].
  unfold specProvider_New, readSpecProviderConfig, readLocalProviderConfig, readOcmProviderConfig.
  destruct (conf_provider Hconf) as (x & Hx & Hsrc).
  eapply sure_bindr; [exact (sure_configured x s Hx)|]. intros x' ->. destruct (cl_Source c) as [[ut cluster]|] eqn:Hcl.
  - destruct Hsrc as (-> & Hut & Hid & y & Hy). cbn [String.eqb Ascii.eqb Bool.eqb].
    eapply sure_bindr; [exact (sure_configured y s Hy)|]. intros y' ->. destruct Hy as [_ Hy].
    unfold IsValid, Ocm.OcmProviderConfig_IsValid in Hy. unfold Ocm.GetOCMBaseURL. destruct (url_Parse _) as [u|]; [|done].
    unfold Ocm.ocmProvider_New. eapply sure_bindr; [apply sure_newOcmClient|]. intros _ _. apply sure_ret. eexists. split; [done|].
    rewrite Hut. by eapply sure_ocmProvider.
  - destruct Hsrc as (-> & y & Hy). cbn [String.eqb Ascii.eqb Bool.eqb].
    eapply sure_bindr; [exact (sure_configured y s Hy)|]. intros y' ->. apply sure_ret. eexists. split; [done|].
    by eapply sure_localProvider.
Qed.

(** So nothing is refreshed. *)
Lemma sure_Refresh s uc h :
  stored s = Some uc -> Spec uc = sp -> historyOf uc = Some h -> Phase h <> UpgradePhaseUpgraded -> progress (stage s) = Idle ->
  sure s (rm_Refresh (refreshManager attempts)) (fun r => r = Ok false).
Proof.
  intros Hst Hs Hh Hp Hg. cbn [rm_Refresh refreshManager]. unfold Refresh.
  eapply sure_bind; [apply sure_GetOperatorNamespace|]. intros r ->.
  eapply (sure_bind _ _ _ _ _ _ (fun r => r = Ok uc)).
  { unfold ucm_Get. eapply sure_bind; [apply sure_GetOperatorNamespace|]. intros r ->.
    eapply sure_bind; [by apply sure_GetUpgradeConfig|]. intros r ->. by apply sure_ret. }
  intros r ->. eapply (sure_bindr _ _ _ _ _ _ (fun p => p = (uc, true))); [apply sure_ret; by eexists|]. intros p ->.
  eapply sure_bind; [by eapply sure_provider_New|]. intros r (pp & -> & Hpp).
  eapply sure_bind; [exact Hpp|]. intros r ->. cbn zeta. rewrite bool_decide_false; [by apply sure_ret|]. cbn [Spec]. intros Hne. by apply Hne.
Qed.

(** ** The phases *)

(** An upgrade that waits for its surge capacity started at [since] or later, and
    the window in which it has to commence is not over. *)
Context (since : Time) (Hsince : (since <= lo)%Z).
Context (Hround : let w := GetUpgradeWindowTimeOutDuration (cfg_UpgradeWindow cfg) in (0 < w)%Z -> (hi <= since + w)%Z).

(** The stage of the cluster in each phase of the resource. *)
Definition staged (p : option UpgradePhase) (uc : UpgradeConfig) (g : Stage) : Prop :=
  (commenced g = false -> razed (surge g) = false) /\
  match p with
  | None => True
  | Some UpgradePhaseNew | Some UpgradePhasePending => progress g = Idle
  | Some UpgradePhaseUpgraded => commenced g = true /\ (CapacityReservation sp = true -> lowered (surge g))
  | Some UpgradePhaseUpgrading =>
      commenced g = false -> forall h t, historyOf uc = Some h -> StartTime h = Some t -> (since <= t)%Z
  | _ => False
  end.

(** The system between two reconciliations. *)
Definition at_phase (p : option UpgradePhase) (s : Sys) : Prop :=
  exists uc, stored s = Some uc /\ at_stage sp p uc /\ staged p uc (stage s).

(** How far a reconciliation gets from a phase and a stage. *)
Definition advances (p : option UpgradePhase) (g : Stage) (q : option UpgradePhase) (g' : Stage) : Prop :=
  match p with
  | None | Some UpgradePhaseNew => q <> None /\ q <> Some UpgradePhaseNew
  | Some UpgradePhasePending => q = Some UpgradePhaseUpgrading \/ q = Some UpgradePhaseUpgraded \/
      q = Some UpgradePhasePending /\ ~ (at_ < lo)%Z
  | Some UpgradePhaseUpgrading => q = Some UpgradePhaseUpgraded \/
      q = Some UpgradePhaseUpgrading /\ ~ settled c g /\ (commenced g' = false -> waits g g')
  | Some UpgradePhaseUpgraded => q = Some UpgradePhaseUpgraded
  | _ => False
  end.

(** A commenced cluster only evolves; an upgrade of one that has finished leaves
    it no surge capacity. *)
Definition evolved (p : option UpgradePhase) (g g' : Stage) : Prop :=
  (commenced g = true -> evolves g g') /\
  (p = Some UpgradePhaseUpgrading -> progress g = Finished -> CapacityReservation sp = true -> lowered (surge g')).

(** The system after a reconciliation that began at phase [p]. *)
Definition moved (p : option UpgradePhase) (s s' : Sys) : Prop :=
  (exists q, at_phase q s' /\ advances p (stage s) q (stage s')) /\ evolved p (stage s) (stage s').

Lemma staged_evolves p uc g g' : staged p uc g -> evolves g g' -> staged p uc g'.
Proof.
  intros [Hz H] He. pose proof (evolves_commenced _ _ He) as Hc. split.
  - rewrite Hc. intros Hn. rewrite (evolves_razed _ _ He); [auto|by apply idle_commenced].
  - destruct p as [[]|]; try done; try by eapply evolves_idle.
    + by rewrite Hc.
    + destruct H as [H1 H2]. split; [congruence|]. intros Hr. by eapply evolves_lowered; [done|..|auto].
Qed.

(** The collaborators of this reconciliation. *)
Record built (n : Notifier) (u : ClusterUpgrader) : Prop := {
  built_notifier : faithful c lo hi n;
  built_upgrade : cu_UpgradeCluster u = @UpgradeCluster regexp semver (em n) (notifierBuilder_New (cl_order c)) (upgraderFor c (Type_ sp));
  built_health : cu_HealthCheck u = @HealthCheck (em n) (upgraderFor c (Type_ sp));
}.

Lemma written_history h uc : Version h = ucVersionOf uc -> historyOf (set_History (SetHistory h (History uc)) uc) = Some h.
Proof.
  intros Hv. unfold historyOf. cbn [History set_History]. change (ucVersionOf (set_History _ uc)) with (ucVersionOf uc).
  rewrite SetHistory_lookup. by rewrite bool_decide_true.
Qed.

Lemma upgradeCluster_must n u uc hist s :
  built n u -> stores c s -> Spec uc = sp -> historyOf uc = Some hist -> Phase hist = UpgradePhaseUpgrading ->
  times_recorded hist -> staged (Some UpgradePhaseUpgrading) uc (stage s) ->
  must (upgradeCluster u uc) s (fun _ s' => exists ph, runsTo c (stage s) ph (stage s') /\ at_phase (Some ph) s').
Proof.
  intros [Hn Hu _] Hs Hspec Hh Hp Ht [Hz Hlo]. unfold upgradeCluster.
  destruct (proj1 Ht ltac:(rewrite Hp; by left)) as [t Hstart].
  assert (underway c since s uc) as Huw by (split_and!; [done|exists hist, t; eauto|done]).
  pose proof (UpgradeCluster_runs c lo hi Hsp n Hn (carry_capacity _ Hcarry) since at_ Hat (notifierBuilder_New (cl_order c))
    sure_notifierBuilder Hround (Type_ sp) (carry_upgrader _ Hcarry) s uc Hs Huw) as Hrun. rewrite <- Hu in Hrun.
  apply must_bind. eapply must_mono; [apply must_and_exec, Hrun|]. clear Hrun.
  intros [[uc' ph] err] s1 [[Hs1 Hr] (tr & Hex)]. cbn [fst snd] in Hr.
  destruct (cu_UpgradeCluster_result _ _ _ _ _ ltac:(by exists hist) Hex) as (Hsame & _ & _).
  pose proof (same_but_conditions_version _ _ Hsame) as Hv. pose proof (sbc_Spec _ _ Hsame) as Hspec'.
  destruct (sbc_desired _ _ Hsame _ Hh) as [cs Hcs]. rewrite <- Hv in Hcs. rewrite Hcs.
  pose proof (GetHistory_Version _ _ _ Hh) as Hver. cbn beta iota zeta.
  assert (forall h1 s2, keeps s1 s2 -> Version h1 = ucVersionOf uc' -> Phase h1 = ph -> StartTime h1 = StartTime hist -> times_recorded h1 ->
    must (r ← updateStatus h1 uc';
      let me := multierror_Append (match r with Err err => Some err | Ok _ => None end) (multierror_Append err []) in
      mret (mkReconcileResult false Minute, errorOrNil me)) s2
     (fun _ s' => exists ph, runsTo c (stage s) ph (stage s') /\ at_phase (Some ph) s')) as Hwrite.
  { intros h1 s2 Hk Hv1 Hp1 Hst1 Ht1. unfold updateStatus. apply must_StatusUpdate.
    - destruct Hs as (w & Hw & _). exists w. rewrite (proj1 Hk). congruence.
    - intros s3 Hs3 He. cbn [must]. pose proof (runsTo_to _ _ _ _ _ Hr (evolves_trans _ _ _ (proj2 Hk) He)) as Hr3.
      exists ph. split; [done|]. eexists. split; [exact Hs3|]. split; [apply at_stage_written; [by rewrite Hspec'|done|done|done]|].
      destruct Hr3 as [(-> & He3 & _)|(Hph & Hc3 & _ & _ & Hl3)].
      + eapply staged_evolves; [|exact He3]. split; [done|]. intros Hc h t' Hh' Ht'. rewrite (written_history _ _ Hv1) in Hh'.
        injection Hh' as <-. rewrite Hst1 in Ht'. by eapply Hlo.
      + split; [congruence|]. destruct Hph as [->| ->]; [congruence|split; auto]. }
  eapply must_sure; [apply (sure_ret _ _ _ _ _ (fun h => h = set_Conditions cs hist)); done|]. intros h0 s2 Hk ->.
  case_bool_decide as Hup.
  - apply must_bind. eapply must_sure; [apply sure_now|]. intros t' s3 Hk' _. cbn [must].
    apply Hwrite; [exact (keeps_trans _ _ _ Hk Hk')|cbn; congruence|done|done|]. split; cbn; intros; [by exists t|by eexists].
  - eapply must_sure; [apply (sure_ret _ _ _ _ _ (fun h => h = set_Phase ph (set_Conditions cs hist))); done|]. intros h1 s3 Hk' ->.
    apply Hwrite; [exact (keeps_trans _ _ _ Hk Hk')|cbn; congruence|done|done|]. split; cbn; intros; [by exists t|done].
Qed.

(** A status update that leaves the phase pending ends the reconciliation. *)
Lemma write_pending p s uc hist :
  is_Some (stored s) -> Spec uc = sp -> Version hist = ucVersionOf uc -> Phase hist = UpgradePhasePending ->
  progress (stage s) = Idle -> razed (surge (stage s)) = false ->
  p = None \/ p = Some UpgradePhaseNew \/ p = Some UpgradePhasePending /\ ~ (at_ < lo)%Z ->
  forall (f : result UpgradeConfig -> M (ReconcileResult * option error)),
  (forall w, exists r, f (Ok w) = mret r) -> must (updateStatus hist uc ≫= f) s (fun _ s' => moved p s s').
Proof.
  intros Hs Hspec Hv Hp Hg Hz Hadv f Hf. unfold updateStatus. apply must_StatusUpdate; [done|].
  intros s' Hs' He. destruct (Hf (set_History (SetHistory hist (History uc)) uc)) as [r ->]. cbn [must mret prog_ret].
  apply idle_commenced in Hg as Hc. split; [|split; [congruence|by destruct Hadv as [->|[->|[-> _]]]]].
  exists (Some UpgradePhasePending). split.
  - eexists. split; [exact Hs'|]. split; [apply at_stage_written; try done|by eapply staged_evolves].
    split; rewrite Hp; intros Hst; repeat destruct Hst as [Hst|Hst]; done.
  - destruct Hadv as [->|[->|[-> Hn]]]; cbn; auto.
Qed.

(** What is established later holds for the state at the beginning. *)
Lemma moved_keeps p s s1 s2 : keeps s s1 -> moved p s1 s2 -> moved p s s2.
Proof.
  intros [_ Hk] ((q & Hq & Ha) & Hev & Hlow). split; [exists q; split; [done|]|split].
  - destruct p as [[]|]; try done. destruct Ha as [Hq'|(Hq' & Hn & Hw)]; [by left|right]. split_and!; [done| |].
    + intros Hs. apply Hn. by eapply evolves_settled.
    + intros Hc. eapply waits_between; [exact Hk|by apply Hw|apply evolves_self].
  - intros Hc. eapply evolves_trans; [exact Hk|]. apply Hev. by rewrite (evolves_commenced _ _ Hk).
  - intros Hp Hf. apply Hlow; [done|]. by eapply evolves_finished.
Qed.

Lemma must_sure_moved {A} p s (q : M A) (f : A -> M (ReconcileResult * option error)) P :
  sure s q P -> (forall a s', keeps s s' -> P a -> must (f a) s' (fun _ s'' => moved p s' s'')) ->
  must (q ≫= f) s (fun _ s' => moved p s s').
Proof.
  intros Hq Hf. eapply must_sure; [exact Hq|]. intros a s1 Hk Ha. eapply must_mono; [by apply Hf|].
  intros ? s2 Hm. by eapply moved_keeps.
Qed.

Lemma keeps_razed s s' : keeps s s' -> progress (stage s) = Idle -> razed (surge (stage s)) = false -> razed (surge (stage s')) = false.
Proof. intros [_ He] Hg Hz. by rewrite (evolves_razed _ _ He Hg). Qed.

Lemma startUpgrade_must n u uc hist s :
  built n u -> stored s = Some uc -> Spec uc = sp -> historyOf uc = Some hist -> Phase hist = UpgradePhasePending ->
  progress (stage s) = Idle -> razed (surge (stage s)) = false ->
  must (@startUpgrade (operatorBuilders (cl_order c) attempts) u uc hist) s (fun _ s' => moved (Some UpgradePhasePending) s s').
Proof.
  intros Hb Hs Hspec Hh Hp Hg Hz. pose proof (GetHistory_Version _ _ _ Hh) as Hv. unfold startUpgrade.
  cbn [NewUpgradeConfigManager operatorBuilders].
  eapply must_sure_moved; [apply (sure_ret _ _ _ _ _ (fun r => r = Ok (refreshManager attempts))); done|]. intros r s1 H1 ->.
  assert (stored s1 = Some uc) as Hs1 by by rewrite (proj1 H1).
  eapply must_sure_moved; [eapply sure_Refresh; [exact Hs1|done|exact Hh|by rewrite Hp|by eapply keeps_idle]|]. intros r s2 H2 ->.
  cbn beta iota. eapply must_sure_moved; [apply sure_now|]. intros t s3 H3 Hnow. cbn beta in Hnow. cbn zeta.
  set (h1 := set_Version _ (set_StartTime (Some t) (set_Phase UpgradePhaseUpgrading hist))).
  pose proof (keeps_trans _ _ _ H1 (keeps_trans _ _ _ H2 H3)) as Hk.
  unfold updateStatus. apply must_StatusUpdate; [exists uc; by rewrite (proj1 Hk)|].
  intros s4 Hs4 He. set (w := set_History (SetHistory h1 (History uc)) uc) in *.
  assert (historyOf w = Some h1) as Hw by by apply written_history.
  pose proof (keeps_idle _ _ Hk Hg) as Hg3. pose proof (keeps_razed _ _ Hk Hg Hz) as Hz3.
  eapply must_mono; [eapply (upgradeCluster_must n u w h1 s4); [done|by exists w|done|done|done| |]|].
  - split; cbn; intros; [by exists t|done].
  - eapply staged_evolves; [|exact He]. split; [done|]. intros _ h t' Hh' Ht'. rewrite Hw in Hh'. injection Hh' as <-.
    cbn in Ht'. injection Ht' as <-. lia.
  - intros _ s5 (ph & Hr & Hq). apply idle_commenced in Hg3. split; [|split; [congruence|done]]. exists (Some ph). split; [done|].
    destruct Hr as [(-> & _)|([-> | ->] & _)]; cbn; auto.
Qed.

Lemma reconcileNew_must n cc u uc hist s p :
  built n u -> stored s = Some uc -> Spec uc = sp -> historyOf uc = Some hist -> progress (stage s) = Idle ->
  razed (surge (stage s)) = false -> Phase hist = UpgradePhaseNew -> p = None \/ p = Some UpgradePhaseNew ->
  must (reconcileNew cc u uc hist) s (fun _ s' => moved p s s').
Proof.
  intros [_ _ Hu] Hs Hspec Hh Hg Hz Hph Hp. unfold reconcileNew. unfold IsReadyToUpgrade. rewrite Hspec, Hat.
  eapply (must_sure_moved _ _ _ _ (fun _ => True)).
  { eapply sure_bind; [apply sure_now|]. intros t _. by apply sure_ret. }
  intros sr s1 H1 _. cbn zeta. eapply (must_sure_moved _ _ _ _ (fun _ => True)).
  { destruct (_ && _); [|by apply sure_ret]. rewrite Hu. eapply sure_bind; [|intros r _; by apply sure_ret].
    apply HealthCheck_sure; [exact Hsp|exact (carry_capacity _ Hcarry)|exact (carry_upgrader _ Hcarry)|by split; [|by exists hist]]. }
  intros _ s2 H2 _. pose proof (keeps_trans _ _ _ H1 H2) as Hk.
  apply write_pending; [exists uc; by rewrite (proj1 Hk)|done|exact (GetHistory_Version _ _ _ Hh)|done| | |tauto|].
  - exact (keeps_idle _ _ Hk Hg).
  - exact (keeps_razed _ _ Hk Hg Hz).
  - intros w. by eexists.
Qed.

Lemma reconcilePending_must n name ns' cc u uc hist cv s :
  built n u -> stored s = Some uc -> Spec uc = sp -> historyOf uc = Some hist -> times_recorded hist -> progress (stage s) = Idle ->
  razed (surge (stage s)) = false -> Phase hist = UpgradePhasePending -> cv_seen c (stage s) cv ->
  must (@reconcilePending (operatorBuilders (cl_order c) attempts) (mkTarget name ns' ConfigField) cc u uc hist cv) s
    (fun _ s' => moved (Some UpgradePhasePending) s s').
Proof.
  intros Hb Hs Hspec Hh Ht Hg Hz Hp Hcv. unfold reconcilePending.
  eapply must_sure_moved; [apply sure_NewValidator|]. intros r s1 H1 (b & ->).
  pose proof (keeps_idle _ _ H1 Hg) as Hg1. pose proof (cv_seen_idle c _ _ _ Hg Hg1 Hcv) as Hcv1.
  eapply must_sure_moved; [by eapply sure_validator|]. intros r s2 H2 ->. cbn beta iota.
  cbn [vr_IsValid IsAvailableUpdate validationPassed negb orb].
  eapply must_sure_moved; [apply sure_gauge|]. intros [] s3 H3 _.
  unfold IsReadyToUpgrade. rewrite Hspec, Hat.
  eapply (must_sure_moved _ _ _ _ (fun sr => IsReady sr = false -> ~ (at_ < lo)%Z)).
  { eapply sure_bind; [apply sure_now|]. intros t Hnow. cbn beta in Hnow. apply sure_ret. unfold After.
    destruct (Z.ltb_spec at_ t); [by destruct (_ <? _)%Z|]. intros _. lia. }
  intros sr s4 H4 Hready. assert (keeps s s4) as Hk by eauto using keeps_trans.
  assert (stored s4 = Some uc) as Hs4 by by rewrite (proj1 Hk). pose proof (keeps_idle _ _ Hk Hg) as Hg4.
  pose proof (keeps_razed _ _ Hk Hg Hz) as Hz4.
  destruct (IsReady sr) eqn:Hr; [by eapply startUpgrade_must|]. specialize (Hready eq_refl).
  apply write_pending; [by exists uc|done|exact (GetHistory_Version _ _ _ Hh)|done|done|done|auto|].
  intros w. cbn zeta. destruct (_ && _); by eexists.
Qed.

Lemma reportUpgradeMetrics_calm name pv v t t' :
  no_panic (reportUpgradeMetrics name pv v t t') /\ all_ev calm (reportUpgradeMetrics name pv v t t').
Proof.
  split; [|eapply all_ev_impl; [apply reads_calm|apply reportUpgradeMetrics_reads]].
  unfold reportUpgradeMetrics, AlertsFromUpgrade, Query, UpdateMetricUpgradeResult, setGauge, now. np_auto.
Qed.

(** The phase of the history that the reconciliation works on, which is [p], or
    new when there was none. *)
Lemma reconcilePhase_must n name ns' cc u uc hist cv s p :
  built n u -> stored s = Some uc -> Spec uc = sp -> historyOf uc = Some hist -> times_recorded hist ->
  staged (Some (Phase hist)) uc (stage s) -> (progress (stage s) = Idle -> cv_seen c (stage s) cv) -> p = Some (Phase hist) \/ p = None ->
  (p = None -> Phase hist = UpgradePhaseNew \/ Phase hist = UpgradePhaseUpgrading) ->
  must (@reconcilePhase (operatorBuilders (cl_order c) attempts) (mkTarget name ns' ConfigField) cc u uc hist cv) s
    (fun _ s' => moved p s s').
Proof.
  intros Hb Hs Hspec Hh Ht Hstd Hcv Hp Hnone. pose proof Hstd as [Hz Hst]. unfold reconcilePhase.
  destruct (Phase hist) eqn:Hph; cbn in Hst; try done.
  - eapply reconcileNew_must; try done; [apply Hz; by apply idle_commenced|]. by destruct Hp as [->| ->]; auto.
  - destruct Hp as [->| ->]; [|by destruct (Hnone eq_refl)]. eapply reconcilePending_must; try done; [|by apply Hcv].
    apply Hz. by apply idle_commenced.
  - eapply must_mono; [eapply (upgradeCluster_must n u uc hist s); [done|by exists uc|done..]|].
    intros _ s' (ph & Hr & Hq). split.
    + exists (Some ph). split; [done|]. destruct Hp as [->| ->]; [|by destruct Hr as [(-> & _)|([-> | ->] & _)]].
      destruct Hr as [(-> & He & Hw)|(Hr & Hc & _ & Hset & _)]; cbn.
      * right. split_and!; [done| |done]. intros [Hf _]. destruct Hw as [Hi _]. congruence.
      * destruct Hr as [->| ->]; [right|by left]. split_and!; [done| |congruence]. intros Hsd. by specialize (Hset Hsd).
    + destruct Hr as [(-> & He & Hi & _)|(_ & _ & He & _ & Hlow)]; split; [done|intros _ Hf; congruence|done|by intros _ Hf; apply Hlow; left].
  - destruct Hp as [->| ->]; [|by destruct (Hnone eq_refl)]. destruct Ht as [H1 H2].
    destruct (H1 ltac:(rewrite Hph; by right; left)) as [t1 E1]. destruct (H2 Hph) as [t2 E2]. rewrite E1, E2.
    eapply must_sure; [apply (sure_ret _ _ _ _ _ (fun _ => True)); done|]. intros t s1 K1 _.
    eapply must_sure; [apply (sure_ret _ _ _ _ _ (fun _ => True)); done|]. intros t' s2 K2 _.
    destruct (reportUpgradeMetrics_calm (uc_Name uc) (PrecedingVersion hist) (ucVersionOf uc) t t') as [Hn Hq].
    eapply must_sure; [by apply sure_quiet|]. intros e s3 K3 _. cbn [must].
    assert (keeps s s3) as Hk by eauto using keeps_trans. split; [|split; [intros _; apply Hk|done]].
    exists (Some UpgradePhaseUpgraded). split; [|done]. exists uc. split; [by rewrite (proj1 Hk)|]. split.
    + split; [done|]. by rewrite Hh, Hph.
    + eapply staged_evolves; [exact Hstd|apply Hk].
Qed.

(** The history, written when it is missing. *)
Lemma newHistory_sure s uc cv :
  Spec uc = sp -> sure s (newHistory uc cv) (fun r => exists h, r = Ok h /\ Version h = ucVersionOf uc /\ times_recorded h /\
    (Phase h = UpgradePhaseNew /\ progress (stage s) = Idle \/ Phase h = UpgradePhaseUpgrading /\ commenced (stage s) = true)).
Proof.
  intros Hs. unfold newHistory. cbn zeta. eapply sure_bind; [by apply sure_HasUpgradeCommenced|]. intros r (b & -> & ->).
  destruct (commenced (stage s)) eqn:Hg.
  - eapply sure_bind; [apply sure_now|]. intros t _. apply sure_ret. eexists. split; [done|]. split_and!; [done| |by right].
    split; cbn; intros; [by eexists|done].
  - apply sure_ret. eexists. split; [done|]. split_and!; [done| |left; split; [done|by apply idle_commenced]].
    split; cbn; intros Hst; repeat destruct Hst as [Hst|Hst]; done.
Qed.

(** The collaborators, once the history is there. *)
Lemma reconcileRest_must n ns' uc hist cv s p :
  faithful c lo hi n -> stored s = Some uc -> Spec uc = sp -> historyOf uc = Some hist -> times_recorded hist ->
  staged (Some (Phase hist)) uc (stage s) -> (progress (stage s) = Idle -> cv_seen c (stage s) cv) -> p = Some (Phase hist) \/ p = None ->
  (p = None -> Phase hist = UpgradePhaseNew \/ Phase hist = UpgradePhaseUpgrading) ->
  must (r ← NewCMTarget (mkTarget "" ns' "");
    match r with
    | Err err => reconcileError err
    | Ok cmTarget =>
      r ← Into cmTarget;
      match r with
      | Err err => reconcileError err
      | Ok cfg =>
        r ← @NewUpgrader (operatorBuilders (cl_order c) attempts) (em n) cmTarget (Type_ (Spec uc));
        match r with
        | Err err => reconcileError err
        | Ok upgrader => @reconcilePhase (operatorBuilders (cl_order c) attempts) cmTarget cfg upgrader uc hist cv
        end end end) s (fun _ s' => moved p s s').
Proof.
  intros Hn Hs Hspec Hh Ht Hst Hcv Hp Hnone. destruct (conf_controller Hconf) as (cc & Hu & Hv).
  eapply (must_sure_moved _ _ _ _ (fun r => exists name ns', r = Ok (mkTarget name ns' ConfigField))).
  { unfold NewCMTarget. cbn [tgt_Name tgt_Namespace ConfigKey]. cbn zeta.
    eapply (sure_bindr _ _ _ _ _ _ (fun _ => True)); [|intros x _; apply sure_ret; by eexists _, _].
    destruct (String.eqb ns' ""); [|apply sure_ret; by eexists].
    eapply sure_mono; [apply sure_GetOperatorNamespace|]. intros r ->. by eexists. }
  intros r s1 H1 (name & ns1 & ->).
  eapply must_sure_moved; [exact (sure_Into c lo hi s1 (mkTarget name ns1 ConfigField) cc Hu Hv)|]. intros r s2 H2 ->.
  eapply must_sure_moved; [apply sure_NewUpgrader|]. intros r s3 H3 (u & -> & Hup & Hhc). rewrite Hspec in Hup, Hhc.
  assert (keeps s s3) as Hk by eauto using keeps_trans.
  eapply (reconcilePhase_must n); try done.
  - by rewrite (proj1 Hk).
  - eapply staged_evolves; [exact Hst|apply Hk].
  - intros Hg. pose proof (evolves_was_idle _ _ (proj2 Hk) Hg) as Hg0. by eapply cv_seen_idle; [exact Hg0| |apply Hcv].
Qed.

(** The phase of a reconciliation that finds or makes a history. *)
Lemma reconcileInstance_must n ns' uc s p :
  faithful c lo hi n -> stored s = Some uc -> at_stage sp p uc -> staged p uc (stage s) ->
  must (@reconcileInstance _ (operatorBuilders (cl_order c) attempts) ns' (em n) uc) s (fun _ s' => moved p s s').
Proof.
  intros Hn Hs [Hspec Hst] Hg. unfold reconcileInstance.
  eapply must_sure_moved; [apply sure_GetCV|]. intros r s1 H1 (cv & -> & Hcv).
  assert (stored s1 = Some uc) as Hs1 by by rewrite (proj1 H1).
  assert (forall g, evolves (stage s1) g -> progress g = Idle -> cv_seen c g cv) as Hcv1.
  { intros g He Hi. eapply cv_seen_idle; [|exact Hi|exact Hcv]. exact (evolves_was_idle _ _ (evolves_trans _ _ _ (proj2 H1) He) Hi). }
  pose proof (staged_evolves _ _ _ _ Hg (proj2 H1)) as Hg1. unfold ensureHistory. destruct (historyOf uc) as [hist|] eqn:Hh.
  - destruct Hst as [-> Ht]. unfold historyOf in Hh. rewrite Hh.
    eapply must_sure; [apply (sure_ret _ _ _ _ _ (fun r => r = Ok (uc, hist))); done|]. intros r s2 H2 ->.
    eapply must_mono; [eapply (reconcileRest_must n ns' uc hist cv s2 (Some (Phase hist))); try done|].
    + by rewrite (proj1 H2).
    + by eapply staged_evolves; [exact Hg1|apply H2].
    + apply Hcv1, H2.
    + by left.
    + intros ? s3 Hm. by eapply moved_keeps.
  - subst p. unfold historyOf in Hh. rewrite Hh.
    eapply must_bind. unfold bindr at 1. eapply must_sure; [by apply newHistory_sure|].
    intros r s2 H2 (h & -> & Hv & Ht & Hph). cbn beta iota.
    apply must_StatusUpdate; [exists uc; by rewrite (proj1 H2)|]. intros s3 Hs3 He3. cbn [must mret prog_ret].
    set (w := set_History (h :: History uc) uc) in *. pose proof (evolves_trans _ _ _ (proj2 H2) He3) as H13.
    assert (historyOf w = Some h) as Hw.
    { unfold historyOf, w. cbn [History set_History GetHistory]. change (ucVersionOf (set_History _ uc)) with (ucVersionOf uc).
      by rewrite bool_decide_true. }
    eapply must_mono; [eapply (reconcileRest_must n ns' w h cv s3 None); try done|].
    + eapply staged_evolves; [|exact H13]. split; [apply Hg1|]. destruct Hph as [[-> Hi]|[-> Hc]]; [done|congruence].
    + by apply Hcv1.
    + by right.
    + tauto.
    + intros ? s4 Hm. apply (moved_keeps None s1 (mkSys (stored s1) (stage s3))); [by split|exact Hm].
Qed.

(** One reconciliation of the assembled operator. *)
Lemma Reconcile_must ns' Name s p :
  at_phase p s -> must (@Reconcile _ (operatorBuilders (cl_order c) attempts) ns' Name) s (fun _ s' => moved p s s').
Proof.
  intros (uc & Hs & Hst & Hg). unfold Reconcile. cbn [NewMetricsClient operatorBuilders].
  eapply must_sure_moved; [apply sure_NewClient|]. intros r s1 H1 ->.
  eapply must_sure_moved; [apply sure_NewEventManager|]. intros r s2 H2 (n & -> & Hn).
  assert (keeps s s2) as Hk by eauto using keeps_trans.
  assert (stored s2 = Some uc) as Hs2 by by rewrite (proj1 Hk).
  eapply must_sure_moved; [by apply sure_GetUpgradeConfig|]. intros r s3 H3 ->.
  eapply reconcileInstance_must; [done|by rewrite (proj1 H3)|done|].
  eapply staged_evolves; [|apply H3]. by eapply staged_evolves; [|apply Hk].
Qed.
End Round.

(** ** A life of reconciliations *)

(** The system before each reconciliation; the clock of the [i]-th is between
    [lo i] and [hi i]. *)
Definition lives (ns' Name : string) (lo hi : nat -> Time) (st : nat -> Sys) : Prop :=
  (forall i, (lo i <= lo (S i))%Z) /\
  forall i, exists o, plays (healthy c (lo i) (hi i)) (@Reconcile _ (operatorBuilders (cl_order c) attempts) ns' Name) (st i) o (st (S i)).

(** The phase of the stored resource; an upgrade that waits for its surge
    capacity. *)
Definition phaseIn (s : Sys) : option UpgradePhase := stored s ≫= phaseOf.
Definition waiting (s : Sys) : Prop := phaseIn s = Some UpgradePhaseUpgrading /\ commenced (stage s) = false.

(** An upgrade that starts in a reconciliation and waits for its surge capacity
    does so within the window in which it has to commence. *)
Definition prompt (lo hi : nat -> Time) (st : nat -> Sys) : Prop :=
  let w := GetUpgradeWindowTimeOutDuration (cfg_UpgradeWindow cfg) in
  (0 < w)%Z -> forall i j, i <= j -> (forall k, i < k <= j -> waiting (st k)) -> (hi j <= lo i + w)%Z.

(** The system does not stay in a stage of a kind. *)
Definition leaves (st : nat -> Sys) (P : Stage -> Prop) : Prop :=
  forall i, P (stage (st i)) -> exists j, i <= j /\ ~ P (stage (st j)).

Lemma at_phase_phaseIn since p s : at_phase since p s -> p = phaseIn s.
Proof.
  intros (uc & Hs & [_ Hst] & _). unfold phaseIn, phaseOf. rewrite Hs. cbn. destruct (historyOf uc); [|done]. by destruct Hst as [-> _].
Qed.
#[local] Instance waiting_dec s : Decision (waiting s).
Proof. unfold waiting. apply _. Defined.
Lemma at_phase_settle since since' p s : at_phase since p s -> ~ waiting s -> at_phase since' p s.
Proof.
  intros Hp Hn. pose proof (at_phase_phaseIn _ _ _ Hp) as E. destruct Hp as (uc & Hs & Hst & Hz & Hg). exists uc.
  split_and!; [done|done|]. split; [done|]. destruct p as [[]|]; try done. intros Hc. by destruct Hn.
Qed.

Section Life.
Context (Hconf : configured) (at_ : Time) (Hcarry : carriable at_).
Context (ns' Name : string) (lo hi : nat -> Time) (st : nat -> Sys) (Hprompt : prompt lo hi st) (Hlives : lives ns' Name lo hi st).

Notation phase i := (phaseIn (st i)).
Notation stage_ i := (stage (st i)).

(** The phase before the [n]-th reconciliation, and the reconciliation in which
    an upgrade that is waiting started. *)
Definition living (n : nat) : Prop :=
  exists i, i <= n /\ (forall k, i < k <= n -> waiting (st k)) /\ at_phase (lo i) (phase n) (st n).

Lemma lo_mono i j : i <= j -> (lo i <= lo j)%Z.
Proof. intros H. induction H as [|j _ IH]; [lia|]. pose proof (proj1 Hlives j). lia. Qed.

Lemma life_must n : living n -> exists since, must (healthy c (lo n) (hi n)) (@Reconcile _ (operatorBuilders (cl_order c) attempts) ns' Name) (st n)
  (fun _ s' => moved (lo n) at_ since (phase n) (st n) s') /\ (waiting (st (S n)) -> exists i, since = lo i /\ i <= n /\ (forall k, i < k <= S n -> waiting (st k))).
Proof.
  intros (i & Hi & Hw & Hp). exists (lo i). split.
  - apply Reconcile_must; [done..|by apply lo_mono| |done]. intros w Hpos. by apply Hprompt.
  - intros HS. exists i. split_and!; [done|done|]. intros k Hk. destruct (decide (k = S n)) as [->|]; [done|]. apply Hw. lia.
Qed.

Lemma life_step n : living n -> living (S n) /\ advances (lo n) at_ (phase n) (stage_ n) (phase (S n)) (stage_ (S n)) /\
  evolved (phase n) (stage_ n) (stage_ (S n)).
Proof.
  intros (since & Hm & Hs)%life_must. destruct (proj2 Hlives n) as [o Ho].
  destruct (must_plays _ _ _ _ _ _ Hm Ho) as (r & _ & (q & Hq & Hadv) & Hev).
  pose proof (at_phase_phaseIn _ _ _ Hq) as ->. split_and!; [|done|done].
  destruct (decide (waiting (st (S n)))) as [Hw|Hw].
  - destruct (Hs Hw) as (i & -> & Hi & Hk). exists i. split_and!; [lia|done|done].
  - exists (S n). split_and!; [done|lia|by eapply at_phase_settle].
Qed.

Context (H0 : living 0).
Lemma life n : living n.
Proof. induction n as [|n IH]; [done|]. by apply life_step. Qed.
Lemma life_advances n : advances (lo n) at_ (phase n) (stage_ n) (phase (S n)) (stage_ (S n)).
Proof. apply life_step, life. Qed.
Lemma life_evolved n : evolved (phase n) (stage_ n) (stage_ (S n)).
Proof. apply life_step, life. Qed.

(** The phases after which the upgrade has started, and is over. *)
Definition afoot (p : option UpgradePhase) : Prop := p = Some UpgradePhaseUpgrading \/ p = Some UpgradePhaseUpgraded.

Lemma life_afoot i j : i <= j -> afoot (phase i) -> afoot (phase j).
Proof.
  intros Hij Hi. induction Hij as [|j Hij IH]; [done|].
  pose proof (life_advances j) as Hadv. destruct IH as [E|E]; rewrite E in Hadv; cbn in Hadv; unfold afoot; tauto.
Qed.
Lemma life_upgraded i j : i <= j -> phase i = Some UpgradePhaseUpgraded -> phase j = Some UpgradePhaseUpgraded.
Proof. intros Hij Hi. induction Hij as [|j Hij IH]; [done|]. pose proof (life_advances j) as Hadv. by rewrite IH in Hadv. Qed.
Lemma life_evolves i j : i <= j -> commenced (stage_ i) = true -> evolves (stage_ i) (stage_ j).
Proof.
  intros Hij Hi. induction Hij as [|j Hij IH]; [apply evolves_self|]. eapply evolves_trans; [exact IH|].
  apply (life_evolved j). by rewrite (evolves_commenced _ _ IH).
Qed.

(** The upgrade starts once its time has come. *)
Lemma life_starts k : (forall i, k <= i -> (at_ < lo i)%Z) -> afoot (phase (S (S k))).
Proof.
  intros Hk. pose proof (life_advances k) as Ha1. pose proof (life_advances (S k)) as Ha2.
  assert (phase (S k) <> None /\ phase (S k) <> Some UpgradePhaseNew) as [Hn1 Hn2].
  { destruct (life k) as (? & _ & _ & Hp). destruct (phase k) as [[]|]; cbn in Ha1; naive_solver. }
  specialize (Hk (S k) ltac:(lia)).
  destruct (phase (S k)) as [[]|] eqn:E; cbn in Ha2; try done; unfold afoot; tauto.
Qed.

(** It commences once its surge capacity is there. *)
Definition underWay (n : nat) : Prop := phase n = Some UpgradePhaseUpgraded \/ phase n = Some UpgradePhaseUpgrading /\ commenced (stage_ n) = true.

Lemma life_waits n : waiting (st n) -> underWay (S n) \/ waiting (st (S n)) /\ waits (stage_ n) (stage_ (S n)).
Proof.
  intros [E Hc]. pose proof (life_advances n) as Hadv. rewrite E in Hadv. destruct Hadv as [H|(H & _ & Hw)]; [left; by left|].
  destruct (commenced (stage_ (S n))) eqn:HS; [left; by right|right]. split; [by split|auto].
Qed.
Lemma life_asked i j : i <= j -> waiting (st i) -> surge (stage_ i) <> NoSurge ->
  (exists m, underWay m) \/ waiting (st j) /\ surge (stage_ j) <> NoSurge.
Proof.
  intros Hij Hi Hs. induction Hij as [|j Hij IH]; [by right|]. destruct IH as [?|[Hw _]]; [by left|].
  destruct (life_waits _ Hw) as [?|[Hw' (_ & _ & _ & Hn)]]; [left; by eexists|by right].
Qed.
Lemma life_commences n : afoot (phase n) -> leaves st (fun g => surge g = Rising) -> exists m, underWay m.
Proof.
  intros [E|E] Hl; [|exists n; by left]. destruct (commenced (stage_ n)) eqn:Hc; [exists n; by right|].
  destruct (life_waits n ltac:(by split)) as [?|[Hw (_ & _ & _ & Hn)]]; [by eexists|].
  assert (exists j, S n <= j /\ surge (stage_ j) <> Rising) as (j & Hj & Hr).
  { destruct (surge (stage_ (S n))) eqn:Es; [| |exists (S n)..]; try (by rewrite Es); [by exists (S n); rewrite Es|]. by apply Hl. }
  destruct (life_asked _ _ Hj Hw Hn) as [?|[Hw' Hn']]; [done|]. destruct (life j) as (i & _ & _ & uc & _ & _ & Hz & _).
  specialize (Hz (proj2 Hw')). destruct (life_waits _ Hw') as [?|[_ (_ & Hs & _)]]; [by eexists|].
  by destruct (surge (stage_ j)).
Qed.

(** It is done once the cluster has finished and its surge capacity is gone. *)
Lemma life_settled n : phase n = Some UpgradePhaseUpgrading -> settled c (stage_ n) -> phase (S n) = Some UpgradePhaseUpgraded.
Proof. intros E Hs. pose proof (life_advances n) as Hadv. rewrite E in Hadv. destruct Hadv as [?|(_ & Hn & _)]; [done|by destruct Hn]. Qed.

Lemma life_completes n : underWay n -> leaves st (fun g => progress g = Commenced) -> leaves st (fun g => surge g = Falling) ->
  exists N, phase N = Some UpgradePhaseUpgraded.
Proof.
  intros [E|[E Hc]] Hfin Hfall; [by eexists|].
  assert (forall m, n <= m -> phase m = Some UpgradePhaseUpgrading \/ exists N, phase N = Some UpgradePhaseUpgraded) as Hph.
  { intros m Hm. destruct (life_afoot _ _ Hm (or_introl E)) as [?|?]; [by left|right; by eexists]. }
  assert (exists f, n <= f /\ progress (stage_ f) = Finished) as (f & Hf & Hpf).
  { destruct (progress (stage_ n)) eqn:Ep; [apply idle_commenced in Ep; congruence| |by exists n].
    destruct (Hfin n Ep) as (f & Hf & Hnf). exists f. split; [done|]. destruct (life_evolves _ _ Hf Hc) as [[Hp|[_ Hp]] _]; congruence. }
  destruct (Hph f Hf) as [Ef|?]; [|done]. assert (commenced (stage_ f) = true) as Hcf by (unfold commenced; by rewrite Hpf).
  pose proof (life_evolved f) as [_ Hlow]. specialize (Hlow Ef Hpf).
  assert (forall m, S f <= m -> surge (stage_ m) <> Falling -> settled c (stage_ m)) as Hset.
  { intros m Hm Hn. pose proof (life_evolves f m ltac:(lia) Hcf) as He. split; [by eapply evolves_finished|]. intros Hr.
    assert (lowered (surge (stage_ m))) as [?|Hz]; [|by left|right; by destruct (surge (stage_ m))].
    eapply evolves_lowered; [apply (life_evolves (S f) m Hm)| |by apply Hlow]; by rewrite (evolves_commenced _ _ (proj1 (life_evolved f) Hcf)). }
  assert (exists m, S f <= m /\ surge (stage_ m) <> Falling) as (m & Hm & Hn).
  { destruct (surge (stage_ (S f))) eqn:Es; [exists (S f)..| |exists (S f)]; try (by rewrite Es). by apply Hfall. }
  destruct (Hph m ltac:(lia)) as [Em|?]; [|done]. exists (S m). apply life_settled; [done|by apply Hset].
Qed.
End Life.
End Operator.

(** ** Properties *)

(** C6: the assembled operator, on a cluster that keeps working, brings an
    UpgradeConfig from its creation to the phase Upgraded, for good, with no surge
    capacity that stays, and no reconciliation panics.  It is enough that the
    scheduled time comes, that the surge capacity comes up within the upgrade
    window, when there is one, and goes away when it is removed, and that a
    cluster whose ClusterVersion asks for the version finishes in the end.  The
    spec may come from the cluster or from OCM. *)
Theorem operator_completes_upgrade {regexp : Regexp} {semver : Semver} {urlparse : UrlParse} {imageparse : ImageParse}
    {json : RegistryJson} {uuid : UuidParse} {yaml_spec : Yaml SpecProviderConfig} {yaml_local : Yaml Local.LocalProviderConfig}
    {yaml_ocm : Yaml Ocm.OcmProviderConfig} {yaml_notifier : Yaml NotifierConfig} {yaml_ocmNotifier : Yaml OcmNotifierConfig}
    {yaml_feature : Yaml OcmFeatureConfig} {yaml_upgrader : Yaml upgraderConfig} {yaml_validation : Yaml ValidationConfig}
    {yaml_ctrl : Yaml controllerConfig} c attempts at_ ns Name lo hi st uc0 :
  configured c -> carriable c at_ -> lives c attempts ns Name lo hi st -> prompt c lo hi st ->
  stored (st 0) = Some uc0 -> Spec uc0 = cl_Spec c -> History uc0 = [] -> surge (stage (st 0)) = NoSurge ->
  (exists k, forall i, k <= i -> (at_ < lo i)%Z) ->
  leaves st (fun g => surge g = Rising) -> leaves st (fun g => progress g = Commenced) -> leaves st (fun g => surge g = Falling) ->
  (forall i o s', plays (healthy c (lo i) (hi i)) (@Reconcile _ (operatorBuilders (cl_order c) attempts) ns Name) (st i) o s' ->
     exists r, o = Done r) /\
  exists N, forall n, N <= n -> (exists uc, stored (st n) = Some uc /\ Spec uc = cl_Spec c /\ phaseOf uc = Some UpgradePhaseUpgraded) /\
    commenced (stage (st n)) = true /\ (CapacityReservation (cl_Spec c) = true -> lowered (surge (stage (st n)))).
Proof.
  intros Hconf Hcarry Hlives Hprompt Hs Hspec Hh Hg [k Hk] Hrise Hfin Hfall.
  assert (living c lo st 0) as H0.
  { exists 0. assert (at_phase c (lo 0) None (st 0)) as Hp.
    { exists uc0. split; [done|]. split; [|by split; [rewrite Hg|]]. split; [done|]. unfold historyOf. by rewrite Hh. }
    split_and!; [done|lia|]. by rewrite <- (at_phase_phaseIn _ _ _ _ Hp). }
  pose proof (life c attempts Hconf at_ Hcarry ns Name lo hi st Hprompt Hlives H0) as Hp. split.
  { intros i o s' Ho. destruct (life_must c attempts Hconf at_ Hcarry ns Name lo hi st Hprompt Hlives i (Hp i)) as (since & Hm & _).
    destruct (must_plays _ _ _ _ _ _ Hm Ho) as (r & -> & _). by exists r. }
  pose proof (life_starts c attempts Hconf at_ Hcarry ns Name lo hi st Hprompt Hlives H0 k Hk) as Haf.
  destruct (life_commences c attempts Hconf at_ Hcarry ns Name lo hi st Hprompt Hlives H0 _ Haf Hrise) as [m Hm].
  destruct (life_completes c attempts Hconf at_ Hcarry ns Name lo hi st Hprompt Hlives H0 m Hm Hfin Hfall) as [N HN].
  exists N. intros n Hn. pose proof (life_upgraded c attempts Hconf at_ Hcarry ns Name lo hi st Hprompt Hlives H0 N n Hn HN) as Hup.
  destruct (Hp n) as (i & _ & _ & uc & Huc & [Hsp _] & _ & Hst). rewrite Hup in Hst. split; [|exact Hst].
  exists uc. split_and!; [done|done|]. unfold phaseIn in Hup. by rewrite Huc in Hup.
Qed.

(** *** Witnesses *)

(** A cluster that is reconciled every half hour from eight o'clock, and takes
    its spec from OCM: the upgrade is due at ten, the surge capacity it then asks
    for is up at half past eleven, from six in the evening on a commenced upgrade
    is finished, and from seven on the surge capacity that was removed is gone. *)
Definition demo_time (i : nat) : Time := (demo_noon - 240 * Minute + Z.of_nat i * (30 * Minute))%Z.
Definition demo_spec : UpgradeConfigSpec :=
  mkSpec (mkUpdate "4.15.1" "stable-4.15" "") "2024-03-01T10:00:00Z" 60 OSD true.
Definition demo_ocmCluster : OcmCluster := mkOcmCluster "c" "stable" 60.
Definition demo_workerSet : MachineSet :=
  mkMachineSet "worker" MACHINE_API_NAMESPACE None 0 None (Some 3%Z) (Some ∅) (Some ∅) 3 3.
Definition demo_cluster : Cluster :=
  mkCluster "muo" demo_spec ∅ demo_cfg stateMap [demo_workerSet] [demo_workerSet] (Some (OSD, demo_ocmCluster)).
Definition demo_live_operator : Builders :=
  @operatorBuilders substringRegexp plainSemver plainUrl demo_imageParse demo_json demo_uuid
    (fun _ => Ok (mkSpecProviderConfig "OSD" "OCM")) (fun _ => unavailable)
    (fun _ => Ok (Ocm.mkOcmProviderConfig "https://api")) (fun _ => Ok (mkNotifierConfig "OCM"))
    (fun _ => Ok (mkOcmNotifierConfig "https://api")) (fun _ => Ok (mkOcmFeatureConfig []))
    demo_up_yaml (fun _ => Ok (mkValidationConfig true)) stateMap 12.

Definition demo_cv_at (p : Progress) : ClusterVersion :=
  let old := mkUpdateHistory CompletedUpdate "4.14.9" 0 (Some Hour) in
  match p with
  | Idle => mkClusterVersion "id" "stable-4.15" "" None [] "4.14.9" [old] [mkRelease "4.15.1" "img"] [] []
  | Commenced => mkClusterVersion "id" "stable-4.15" "" (Some (mkDesiredUpdate "4.15.1" "")) [] "4.15.1"
      [mkUpdateHistory PartialUpdate "4.15.1" Hour None; old] [] [] []
  | Finished => mkClusterVersion "id" "stable-4.15" "" (Some (mkDesiredUpdate "4.15.1" "")) [] "4.15.1"
      [mkUpdateHistory CompletedUpdate "4.15.1" Hour (Some (2 * Hour))%Z; old] [] [] []
  end.

#[local] Instance selector_eq_dec : EqDecision selector.
Proof. solve_decision. Defined.
Definition demo_surgeSet (ready : Z) (deleted : option Time) : MachineSet :=
  mkMachineSet "worker-upgrade" MACHINE_API_NAMESPACE (Some {[LABEL_UPGRADE := "true"]}) (demo_time 6) deleted (Some 1%Z)
    (Some ∅) (Some ∅) 1 ready.
Definition demo_surgeSets (u : Surge) : list MachineSet :=
  match u with
  | NoSurge | Gone => []
  | Rising => [demo_surgeSet 0 None]
  | Risen => [demo_surgeSet 1 None]
  | Falling => [demo_surgeSet 1 (Some 0%Z)]
  end.
Definition demo_machines (u : Surge) : list Machine :=
  match u with Risen | Falling => [mkMachine "surge-machine" (Some "Running") (Some "surge-node")] | _ => [] end.
Definition demo_surgeNode : Node := mkNode "surge-node" false [] ∅ ∅ [("Ready", ConditionTrue)] None.

Definition demo_answer (t : Time) (g : Stage) X (e : Eff X) : X :=
  match e in Eff X return X with
  | Now => t
  | LookupEnv _ => Some "muo"
  | NewClient _ => Ok tt
  | GetConfigMap _ _ => Ok ∅
  | GetCV => Ok (demo_cv_at (progress g))
  | PatchCV cv _ => Ok cv
  | CincinnatiGetUpdates _ _ _ _ => Ok ([mkRelease "4.15.1" "img"], [])
  | ListClusterOperators => Ok []
  | ListNodes _ => Ok [demo_surgeNode]
  | GetMachineConfigPool _ => Ok (mkMCP 10 match progress g with Finished => 10 | _ => 3 end)
  | ListMachineSets sel => Ok (if bool_decide (sel = upgradeSets) then demo_surgeSets (surge g) else [demo_workerSet])
  | CreateMachineSet _ => Ok tt
  | DeleteMachineSet _ => Ok tt
  | ListMachines _ => Ok (demo_machines (surge g))
  | GetNode _ => Ok demo_surgeNode
  | ListPDBs => Ok []
  | DvoNew => Ok tt
  | DvoGetMetrics => Ok ""
  | PromQuery _ => Ok []
  | AmListSilences => Ok []
  | AmPostSilence _ _ _ _ _ => Ok tt
  | AmDeleteSilence _ => Ok tt
  | HttpGet _ _ => Ok (200%Z, "")
  | GetFileIntegrity _ _ => Ok tt
  | UpdateFileIntegrity _ _ _ => Ok tt
  | OcmGetCluster => Ok demo_ocmCluster
  | OcmPostServiceLog _ _ => Ok tt
  | OcmGetUpgradePolicies _ => Ok (1%Z, [mkUpgradePolicy "p" "4.15.1" (mkCivil 2024 3 1 10 0 0 0 0)])
  | OcmGetPolicyState _ _ => Ok (mkPolicyState "scheduled" "")
  | OcmSetState _ _ _ _ => Ok tt
  | e' => default_resp e'
  end.

Definition demo_progress (i : nat) {X} (e : Eff X) (p : Progress) : Progress :=
  match p with
  | Idle => if commencing demo_cluster e then Commenced else Idle
  | Commenced => if Nat.leb 20 i then Finished else Commenced
  | Finished => Finished
  end.
Definition demo_surge (i : nat) {X} (e : Eff X) (u : Surge) : Surge :=
  match u with
  | NoSurge => match e with CreateMachineSet _ => Rising | _ => NoSurge end
  | Rising => match e with DeleteMachineSet _ => Falling | _ => if Nat.leb 7 i then Risen else Rising end
  | Risen => match e with DeleteMachineSet _ => Falling | _ => Risen end
  | Falling => if Nat.leb 22 i then Gone else Falling
  | Gone => Gone
  end.
Definition demo_stage (i : nat) {X} (e : Eff X) (g : Stage) : Stage := mkStage (demo_progress i e (progress g)) (demo_surge i e (surge g)).
Definition demo_serves (i : nat) X (e : Eff X) (s : Sys) : X * Sys :=
  let g := demo_stage i e (stage s) in
  match storeAnswers demo_cluster e (stored s) with
  | Some r => (r.1, mkSys r.2 g)
  | None => (demo_answer (demo_time i) g X e, mkSys (stored s) g)
  end.

Lemma demo_cv_healthy g : @cv_healthy plainSemver plainUrl demo_uuid demo_cluster g (demo_cv_at (progress g)).
Proof.
  destruct g as [p u]. split; cbn [progress].
  - by destruct p.
  - destruct p; by eexists.
  - intros ->. exists "4.14.9". do 2 eexists. by split_and!.
  - by intros ->.
  - intros ->. constructor.
  - by destruct p.
  - by intros ->.
Qed.

Lemma demo_surgeSets_ok u : surgeSets demo_cluster u (demo_surgeSets u).
Proof. destruct u; cbn; try done; (split_and!; [by repeat constructor|done|by intros; repeat constructor]). Qed.

Lemma demo_answers t g X (e : Eff X) :
  @answers plainSemver plainUrl demo_uuid demo_cluster t t g X e (demo_answer t g X e).
Proof.
  destruct e; cbn [answers demo_answer]; try done.
  - exists (demo_cv_at (progress g)). split; [done|apply demo_cv_healthy].
  - by exists [].
  - eexists. split; [done|]. split_and!; [by intros ->|by intros ->|]. intros ->. apply demo_surgeSets_ok.
  - eexists. split; [done|]. destruct g as [p u]. cbn. split_and!; [by destruct u; repeat constructor; eexists|by intros _ [->| ->]|].
    intros n _. split; [by intros _; destruct u; repeat constructor; eexists|by intros _ ->].
  - exists [demo_surgeNode]. by split.
  - exists demo_surgeNode. by split.
  - exists (mkMCP 10 match progress g with Finished => 10 | _ => 3 end). split; [done|]. by intros ->.
  - by exists [].
  - by exists [].
  - exists demo_ocmCluster. by split.
  - eexists _, _. split; [reflexivity|]. split; [vm_compute; reflexivity|]. split; [done|]. vm_compute. reflexivity.
  - eexists. split; [reflexivity|]. split; [vm_compute; by eexists|]. intros _ _. apply (bool_decide_eq_true_1 _). vm_compute. reflexivity.
  - by exists 200%Z, "".
  - by exists "".
  - eexists. split; [reflexivity|]. reflexivity.
Qed.

Lemma demo_stage_moves i X (e : Eff X) g : moves demo_cluster e g (demo_stage i e g).
Proof.
  destruct g as [p u]. split; cbn [surge progress demo_stage].
  - unfold surges, drifts. destruct u; cbn [demo_surge]; destruct e; auto; by destruct (Nat.leb _ i); auto.
  - destruct p; cbn [demo_progress].
    + destruct (commencing demo_cluster e) eqn:He; [left|right; split; [done|by left]].
      split_and!; [done..|]. unfold commenced. cbn. by rewrite He.
    + right. split; [done|]. destruct (Nat.leb 20 i); [by right|by left].
    + right. split; [done|by left].
Qed.

Lemma demo_serves_healthy i X (e : Eff X) s :
  @healthy plainSemver plainUrl demo_uuid demo_cluster (demo_time i) (demo_time i) X e s (demo_serves i X e s).1 (demo_serves i X e s).2.
Proof.
  unfold demo_serves. cbn zeta. split; [|destruct (storeAnswers _ e (stored s)); apply demo_stage_moves].
  destruct (storeAnswers _ e (stored s)); [done|]. split; [apply demo_answers|done].
Qed.
Lemma demo_serves_stage i X (e : Eff X) s : stage (demo_serves i X e s).2 = demo_stage i e (stage s).
Proof. unfold demo_serves. cbn zeta. by destruct (storeAnswers _ e (stored s)). Qed.

(** What every request brings about, or keeps. *)
Definition kept (i : nat) (P Q : Stage -> Prop) : Prop := forall X (e : Eff X) g, P g -> Q (demo_stage i e g).
Lemma demo_run_kept {A} i P (p : M A) s : kept i P P -> P (stage s) -> P (stage (run (demo_serves i) p s).2).
Proof.
  intros HP. revert s. induction p as [a|m|X e k IH]; intros s Hs; cbn [run]; [done..|].
  pose proof (demo_serves_stage i X e s) as He. destruct (demo_serves i X e s) as [x s1]. cbn [snd] in He.
  specialize (IH x s1). destruct (run (demo_serves i) (k x) s1) as [[tr o] s2]. cbn [snd] in IH |- *. apply IH. rewrite He. by apply HP.
Qed.

Definition demo_reconcile_live (i : nat) (s : Sys) :=
  run (demo_serves i) (@Reconcile demo_ctrl_yaml demo_live_operator "muo" "managed-upgrade-config") s.
Fixpoint demo_life (i : nat) : Sys :=
  match i with
  | O => mkSys (Some (mkUpgradeConfig "managed-upgrade-config" "muo" "1" demo_spec [])) (mkStage Idle NoSurge)
  | S i => (demo_reconcile_live i (demo_life i)).2
  end.

Lemma demo_round i (P Q : Stage -> Prop) :
  kept i P Q -> kept i Q Q -> P (stage (demo_life i)) -> Q (stage (demo_life (S i))).
Proof.
  intros HP HQ. cbn [demo_life]. unfold demo_reconcile_live, Reconcile. generalize (demo_life i). intros s Hs.
  cbn [NewMetricsClient demo_live_operator operatorBuilders]. unfold metrics_NewClient.
  cbn [mbind prog_mbind prog_bind call run]. pose proof (demo_serves_stage i _ (NewClient "metrics") s) as He.
  destruct (demo_serves i _ (NewClient "metrics") s) as [x s1]. cbn [snd] in He.
  match goal with |- Q (stage (let '(_, _) := run ?h ?p s1 in _).2) => pose proof (demo_run_kept i Q p s1 HQ) as Hq;
    destruct (run h p s1) as [[tr o] s2] end. apply Hq. rewrite He. by apply HP.
Qed.

(** From [n] on every reconciliation brings it about. *)
Lemma demo_leaves (P Q R : Stage -> Prop) n :
  (forall g, P g -> Q g) -> (forall g, R g -> ~ P g) -> (forall g, R g -> Q g) -> (forall i, kept i Q Q) -> (forall i, n <= i -> kept i Q R) ->
  leaves demo_life P.
Proof.
  intros HPQ HRP HRQ HQ HR i Hi. assert (forall m, Q (stage (demo_life (m + i)))) as Hm.
  { induction m as [|m IH]; [by apply HPQ|]. by apply (demo_round _ Q Q). }
  exists (S (n + i)). split; [lia|]. apply HRP. apply (demo_round _ Q R); [apply HR; lia| |apply Hm].
  intros X e g Hg. apply HR; [lia|]. by apply HRQ.
Qed.

Lemma demo_rising_left : leaves demo_life (fun g => surge g = Rising).
Proof.
  apply (demo_leaves _ (fun g => surge g <> NoSurge) (fun g => surge g <> NoSurge /\ surge g <> Rising) 7); [congruence|tauto|tauto| |].
  - intros i X e [p u]. cbn [surge demo_stage]. destruct u; cbn [demo_surge]; try done; destruct e; try done; by destruct (Nat.leb _ i).
  - intros i Hi X e [p u]. apply Nat.leb_le in Hi. cbn [surge demo_stage].
    destruct u; cbn [demo_surge]; intros Hn; rewrite ?Hi; try (by destruct Hn); split; destruct e; try done; by destruct (Nat.leb 22 i).
Qed.
Lemma demo_falling_left : leaves demo_life (fun g => surge g = Falling).
Proof.
  apply (demo_leaves _ (fun g => razed (surge g) = true) (fun g => surge g = Gone) 22); [by intros g ->|congruence|by intros g ->| |];
    intros i; [|intros Hi; apply Nat.leb_le in Hi]; intros X e [p u]; cbn [surge demo_stage]; destruct u; cbn [demo_surge]; try done;
    try rewrite Hi; try done; by destruct (Nat.leb _ i).
Qed.
Lemma demo_commenced_kept i : kept i (fun g => commenced g = true) (fun g => commenced g = true).
Proof. intros X e [p u]. unfold commenced. cbn [progress demo_stage]. destruct p; cbn [demo_progress]; try done. by destruct (Nat.leb _ i). Qed.
Lemma demo_commenced_left : leaves demo_life (fun g => progress g = Commenced).
Proof.
  apply (demo_leaves _ (fun g => commenced g = true) (fun g => progress g = Finished) 20); [by intros [p u]; cbn; intros ->|congruence
    |by intros [p u]; cbn; intros ->|exact demo_commenced_kept|].
  intros i Hi. apply Nat.leb_le in Hi. intros X e [p u]. unfold commenced. cbn [progress demo_stage]. destruct p; cbn [demo_progress]; try done. by rewrite Hi.
Qed.

Lemma demo_lives : @lives substringRegexp plainSemver plainUrl demo_imageParse demo_json demo_uuid
    (fun _ => Ok (mkSpecProviderConfig "OSD" "OCM")) (fun _ => unavailable)
    (fun _ => Ok (Ocm.mkOcmProviderConfig "https://api")) (fun _ => Ok (mkNotifierConfig "OCM"))
    (fun _ => Ok (mkOcmNotifierConfig "https://api")) (fun _ => Ok (mkOcmFeatureConfig []))
    demo_up_yaml (fun _ => Ok (mkValidationConfig true)) demo_ctrl_yaml demo_cluster 12 "muo" "managed-upgrade-config"
    demo_time demo_time demo_life.
Proof.
  split; [intros i; unfold demo_time, Minute, Second; lia|].
  intros i. exists (demo_reconcile_live i (demo_life i)).1.2. apply run_plays. intros X e s. apply demo_serves_healthy.
Qed.

(** The upgrade starts in the fifth reconciliation and commences in the seventh,
    which is an hour later. *)
Lemma demo_commenced i : 8 <= i -> commenced (stage (demo_life i)) = true.
Proof.
  intros Hi. induction Hi as [|i _ IH]; [vm_compute; reflexivity|].
  by apply (demo_round i (fun g => commenced g = true) (fun g => commenced g = true)); [apply demo_commenced_kept..|].
Qed.
Lemma demo_waiting i : waiting (demo_life i) -> 6 <= i <= 7.
Proof.
  intros [Hp Hc]. destruct (Nat.leb_spec 8 i) as [Hi|Hi]; [pose proof (demo_commenced i Hi); congruence|].
  do 6 (destruct i as [|i]; [vm_compute in Hp; discriminate Hp|]). lia.
Qed.
Lemma demo_prompt : prompt demo_cluster demo_time demo_time demo_life.
Proof.
  intros _ i j Hij Hk. change (GetUpgradeWindowTimeOutDuration _) with (120 * Minute)%Z. unfold demo_time, Minute, Second.
  destruct (Nat.eq_dec i j) as [->|Hne]; [lia|]. pose proof (demo_waiting j (Hk j ltac:(lia))).
  pose proof (demo_waiting (S i) (Hk (S i) ltac:(lia))). lia.
Qed.

(** Before ten the resource is pending; it waits for the surge capacity; until the
    evening it is upgrading, and until the surge capacity is gone. *)
Lemma operator_completes_upgrade_witness :
  map (fun i => (phaseIn (demo_life i), stage (demo_life i))) [0; 1; 5; 6; 7; 8; 20; 21; 22; 23] =
    [(None, mkStage Idle NoSurge); (Some UpgradePhasePending, mkStage Idle NoSurge); (Some UpgradePhasePending, mkStage Idle NoSurge);
     (Some UpgradePhaseUpgrading, mkStage Idle Rising); (Some UpgradePhaseUpgrading, mkStage Idle Rising);
     (Some UpgradePhaseUpgrading, mkStage Commenced Risen); (Some UpgradePhaseUpgrading, mkStage Commenced Risen);
     (Some UpgradePhaseUpgrading, mkStage Finished Falling); (Some UpgradePhaseUpgrading, mkStage Finished Falling);
     (Some UpgradePhaseUpgraded, mkStage Finished Gone)] /\
  exists N, forall n, N <= n ->
    (exists uc, stored (demo_life n) = Some uc /\ Spec uc = demo_spec /\ phaseOf uc = Some UpgradePhaseUpgraded) /\
    commenced (stage (demo_life n)) = true /\ (CapacityReservation demo_spec = true -> lowered (surge (stage (demo_life n)))).
Proof.
  split; [vm_compute; reflexivity|].
  refine (proj2 (@operator_completes_upgrade substringRegexp plainSemver plainUrl demo_imageParse demo_json demo_uuid
    _ _ _ _ _ _ _ _ _ demo_cluster 12 (demo_noon - 120 * Minute)%Z "muo" "managed-upgrade-config" demo_time demo_time demo_life
    (mkUpgradeConfig "managed-upgrade-config" "muo" "1" demo_spec []) _ _ demo_lives demo_prompt eq_refl eq_refl eq_refl eq_refl _
    demo_rising_left demo_commenced_left demo_falling_left)).
  - split; cbn; first [by eexists | by split | idtac].
    + eexists. split; [by split|]. split_and!; [done|done|done|by eexists].
    + eexists. split; [by split|]. intros _. by eexists.
  - split; [done|vm_compute; reflexivity|done|]. intros _. split; [done| |done|].
    + repeat constructor; by eexists.
    + repeat constructor; intros x; by eexists.
  - exists 5. intros i Hi. unfold demo_time, Minute, Second. lia.
Defined.
