(* ===== verification/Concurrency.v ===== *)
(** * Controllers that run at the same time

    The UpgradeConfig controller, the machine config pool controller, the node
    keeper and the synchronisation loop run as goroutines over one API server,
    and a reconciliation may be overtaken between any two of its requests.  The
    server keeps the UpgradeConfig with optimistic concurrency: an update is
    rejected unless it carries the version that is stored.  Every interleaving
    keeps the stored resource on the life cycle of an upgrade. *)

From stdpp Require Import base gmap strings list pretty relations.
From Stdlib Require Import ZArith Lia.
From S2P Require Import Prelude GoTime Api Effects Config Interfaces UpgradeSteps ClusterVersion Scheduler.
From S2P Require Import Metrics SpecProvider UpgradeConfigManager Notifier EventManager HealthChecks Upgraders Validation.
From S2P Require Import Controller ControllerCorrect Machinery Drain NodeKeeper.

(** ** The API server *)

(** The stored UpgradeConfig, every one it served before, its revision. *)
Record Server := mkServer { stored : option UpgradeConfig; past : list UpgradeConfig; revision : nat }.
Definition emptyServer : Server := mkServer None [] 0.

(** Store a resource under a new version. *)
Definition stamped (s : Server) (uc : UpgradeConfig) : UpgradeConfig :=
  set_ResourceVersion (pretty (S (revision s))) uc.
Definition store (s : Server) (uc : UpgradeConfig) : Server :=
  mkServer (Some (stamped s uc)) (stamped s uc :: past s) (S (revision s)).

(** A request fails without effect, succeeds, or succeeds while its answer is
    lost. *)
Definition applied {A} (s s' new : Server) (ok r : result A) : Prop :=
  s' = new /\ (r = ok \/ exists e, r = Err e).
Definition refused {A} (s s' : Server) (r : result A) : Prop := s' = s /\ exists e, r = Err e.

(** The answers to a request and what it leaves stored.  Reads may be stale.
    Only resources that name a version instead of an image are created. *)
Definition serves (s : Server) X (e : Eff X) (x : X) (s' : Server) : Prop :=
  match e in Eff X return X -> Prop with
  | GetUpgradeConfig _ _ => fun r => s' = s /\ forall uc, r = Ok uc -> uc ∈ past s
  | ListUpgradeConfigs _ _ => fun r => s' = s /\ forall l, r = Ok l -> l ⊆ past s
  | StatusUpdate w => fun r => refused s s' r \/
      exists uc, stored s = Some uc /\ uc_ResourceVersion uc = uc_ResourceVersion w /\
        let uc' := set_History (History w) uc in applied s s' (store s uc') (Ok (stamped s uc')) r
  | UpdateUpgradeConfig w => fun r => refused s s' r \/
      exists uc, stored s = Some uc /\ uc_ResourceVersion uc = uc_ResourceVersion w /\
        let uc' := set_History (History uc) w in applied s s' (store s uc') (Ok (stamped s uc')) r
  | CreateUpgradeConfig w => fun r => refused s s' r \/
      stored s = None /\ desired_Image (Desired (Spec w)) = "" /\
        applied s s' (store s (set_History [] w)) (Ok tt) r
  | DeleteUpgradeConfig _ _ => fun r => refused s s' r \/
      applied s s' (mkServer None (past s) (S (revision s))) (Ok tt) r
  | _ => fun _ => s' = s
  end x.

(** ** Goroutines *)

Definition discard {A} (p : M A) : M unit := _ ← p; mret tt.

Section Threads.
Context {yaml : Yaml controllerConfig} {builders : Builders}.

(** What may run: reconciliations of the two controllers that write statuses,
    and anything that updates no stored resource ([nodekeeper_thread] and
    [Refresh_thread]: the node keeper and the rounds of the synchronisation). *)
Inductive thread : M unit -> Prop :=
| thread_controller Namespace Name : thread (discard (Reconcile Namespace Name))
| thread_pool request : thread (discard (@mcp_Reconcile upgradeConfigManager request))
| thread_other p : all_ev no_rewrite p -> thread p.

(** One step: a goroutine starts, performs a request, or the process restarts. *)
Inductive step : Server * list (M unit) -> Server * list (M unit) -> Prop :=
| step_start s pool p : thread p -> step (s, pool) (s, p :: pool)
| step_request s s' pool i X (e : Eff X) k x :
    pool !! i = Some (Vis e k) -> serves s X e x s' -> step (s, pool) (s', <[i := k x]> pool)
| step_restart s pool : step (s, pool) (s, []).

Definition reachable (c : Server * list (M unit)) : Prop := rtc step (emptyServer, []) c.

End Threads.

(** ** What a goroutine may write

    A status is written over a resource that the goroutine was served, along
    steps of the life cycle and with the version it was served under. *)

Definition given (ob : obs Eff) : list UpgradeConfig :=
  match ob_event ob in Eff X return X -> list UpgradeConfig with
  | GetUpgradeConfig _ _ | StatusUpdate _ => fun r => match r with Ok uc => [uc] | Err _ => [] end
  | _ => fun _ => []
  end (ob_resp ob).

Definition writes_over (K : list UpgradeConfig) X (e : Eff X) : Prop :=
  match e with
  | StatusUpdate w => exists uc, uc ∈ K /\ uc_ResourceVersion uc = uc_ResourceVersion w /\ tc status_step uc w
  | UpdateUpgradeConfig _ => False
  | _ => True
  end.

(** An answer as the server gives it. *)
Definition proper (ob : obs Eff) : Prop := echoed ob /\ versioned ob.

Fixpoint justified (K : list UpgradeConfig) (tr : list (obs Eff)) : Prop :=
  match tr with
  | [] => True
  | ob :: tr => writes_over K _ (ob_event ob) /\ justified (given ob ++ K) tr
  end.

(** The same for everything a program may still do. *)
Fixpoint lawful (K : list UpgradeConfig) (p : M unit) : Prop :=
  match p with
  | Ret _ | Panic _ => True
  | Vis e k => writes_over K _ e /\ forall x, proper (Obs e x) -> lawful (given (Obs e x) ++ K) (k x)
  end.

(** ** Lemmas: lawful programs *)

Definition lawfully {A} (K : list UpgradeConfig) (p : M A) : Prop :=
  wp p (fun tr _ => Forall proper tr -> justified K tr).

Lemma justified_mono K K' tr : K ⊆ K' -> justified K tr -> justified K' tr.
Proof.
  revert K K'. induction tr as [|[X e x] tr IH]; intros K K' Hs; cbn; [done|]. intros [Hw Hj]. split.
  - destruct e; try exact Hw. destruct Hw as (b & Hin & H). exists b. auto.
  - eapply IH; [|exact Hj]. intros uc [?|?]%elem_of_app; apply elem_of_app; auto.
Qed.

Lemma justified_app K t1 t2 : justified K t1 -> justified K t2 -> justified K (t1 ++ t2).
Proof.
  revert K. induction t1 as [|ob t1 IH]; intros K; cbn; [done|]. intros [Hw Hj] H2. split; [done|].
  apply IH; [done|]. eapply justified_mono; [|exact H2]. intros uc H. apply elem_of_app. by right.
Qed.

Lemma no_rewrite_justified K tr :
  Forall (fun ob : obs Eff => no_rewrite _ (ob_event ob)) tr -> justified K tr.
Proof.
  intros H. revert K. induction H as [|[X e x] tr Hob _ IH]; intros K; cbn; [done|]. split; [by destruct e|apply IH].
Qed.

(** Writes that track a resource are over the resource it came from. *)
Lemma tracks_justified K b uc tr :
  b ∈ K -> uc_ResourceVersion b = uc_ResourceVersion uc -> rtc status_step b uc -> tracks uc tr -> justified K tr.
Proof.
  revert K b uc. induction tr as [|[X e x] tr IH]; intros K b uc Hb Hrv Hc; cbn; [done|]. intros [Hu Ht].
  assert (b ∈ given (Obs e x) ++ K) as Hb' by (apply elem_of_app; by right).
  destruct e; try (split; [exact I|by eapply IH]); [destruct Hu|].
  destruct Hu as [Hs Hv]. cbn in Hs, Hv. split.
  - exists b. split; [done|]. split; [by rewrite Hrv, Hv|]. eapply tc_rtc_l; [exact Hc|by apply tc_once].
  - destruct x as [uc'|e]; cbn in *.
    + apply (IH _ uc' uc'); [by left|done|apply rtc_refl|done].
    + apply (IH _ b uc0); [done|by rewrite Hrv, Hv|by eapply rtc_r|done].
Qed.

Lemma lawfully_silent {A} K (p : M A) : all_ev no_rewrite p -> lawfully K p.
Proof. intros Hp. apply wp_exec. intros tr o Hex _. by apply no_rewrite_justified, (all_ev_exec _ _ _ _ Hp Hex). Qed.

Lemma lawfully_bind {A B} K (p : M A) (f : A -> M B) :
  all_ev no_rewrite p -> (forall a tr, exec p tr (Done a) -> lawfully K (f a)) -> lawfully K (p ≫= f).
Proof.
  intros Hp Hf. apply wp_bind, wp_exec. intros tr o Hex.
  pose proof (no_rewrite_justified K _ (all_ev_exec _ _ _ _ Hp Hex)) as Hj. destruct o as [a|m]; [|done].
  apply wp_exec. intros tr' o Hex' [_ He]%Forall_app. apply justified_app; [done|].
  exact (proj1 (wp_exec _ _) (Hf a tr Hex) _ _ Hex' He).
Qed.

(** A resource is read, and written over. *)
Lemma lawfully_get {B} K name ns (f : result UpgradeConfig -> M B) :
  (forall uc, desired_Image (Desired (Spec uc)) = "" -> follows uc (f (Ok uc))) ->
  (forall e, all_ev no_rewrite (f (Err e))) ->
  lawfully K (call (GetUpgradeConfig name ns) ≫= f).
Proof.
  intros Hok Herr. unfold lawfully. cbn [call mbind prog_mbind prog_bind wp]. intros r. apply wp_exec.
  intros tr o Hex [[_ Hv] Htr]%Forall_cons. cbn. split; [exact I|]. destruct r as [uc|e].
  - apply (tracks_justified _ uc uc); [by left|done|apply rtc_refl|].
    refine (proj1 (wp_exec _ _) (Hok uc Hv) _ _ Hex _). eapply Forall_impl; [exact Htr|]. by intros ob [? _].
  - by apply no_rewrite_justified, (all_ev_exec _ _ _ _ (Herr e) Hex).
Qed.

(** Programs that behave lawfully to their end are lawful all along. *)
Lemma default_proper {A} (p : M A) : Forall proper (trace_of p).
Proof.
  eapply Forall_impl; [apply (run_answers default_env)|]. intros [X e x]; cbn. intros ->. by destruct e.
Qed.

Lemma lawfully_lawful K (p : M unit) : lawfully K p -> lawful K p.
Proof.
  revert K. induction p as [a|m|X e k IH]; intros K H; cbn; [done..|]. unfold lawfully in H. cbn [wp] in H. split.
  - pose proof (proj1 (wp_exec _ _) (H (default_resp e)) _ _ (default_exec (k (default_resp e)))) as Hj.
    apply Hj. constructor; [|apply default_proper]. by destruct e.
  - intros x Hx. apply IH. eapply wp_mono; [exact (H x)|]. intros tr o Hj Htr. apply Hj. by constructor.
Qed.

Lemma lawful_mono K K' p : K ⊆ K' -> lawful K p -> lawful K' p.
Proof.
  revert K K'. induction p as [a|m|X e k IH]; intros K K' Hs; cbn; [done..|]. intros [Hw Hl]. split.
  - destruct e; try exact Hw. destruct Hw as (b & Hin & H). exists b. auto.
  - intros x Hx. eapply IH; [|exact (Hl x Hx)]. intros uc [?|?]%elem_of_app; apply elem_of_app; auto.
Qed.

(** ** Lemmas: the threads are lawful *)

Lemma lawfully_assoc {A B C} K (p : M A) (g : A -> M B) (f : B -> M C) :
  lawfully K (p ≫= fun a => g a ≫= f) -> lawfully K ((p ≫= g) ≫= f).
Proof. apply wp_bind_assoc. Qed.

Lemma lawfully_discard {A} K (p : M A) : lawfully K p -> lawfully K (discard p).
Proof.
  intros H. apply wp_bind. eapply wp_mono; [exact H|]. intros tr [a|m] Hj; [|done]. wp_cbn. by rewrite app_nil_r.
Qed.

(** A pool that stamps the worker times stays in the phase Upgrading. *)
Lemma worker_times_status_step uc h h' instance :
  historyOf uc = Some h -> Phase h = UpgradePhaseUpgrading -> worker_times_step instance h h' ->
  status_step uc (set_History (SetHistory h' (History uc)) uc).
Proof.
  intros Hh Hp (-> & _). pose proof (GetHistory_Version _ _ _ Hh) as Hv.
  eapply updateStatus_step; [exact Hh|exact Hv|done|cbn; rewrite Hp; constructor|].
  intros [H1 H2]. by split.
Qed.

Section Lawful.
Context {yaml : Yaml controllerConfig} {builders : Builders}.

Ltac rewrites_nothing := eapply all_ev_impl; [apply no_uc_write_no_rewrite|].

Lemma Reconcile_lawfully K Namespace Name : lawfully K (Reconcile Namespace Name).
Proof.
  unfold Reconcile. apply lawfully_bind; [rewrites_nothing; apply NewMetricsClient_events|].
  intros [[]|e] t1 _; [|by apply lawfully_silent].
  apply lawfully_bind; [rewrites_nothing; apply NewEventManager_events|]. intros [em|e] t2 _; [|by apply lawfully_silent].
  apply lawfully_get; [intros uc Hi; by apply reconcileInstance_follows|]. intros e.
  destruct (IsNotFound e); [|exact I]. apply all_ev_bind; [|by intros []]. rewrites_nothing.
  eapply all_ev_impl; [apply reads_no_uc_write|]. apply resetAll_reads.
Qed.

Lemma stampWorkerTimes_no_rewrite instance h : all_ev no_rewrite (stampWorkerTimes instance h).
Proof. unfold stampWorkerTimes, now. repeat first [ev_step | done | case_match]. Qed.

Lemma mcp_Reconcile_lawfully K request : lawfully K (@mcp_Reconcile upgradeConfigManager request).
Proof.
  unfold mcp_Reconcile. apply lawfully_bind; [by split|].
  intros [instance|e] t1 _; [|destruct (IsNotFound e); by apply lawfully_silent].
  change (manager_Get upgradeConfigManager) with ucm_Get. unfold ucm_Get. apply lawfully_assoc, lawfully_bind.
  { rewrites_nothing. eapply all_ev_impl; [apply reads_no_uc_write|]. apply GetOperatorNamespace_reads. }
  intros [ns|e] t2 _; [|by apply lawfully_silent]. apply lawfully_assoc, lawfully_get.
  - intros uc _. cbn [mbind prog_mbind mret prog_ret prog_bind].
    destruct (GetHistory (History uc) (ucVersionOf uc)) as [h|] eqn:Hh; [|apply follows_ret].
    destruct (bool_decide_reflect (Phase h = UpgradePhaseUpgrading)) as [Hp|Hp]; [|apply follows_ret].
    apply follows_bind; [apply stampWorkerTimes_no_rewrite|]. intros h' t3 Hex.
    destruct (proj1 (wp_exec _ _) (stampWorkerTimes_wp instance h) _ _ Hex) as (h1 & [= <-] & Hstep & _).
    apply follows_write; [by eapply worker_times_status_step|done|..]; intros; apply follows_ret.
  - intros e. cbn. destruct (IsNotFound e); done.
Qed.

Lemma thread_lawful p : thread p -> lawful [] p.
Proof.
  intros [Namespace Name|request|q Hq]; apply lawfully_lawful.
  - apply lawfully_discard, Reconcile_lawfully.
  - apply lawfully_discard, mcp_Reconcile_lawfully.
  - by apply lawfully_silent.
Qed.

(** A round of the synchronisation loop. *)
Lemma Refresh_thread {providers : SpecProviderBuilder} attempts : thread (discard (Refresh attempts)).
Proof. apply thread_other, all_ev_bind; [apply Refresh_no_rewrite|by intros r]. Qed.

(** The node keeper. *)
Lemma nodekeeper_thread {regexp : Regexp} {ucm : UpgradeConfigManager} {nkyaml : Yaml nodeKeeperConfig} builder request :
  all_ev no_rewrite builder -> thread (discard (nodekeeper_Reconcile builder request)).
Proof.
  intros Hb. apply thread_other, all_ev_bind; [|by intros r].
  assert (forall {A} (p : M A), all_ev reads p -> all_ev no_rewrite p) as H.
  { intros A p Hp. rewrites_nothing. by eapply all_ev_impl; [apply reads_no_uc_write|]. }
  pose proof (H _ _ manager_Get_reads). pose proof (fun n => H _ _ (machinery_IsUpgrading_reads n)).
  assert (all_ev no_rewrite readNodeKeeperConfig).
  { apply H. unfold readNodeKeeperConfig. apply all_ev_bindr; [apply NewCMTarget_reads|]. intros t. apply Into_reads. }
  pose proof (drainNode_closed builder no_rewrite no_rewrite_closed Hb).
  unfold nodekeeper_Reconcile, keepNode, NodeDrainResult, UpdateMetricNodeDrainFailed, ResetMetricNodeDrainFailed, setGauge.
  cbv zeta. ev_auto; done.
Qed.

End Lawful.

(** ** The invariant *)

(** Every version is served for one resource only, each of them a stored state
    of the life cycle; every goroutine is lawful over resources served. *)
Record served_well (s : Server) : Prop := {
  sw_versions : forall uc, uc ∈ past s -> exists n, n <= revision s /\ uc_ResourceVersion uc = pretty n;
  sw_unique : forall uc uc', uc ∈ past s -> uc' ∈ past s -> uc_ResourceVersion uc = uc_ResourceVersion uc' -> uc = uc';
  sw_stored : forall uc, stored s = Some uc -> uc ∈ past s;
  sw_lifeline : forall uc, uc ∈ past s -> lifeline uc /\ desired_Image (Desired (Spec uc)) = "";
}.

Record invariant (c : Server * list (M unit)) : Prop := {
  inv_server : served_well c.1;
  inv_threads : Forall (lawful (past c.1)) c.2;
}.

Lemma tc_status_step_lifeline uc w : lifeline uc -> tc status_step uc w -> lifeline w.
Proof. intros Hl H. revert Hl. induction H as [uc w H|uc w w' H _ IH]; intros Hl; [|apply IH]; by eapply life_written. Qed.

(** What a status write cannot change. *)
Definition same_resource (uc w : UpgradeConfig) : Prop :=
  uc_Name w = uc_Name uc /\ uc_Namespace w = uc_Namespace uc /\ Spec w = Spec uc.
Lemma tc_status_step_same uc w : tc status_step uc w -> same_resource uc w.
Proof.
  induction 1 as [uc w H|uc w w' H _ (H1 & H2 & H3)].
  - destruct H as (? & ? & ? & _). by split.
  - destruct H as (? & ? & ? & _). unfold same_resource. rewrite H1, H2, H3. by split.
Qed.

Lemma store_served_well s uc :
  served_well s -> lifeline uc -> desired_Image (Desired (Spec uc)) = "" -> served_well (store s uc).
Proof.
  intros [Hv Hu Hst Hl] Hlife Hi.
  assert (forall uc', uc' ∈ past s -> uc_ResourceVersion uc' <> pretty (S (revision s))) as Hfresh.
  { intros uc' Hin. destruct (Hv uc' Hin) as (n & Hn & ->). intros Heq%(inj pretty). lia. }
  split; cbn [store stored past revision].
  - intros uc' [->|Hin]%elem_of_cons; [by exists (S (revision s))|].
    destruct (Hv uc' Hin) as (n & Hn & E). exists n. split; [lia|done].
  - intros u1 u2 [->|H1]%elem_of_cons [->|H2]%elem_of_cons; [done|..|by apply Hu]; intros E; exfalso.
    + by apply (Hfresh u2 H2).
    + by apply (Hfresh u1 H1).
  - intros uc' [= <-]. by left.
  - intros uc' [->|Hin]%elem_of_cons; [|by apply Hl]. split; [by apply life_served|done].
Qed.

Lemma delete_served_well s : served_well s -> served_well (mkServer None (past s) (S (revision s))).
Proof.
  intros [Hv Hu Hst Hl]. split; cbn; [|done..]. intros uc Hin. destruct (Hv uc Hin) as (n & Hn & E). exists n. split; [lia|done].
Qed.

(** How what is stored may change. *)
Definition evolves (before after : option UpgradeConfig) : Prop :=
  match before, after with
  | _, None => True
  | None, Some uc' => History uc' = []
  | Some uc, Some uc' => uc' = uc \/ exists w rv, tc status_step uc w /\ uc' = set_ResourceVersion rv w
  end.

Lemma evolves_refl o : evolves o o.
Proof. destruct o; [by left|done]. Qed.

(** A request of a lawful goroutine. *)
Lemma serves_lawful s X (e : Eff X) x s' :
  served_well s -> writes_over (past s) X e -> serves s X e x s' ->
  served_well s' /\ evolves (stored s) (stored s') /\ past s ⊆ past s' /\
  proper (Obs e x) /\ given (Obs e x) ⊆ past s'.
Proof.
  intros Hs Hw He.
  assert (s' = s -> served_well s' /\ evolves (stored s) (stored s') /\ past s ⊆ past s') as Hsame.
  { intros ->. split; [done|]. split; [apply evolves_refl|done]. }
  assert (forall uc, desired_Image (Desired (Spec uc)) = "" -> lifeline uc ->
    evolves (stored s) (stored (store s uc)) -> s' = store s uc ->
    served_well s' /\ evolves (stored s) (stored s') /\ past s ⊆ past s') as Hstore.
  { intros uc Hi Hl Hev ->. split; [by apply store_served_well|]. split; [done|]. intros u Hu. by right. }
  destruct e; cbn [serves] in He; try (destruct (Hsame He) as (? & ? & ?); split_and!; [done..|by split|by apply list_subseteq_nil]).
  - (* a read *)
    destruct He as [-> Hr]. destruct (Hsame eq_refl) as (? & ? & Hp). split_and!; try done.
    + split; [done|]. cbn. destruct x as [uc|]; [|done]. by apply (sw_lifeline _ Hs), Hr.
    + intros uc Huc. cbn in Huc. destruct x as [uc'|]; [|by apply elem_of_nil in Huc].
      apply list_elem_of_singleton in Huc as ->. by apply Hr.
  - (* a list *)
    destruct He as [-> Hr]. destruct (Hsame eq_refl) as (? & ? & Hp).
    split_and!; [done..|by split|by apply list_subseteq_nil].
  - destruct Hw.
  - (* a status *)
    destruct Hw as (b & Hb & Hrv & Htc). destruct He as [[-> [e ->]]|(u & Hu & Hrv' & Hnew & Hx)].
    { destruct (Hsame eq_refl) as (? & ? & ?). split_and!; [done..|by split|by apply list_subseteq_nil]. }
    assert (b = u) as ->.
    { apply (sw_unique _ Hs); [done|by apply (sw_stored _ Hs)|congruence]. }
    destruct (tc_status_step_same _ _ Htc) as (Hn & Hns & Hsp).
    assert (stamped s (set_History (History uc) u) = stamped s uc) as Est.
    { unfold stamped, set_ResourceVersion, set_History. cbn. by rewrite Hn, Hns, Hsp. }
    destruct (sw_lifeline _ Hs u Hb) as [Hl Hi].
    assert (lifeline uc) as Hluc by by eapply tc_status_step_lifeline.
    assert (store s (set_History (History uc) u) = store s uc) as Eso by (unfold store; by rewrite Est).
    rewrite Eso in Hnew. rewrite Est in Hx.
    destruct (Hstore uc) as (H1 & H2 & H3); [by rewrite Hsp|done| |done|].
    { rewrite Hu. right. by exists uc, (pretty (S (revision s))). }
    split_and!; [done..| |].
    + split; [|done]. destruct Hx as [->|[e ->]]; [by eexists|done].
    + destruct Hx as [->|[e ->]]; cbn; [|by apply list_subseteq_nil].
      intros v ->%list_elem_of_singleton. rewrite Hnew. by left.
  - (* a creation *)
    destruct He as [[-> [e ->]]|(Hnone & Hi & Hnew & Hx)].
    { destruct (Hsame eq_refl) as (? & ? & ?). split_and!; [done..|by split|by apply list_subseteq_nil]. }
    destruct (Hstore (set_History [] uc)) as (H1 & H2 & H3); [done|by constructor|by rewrite Hnone|done|].
    split_and!; [done..|by split|by apply list_subseteq_nil].
  - (* a deletion *)
    destruct He as [[-> [e ->]]|[-> Hx]].
    { destruct (Hsame eq_refl) as (? & ? & ?). split_and!; [done..|by split|by apply list_subseteq_nil]. }
    split_and!; [by apply delete_served_well|by destruct (stored s)|done|by split|by apply list_subseteq_nil].
Qed.

Section Interleaving.
Context {yaml : Yaml controllerConfig} {builders : Builders}.

Lemma step_invariant c c' : step c c' -> invariant c -> invariant c' /\ evolves (stored c.1) (stored c'.1).
Proof.
  intros [s pool p Hp|s s' pool i X e k x Hi He|s pool] [Hs Ht]; cbn in *.
  - split; [|apply evolves_refl]. split; [done|]. constructor; [|done].
    eapply lawful_mono; [|by apply thread_lawful]. by apply list_subseteq_nil.
  - pose proof (Forall_lookup_1 _ _ _ _ Ht Hi) as [Hw Hk].
    destruct (serves_lawful s X e x s' Hs Hw He) as (Hs' & Hev & Hpast & Hprop & Hgiven).
    split; [|done]. split; [done|]. cbn. apply Forall_insert.
    + eapply Forall_impl; [exact Ht|]. intros p. by apply lawful_mono.
    + eapply lawful_mono; [|exact (Hk x Hprop)]. intros uc [?|?]%elem_of_app; auto.
  - split; [|apply evolves_refl]. by split.
Qed.

Lemma reachable_invariant c : reachable c -> invariant c.
Proof.
  intros H. unfold reachable in H. revert H. apply (rtc_ind_r (fun c => invariant c)).
  - split; [|constructor]. split; cbn; [intros uc|intros uc uc'|done|intros uc]; by intros ?%elem_of_nil.
  - intros c1 c2 _ Hstep Hinv. by apply (step_invariant c1 c2 Hstep Hinv).
Qed.

End Interleaving.

(** A started upgrade stays started; a finished one is not written. *)
Lemma tc_status_step_started uc w p :
  tc status_step uc w -> phaseOf uc = Some p -> started p ->
  ~ finished p /\ exists q, phaseOf w = Some q /\ started q.
Proof.
  intros H. revert p. induction H as [uc w H|uc w w' H _ IH]; intros p Hp Hst;
    destruct (status_step_phase _ _ H) as (q & Hq & Hedge); rewrite Hp in Hedge;
    destruct (phase_edge_started _ _ Hedge Hst) as [Hsq Hnf]; split; try done.
  - by exists q.
  - by apply (IH q).
Qed.

(** ** An executable server and schedules *)

Section Play.
Context {yaml : Yaml controllerConfig} {builders : Builders}.
Context (other : forall X, Eff X -> X).

Definition conflict {A} : result A := Err (ErrApi false "the object has been modified").

(** A server that always answers, with what is stored. *)
Definition serve X (e : Eff X) (s : Server) : X * Server :=
  match e in Eff X return X * Server with
  | GetUpgradeConfig _ _ => (match stored s with Some uc => Ok uc | None => notFound end, s)
  | ListUpgradeConfigs _ _ => (Ok (option_list (stored s)), s)
  | StatusUpdate w =>
      match stored s with
      | None => (notFound, s)
      | Some uc =>
          if String.eqb (uc_ResourceVersion uc) (uc_ResourceVersion w)
          then let uc' := set_History (History w) uc in (Ok (stamped s uc'), store s uc') else (conflict, s)
      end
  | UpdateUpgradeConfig w =>
      match stored s with
      | None => (notFound, s)
      | Some uc =>
          if String.eqb (uc_ResourceVersion uc) (uc_ResourceVersion w)
          then let uc' := set_History (History uc) w in (Ok (stamped s uc'), store s uc') else (conflict, s)
      end
  | CreateUpgradeConfig w =>
      match stored s with
      | Some _ => (conflict, s)
      | None => if String.eqb (desired_Image (Desired (Spec w))) "" then (Ok tt, store s (set_History [] w))
                else (conflict, s)
      end
  | DeleteUpgradeConfig _ _ =>
      match stored s with
      | Some _ => (Ok tt, mkServer None (past s) (S (revision s)))
      | None => (notFound, s)
      end
  | e' => (other _ e', s)
  end.

Lemma serve_serves s X (e : Eff X) : served_well s -> serves s X e (serve X e s).1 (serve X e s).2.
Proof.
  intros Hs. assert (forall A (r : result A), (exists e, r = Err e) -> refused s s r) as Hno by (intros; by split).
  destruct e; try reflexivity; cbn [serve serves].
  - split; [done|]. cbn. destruct (stored s) as [uc|] eqn:E; [|done]. intros uc' [= <-]. by apply (sw_stored _ Hs).
  - split; [done|]. cbn. intros l [= <-] uc. destruct (stored s) as [uc'|] eqn:E; [|by intros ?%elem_of_nil].
    intros ->%list_elem_of_singleton. by apply (sw_stored _ Hs).
  - destruct (stored s) as [u|] eqn:E; [|left; apply Hno; by eexists].
    destruct (String.eqb_spec (uc_ResourceVersion u) (uc_ResourceVersion uc)); [right|left; apply Hno; by eexists].
    exists u. split; [done|]. split; [done|]. split; [done|by left].
  - destruct (stored s) as [u|] eqn:E; [|left; apply Hno; by eexists].
    destruct (String.eqb_spec (uc_ResourceVersion u) (uc_ResourceVersion uc)); [right|left; apply Hno; by eexists].
    exists u. split; [done|]. split; [done|]. split; [done|by left].
  - destruct (stored s) as [u|] eqn:E; [left; apply Hno; by eexists|].
    destruct (String.eqb_spec (desired_Image (Desired (Spec uc))) ""); [right|left; apply Hno; by eexists].
    split; [done|]. split; [done|]. split; [done|by left].
  - destruct (stored s) as [u|] eqn:E; [right|left; apply Hno; by eexists]. split; [done|by left].
Qed.

(** The next request of the [i]-th goroutine, and a schedule of them. *)
Definition request (c : Server * list (M unit)) (i : nat) : Server * list (M unit) :=
  match c.2 !! i with
  | Some (Vis e k) => let '(x, s') := serve _ e c.1 in (s', <[i := k x]> c.2)
  | _ => c
  end.
Definition play (schedule : list nat) (c : Server * list (M unit)) : Server * list (M unit) :=
  foldl request c schedule.

Lemma request_step c i : served_well c.1 -> request c i = c \/ step c (request c i).
Proof.
  destruct c as [s pool]. intros Hs. unfold request. cbn [fst snd] in *. destruct (pool !! i) as [[a|m|X e k]|] eqn:Hi; try (by left).
  right. pose proof (serve_serves s X e Hs) as H. destruct (serve X e s) as [x s']. by eapply step_request.
Qed.

Lemma play_reachable schedule c : reachable c -> reachable (play schedule c).
Proof.
  revert c. induction schedule as [|i schedule IH]; intros c Hc; [done|]. apply IH.
  destruct (request_step c i) as [->|Hstep]; [apply (inv_server _ (reachable_invariant _ Hc))|done|].
  by eapply rtc_r.
Qed.

Lemma start_reachable s pool p : thread p -> reachable (s, pool) -> reachable (s, p :: pool).
Proof. intros Hp Hr. eapply rtc_r; [exact Hr|by constructor]. Qed.

End Play.

(** ** Properties *)

(** C2: Whatever the interleaving of the controllers' requests, with stale reads,
    lost answers and restarts of the operator: the stored resource always has at
    most the history of its desired version, with the times of its phase; a
    request changes it only by deleting it, by creating it without histories, or
    along steps of the life cycle from what was stored; so once an upgrade has
    started it stays started, and once it is Upgraded or Failed nothing changes
    it, until the resource is deleted. *)
Theorem interleavings_follow_lifecycle {yaml : Yaml controllerConfig} {builders : Builders} s pool s' pool' :
  reachable (s, pool) -> step (s, pool) (s', pool') ->
  (forall uc, stored s = Some uc -> stored_state uc) /\
  evolves (stored s) (stored s') /\
  forall uc uc' p, stored s = Some uc -> stored s' = Some uc' -> phaseOf uc = Some p -> started p ->
    (finished p -> uc' = uc) /\ exists q, phaseOf uc' = Some q /\ started q.
Proof.
  intros Hr Hstep. pose proof (reachable_invariant _ Hr) as Hinv.
  destruct (step_invariant _ _ Hstep Hinv) as [_ Hev]. split; [|split; [exact Hev|]].
  - intros uc Huc. apply lifeline_stored_state. apply (sw_lifeline _ (inv_server _ Hinv)).
    by apply (sw_stored _ (inv_server _ Hinv)).
  - intros uc uc' p Huc Huc' Hp Hst. cbn in Hev. rewrite Huc, Huc' in Hev.
    destruct Hev as [->|(w & rv & Htc & ->)]; [split; [done|by exists p]|].
    destruct (tc_status_step_started _ _ _ Htc Hp Hst) as [Hnf (q & Hq & Hsq)].
    split; [by intros ?%Hnf|]. by exists q.
Qed.

(** *** Witness: two reconciliations overtake each other

    Both read the resource before it has a history; the first write is accepted,
    the second refused. *)

Definition demo_create : M unit := discard (call (CreateUpgradeConfig demo_target)).
Definition demo_thread : M unit :=
  discard (@Reconcile demo_ctrl_yaml demo_builders "muo" "managed-upgrade-config").
Definition demo_start : Server * list (M unit) := (emptyServer, [demo_create; demo_thread; demo_thread]).
Definition demo_play := play (demo_ctrl_other demo_started).
Definition demo_race : list nat := [0; 1; 1; 1; 2; 2; 2].

Lemma demo_start_reachable : @reachable demo_ctrl_yaml demo_builders demo_start.
Proof.
  do 3 (apply start_reachable; [first [by apply thread_other|apply thread_controller]|]). apply rtc_refl.
Qed.
Lemma interleavings_follow_lifecycle_witness :
  let c := demo_play demo_race demo_start in
  let c' := demo_play [1] c in
  phaseOf <$> stored c.1 = Some None /\ phaseOf <$> stored c'.1 = Some (Some UpgradePhaseNew) /\
  stored (demo_play [2] c').1 = stored c'.1 /\ evolves (stored c.1) (stored c'.1).
Proof.
  cbv zeta. split; [vm_compute; reflexivity|]. split; [vm_compute; reflexivity|]. split; [vm_compute; reflexivity|].
  pose proof (play_reachable (demo_ctrl_other demo_started) demo_race _ demo_start_reachable) as Hr.
  change (play _ _ _) with (demo_play demo_race demo_start) in Hr.
  destruct (@request_step demo_ctrl_yaml demo_builders (demo_ctrl_other demo_started) (demo_play demo_race demo_start) 1)
    as [Hsame|Hstep].
  - apply (inv_server _ (reachable_invariant _ Hr)).
  - exfalso. apply (f_equal (fun c => revision c.1)) in Hsame. vm_compute in Hsame. discriminate Hsame.
  - change (request _ _ _) with (demo_play [1] (demo_play demo_race demo_start)) in Hstep.
    set (c := demo_play demo_race demo_start) in *. set (c' := demo_play [1] c) in *. clearbody c'. clearbody c.
    destruct c as [s pool], c' as [s' pool'].
    exact (proj1 (proj2 (interleavings_follow_lifecycle s pool s' pool' Hr Hstep))).
Defined.
