(* ===== verification/Collector.v ===== *)
(** * Prometheus collectors (pkg/collector, pkg/metrics/collector)

    On every scrape the collectors read the UpgradeConfig and the ClusterVersion
    and emit one constant metric per fact they find.  Module [Conditions] is
    pkg/collector, module [States] is pkg/metrics/collector.  The channel is the
    list of the metrics that are sent. *)

From stdpp Require Import base gmap strings list.
From Stdlib Require Import ZArith Lia Floats.SpecFloat.
From S2P Require Import Prelude GoTime Api Effects UpgradeSteps ClusterVersion Metrics UpgradeConfigManager.

(** ** Metrics (prometheus/client_golang) *)

Record Desc := mkDesc { fqName : string; desc_Labels : list string }.
#[export] Instance Desc_eq_dec : EqDecision Desc.
Proof. solve_decision. Defined.
Inductive Metric :=
| ConstMetric (desc : Desc) (value : spec_float) (labelValues : list string)
| InvalidMetric (desc : Desc) (err : error).

(** The name without its empty parts. *)
Definition BuildFQName (namespace subsystem name : string) : string :=
  if String.eqb name "" then ""
  else Join (filter (fun s => s <> "") [namespace; subsystem; name]) "_".

(** The values have to match the labels; the strings of the API are UTF-8. *)
Definition MustNewConstMetric (desc : Desc) (value : spec_float) (labelValues : list string) : M Metric :=
  if bool_decide (length labelValues = length (desc_Labels desc)) then mret (ConstMetric desc value labelValues)
  else Panic "inconsistent label cardinality".

Definition PhaseText (p : UpgradePhase) : string :=
  match p with
  | UpgradePhaseNew => "New" | UpgradePhasePending => "Pending" | UpgradePhaseUpgrading => "Upgrading"
  | UpgradePhaseUpgraded => "Upgraded" | UpgradePhaseFailed => "Failed" | UpgradePhaseUnknown => "Unknown"
  | UpgradePhaseOther s => s
  end.

Module Conditions.

(** ** Identifiers and descriptors *)

Definition MetricsNamespace : string := "managed_upgrade".
Definition subSystemUpgrade : string := "upgrade".
Definition subSystemCollector : string := "collector".
Definition subSystemCondition : string := "condition".
Definition keyPhase : string := "phase".
Definition keyUpgradeConfigName : string := "upgradeconfig_name".
Definition keyVersion : string := "version".
Definition keyDesiredVersion : string := "desired_version".
Definition keyCondition : string := "condition".

Record ManagedOSMetrics := {
  upgradeAt : Desc; pdbTimeout : Desc; startTime : Desc; completeTime : Desc;
  sendStartedNotification : Desc; preHealthCheck : Desc; extDepAvailCheck : Desc; scaleUpExtraNodes : Desc;
  controlPlaneMaintWindow : Desc; commenceUpgrade : Desc; controlPlaneUpgraded : Desc; removeControlPlaneMaint : Desc;
  workersMaintWindow : Desc; allWorkerNodesUpgraded : Desc; removeExtraScaledNodes : Desc; removeMaintWindow : Desc;
  postClusterHealthCheck : Desc; sendCompletedNotification : Desc;
}.

Definition upgradeDesc (name : string) : Desc :=
  mkDesc (BuildFQName MetricsNamespace subSystemUpgrade name) [keyVersion; keyDesiredVersion; keyPhase].
Definition conditionDesc (name : string) : Desc :=
  mkDesc (BuildFQName MetricsNamespace subSystemCondition name)
    [keyUpgradeConfigName; keyVersion; keyDesiredVersion; keyCondition].

Definition bootstrapMetrics : ManagedOSMetrics := {|
  startTime := upgradeDesc "start_timestamp";
  completeTime := upgradeDesc "complete_timestamp";
  upgradeAt := upgradeDesc "scheduled";
  pdbTimeout := mkDesc (BuildFQName MetricsNamespace subSystemUpgrade "pdb_timeout_minutes") [keyVersion; keyDesiredVersion];
  sendStartedNotification := conditionDesc "notification_start_timestamp";
  preHealthCheck := conditionDesc "health_check_timestamp";
  extDepAvailCheck := conditionDesc "external_dep_check_timestamp";
  scaleUpExtraNodes := conditionDesc "capacity_added_timestamp";
  controlPlaneMaintWindow := conditionDesc "control_plane_maint_start_timestamp";
  commenceUpgrade := conditionDesc "control_plane_upgrade_start_timestamp";
  controlPlaneUpgraded := conditionDesc "control_plane_completion_timestamp";
  removeControlPlaneMaint := conditionDesc "control_plane_maint_removed_timestamp";
  workersMaintWindow := conditionDesc "workers_maint_start_timestamp";
  allWorkerNodesUpgraded := conditionDesc "workers_upgraded_timestamp";
  removeExtraScaledNodes := conditionDesc "capacity_removed_timestamp";
  removeMaintWindow := conditionDesc "workers_maint_removed_timestamp";
  postClusterHealthCheck := conditionDesc "post_upgrade_healthcheck_timestamp";
  sendCompletedNotification := conditionDesc "notification_complete_timestamp";
|}.

Section Collector.
Context (managedMetrics : ManagedOSMetrics).

Definition Describe : list Desc :=
  let m := managedMetrics in
  [upgradeAt m; pdbTimeout m; startTime m; completeTime m;
   sendStartedNotification m; preHealthCheck m; extDepAvailCheck m; scaleUpExtraNodes m; controlPlaneMaintWindow m;
   commenceUpgrade m; controlPlaneUpgraded m; removeControlPlaneMaint m; workersMaintWindow m; allWorkerNodesUpgraded m;
   removeExtraScaledNodes m; removeMaintWindow m; postClusterHealthCheck m; sendCompletedNotification m].

(** ** Collecting *)

Definition collectCondition (c : UpgradeCondition) (promDesc : Desc) (ucfg : UpgradeConfig) (cvV : string) : M (list Metric) :=
  let labels status := [uc_Name ucfg; cvV; ucVersionOf ucfg; status] in
  match cond_Status c with
  | ConditionTrue =>
      t ← deref (cond_CompleteTime c);
      m ← MustNewConstMetric promDesc (float64 (Unix t)) (labels "True"); mret [m]
  | ConditionFalse =>
      t ← deref (cond_StartTime c);
      m ← MustNewConstMetric promDesc (float64 (Unix t)) (labels "False"); mret [m]
  | ConditionUnknown =>
      t ← deref (cond_StartTime c);
      m ← MustNewConstMetric promDesc (float64 (Unix t)) (labels "Unknown"); mret [m]
  | ConditionStatusOther _ => mret []
  end.

(** The switch on the type of a condition. *)
Definition descOf (t : string) : option Desc :=
  let m := managedMetrics in
  if String.eqb t SendStartedNotification then Some (sendStartedNotification m)
  else if String.eqb t UpgradePreHealthCheck then Some (preHealthCheck m)
  else if String.eqb t ExtDepAvailabilityCheck then Some (extDepAvailCheck m)
  else if String.eqb t UpgradeScaleUpExtraNodes then Some (scaleUpExtraNodes m)
  else if String.eqb t ControlPlaneMaintWindow then Some (controlPlaneMaintWindow m)
  else if String.eqb t CommenceUpgradeCondition then Some (commenceUpgrade m)
  else if String.eqb t ControlPlaneUpgradedCondition then Some (controlPlaneUpgraded m)
  else if String.eqb t RemoveControlPlaneMaintWindowCondition then Some (removeControlPlaneMaint m)
  else if String.eqb t WorkersMaintWindow then Some (workersMaintWindow m)
  else if String.eqb t AllWorkerNodesUpgraded then Some (allWorkerNodesUpgraded m)
  else if String.eqb t RemoveExtraScaledNodesCondition then Some (removeExtraScaledNodes m)
  else if String.eqb t RemoveMaintWindowCondition then Some (removeMaintWindow m)
  else if String.eqb t PostClusterHealthCheck then Some (postClusterHealthCheck m)
  else if String.eqb t SendCompletedNotificationCondition then Some (sendCompletedNotification m)
  else None.

Fixpoint collectConditions (cs : list UpgradeCondition) (ucfg : UpgradeConfig) (cvV : string) : M (list Metric) :=
  match cs with
  | [] => mret []
  | c :: rest =>
      ms ← match descOf (cond_Type c) with
           | Some d => collectCondition c d ucfg cvV
           | None => mret []
           end;
      ms' ← collectConditions rest ucfg cvV;
      mret (ms ++ ms')
  end.

Definition noHistory : error := ErrText "not able to fetch upgrade history".

Definition collectSpec (ucfg : UpgradeConfig) (cvV : string) : M (list Metric * option error) :=
  match GetHistory (History ucfg) (ucVersionOf ucfg) with
  | None => mret ([], Some noHistory)
  | Some h =>
      match parseRFC3339 (UpgradeAt (Spec ucfg)) with
      | Err err => mret ([], Some err)
      | Ok upgradeTime =>
          m1 ← MustNewConstMetric (upgradeAt managedMetrics) (float64 (Unix upgradeTime))
                 [cvV; ucVersionOf ucfg; PhaseText (Phase h)];
          m2 ← MustNewConstMetric (pdbTimeout managedMetrics) (float64 (PDBForceDrainTimeout (Spec ucfg)))
                 [cvV; ucVersionOf ucfg];
          mret ([m1; m2], None)
      end
  end.

Definition optionMetric (desc : Desc) (t : option Time) (labels : list string) : M (list Metric) :=
  match t with
  | Some t => m ← MustNewConstMetric desc (float64 (Unix t)) labels; mret [m]
  | None => mret []
  end.

Definition collectStatus (ucfg : UpgradeConfig) (cvV : string) : M (list Metric * option error) :=
  match GetHistory (History ucfg) (ucVersionOf ucfg) with
  | None => mret ([], Some noHistory)
  | Some h =>
      let labels := [cvV; ucVersionOf ucfg; PhaseText (Phase h)] in
      ms ← optionMetric (startTime managedMetrics) (StartTime h) labels;
      ms' ← optionMetric (completeTime managedMetrics) (CompleteTime h) labels;
      mret (ms ++ ms', None)
  end.

(** The collection for a resource and the version it comes from. *)
Definition collectFrom (upgradeConfig : UpgradeConfig) (cvVersion : string) : M (list Metric * option error) :=
  s ← collectSpec upgradeConfig cvVersion;
  match s : list Metric * option error with
  | (ms, Some err) => mret (ms, Some err)
  | (ms, None) =>
      match GetHistory (History upgradeConfig) (ucVersionOf upgradeConfig) with
      | None => mret (ms, Some (ErrText "no upgrade history yet"))
      | Some h =>
          s ← collectStatus upgradeConfig cvVersion;
          match s : list Metric * option error with
          | (ms', Some err) => mret (ms ++ ms', Some err)
          | (ms', None) =>
              ms'' ← collectConditions (hist_Conditions h) upgradeConfig cvVersion;
              mret (ms ++ ms' ++ ms'', None)
          end
      end
  end.

Definition collectUpgradeConditions : M (list Metric * option error) :=
  r ← ucm_Get;
  match r with
  | Err err =>
      if is_sentinel ErrUpgradeConfigNotFound err then mret ([], None)
      else mret ([], Some (ErrText ("unable to find UpgradeConfig: " +:+ error_msg err)))
  | Ok upgradeConfig =>
      r ← GetClusterVersion;
      match r with
      | Err err => mret ([], Some err)
      | Ok clusterVersion =>
          r ← GetCurrentVersion clusterVersion;
          match r with
          | Err err => mret ([], Some err)
          | Ok cvVersion =>
              r ← (if String.eqb (ucVersionOf upgradeConfig) cvVersion then GetCurrentVersionMinusOne clusterVersion
                   else mret (Ok cvVersion) : M (result string));
              match r with
              | Err err => mret ([], Some err)
              | Ok cvVersion => collectFrom upgradeConfig cvVersion
              end
          end
      end
  end.

Definition scrapeFailed : Desc := mkDesc (BuildFQName MetricsNamespace subSystemCollector "scrape_failed") [].

Definition Collect : M (list Metric) :=
  r ← collectUpgradeConditions;
  match r : list Metric * option error with
  | (ms, None) => mret ms
  | (ms, Some err) => mret (ms ++ [InvalidMetric scrapeFailed err])
  end.

End Collector.
End Conditions.

Module States.

(** ** The timestamps of the states of an upgrade *)

Definition Namespace : string := "upgradeoperator".
Definition Subsystem : string := "upgrade".
Definition ScheduledStateValue : string := "scheduled".
Definition StartedStateValue : string := "started".
Definition FinishedStateValue : string := "finished".
Definition ControlPlaneStartedStateValue : string := "control_plane_started".
Definition ControlPlaneCompletedStateValue : string := "control_plane_completed".
Definition WorkersStartedStateValue : string := "workers_started".
Definition WorkersCompletedStateValue : string := "workers_completed".

Definition upgradeStateDesc : Desc := mkDesc (BuildFQName Namespace Subsystem "state_timestamp") [VersionLabel; StateLabel].
Definition states_Describe : list Desc := [upgradeStateDesc].

Definition stateMetric (version state : string) (t : Time) : M Metric :=
  MustNewConstMetric upgradeStateDesc (float64 (Unix t)) [version; state].
Definition optionState (version state : string) (t : option Time) : M (list Metric) :=
  match t with Some t => m ← stateMetric version state t; mret [m] | None => mret [] end.

(** The states that the history of the ClusterVersion tells. *)
Definition controlPlaneStates (version : string) (clusterVersion : ClusterVersion) : M (list Metric) :=
  match cv_GetHistory (cv_History clusterVersion) version with
  | None => mret []
  | Some cvHistory =>
      m ← stateMetric version ControlPlaneStartedStateValue (StartedTime cvHistory);
      ms ← optionState version ControlPlaneCompletedStateValue (CompletionTime cvHistory);
      mret (m :: ms)
  end.

Definition collectUpgradeMetrics : M (list Metric) :=
  r ← ucm_Get;
  match r with
  | Err _ => mret []
  | Ok upgradeConfig =>
      let version := ucVersionOf upgradeConfig in
      match parseRFC3339 (UpgradeAt (Spec upgradeConfig)) with
      | Err _ => mret []
      | Ok upgradeTime =>
          scheduled ← stateMetric version ScheduledStateValue upgradeTime;
          match GetHistory (History upgradeConfig) version with
          | None => mret [scheduled]
          | Some history =>
              started ← optionState version StartedStateValue (StartTime history);
              workersStarted ← optionState version WorkersStartedStateValue (WorkerStartTime history);
              workersCompleted ← optionState version WorkersCompletedStateValue (WorkerCompleteTime history);
              finished ← optionState version FinishedStateValue (CompleteTime history);
              let ms := scheduled :: started ++ workersStarted ++ workersCompleted ++ finished in
              r ← GetClusterVersion;
              match r with
              | Err _ => mret ms
              | Ok clusterVersion => cp ← controlPlaneStates version clusterVersion; mret (ms ++ cp)
              end
          end
      end
  end.

Definition states_Collect : M (list Metric) := collectUpgradeMetrics.

End States.

(** ** Lemmas: conditions with their times *)

(** A condition that can be reported: it has a start time, and a completion time
    when it is true. *)
Definition timed (c : UpgradeCondition) : Prop :=
  is_Some (cond_StartTime c) /\ (cond_Status c = ConditionTrue -> is_Some (cond_CompleteTime c)).
Definition timed_uc (uc : UpgradeConfig) : Prop := forall t c, conditionOf uc t = Some c -> timed c.

Lemma stored_condition_timed t1 t2 o c : timed c -> timed (stored_condition t1 t2 o c).
Proof. unfold stored_condition. destruct o; [case_bool_decide|]; done. Qed.

Lemma with_condition_timed t1 t2 c h uc :
  GetHistory (History uc) (ucVersionOf uc) = Some h -> timed c -> timed_uc uc -> timed_uc (with_condition t1 t2 c h uc).
Proof.
  intros Hh Hc Hu t c'. rewrite with_condition_lookup by done. case_bool_decide; [|apply Hu].
  intros [= <-]. by apply stored_condition_timed.
Qed.

Definition keeps_timed (p : M UpgradeConfig) : Prop := wp p (fun _ o => forall uc', o = Done uc' -> timed_uc uc').

Lemma setConditionStart_timed s uc : timed_uc uc -> keeps_timed (setConditionStart s uc).
Proof.
  intros Hu. unfold setConditionStart, SetCondition_now, now, keeps_timed.
  destruct (GetHistory _ _) as [h|] eqn:Hh; wp_cbn; [|done].
  destruct (GetCondition _ _); wp_cbn; [by intros ? [= <-]|]. intros t t1 t2 uc' [= <-].
  apply with_condition_timed; [done| |done]. split; [by eexists|done].
Qed.

Lemma setConditionInProgress_timed s msg uc : timed_uc uc -> keeps_timed (setConditionInProgress s msg uc).
Proof.
  intros Hu. unfold setConditionInProgress, SetCondition_now, now, keeps_timed.
  destruct (GetHistory _ _) as [h|] eqn:Hh; wp_cbn; [|done].
  destruct (GetCondition _ _) as [c|] eqn:Hc; wp_cbn; [|by intros ? [= <-]]. intros t1 t2 uc' [= <-].
  apply with_condition_timed; [done| |done].
  assert (timed c) as [Hs _] by (apply (Hu (step_String s)); unfold conditionOf; by rewrite Hh). by split.
Qed.

Lemma setConditionComplete_timed s uc : timed_uc uc -> keeps_timed (setConditionComplete s uc).
Proof.
  intros Hu. unfold setConditionComplete, SetCondition_now, now, keeps_timed.
  destruct (GetHistory _ _) as [h|] eqn:Hh; wp_cbn; [|done].
  destruct (GetCondition _ _) as [c|] eqn:Hc; wp_cbn; [|by intros ? [= <-]].
  assert (timed c) as [Hs _] by (apply (Hu (step_String s)); unfold conditionOf; by rewrite Hh).
  destruct (cond_CompleteTime c); wp_cbn; intros;
    (match goal with H : Done _ = Done _ |- _ => injection H as <- end);
    (apply with_condition_timed; [done|split; [done|by eexists]|done]).
Qed.

Lemma Run_timed steps uc tr uc' ph err :
  timed_uc uc -> exec (Run uc steps) tr (Done (uc', ph, err)) -> timed_uc uc'.
Proof.
  assert (forall p t u, keeps_timed p -> exec p t (Done u) -> timed_uc u) as Hk.
  { intros p t u Hp Hex. exact (proj1 (wp_exec _ _) Hp _ _ Hex _ eq_refl). }
  revert uc tr. induction steps as [|s rest IH]; intros uc tr Hu Hex; [by destruct Hex as [_ [= -> _ _]]|].
  apply exec_Run_cons in Hex as (uc1 & t1 & t2 & r & t3 & _ & H1 & _ & H3).
  assert (timed_uc uc1) as Hu1 by (eapply Hk; [by apply setConditionStart_timed|exact H1]).
  destruct r as [[|]|e].
  - destruct H3 as (uc2 & t4 & t5 & _ & H4 & H5). eapply IH; [|exact H5].
    eapply Hk; [by apply setConditionComplete_timed|exact H4].
  - destruct H3 as (uc2 & H4 & [= -> _ _]). eapply Hk; [by apply setConditionInProgress_timed|exact H4].
  - destruct H3 as (uc2 & H4 & [= -> _ _]). eapply Hk; [by apply setConditionInProgress_timed|exact H4].
Qed.

(** ** Lemmas: what is collected *)

Module ConditionsSpec.
Import Conditions.

(** The value of a reported condition: when it became true, or else started. *)
Definition reportedTime (c : UpgradeCondition) : option (string * Time) :=
  match cond_Status c with
  | ConditionTrue => t ← cond_CompleteTime c; Some ("True", t)
  | ConditionFalse => t ← cond_StartTime c; Some ("False", t)
  | ConditionUnknown => t ← cond_StartTime c; Some ("Unknown", t)
  | ConditionStatusOther _ => None
  end.
Definition conditionMetric (uc : UpgradeConfig) (cvV : string) (c : UpgradeCondition) : option Metric :=
  d ← descOf bootstrapMetrics (cond_Type c);
  '(status, t) ← reportedTime c;
  Some (ConstMetric d (float64 (Unix t)) [uc_Name uc; cvV; ucVersionOf uc; status]).
Definition timeMetric (d : Desc) (labels : list string) (t : option Time) : option Metric :=
  t ← t; Some (ConstMetric d (float64 (Unix t)) labels).

(** All metrics of a resource with a history. *)
Definition collected (uc : UpgradeConfig) (cvV : string) (h : UpgradeHistory) (at_ : Time) : list Metric :=
  let labels := [cvV; ucVersionOf uc; PhaseText (Phase h)] in
  [ConstMetric (upgradeAt bootstrapMetrics) (float64 (Unix at_)) labels;
   ConstMetric (pdbTimeout bootstrapMetrics) (float64 (PDBForceDrainTimeout (Spec uc))) [cvV; ucVersionOf uc]] ++
  option_list (timeMetric (startTime bootstrapMetrics) labels (StartTime h)) ++
  option_list (timeMetric (completeTime bootstrapMetrics) labels (CompleteTime h)) ++
  omap (conditionMetric uc cvV) (hist_Conditions h).

Lemma descOf_labels t d : descOf bootstrapMetrics t = Some d -> length (desc_Labels d) = 4.
Proof. unfold descOf. repeat (destruct (String.eqb t _); [by intros [= <-]|]). done. Qed.

Lemma collectConditions_spec uc cvV cs :
  Forall timed cs -> collectConditions bootstrapMetrics cs uc cvV = Ret (omap (conditionMetric uc cvV) cs).
Proof.
  induction 1 as [|c cs [[ts Hs] Hc] _ IH]; [done|]. cbn [collectConditions omap list_omap]. unfold conditionMetric at 1.
  destruct (descOf bootstrapMetrics (cond_Type c)) as [d|] eqn:Hd; cbn [mbind option_bind mret prog_ret prog_mbind prog_bind];
    [|by rewrite IH].
  pose proof (descOf_labels _ _ Hd) as Hl. unfold collectCondition, reportedTime, MustNewConstMetric.
  destruct (cond_Status c) eqn:Est; [destruct (Hc eq_refl) as [tc ->]| | |];
    rewrite ?Hs; cbn; rewrite ?Hl, ?IH; done.
Qed.

Lemma collectFrom_spec uc cvV h at_ :
  GetHistory (History uc) (ucVersionOf uc) = Some h -> parseRFC3339 (UpgradeAt (Spec uc)) = Ok at_ ->
  Forall timed (hist_Conditions h) -> collectFrom bootstrapMetrics uc cvV = Ret (collected uc cvV h at_, None).
Proof.
  intros Hh Ha Ht. unfold collectFrom, collectSpec, collectStatus. rewrite Hh, Ha. cbn. rewrite (collectConditions_spec uc cvV _ Ht).
  by destruct (StartTime h), (CompleteTime h).
Qed.

(** Every type of condition has a metric of its own. *)
Definition conditionNames : list (string * string) :=
  omap (fun t => (fun d => (t, fqName d)) <$> descOf bootstrapMetrics t)
    [SendStartedNotification; UpgradePreHealthCheck; ExtDepAvailabilityCheck; UpgradeScaleUpExtraNodes; ControlPlaneMaintWindow;
     CommenceUpgradeCondition; ControlPlaneUpgradedCondition; RemoveControlPlaneMaintWindowCondition; WorkersMaintWindow;
     AllWorkerNodesUpgraded; RemoveExtraScaledNodesCondition; RemoveMaintWindowCondition; PostClusterHealthCheck;
     SendCompletedNotificationCondition].

Lemma descOf_names t d : descOf bootstrapMetrics t = Some d ->
  (t, fqName d) ∈ conditionNames /\ d ∈ Describe bootstrapMetrics.
Proof.
  unfold descOf. repeat (match goal with |- context [String.eqb t ?u] => destruct (String.eqb_spec t u) as [->|] end;
    [intros [= <-]; split; vm_compute; repeat constructor|]); done.
Qed.

Definition metricDesc (m : Metric) : Desc := match m with ConstMetric d _ _ | InvalidMetric d _ => d end.
Definition metricName (m : Metric) : string := fqName (metricDesc m).

Lemma conditionMetric_name uc cvV c m :
  conditionMetric uc cvV c = Some m -> (cond_Type c, metricName m) ∈ conditionNames /\ metricDesc m ∈ Describe bootstrapMetrics.
Proof.
  unfold conditionMetric. destruct (descOf _ _) as [d|] eqn:Hd; [|done]. cbn. destruct (reportedTime c) as [[st t]|]; [|done].
  intros [= <-]. exact (descOf_names _ _ Hd).
Qed.

Lemma conditionNames_injective t t' n : (t, n) ∈ conditionNames -> (t', n) ∈ conditionNames -> t = t'.
Proof.
  assert (NoDup (map snd conditionNames)) as Hnd by (vm_compute; repeat constructor; set_solver).
  generalize conditionNames Hnd. clear Hnd. intros l Hnd. induction l as [|[a b] l IH]; [by intros ?%elem_of_nil|].
  cbn in Hnd. apply NoDup_cons in Hnd as [Hb Hnd]. assert (forall x, (x, b) ∉ l) as Hx.
  { intros x H. apply Hb. apply list_elem_of_fmap. by exists (x, b). }
  intros [E|H]%elem_of_cons [E'|H']%elem_of_cons; simplify_eq; [done|by apply Hx in H'|by apply Hx in H|by apply IH].
Qed.

Lemma collected_conditions_NoDup uc cvV cs :
  NoDup (map cond_Type cs) -> NoDup (map metricName (omap (conditionMetric uc cvV) cs)).
Proof.
  induction cs as [|c cs IH]; [constructor|]. cbn. intros [Hc Hnd]%NoDup_cons.
  destruct (conditionMetric uc cvV c) as [m|] eqn:E; [|by apply IH]. cbn. constructor; [|by apply IH].
  intros (m' & Hn & (c' & Hin & Hm')%list_elem_of_omap)%list_elem_of_fmap. apply Hc.
  rewrite (conditionNames_injective (cond_Type c) (cond_Type c') (metricName m)); [apply list_elem_of_fmap; by exists c'|..].
  - by eapply conditionMetric_name.
  - rewrite Hn. by eapply conditionMetric_name.
Qed.

Lemma collected_described uc cvV h at_ : Forall (fun m => metricDesc m ∈ Describe bootstrapMetrics) (collected uc cvV h at_).
Proof.
  unfold collected. repeat apply Forall_app_2.
  - repeat apply Forall_cons_2; [..|apply Forall_nil_2]; cbn; [by left|by right; left].
  - destruct (StartTime h); cbn; [|apply Forall_nil_2]. apply Forall_cons_2; [|apply Forall_nil_2]. cbn. by do 2 right; left.
  - destruct (CompleteTime h); cbn; [|apply Forall_nil_2]. apply Forall_cons_2; [|apply Forall_nil_2]. cbn. by do 3 right; left.
  - apply list.Forall_forall. intros m (c & _ & Hc)%list_elem_of_omap. by eapply conditionMetric_name.
Qed.

Lemma collected_NoDup uc cvV h at_ :
  wf_conditions (hist_Conditions h) -> NoDup (map metricName (collected uc cvV h at_)).
Proof.
  intros Hwf. unfold collected.
  assert (forall n, n ∈ map metricName (omap (conditionMetric uc cvV) (hist_Conditions h)) -> exists t, (t, n) ∈ conditionNames) as Hcond.
  { intros n (m & -> & (c & _ & Hc)%list_elem_of_omap)%list_elem_of_fmap. eexists. by eapply conditionMetric_name. }
  assert (forall d, bool_decide (fqName d ∈ map snd conditionNames) = false ->
    fqName d ∉ map metricName (omap (conditionMetric uc cvV) (hist_Conditions h))) as Hno.
  { intros d Hd%bool_decide_eq_false [t Ht]%Hcond. apply Hd. apply list_elem_of_fmap. by exists (t, fqName d). }
  pose proof (collected_conditions_NoDup uc cvV _ Hwf) as Hnd.
  set (rest := map metricName (omap (conditionMetric uc cvV) (hist_Conditions h))) in *.
  set (n1 := fqName (upgradeAt bootstrapMetrics)). set (n2 := fqName (pdbTimeout bootstrapMetrics)).
  set (n3 := fqName (startTime bootstrapMetrics)). set (n4 := fqName (completeTime bootstrapMetrics)).
  assert (NoDup [n1; n2; n3; n4]) as H4 by (apply (bool_decide_eq_true_1 _); vm_compute; reflexivity).
  assert (n1 ∉ rest) as R1 by (apply Hno; vm_compute; reflexivity). assert (n2 ∉ rest) as R2 by (apply Hno; vm_compute; reflexivity).
  assert (n3 ∉ rest) as R3 by (apply Hno; vm_compute; reflexivity). assert (n4 ∉ rest) as R4 by (apply Hno; vm_compute; reflexivity).
  assert (forall l, l `sublist_of` [n1; n2; n3; n4] -> NoDup (l ++ rest)) as Hpre.
  { intros l Hl. apply NoDup_app. split; [by eapply sublist_NoDup|]. split; [|done]. intros x Hx.
    assert (x ∈ [n1; n2; n3; n4]) as Hx4 by by eapply elem_of_sublist. clear Hx H4 Hno. clearbody n1 n2 n3 n4 rest. set_solver. }
  unfold collected. cbv zeta. rewrite !map_app, !app_assoc. apply Hpre.
  destruct (StartTime h), (CompleteTime h); cbn [timeMetric option_list mbind option_bind map app metricName metricDesc];
    fold n1 n2 n3 n4; repeat constructor.
Qed.

(** The version that an upgrade comes from: the current one, or the one before
    when the cluster is already at the desired version. *)
Definition comes_from (cv : ClusterVersion) (uc : UpgradeConfig) (v : string) : Prop :=
  exists current, GetCurrentVersion cv = Ret (Ok current) /\
    if String.eqb (ucVersionOf uc) current then GetCurrentVersionMinusOne cv = Ret (Ok v) else v = current.

(** What is read is well formed, and its conditions have their times. *)
Definition scrapeable (tr : list (obs Eff)) : Prop :=
  (forall name ns uc, ((Obs (GetUpgradeConfig name ns) (Ok uc) : obs Eff) ∈ tr) -> wf_histories (History uc) /\ timed_uc uc) /\
  (forall cv, ((Obs GetCV (Ok cv) : obs Eff) ∈ tr) -> complete_entries cv).

Lemma timed_conditions uc h :
  GetHistory (History uc) (ucVersionOf uc) = Some h -> wf_conditions (hist_Conditions h) -> timed_uc uc ->
  Forall timed (hist_Conditions h).
Proof.
  intros Hh Hwf Ht. assert (forall t c, GetCondition (hist_Conditions h) t = Some c -> timed c) as H.
  { intros t c Hc. apply (Ht t). unfold conditionOf. by rewrite Hh. }
  clear Ht Hh. revert Hwf H. generalize (hist_Conditions h). intros cs. unfold wf_conditions.
  induction cs as [|c cs IH]; [constructor|]. cbn [map GetCondition]. intros [Hc Hnd]%NoDup_cons H. constructor.
  - apply (H (cond_Type c)). by rewrite bool_decide_true.
  - apply IH; [done|]. intros t c' Hc'. apply (H t). rewrite bool_decide_false; [done|]. intros <-.
    apply Hc. apply list_elem_of_fmap. exists c'. split; [symmetry; by eapply GetCondition_Type|by eapply GetCondition_elem].
Qed.

(** All metrics of the resource and the ClusterVersion that were read. *)
Definition scraped (tr : list (obs Eff)) (ms : list Metric) : Prop :=
  exists name ns uc cv cvV h at_, ((Obs (GetUpgradeConfig name ns) (Ok uc) : obs Eff) ∈ tr) /\
    ((Obs GetCV (Ok cv) : obs Eff) ∈ tr) /\ comes_from cv uc cvV /\
    GetHistory (History uc) (ucVersionOf uc) = Some h /\ parseRFC3339 (UpgradeAt (Spec uc)) = Ok at_ /\
    wf_conditions (hist_Conditions h) /\ ms = collected uc cvV h at_.

Lemma collectFrom_cases uc cvV :
  wf_histories (History uc) -> timed_uc uc ->
  (exists e, collectFrom bootstrapMetrics uc cvV = Ret ([], Some e)) \/
  exists h at_, GetHistory (History uc) (ucVersionOf uc) = Some h /\ parseRFC3339 (UpgradeAt (Spec uc)) = Ok at_ /\
    wf_conditions (hist_Conditions h) /\ collectFrom bootstrapMetrics uc cvV = Ret (collected uc cvV h at_, None).
Proof.
  intros Hwf Ht. destruct (GetHistory (History uc) (ucVersionOf uc)) as [h|] eqn:Hh.
  - pose proof (wf_histories_conditions _ _ _ Hwf Hh) as Hc.
    destruct (parseRFC3339 (UpgradeAt (Spec uc))) as [t|e] eqn:Ha.
    + right. exists h, t. split_and!; [done..|]. apply collectFrom_spec; [done..|]. by eapply timed_conditions.
    + left. exists e. unfold collectFrom, collectSpec. by rewrite Hh, Ha.
  - left. eexists. unfold collectFrom, collectSpec. by rewrite Hh.
Qed.

Lemma ucm_Get_read : wp ucm_Get (fun tr o => exists r, o = Done r /\
  match r with Ok uc => exists name ns, (Obs (GetUpgradeConfig name ns) (Ok uc) : obs Eff) ∈ tr | Err _ => True end).
Proof.
  unfold ucm_Get, GetOperatorNamespace. wp_cbn. intros [ns|]; wp_cbn; [|by eexists].
  intros [uc|e]; wp_cbn; eexists; (split; [done|]); [|by destruct (IsNotFound e)]. eexists _, _. right. by left.
Qed.

Lemma GetCurrentVersion_complete cv : complete_entries cv -> exists r, GetCurrentVersion cv = Ret r.
Proof.
  intros Hc. unfold GetCurrentVersion. destruct (latestCompleted_spec (cv_History cv) "" None Hc) as (v & -> & _). by eexists.
Qed.
Lemma GetCurrentVersionMinusOne_complete cv : complete_entries cv -> exists r, GetCurrentVersionMinusOne cv = Ret r.
Proof.
  intros Hc. destruct (GetCurrentVersionMinusOne_sorted cv Hc) as (ts & _ & Hd & _).
  unfold GetCurrentVersionMinusOne. rewrite Hd. destruct (Nat.leb _ _); by eexists.
Qed.
#[export] Instance complete_entries_dec cv : Decision (complete_entries cv).
Proof. unfold complete_entries. apply _. Defined.

Lemma collectUpgradeConditions_wp :
  wp (collectUpgradeConditions bootstrapMetrics) (fun tr o => scrapeable tr -> exists ms err, o = Done (ms, err) /\
    match err with Some _ => ms = [] | None => ms = [] \/ scraped tr ms end).
Proof.
  assert (forall e tr, exists ms err, @Done (list Metric * option error) ([], Some e) = Done (ms, err) /\
    match err with Some _ => ms = [] | None => ms = [] \/ scraped tr ms end) as Herr by (intros; by eexists _, _).
  unfold collectUpgradeConditions. apply wp_bind. eapply wp_mono; [apply ucm_Get_read|]. intros tr o ([uc|e] & -> & Hr).
  2: { destruct (is_sentinel _ e); wp_cbn; intros _; [|apply Herr]. exists [], None. auto. }
  destruct Hr as (name & ns & Hr). unfold GetClusterVersion. wp_cbn. intros [cv|e]; wp_cbn; [|intros _; apply Herr].
  destruct (decide (complete_entries cv)) as [Hc|Hc].
  2: { apply wp_exec. intros t o _ [_ Hcv]. destruct Hc. apply Hcv. apply app_sub_r. by left. }
  destruct (GetCurrentVersion_complete cv Hc) as [r1 Hr1]. rewrite Hr1. wp_cbn.
  destruct r1 as [current|e]; wp_cbn; [|intros _; apply Herr].
  assert (forall v, comes_from cv uc v -> wp (collectFrom bootstrapMetrics uc v) (fun t o =>
    scrapeable (tr ++ Obs GetCV (Ok cv) :: t) -> exists ms err, o = Done (ms, err) /\
      match err with Some _ => ms = [] | None => ms = [] \/ scraped (tr ++ Obs GetCV (Ok cv) :: t) ms end)) as Hfrom.
  { intros v Hv. apply wp_exec. intros t o Hex [Huc _].
    destruct (Huc name ns uc) as [Hwf Ht]; [by apply app_sub_l|].
    destruct (collectFrom_cases uc v Hwf Ht) as [[e He]|(h & at_ & Hh & Ha & Hwc & He)]; rewrite He in Hex; destruct Hex as [-> ->].
    - apply Herr.
    - eexists _, None. split; [done|]. right. exists name, ns, uc, cv, v, h, at_. split_and!; try done; [by apply app_sub_l|].
      apply app_sub_r. by left. }
  assert (forall v, (if String.eqb (ucVersionOf uc) current then GetCurrentVersionMinusOne cv = Ret (Ok v) else v = current) ->
    comes_from cv uc v) as Hcomes by (intros v Hv; by exists current).
  destruct (String.eqb (ucVersionOf uc) current).
  - destruct (GetCurrentVersionMinusOne_complete cv Hc) as [r2 Hr2]. rewrite Hr2. wp_cbn.
    destruct r2 as [v|e]; [|wp_cbn; intros _; apply Herr]. apply Hfrom. by apply Hcomes.
  - wp_cbn. apply Hfrom. by apply Hcomes.
Qed.
End ConditionsSpec.

(** ** Lemmas: the states *)

Module StatesSpec.
Import States.

(** The state that a metric is about. *)
Definition stateOf (m : Metric) : string :=
  match m with ConstMetric _ _ [_; state] => state | _ => "" end.
Definition allStates : list string :=
  [ScheduledStateValue; StartedStateValue; WorkersStartedStateValue; WorkersCompletedStateValue; FinishedStateValue;
   ControlPlaneStartedStateValue; ControlPlaneCompletedStateValue].

(** Whatever is read, each state is reported at most once. *)
Lemma Collect_wp :
  wp states_Collect (fun _ o => exists ms, o = Done ms /\ map stateOf ms `sublist_of` allStates /\
    Forall (fun m => ConditionsSpec.metricDesc m = upgradeStateDesc) ms).
Proof.
  unfold states_Collect, collectUpgradeMetrics, optionState, stateMetric, GetClusterVersion.
  apply wp_bind. eapply wp_mono; [apply ConditionsSpec.ucm_Get_read|]. intros tr o ([uc|e] & -> & _).
  2: { wp_cbn. exists []. split; [done|]. split; [apply sublist_nil_l|constructor]. }
  cbn zeta. destruct (parseRFC3339 _) as [t|e]; [|wp_cbn; exists []; split; [done|]; split; [apply sublist_nil_l|constructor]].
  destruct (GetHistory _ _) as [h|]; [|wp_cbn; eexists; split; [done|]; split; [repeat constructor|by repeat constructor]].
  destruct (StartTime h), (WorkerStartTime h), (WorkerCompleteTime h), (CompleteTime h); wp_cbn; (intros [cv|e]; wp_cbn;
    [unfold controlPlaneStates, optionState, stateMetric; destruct (cv_GetHistory _ _) as [ch|]; [destruct (CompletionTime ch)|]; wp_cbn|]);
    (eexists; split; [done|]; split; [cbn; repeat constructor|by repeat constructor]).
Qed.

Lemma Collect_states_once tr o : exec states_Collect tr o -> exists ms, o = Done ms /\ NoDup (map stateOf ms).
Proof.
  intros Hex. destruct (proj1 (wp_exec _ _) Collect_wp _ _ Hex) as (ms & -> & Hs & _). exists ms. split; [done|].
  eapply sublist_NoDup; [|exact Hs]. apply (bool_decide_eq_true_1 _). vm_compute. reflexivity.
Qed.
End StatesSpec.

(** ** Properties *)

Import Conditions ConditionsSpec.


(** The step runner keeps resources fit for a scrape: whatever the steps do,
    the histories stay well formed and every condition keeps its start time, and
    its completion time while it is true. *)
Theorem runs_stay_scrapeable uc steps tr uc' ph err :
  is_Some (GetHistory (History uc) (ucVersionOf uc)) -> wf_histories (History uc) -> timed_uc uc ->
  exec (Run uc steps) tr (Done (uc', ph, err)) ->
  wf_histories (History uc') /\ timed_uc uc'.
Proof.
  intros Hh Hwf Ht Hex. split; [|by eapply Run_timed]. apply exec_Run_rel in Hex as [n Hn].
  destruct (run_rel_same _ _ _ _ _ _ _ Hn Hh) as [_ Hw]. by apply Hw.
Qed.

(** *** Witnesses *)

Definition demo_scrape_uc : UpgradeConfig :=
  set_History [mkHistory "4.15.1" "4.14.9" UpgradePhaseUpgrading
    [mkCondition CommenceUpgradeCondition ConditionFalse None None (Some (90 * Second)%Z) None "" "";
     mkCondition UpgradePreHealthCheck ConditionTrue None None (Some (70 * Second)%Z) (Some (80 * Second)%Z) "" ""]
    (Some (60 * Second)%Z) None None None] demo_target.
Definition demo_scrape_env X (e : Eff X) (u : unit) : X * unit :=
  match e in Eff X return X * unit with
  | GetUpgradeConfig _ _ => (Ok demo_scrape_uc, u)
  | e' => demo_cv_env _ e' u
  end.
Definition demo_scrape := run demo_scrape_env (Collect bootstrapMetrics) tt.

Lemma demo_scrape_uc_fit : wf_histories (History demo_scrape_uc) /\ timed_uc demo_scrape_uc.
Proof.
  split; [split; [apply (bool_decide_eq_true_1 _); vm_compute; reflexivity|]|].
  - constructor; [|constructor]. apply (bool_decide_eq_true_1 _). vm_compute. reflexivity.
  - intros t c. unfold conditionOf. replace (GetHistory _ _) with (Some (hd (mkHistory "" "" UpgradePhaseNew [] None None None None) (History demo_scrape_uc))) by (vm_compute; reflexivity).
    cbn [mbind option_bind hd History demo_scrape_uc set_History hist_Conditions GetCondition]. repeat case_bool_decide; intros Hc; try discriminate Hc; injection Hc as <-;
      (split; [by eexists|intros H'; first [discriminate H'|by eexists]]).
Qed.


(** A step that fails leaves a condition with a start and no completion. *)
Lemma runs_stay_scrapeable_witness :
  let r := run demo_scrape_env (Run demo_scrape_uc [Action "ComputeCapacityReserved" (fun _ => mret (Err (ErrText "quota")))]) tt in
  exists uc', r.1.2 = Done (uc', UpgradePhaseUpgrading, Some (ErrText "quota")) /\ wf_histories (History uc') /\ timed_uc uc'.
Proof.
  cbn zeta. eexists. split; [vm_compute; reflexivity|].
  eapply (runs_stay_scrapeable demo_scrape_uc [Action "ComputeCapacityReserved" (fun _ => mret (Err (ErrText "quota")))]).
  - by eexists.
  - exact (proj1 demo_scrape_uc_fit).
  - exact (proj2 demo_scrape_uc_fit).
  - match goal with |- exec ?p _ _ => pose proof (run_exec demo_scrape_env p tt) as H end.
    vm_compute in H |- *. exact H.
Defined.
