(* ===== verification/Startup.v ===== *)
(** * The start of the operator (main.go, pkg/k8sutil)

    [main] builds the controller manager, registers the three controllers,
    creates the objects that export the metrics, starts the synchronisation
    loop and hands over to the manager.  Its calls into the libraries are events;
    the exit status of the process is the result. *)

From stdpp Require Import base gmap strings list.
From Stdlib Require Import ZArith Lia Ascii.
From S2P Require Import Prelude GoTime Api Effects Config UpgradeConfigManager Controller Operator Collector.

(** ** Requests of the start *)

Record ManagerOptions := mkManagerOptions {
  mo_DefaultNamespace : string;
  mo_SyncPeriod : Duration;
  mo_MetricsBindAddress : string;
  mo_HealthProbeBindAddress : string;
  mo_LeaderElection : bool;
  mo_LeaderElectionID : string;
  mo_LeaderElectionNamespace : string;
}.

Inductive controllerName := UpgradeConfigController | NodeKeeperController | MachineConfigPoolController.

(** The error of reading a file, the error of creating an object. *)
Inductive fileError := NotExist | ReadError (msg : string).
Record createError := mkCreateError { IsAlreadyExists : bool; ce_Error : string }.

(** The settings of the custom metrics endpoint. *)
Record CustomMetrics := mkCustomMetrics {
  cm_Namespace : string; cm_ServiceName : string; cm_Path : string; cm_ServiceMonitor : bool; cm_ServiceLabel : list (string * string) }.

Inductive Boot (Service ServiceMonitor : Type) : Type -> Type :=
| Env {X} (e : Eff X) : Boot Service ServiceMonitor X
| ReadFile (path : string) : Boot Service ServiceMonitor (string + fileError)
| NewControllerManager (opts : ManagerOptions) : Boot Service ServiceMonitor (option error)
| SetupWithManager (c : controllerName) : Boot Service ServiceMonitor (option error)
| GetRestConfig : Boot Service ServiceMonitor (option error)
| NewK8sClient (purpose : string) : Boot Service ServiceMonitor (option error)
| CreateService (s : Service) : Boot Service ServiceMonitor (option createError)
| NewMonitoringClient : Boot Service ServiceMonitor (option error)
| CreateServiceMonitor (ns : string) (sm : ServiceMonitor) : Boot Service ServiceMonitor (option string)  (* err.Error() *)
| ConfigureMetrics (cfg : CustomMetrics) : Boot Service ServiceMonitor (option error)
| AddCheck (name : string) : Boot Service ServiceMonitor (option error)
| GoStartSync : Boot Service ServiceMonitor unit
| StartManager : Boot Service ServiceMonitor (option error).
Arguments Env {Service ServiceMonitor X} _.
Arguments ReadFile {Service ServiceMonitor} _.
Arguments NewControllerManager {Service ServiceMonitor} _.
Arguments SetupWithManager {Service ServiceMonitor} _.
Arguments GetRestConfig {Service ServiceMonitor}.
Arguments NewK8sClient {Service ServiceMonitor} _.
Arguments CreateService {Service ServiceMonitor} _.
Arguments NewMonitoringClient {Service ServiceMonitor}.
Arguments CreateServiceMonitor {Service ServiceMonitor} _ _.
Arguments ConfigureMetrics {Service ServiceMonitor} _.
Arguments AddCheck {Service ServiceMonitor} _.
Arguments GoStartSync {Service ServiceMonitor}.
Arguments StartManager {Service ServiceMonitor}.

(** [strings.TrimSpace] on ASCII text. *)
Definition isSpace (c : ascii) : bool :=
  let n := nat_of_ascii c in Nat.eqb n 32 || (Nat.leb 9 n && Nat.leb n 13).
Fixpoint trimLeft (s : string) : string :=
  match s with String c s' => if isSpace c then trimLeft s' else s | EmptyString => EmptyString end.
Fixpoint trimRight (s : string) : string :=
  match s with
  | String c s' => match trimRight s' with
                   | EmptyString => if isSpace c then EmptyString else String c EmptyString
                   | t => String c t
                   end
  | EmptyString => EmptyString
  end.
Definition TrimSpace (s : string) : string := trimRight (trimLeft s).

(** The flags of the command line. *)
Record Flags := mkFlags { metricsAddr : string; probeAddr : string; enableLeaderElection : bool }.
Definition defaultFlags : Flags := mkFlags ":8383" ":8081" true.

Definition metricsPort : Z := 8383.
Definition customMetricsPath : string := "/metrics".

Section Startup.
(** The services and service monitors of the metrics library. *)
Context {Service ServiceMonitor : Type}.
Context (GenerateService : Z -> string -> string -> string -> list (string * string) -> result Service).
Context (GenerateServiceMonitor : Service -> ServiceMonitor).
Notation B := (prog (Boot Service ServiceMonitor)).

(** A program over the events of the operator, during the start. *)
Fixpoint during {A} (p : M A) : B A :=
  match p with
  | Ret a => Ret a
  | Panic m => Panic m
  | Vis e k => Vis (Env e) (fun x => during (k x))
  end.

(** [os.Getenv] *)
Definition boot_Getenv (name : string) : B string := v ← call (Env (LookupEnv name)); mret (default "" v).

(** ** pkg/k8sutil *)

Inductive namespaceError := ErrRunLocal | ErrNoNamespace | ErrReadNamespace (msg : string).

Definition k8sutil_isRunModeLocal : B bool := v ← boot_Getenv "OSDK_FORCE_RUN_MODE"; mret (String.eqb v "local").

Definition GetWatchNamespace : B (result string) :=
  v ← call (Env (LookupEnv "WATCH_NAMESPACE"));
  mret match v with Some ns => Ok ns | None => Err (ErrText "WATCH_NAMESPACE must be set") end.

Definition k8sutil_GetOperatorNamespace : B (string + namespaceError) :=
  runLocal ← k8sutil_isRunModeLocal;
  if (runLocal : bool) then mret (inr ErrRunLocal)
  else
    r ← call (ReadFile "/var/run/secrets/kubernetes.io/serviceaccount/namespace");
    mret match r with
         | inr NotExist => inr ErrNoNamespace
         | inr (ReadError msg) => inr (ErrReadNamespace msg)
         | inl nsBytes => inl (TrimSpace nsBytes)
         end.

Definition GetOperatorName : B (result string) :=
  v ← call (Env (LookupEnv "OPERATOR_NAME"));
  mret match v with
       | None => Err (ErrText "OPERATOR_NAME must be set")
       | Some operatorName =>
           if String.eqb operatorName "" then Err (ErrText "OPERATOR_NAME must not be empty") else Ok operatorName
       end.

(** ** The metrics objects (addMetrics) *)

Definition ErrSMMetricsExists : string :=
  "servicemonitors.monitoring.coreos.com " +:+ quoted (OperatorName +:+ "-metrics") +:+ " already exists".

(** The service and its monitor; what already exists is left alone. *)
Definition createService (service : Service) : B (option error) :=
  err ← call (CreateService service);
  mret match err with
       | Some err => if negb (IsAlreadyExists err) then Some (ErrText (ce_Error err)) else None
       | None => None
       end.
Definition createServiceMonitor (operatorNs : string) (s : Service) : B (option error) :=
  err ← call (CreateServiceMonitor operatorNs (GenerateServiceMonitor s));
  mret match err with
       | Some msg => if negb (String.eqb msg ErrSMMetricsExists) then Some (ErrText msg) else None
       | None => None
       end.

(** The namespace is read again; an error other than the two that stand for a
    local run is lost, as is an error of the name. *)
Definition addMetrics : B (option error) :=
  r ← k8sutil_GetOperatorNamespace;
  match r with
  | inr ErrRunLocal | inr ErrNoNamespace => mret None
  | _ =>
      let operatorNs := match r with inl ns => ns | inr _ => "" end in
      r ← GetOperatorName;
      let operatorName := match r with Ok name => name | Err _ => "" end in
      match GenerateService metricsPort "http-metrics" (operatorName +:+ "-metrics") operatorNs [("name", operatorName)] with
      | Err err => mret (Some err)
      | Ok service =>
          err ← createService service;
          match err with
          | Some err => mret (Some err)
          | None =>
              r ← call NewMonitoringClient;
              match r with
              | Some err => Panic (error_msg err)
              | None => createServiceMonitor operatorNs service
              end
          end
      end
  end.

(** ** main *)

(** [if err := ...; err != nil { os.Exit(1) }] *)
Definition orExit (p : B (option error)) (k : B Z) : B Z :=
  err ← p;
  match err with Some _ => mret 1%Z | None => k end.

Definition managerOptions (fl : Flags) (operatorNS : string) : ManagerOptions :=
  mkManagerOptions operatorNS SyncPeriodDefault (metricsAddr fl) (probeAddr fl)
    (enableLeaderElection fl) "managed-upgrade-operator-lock" operatorNS.
Definition customMetrics (ns : string) : CustomMetrics :=
  mkCustomMetrics ns "managed-upgrade-operator-custom-metrics" customMetricsPath true [("name", OperatorName)].

(** [collector.NewUpgradeCollector] *)
Definition NewUpgradeCollector : M (result Conditions.ManagedOSMetrics) :=
  _ ←? ucm_NewManager;
  mret (Ok Conditions.bootstrapMetrics).

(** The error of building the UpgradeConfig manager is only logged: its loop is
    started all the same. *)
Definition serve : B Z :=
  r ← during ucm_NewManager;
  match r with
  | Err _ => Panic "nil pointer dereference"
  | Ok _ => _ ← call GoStartSync; orExit (call StartManager) (mret 0%Z)
  end.

(** The metrics endpoint and the probes. *)
Definition exportMetrics (k : B Z) : B Z :=
  orExit (call GetRestConfig) (
  orExit (call (NewK8sClient "metrics")) (
  orExit addMetrics (
  r ← during NewUpgradeCollector;
  match r with
  | Err _ => mret 1%Z
  | Ok _ =>
      r ← during GetOperatorNamespace;
      match r with
      | Err _ => mret 1%Z
      | Ok ns => orExit (call (ConfigureMetrics (customMetrics ns))) k
      end
  end))).

Definition main (fl : Flags) : B Z :=
  r ← GetWatchNamespace;
  match r with
  | Err _ => mret 1%Z
  | Ok ns =>
      operatorNS ← (if String.eqb ns "" then boot_Getenv "OPERATOR_NAMESPACE" else mret ns);
      orExit (call GetRestConfig) (
      orExit (call (NewControllerManager (managerOptions fl operatorNS))) (
      orExit (call (SetupWithManager UpgradeConfigController)) (
      orExit (call (SetupWithManager NodeKeeperController)) (
      orExit (call (SetupWithManager MachineConfigPoolController)) (
      exportMetrics (
      orExit (call (AddCheck "healthz")) (
      orExit (call (AddCheck "readyz")) (
      orExit (call (NewK8sClient "upgradeConfigManager")) serve))))))))
  end.
End Startup.

(** ** Restarts *)

Section Restart.
Context {Service ServiceMonitor : Type}.
Context (GenerateService : Z -> string -> string -> string -> list (string * string) -> result Service).
Context (GenerateServiceMonitor : Service -> ServiceMonitor) (monitorName : ServiceMonitor -> string).

(** A monitor is named after its service, and a service can always be made. *)
Definition named_after : Prop := forall port portName name ns labels, exists s,
  GenerateService port portName name ns labels = Ok s /\ monitorName (GenerateServiceMonitor s) = name.

(** The answer of the API server about an object that exists. *)
Definition monitorExists (name : string) : string :=
  "servicemonitors.monitoring.coreos.com " +:+ quoted name +:+ " already exists".

(** The environment of a pod of the operator called [operatorName]: everything
    works; the metrics objects may be left from an earlier start. *)
Definition inPod (operatorName : string) (existing : bool) (ob : obs (Boot Service ServiceMonitor)) : Prop :=
  match ob_event ob in Boot _ _ X return X -> Prop with
  | Env e => match e in Eff X return X -> Prop with
             | LookupEnv v => fun r =>
                 if String.eqb v "OPERATOR_NAME" then r = Some operatorName
                 else if String.eqb v "OSDK_FORCE_RUN_MODE" then r = None else is_Some r
             | _ => fun _ => True
             end
  | ReadFile _ => fun r => exists text, r = inl text
  | CreateService _ => fun r => if existing then exists m, r = Some (mkCreateError true m) else r = None
  | CreateServiceMonitor _ sm => fun r => r = if existing then Some (monitorExists (monitorName sm)) else None
  | NewControllerManager _ | SetupWithManager _ | GetRestConfig | NewK8sClient _ | NewMonitoringClient
  | ConfigureMetrics _ | AddCheck _ | StartManager => fun r => r = None
  | GoStartSync => fun _ => True
  end (ob_resp ob).

(** What of the start the manager sees. *)
Inductive milestone := Configured (opts : ManagerOptions) | Registered (c : controllerName) | Syncing | Serving.
Definition milestoneOf (ob : obs (Boot Service ServiceMonitor)) : option milestone :=
  match ob_event ob with
  | NewControllerManager opts => Some (Configured opts)
  | SetupWithManager c => Some (Registered c)
  | GoStartSync => Some Syncing
  | StartManager => Some Serving
  | _ => None
  end.
Definition milestones (tr : list (obs (Boot Service ServiceMonitor))) : list milestone := omap milestoneOf tr.

Definition registered (opts : ManagerOptions) : list milestone :=
  [Configured opts; Registered UpgradeConfigController; Registered NodeKeeperController; Registered MachineConfigPoolController].

Lemma milestones_app t1 t2 : milestones (t1 ++ t2) = milestones t1 ++ milestones t2.
Proof. apply omap_app. Qed.

(** *** Lemmas *)

Notation B := (prog (Boot Service ServiceMonitor)).

(** In the pod, [p] ends in a result with [Q], having passed no milestone. *)
Definition smoothly {A} (name : string) (existing : bool) (p : B A) (Q : A -> Prop) : Prop :=
  wp p (fun tr o => Forall (inPod name existing) tr -> milestones tr = [] /\ exists a, o = Done a /\ Q a).
(** The rest of the start reaches [ms] and the status. *)
Definition reaches (name : string) (existing : bool) (p : B Z) (ms : list milestone) (status : Z) : Prop :=
  wp p (fun tr o => Forall (inPod name existing) tr -> milestones tr = ms /\ o = Done status).

Lemma reaches_bind {A} name existing (p : B A) (Q : A -> Prop) k ms status :
  smoothly name existing p Q -> (forall a, Q a -> reaches name existing (k a) ms status) ->
  reaches name existing (p ≫= k) ms status.
Proof.
  intros Hp Hk. apply wp_bind. eapply wp_mono; [exact Hp|]. intros tr o Ho.
  destruct o as [a|m].
  - apply wp_exec. intros tr' o' Hex [H1 H2]%Forall_app. destruct (Ho H1) as (Hm & a' & [= <-] & Ha).
    destruct (proj1 (wp_exec _ _) (Hk a Ha) _ _ Hex H2) as [Hms ->]. by rewrite milestones_app, Hm, Hms.
  - intros H1. by destruct (Ho H1) as (_ & a & [=] & _).
Qed.

Lemma smoothly_bind {A A'} name existing (p : B A) (Q : A -> Prop) (k : A -> B A') Q' :
  smoothly name existing p Q -> (forall a, Q a -> smoothly name existing (k a) Q') -> smoothly name existing (p ≫= k) Q'.
Proof.
  intros Hp Hk. apply wp_bind. eapply wp_mono; [exact Hp|]. intros tr o Ho. destruct o as [a|m].
  - apply wp_exec. intros tr' o' Hex [H1 H2]%Forall_app. destruct (Ho H1) as (Hm & a' & [= <-] & Ha).
    destruct (proj1 (wp_exec _ _) (Hk a Ha) _ _ Hex H2) as [Hms Hb]. by rewrite milestones_app, Hm, Hms.
  - intros H1. by destruct (Ho H1) as (_ & a & [=] & _).
Qed.

Lemma smoothly_ret {A} name existing (a : A) (Q : A -> Prop) : Q a -> smoothly name existing (mret a) Q.
Proof. intros H _. split; [done|]. by exists a. Qed.

(** A single event that is no milestone. *)
Lemma smoothly_call {A} name existing (e : Boot Service ServiceMonitor A) (Q : A -> Prop) :
  (forall x, milestoneOf (Obs e x) = None) -> (forall x, inPod name existing (Obs e x) -> Q x) -> smoothly name existing (call e) Q.
Proof.
  intros Hm HQ x [H _]%Forall_cons. unfold milestones. cbn. rewrite Hm. split; [done|]. exists x. split; [done|]. by apply HQ.
Qed.

Lemma reaches_mile {A} name existing (e : Boot Service ServiceMonitor A) m k ms status :
  (forall x, milestoneOf (Obs e x) = Some m) ->
  (forall x, inPod name existing (Obs e x) -> reaches name existing (k x) ms status) ->
  reaches name existing (call e ≫= k) (m :: ms) status.
Proof.
  intros Hm Hk x. apply wp_exec. intros tr o Hex [H1 H2]%Forall_cons.
  destruct (proj1 (wp_exec _ _) (Hk x H1) _ _ Hex H2) as [Hms ->]. unfold milestones in *. cbn. by rewrite Hm, Hms.
Qed.

Lemma reaches_orExit name existing p k ms status :
  smoothly name existing p (fun r => r = None) -> reaches name existing k ms status ->
  reaches name existing (orExit p k) ms status.
Proof. intros Hp Hk. eapply reaches_bind; [exact Hp|]. by intros ? ->. Qed.

Lemma reaches_exit name existing p k :
  smoothly name existing p (fun r => is_Some r) -> reaches name existing (orExit p k) [] 1.
Proof. intros Hp. eapply reaches_bind; [exact Hp|]. intros ? [e ->]. by intros _. Qed.

Lemma smoothly_during_ns name existing : smoothly name existing (during GetOperatorNamespace) (fun r => is_ok r = true).
Proof.
  unfold GetOperatorNamespace. cbn [call mbind prog_mbind prog_bind during]. intros x [H _]%Forall_cons. cbn in H.
  destruct H as [ns ->]. split; [done|]. by eexists.
Qed.

Lemma smoothly_watch_ns name existing : smoothly name existing GetWatchNamespace (fun r => is_ok r = true).
Proof.
  unfold GetWatchNamespace. eapply (smoothly_bind _ _ _ (fun v => is_Some v)); [by apply smoothly_call|].
  intros v [ns ->]. by apply smoothly_ret.
Qed.
Lemma smoothly_fallback name existing ns :
  smoothly name existing (if String.eqb ns "" then boot_Getenv "OPERATOR_NAMESPACE" else mret ns) (fun _ => True).
Proof.
  destruct (String.eqb ns ""); [|by apply smoothly_ret].
  eapply (smoothly_bind _ _ _ (fun _ => True)); [by apply smoothly_call|]. intros v _. by apply smoothly_ret.
Qed.

(** The execution of a program that goes smoothly, and the rest. *)
Lemma smoothly_exec {A} name existing (p : B A) Q (k : A -> B Z) tr o :
  smoothly name existing p Q -> exec (p ≫= k) tr o -> Forall (inPod name existing) tr ->
  exists a t, Q a /\ exec (k a) t o /\ Forall (inPod name existing) t /\ milestones tr = milestones t.
Proof.
  intros Hp [(a & t1 & t & -> & H1 & H2)|(m & -> & H1)]%exec_bind Hpod.
  - apply Forall_app in Hpod as [P1 P2]. destruct (proj1 (wp_exec _ _) Hp _ _ H1 P1) as (M1 & a' & [= <-] & Ha).
    exists a, t. rewrite milestones_app, M1. by split_and!.
  - by destruct (proj1 (wp_exec _ _) Hp _ _ H1 Hpod) as (_ & a & [=] & _).
Qed.

Lemma smoothly_namespace name existing : smoothly name existing k8sutil_GetOperatorNamespace (fun r => exists ns, r = inl ns).
Proof.
  unfold k8sutil_GetOperatorNamespace, k8sutil_isRunModeLocal, boot_Getenv. eapply (smoothly_bind _ _ _ (fun b => b = false)).
  - eapply (smoothly_bind _ _ _ (fun v => v = "")); [|intros v ->; by apply smoothly_ret].
    eapply (smoothly_bind _ _ _ (fun v => v = None)); [by apply smoothly_call|]. intros v ->. by apply smoothly_ret.
  - intros b ->. eapply (smoothly_bind _ _ _ (fun r => exists text, r = inl text)); [by apply smoothly_call|].
    intros r [text ->]. apply smoothly_ret. by eexists.
Qed.

Lemma length_append (a b : string) : String.length (a +:+ b) = String.length a + String.length b.
Proof. induction a as [|x a IH]; [done|]. exact (f_equal S IH). Qed.
Lemma append_longer x (b c : string) : String x (b +:+ c) <> c.
Proof. intros H%(f_equal String.length). change (S (String.length (b +:+ c)) = String.length c) in H. rewrite length_append in H. lia. Qed.
Lemma append_inj_r (a b c : string) : a +:+ c = b +:+ c -> a = b.
Proof.
  revert b. induction a as [|x a IH]; intros [|y b] H; [done| | |].
  - by destruct (append_longer y b c).
  - by destruct (append_longer x a c).
  - injection H as -> H. by rewrite (IH b).
Qed.
Lemma monitorExists_eqb name : String.eqb (monitorExists (name +:+ "-metrics")) ErrSMMetricsExists = String.eqb name OperatorName.
Proof.
  destruct (String.eqb_spec name OperatorName) as [->|Hne]; [by apply String.eqb_refl|]. apply String.eqb_neq. intros H. apply Hne.
  unfold monitorExists, ErrSMMetricsExists in H. apply (inj (String.append _)), append_inj_r in H. unfold quoted in H.
  apply (inj (String.append dq)) in H. by do 2 apply append_inj_r in H.
Qed.

(** *** Properties *)

Context (Hnamed : named_after).

Lemma createService_smooth name existing s : smoothly name existing (createService s) (fun r => r = None).
Proof.
  unfold createService. eapply (smoothly_bind _ _ _ (fun r => if existing then exists m, r = Some (mkCreateError true m) else r = None)).
  - by apply smoothly_call.
  - destruct existing; [intros r [m ->]|intros r ->]; by apply smoothly_ret.
Qed.

Lemma createServiceMonitor_smooth name existing ns s :
  monitorName (GenerateServiceMonitor s) = name +:+ "-metrics" ->
  smoothly name existing (createServiceMonitor GenerateServiceMonitor ns s)
    (fun r => bool_decide (r = None) = negb existing || String.eqb name OperatorName).
Proof.
  intros Hn. unfold createServiceMonitor.
  eapply (smoothly_bind _ _ _ (fun r => r = if existing then Some (monitorExists (name +:+ "-metrics")) else None)).
  - apply smoothly_call; [done|]. intros r. cbn. by rewrite Hn.
  - intros r ->. apply smoothly_ret. destruct existing; [|done]. rewrite monitorExists_eqb. by destruct (String.eqb name OperatorName).
Qed.

(** The metrics objects are no obstacle, unless they exist already and the
    operator has another name than the one compiled in. *)
Lemma addMetrics_smooth name existing :
  smoothly name existing (addMetrics GenerateService GenerateServiceMonitor)
    (fun r => bool_decide (r = None) = negb existing || String.eqb name OperatorName).
Proof.
  unfold addMetrics. eapply smoothly_bind; [apply smoothly_namespace|]. intros r [ns ->].
  eapply (smoothly_bind _ _ _ (fun r => match r with Ok n => n | Err _ => "" end = name)).
  { unfold GetOperatorName. eapply (smoothly_bind _ _ _ (fun v => v = Some name)); [by apply smoothly_call|]. intros v ->.
    apply smoothly_ret. destruct (String.eqb_spec name ""); [by subst|done]. }
  intros r Hr. rewrite Hr. destruct (Hnamed metricsPort "http-metrics" (name +:+ "-metrics") ns [("name", name)]) as (s & -> & Hs).
  eapply smoothly_bind; [apply createService_smooth|]. intros ? ->.
  eapply (smoothly_bind _ _ _ (fun r => r = None)); [by apply smoothly_call|]. intros ? ->.
  by apply createServiceMonitor_smooth.
Qed.

Lemma orExit_ok name existing e k ms status :
  (forall x, milestoneOf (Obs e x) = None) -> (forall x, inPod name existing (Obs e x) -> x = None) ->
  reaches name existing k ms status -> reaches name existing (orExit (call e) k) ms status.
Proof. intros Hm He Hk. apply reaches_orExit; [by apply smoothly_call|exact Hk]. Qed.
Lemma orExit_mile name existing e m k ms status :
  (forall x, milestoneOf (Obs e x) = Some m) -> (forall x, inPod name existing (Obs e x) -> x = None) ->
  reaches name existing k ms status -> reaches name existing (orExit (call e) k) (m :: ms) status.
Proof. intros Hm He Hk. eapply reaches_mile; [exact Hm|]. by intros x ->%He. Qed.

Lemma serve_reaches name existing : reaches name existing serve [Syncing; Serving] 0.
Proof.
  unfold serve. eapply (reaches_bind _ _ _ (fun r => is_ok r = true)); [by apply smoothly_ret|]. intros [m|e] H; [|done].
  eapply (reaches_mile _ _ GoStartSync); [done|]. intros [] _. eapply orExit_mile; [done|done|]. by intros _.
Qed.

Lemma exportMetrics_reaches name existing k ms status :
  reaches name existing k ms status ->
  reaches name existing (exportMetrics GenerateService GenerateServiceMonitor k)
    (if negb existing || String.eqb name OperatorName then ms else [])
    (if negb existing || String.eqb name OperatorName then status else 1%Z).
Proof.
  intros Hk. unfold exportMetrics. do 2 (apply orExit_ok; [done|done|]). pose proof (addMetrics_smooth name existing) as Ha.
  destruct (negb existing || String.eqb name OperatorName).
  - apply reaches_orExit; [eapply wp_mono; [exact Ha|]; intros tr o H Ht; destruct (H Ht) as (? & r & ? & Hr%bool_decide_eq_true); eauto|].
    eapply (reaches_bind _ _ _ (fun r => is_ok r = true)); [by apply smoothly_ret|]. intros [m|e] H; [|done].
    eapply reaches_bind; [apply smoothly_during_ns|]. intros [ns|e] H'; [|done]. by apply orExit_ok.
  - apply reaches_exit. eapply wp_mono; [exact Ha|]. intros tr o H Ht. destruct (H Ht) as (? & [r|] & ? & Hr); [eauto|done].
Qed.

(** [main] from the construction of the manager on. *)
Lemma main_reaches name existing fl operatorNS :
  reaches name existing
    (orExit (call GetRestConfig)
      (orExit (call (NewControllerManager (managerOptions fl operatorNS)))
        (orExit (call (SetupWithManager UpgradeConfigController))
          (orExit (call (SetupWithManager NodeKeeperController))
            (orExit (call (SetupWithManager MachineConfigPoolController))
              (exportMetrics GenerateService GenerateServiceMonitor
                (orExit (call (AddCheck "healthz")) (orExit (call (AddCheck "readyz"))
                  (orExit (call (NewK8sClient "upgradeConfigManager")) serve)))))))))
    (registered (managerOptions fl operatorNS) ++ if negb existing || String.eqb name OperatorName then [Syncing; Serving] else [])
    (if negb existing || String.eqb name OperatorName then 0%Z else 1%Z).
Proof.
  apply orExit_ok; [done|done|]. do 4 (apply orExit_mile; [done|done|]). apply exportMetrics_reaches.
  do 3 (apply orExit_ok; [done|done|]). apply serve_reaches.
Qed.
End Restart.

(** C37: in a pod in which everything works the operator registers its three
    controllers with the resynchronisation period of [SyncPeriodDefault], starts
    the synchronisation loop and serves until it is told to stop; but a restart,
    which finds the metrics objects of the earlier start, only comes up when
    OPERATOR_NAME is the name that is compiled into the operator: with another
    one the process exits with an error before it synchronises or serves. *)
Theorem restarts_under_own_name {Service ServiceMonitor} GenerateService GenerateServiceMonitor monitorName fl operatorName existing
    (tr : list (obs (Boot Service ServiceMonitor))) o :
  named_after GenerateService GenerateServiceMonitor monitorName ->
  exec (main GenerateService GenerateServiceMonitor fl) tr o -> Forall (inPod monitorName operatorName existing) tr ->
  exists operatorNS,
    let opts := managerOptions fl operatorNS in mo_SyncPeriod opts = SyncPeriodDefault /\
    if negb existing || String.eqb operatorName OperatorName
    then milestones tr = registered opts ++ [Syncing; Serving] /\ o = Done 0%Z
    else milestones tr = registered opts /\ o = Done 1%Z.
Proof.
  intros Hnamed Hex Hpod. unfold main in Hex.
  destruct (smoothly_exec _ _ _ _ _ _ _ _ (smoothly_watch_ns _ _ _) Hex Hpod) as ([ns|e] & t1 & Hns & Hex1 & P1 & ->); [|done].
  destruct (smoothly_exec _ _ _ _ _ _ _ _ (smoothly_fallback _ _ _ ns) Hex1 P1) as (operatorNS & t2 & _ & Hex2 & P2 & ->).
  exists operatorNS. cbn zeta. split; [done|].
  destruct (proj1 (wp_exec _ _) (main_reaches _ _ _ Hnamed operatorName existing fl operatorNS) _ _ Hex2 P2) as [-> ->].
  destruct (negb existing || String.eqb operatorName OperatorName); [done|]. by rewrite app_nil_r.
Qed.

(** *** Witnesses *)

(** Services and monitors by their names. *)
Definition demo_GenerateService (port : Z) (portName name ns : string) (labels : list (string * string)) : result string := Ok name.
Definition demo_pod (operatorName : string) X (e : Boot string string X) (u : unit) : X * unit :=
  match e in Boot _ _ X return X * unit with
  | Env e => (match e in Eff X return X with
              | LookupEnv v => if String.eqb v "OPERATOR_NAME" then Some operatorName
                               else if String.eqb v "OSDK_FORCE_RUN_MODE" then None else Some "muo"
              | e' => default_resp e'
              end, u)
  | ReadFile _ => (inl "muo", u)
  | CreateService s => (Some (mkCreateError true (s +:+ " already exists")), u)
  | CreateServiceMonitor _ sm => (Some (monitorExists sm), u)
  | NewControllerManager _ | SetupWithManager _ | GetRestConfig | NewK8sClient _ | NewMonitoringClient
  | ConfigureMetrics _ | AddCheck _ | StartManager => (None, u)
  | GoStartSync => (tt, u)
  end.
Definition demo_restart (operatorName : string) :=
  run (demo_pod operatorName) (main demo_GenerateService (fun s => s) defaultFlags) tt.

Lemma demo_pod_inPod name u X (e : Boot string string X) : inPod (fun s => s) name true (Obs e (demo_pod name X e u).1).
Proof.
  destruct e as [Y e| | | | | | | | | | | |]; cbn; try done; try by eexists.
  destruct e; cbn; try done. repeat case_match; [done|done|]. by eexists.
Qed.

Lemma restarts_under_own_name_witness :
  (demo_restart OperatorName).1.2 = Done 0%Z /\ (demo_restart "muo").1.2 = Done 1%Z /\
  exists operatorNS,
    let opts := managerOptions defaultFlags operatorNS in mo_SyncPeriod opts = SyncPeriodDefault /\
    if negb true || String.eqb "muo" OperatorName
    then milestones (demo_restart "muo").1.1 = registered opts ++ [Syncing; Serving] /\ (demo_restart "muo").1.2 = Done 0%Z
    else milestones (demo_restart "muo").1.1 = registered opts /\ (demo_restart "muo").1.2 = Done 1%Z.
Proof.
  split; [vm_compute; reflexivity|]. split; [vm_compute; reflexivity|].
  apply (restarts_under_own_name demo_GenerateService (fun s => s) (fun s => s) defaultFlags "muo" true).
  - intros port portName name ns labels. exists name. split; reflexivity.
  - exact (run_exec _ _ _).
  - pose proof (run_answers (demo_pod "muo") (main demo_GenerateService (fun s => s) defaultFlags) tt) as H.
    eapply Forall_impl; [exact H|]. intros [X e x] Hx. cbn in Hx. subst x. apply demo_pod_inPod.
Defined.
