(* ===== verification/GoJson.v ===== *)
(** * JSON documents (encoding/json)

    Go decodes a document in two steps: a check of the whole syntax, then the
    assignment of its members to the fields of a value.  The syntax is the
    interface [JsonSyntax]; the assignments are modelled as the source's structs
    use them: members in the order of the document, field names without regard
    to (ASCII) case, null as no change, any other type as an error. *)

From stdpp Require Import base gmap strings list.
From Stdlib Require Import ZArith Lia Ascii.
From S2P Require Import Prelude GoTime Interfaces.

#[warnings="-register-all"]
Inductive Json :=
| JNull
| JBool (b : bool)
| JNumber (text : string)
| JString (s : string)
| JArray (l : list Json)
| JObject (members : list (string * Json)).

Class JsonSyntax := json_Parse : string -> result Json.

(** [%v] of a decoded value other than a string or null. *)
Class JsonPrint := json_Sprint : Json -> string.

Definition typeError : error := ErrText "json: cannot unmarshal into Go value".

(** [strconv.ParseInt(text, 10, 64)] on a JSON number. *)
Definition parseInt64 (text : string) : option Z :=
  let natural (s : string) := match number s None with Some (n, EmptyString) => Some n | _ => None end in
  n ← (match text with
       | String c s => if Ascii.eqb c "-" then Z.opp <$> natural s else natural text
       | EmptyString => None
       end);
  if ((- 2 ^ 63 <=? n) && (n <? 2 ^ 63))%Z then Some n else None.

(** ** Assignments *)

Definition intoString (s : string) (j : Json) : result string :=
  match j with JString s' => Ok s' | JNull => Ok s | _ => Err typeError end.

Definition intoInt64 (z : Z) (j : Json) : result Z :=
  match j with
  | JNumber text => match parseInt64 text with Some z' => Ok z' | None => Err typeError end
  | JNull => Ok z
  | _ => Err typeError
  end.

Section Folds.
Context {A : Type}.

Fixpoint foldMembers (f : A -> string -> Json -> result A) (a : A) (m : list (string * Json)) : result A :=
  match m with
  | [] => Ok a
  | (key, v) :: m' => match f a key v with Ok a' => foldMembers f a' m' | Err e => Err e end
  end.

(** A struct: one assignment per member that names a field. *)
Definition intoStruct (f : A -> string -> Json -> result A) (a : A) (j : Json) : result A :=
  match j with
  | JObject m => foldMembers (fun a key v => f a (ToLower key) v) a m
  | JNull => Ok a
  | _ => Err typeError
  end.

(** A slice: its elements are decoded from zero values. *)
Fixpoint intoElements (f : Json -> result A) (l : list Json) : result (list A) :=
  match l with
  | [] => Ok []
  | j :: l' =>
      match f j with
      | Err e => Err e
      | Ok a => match intoElements f l' with Ok rest => Ok (a :: rest) | Err e => Err e end
      end
  end.
Definition intoSlice (f : Json -> result A) (j : Json) : result (list A) :=
  match j with JArray l => intoElements f l | JNull => Ok [] | _ => Err typeError end.

End Folds.

(** A [map[string]string]: null empties it, the entries of an object are added. *)
Definition intoStringMap (m : gmap string string) (j : Json) : result (gmap string string) :=
  match j with
  | JObject members =>
      foldMembers (fun m key v => match intoString "" v with Ok s => Ok (<[key := s]> m) | Err e => Err e end) m members
  | JNull => Ok ∅
  | _ => Err typeError
  end.

(** Lookup in a decoded [map[string]interface{}]: the last member of the name. *)
Fixpoint lookupMember (key : string) (m : list (string * Json)) : option Json :=
  match m with
  | [] => None
  | (k, v) :: m' =>
      match lookupMember key m' with
      | Some v' => Some v'
      | None => if String.eqb k key then Some v else None
      end
  end.

(** [float64(z)]: the nearest of the integers with 53 significant bits, the
    even one of two. *)
Definition float64_of_int (z : Z) : Z :=
  let a := Z.abs z in
  if (a <=? 2 ^ 53)%Z then z
  else
    let unit := (2 ^ (Z.log2 a - 52))%Z in
    let q := (a / unit)%Z in
    let r := (a mod unit)%Z in
    let up := ((unit <? 2 * r) || ((unit =? 2 * r) && Z.odd q))%Z in
    (Z.sgn z * ((if up then q + 1 else q) * unit))%Z.

Lemma foldMembers_ind {A} (I : A -> Prop) f (a : A) m a' :
  I a -> (forall a key v b, (key, v) ∈ m -> I a -> f a key v = Ok b -> I b) ->
  foldMembers f a m = Ok a' -> I a'.
Proof.
  revert a. induction m as [|[key v] m IH]; intros a Ha Hf; cbn; [by intros [= <-]|].
  destruct (f a key v) as [b|] eqn:E; [|done]. apply IH.
  - eapply Hf; [by left|done|done].
  - intros. eapply Hf; [by right|done|done].
Qed.
