(* ===== verification/Wire.v ===== *)
(** * Requests of the clients

    The events of [Effects] that query Prometheus, OCM, Alertmanager and the
    deployment validation operator stand for operations of clients the operator
    builds itself.  Here are the requests those clients make: reads of the
    cluster, HTTP and OCM connections; every other event is a request as it is.
    [Monitoring] and [Ocm] give the clients over this signature, [Clients]
    replaces the events by them. *)

From stdpp Require Import base gmap strings list.
From Stdlib Require Import ZArith Lia.
From S2P Require Import Prelude GoTime Api Effects.

Record ServicePort := mkServicePort { port_Name : string; port_Number : Z }.
Record Secret := mkSecret { secret_Name : string; secret_Data : gmap string string }.

(** What an HTTP client adds to a request: the value of its Authorization
    header and the certificate authority it trusts besides the system's. *)
Record HttpClient := mkHttpClient { hc_Authorization : string; hc_CA : option string }.

(** The settings of an OCM connection: tokens, or an Authorization header. *)
Record Connection := mkConnection {
  conn_URL : string;
  conn_Tokens : option string;
  conn_Authorization : option string;
  conn_RetryLimit : option Z;
  conn_RetryInterval : option Duration;
  conn_TLSHandshakeTimeout : Duration;
}.

(** A response of the OCM SDK: status, operation id, body. *)
Record SdkResponse (A : Type) := mkSdkResponse { sdk_Status : Z; sdk_OperationId : string; sdk_Body : A }.
Arguments mkSdkResponse {A} _ _ _.
Arguments sdk_Status {A} _.
Arguments sdk_OperationId {A} _.
Arguments sdk_Body {A} _.

(** A service log entry. *)
Record LogEntry := mkLogEntry {
  le_Severity : string; le_InternalOnly : bool; le_ServiceName : string; le_LogType : string;
  le_Description : string; le_ClusterID : string; le_Summary : string; le_DocReferences : option string }.

Record GettableSilence := mkGettableSilence {
  gs_Silence : Silence; gs_Matchers : list Matcher; gs_StartsAt : Time }.

Inductive Wire : Type -> Type :=
| Op {X} (e : Eff X) : Wire X
(* the cluster *)
| GetServicePorts (name ns : string) : Wire (result (list ServicePort))
| GetRoute (name ns : string) : Wire (result string)  (* Spec.Host *)
| ListSecrets (ns : string) : Wire (result (list Secret))
| GetSecret (name ns : string) : Wire (result Secret)
| CreateToken (serviceAccount ns : string) (expirationSeconds : Z) : Wire (result string)
(* HTTP: status and body, or the error of reading the body *)
| Do (c : HttpClient) (url : string) : Wire (result (Z * result string))
(* OCM *)
| BuildConnection (c : Connection) : Wire (result unit)
| SearchClusters (c : Connection) (search : string) (size : Z)
    : Wire (result (SdkResponse (Z * list OcmCluster)))
| ListUpgradePolicies (c : Connection) (clusterId : string) (page size : Z)
    : Wire (result (SdkResponse (Z * list UpgradePolicy)))
| GetPolicyState (c : Connection) (clusterId policyId : string)
    : Wire (result (SdkResponse (option UpgradePolicyState)))
| UpdatePolicyState (c : Connection) (clusterId policyId : string) (state : UpgradePolicyState)
    : Wire (result (SdkResponse unit))
| AddClusterLog (c : Connection) (le : LogEntry) : Wire (result (option error))  (* response.Error() *)
| GetPath (c : Connection) (path : string) : Wire (result (SdkResponse string))
(* Alertmanager *)
| GetSilence (id : string) : Wire (result GettableSilence).

Notation W := (prog Wire).

(** An event as a request. *)
Definition op {X} (e : Eff X) : W X := call (Op e).

(** [os.Getenv] *)
Definition Getenv (name : string) : W string := v ← op (LookupEnv name); mret (default "" v).

(** Requests that only read. *)
Definition wire_reads X (w : Wire X) : Prop :=
  match w with
  | Op e => reads _ e
  | CreateToken _ _ _ | UpdatePolicyState _ _ _ _ | AddClusterLog _ _ => False
  | _ => True
  end.

(** ** Replacing events by programs *)

Section Link.
Context (realise : forall X, Eff X -> W X).

Fixpoint link {A} (p : M A) : W A :=
  match p with
  | Ret a => Ret a
  | Panic m => Panic m
  | Vis e k => x ← realise _ e; link (k x)
  end.

(** Replacement keeps the structure of programs. *)
Lemma link_bind_exec {A B} (p : M A) (f : A -> M B) tr o :
  exec (link (p ≫= f)) tr o <-> exec (link p ≫= fun a => link (f a)) tr o.
Proof.
  revert tr. induction p as [a|m|X e k IH]; intros tr; cbn [link mbind prog_mbind prog_bind]; [done..|].
  change (prog_bind ?f ?p) with (p ≫= f). rewrite !exec_bind. split.
  - intros [(x & t1 & t2 & -> & H1 & H2)|H]; [|right].
    + apply IH in H2. apply exec_bind in H2 as [(a & t3 & t4 & -> & H3 & H4)|(s & -> & H3)]; [left|right].
      * exists a, (t1 ++ t3), t4. rewrite app_assoc. split; [done|]. split; [|done].
        apply exec_bind. left. eauto 6.
      * exists s. split; [done|]. apply exec_bind. left. eauto 6.
    + destruct H as (s & -> & H). exists s. split; [done|]. apply exec_bind. right. eauto.
  - intros [(a & t1 & t2 & -> & H1 & H2)|(s & -> & H1)].
    + apply exec_bind in H1 as [(x & t3 & t4 & -> & H3 & H4)|(s & ? & _)]; [|done].
      left. exists x, t3, (t4 ++ t2). rewrite <- app_assoc. split; [done|]. split; [done|].
      apply IH, exec_bind. left. eauto 6.
    + apply exec_bind in H1 as [(x & t3 & t4 & -> & H3 & H4)|(s' & [= <-] & H3)].
      * left. exists x, t3, t4. split; [done|]. split; [done|]. apply IH, exec_bind. right. eauto.
      * right. eauto.
Qed.

(** A property of every execution of the linked program follows from one of
    the program by relating single events. *)
Lemma link_no_panic {A} (p : M A) :
  (forall X e, no_panic (realise X e)) -> no_panic p -> no_panic (link p).
Proof.
  intros Hr. induction p as [a|m|X e k IH]; cbn [link no_panic]; [done..|].
  intros Hp. apply no_panic_bind; [apply Hr|]. intros x. apply IH, Hp.
Qed.

Lemma link_all_ev {A} (P : forall X, Eff X -> Prop) (Q : forall X, Wire X -> Prop) (p : M A) :
  (forall X e, P X e -> all_ev Q (realise X e)) -> all_ev P p -> all_ev Q (link p).
Proof.
  intros Hr. induction p as [a|m|X e k IH]; cbn [link all_ev]; [done..|].
  intros [He Hk]. apply all_ev_bind; [by apply Hr|]. intros x. apply IH, Hk.
Qed.

End Link.
