(* ===== verification/Monitoring.v ===== *)
(** * Clients of the monitoring stack (pkg/metrics, pkg/maintenance, pkg/alertmanager)

    How the metrics client and the Alertmanager client are built from objects of
    the cluster, and their requests: which address they talk to, with which
    token, trusting which certificate authority. *)

From stdpp Require Import base gmap strings list pretty.
From Stdlib Require Import ZArith Lia Ascii.
From S2P Require Import Prelude GoTime GoJson Api Effects Config Interfaces Maintenance Validation Wire.

(** [AppendCertsFromPEM] on the pool of the system. *)
Class PemParse := pem_Ok : string -> bool.

(** ** Network targets (metrics.go) *)

Definition MonitoringNS : string := "openshift-monitoring".
Definition MonitoringCAConfigMapName : string := "serving-certs-ca-bundle".
Definition MonitoringConfigField : string := "service-ca.crt".
Definition promApp : string := "prometheus-k8s".
Definition clusterSVCSuffix : string := ".svc.cluster.local".

Definition isRunModeLocal : W bool := v ← Getenv "OSDK_FORCE_RUN_MODE"; mret (String.eqb v "local").
Definition UseRoutes : W bool := v ← Getenv "ROUTES"; mret (String.eqb v "true").

(** The last port of the name. *)
Definition servicePort (ports : list ServicePort) (portName : string) : string :=
  fold_left (fun port p => if String.eqb (port_Name p) portName then pretty (port_Number p) else port) ports "".

(** The answer of the Prometheus query API: its status and the labels of the
    metrics of its result. *)
Record AlertResponse := mkAlertResponse { ar_Status : string; ar_Result : list (gmap string string) }.

Definition decodeAlertResult : Json -> result (gmap string string) :=
  intoStruct (fun metric key v =>
    if String.eqb key "metric" then intoStringMap metric v
    else if String.eqb key "value" then match intoSlice Ok v with Ok _ => Ok metric | Err e => Err e end
    else Ok metric) ∅.
Definition decodeAlertData (results : list (gmap string string)) : Json -> result (list (gmap string string)) :=
  intoStruct (fun results key v =>
    if String.eqb key "result" then intoSlice decodeAlertResult v else Ok results) results.
Definition alertResponseField (r : AlertResponse) (key : string) (v : Json) : result AlertResponse :=
  if String.eqb key "status" then
    match intoString (ar_Status r) v with Ok s => Ok (mkAlertResponse s (ar_Result r)) | Err e => Err e end
  else if String.eqb key "data" then
    match decodeAlertData (ar_Result r) v with Ok l => Ok (mkAlertResponse (ar_Status r) l) | Err e => Err e end
  else Ok r.
Definition decodeAlertResponse : Json -> result AlertResponse :=
  intoStruct alertResponseField (mkAlertResponse "" []).

(** [url.Values.Encode] on the value of a query. *)
Fixpoint queryEscape (s : string) : string :=
  match s with
  | EmptyString => EmptyString
  | String c s' =>
      if unreserved c then String c (queryEscape s')
      else if Ascii.eqb c " " then String "+" (queryEscape s')
      else percent c +:+ queryEscape s'
  end.

Section Monitoring.
Context {pem : PemParse} {urlparse : UrlParse} {json : JsonSyntax}.

Definition GetService (namespace svcName portName : string) : W (result string) :=
  ports ←? call (GetServicePorts svcName namespace);
  let host := svcName +:+ "." +:+ namespace +:+ clusterSVCSuffix in
  let port := servicePort ports portName in
  mret (Ok (if negb (String.eqb port "") then host +:+ ":" +:+ port else host)).

Definition getRouteHost (appName : string) : W (result string) := call (GetRoute appName MonitoringNS).

Definition NetworkTarget (namespace appName portName : string) : W (result string) :=
  runLocal ← isRunModeLocal;
  useRoutes ← UseRoutes;
  if negb runLocal || negb useRoutes then GetService namespace appName portName
  else getRouteHost appName.

(** ** Tokens and certificates *)

Definition RequestPrometheusServiceAccountAPIToken : W (result string) :=
  let expirationSeconds := Z.quot (24 * Hour) Second in
  r ← call (CreateToken promApp MonitoringNS expirationSeconds);
  mret match r with
       | Err err => Err (ErrText ("unable to create an API token for the " +:+ promApp +:+
                                  " service account in the " +:+ MonitoringNS +:+ " namespace: " +:+ error_msg err))
       | Ok token => Ok token
       end.

Definition tokenOrRequest (token : string) : W (result string) :=
  if String.eqb token "" then
    r ← RequestPrometheusServiceAccountAPIToken;
    mret match r with
         | Err err => Err (ErrText ("failed to get token for prometheus-k8s SA due to " +:+ error_msg err))
         | Ok token => Ok token
         end
  else mret (Ok token).

(** The token of the first matching secret. *)
Fixpoint firstToken (secrets : list Secret) : string :=
  match secrets with
  | [] => ""
  | s :: rest => if HasPrefix (secret_Name s) "prometheus-k8s-token" then default "" (secret_Data s !! "token")
                 else firstToken rest
  end.
Definition prometheusToken : W (result string) :=
  sl ←? call (ListSecrets MonitoringNS);
  tokenOrRequest (firstToken sl).

(** [MonitoringTLSConfig]: the certificate authority that is trusted. *)
Definition MonitoringTLSConfig : W (result string) :=
  data ←? op (GetConfigMap MonitoringCAConfigMapName MonitoringNS);
  let ca := default "" (data !! MonitoringConfigField) in
  if String.eqb ca "" then mret (Err (ErrText "monitoring service CA returned nil"))
  else if negb (pem_Ok ca) then mret (Err (ErrText "failed to append certs"))
  else mret (Ok ca).

(** The certificate authority, unless routes are used: the system's then. *)
Definition trustedCA : W (result (option string)) :=
  useRoutes ← UseRoutes;
  if negb useRoutes then ca ←? MonitoringTLSConfig; mret (Ok (Some ca)) else mret (Ok None).

(** ** The metrics client *)

Record Counter := mkCounter { promTarget : string; promClient : HttpClient }.

(** [prometheusRoundTripper]: the bearer token on every request. *)
Definition bearer (token : string) (ca : option string) : HttpClient := mkHttpClient ("Bearer " +:+ token) ca.

Definition metricsBuilder_NewClient : W (result Counter) :=
  target ←? NetworkTarget MonitoringNS promApp "web";
  token ←? prometheusToken;
  ca ←? trustedCA;
  mret (Ok (mkCounter target (bearer token ca))).

Definition queryURL (c : Counter) : string := "https://" +:+ promTarget c +:+ "/api/v1/query".

(** [Counter.Query]; the status code of the answer is not looked at. *)
Definition Counter_Query (c : Counter) (query : string) : W (result AlertResponse) :=
  match url_Parse (queryURL c) with
  | Err err => mret (Err (ErrText ("could not query prometheus: " +:+ error_msg err)))
  | Ok u =>
      resp ←? call (Do (promClient c) (u +:+ "?query=" +:+ queryEscape query));
      mret match resp.2 with
           | Err err => Err (ErrText ("error when querying prometheus: " +:+ error_msg err))
           | Ok body =>
               match json_Parse body with
               | Err err => Err err
               | Ok j => decodeAlertResponse j
               end
           end
  end.

(** ** The Alertmanager client *)

Definition alertManagerApp : string := "alertmanager-main".
Definition alertManagerServiceAccountName : string := "prometheus-k8s".

(** The token of the last matching secret. *)
Definition lastToken (secrets : list Secret) : string :=
  fold_left (fun token s => if Contains (secret_Name s) (alertManagerServiceAccountName +:+ "-token")
                            then default "" (secret_Data s !! "token") else token) secrets "".
Definition getAuthentication : W (result string) :=
  sl ←? call (ListSecrets MonitoringNS);
  tokenOrRequest (lastToken sl).
Definition getTransport : W (result string) := NetworkTarget MonitoringNS alertManagerApp "web".

Record AlertManagerClient := mkAlertManagerClient { am_Target : string; am_Client : HttpClient }.

Definition maintenance_NewClient : W (result AlertManagerClient) :=
  target ←? getTransport;
  token ←? getAuthentication;
  ca ←? trustedCA;
  mret (Ok (mkAlertManagerClient target (bearer token ca))).

End Monitoring.

(** ** Silences (alertManagerSilenceClient.go)

    The operations of the client over the connection that [maintenance_NewClient]
    sets up; [List] is only asked for the silences of no filter. *)

Definition am_Create (matchers : list Matcher) (startsAt endsAt : Time) (creator comment : string) : W (result unit) :=
  _ ←? op (AmPostSilence matchers startsAt endsAt creator comment);
  mret (Ok tt).

Definition am_List : W (result (list Silence)) :=
  results ←? op AmListSilences;
  mret (Ok results).

Definition am_Delete (id : string) : W (result unit) :=
  _ ←? op (AmDeleteSilence id);
  mret (Ok tt).

(** A replacement is created first, and the old silence removed when it is
    still active. *)
Definition am_Update (id : string) (endsAt : Time) : W (result unit) :=
  result ←? call (GetSilence id);
  let s := gs_Silence result in
  r ← am_Create (gs_Matchers result) (gs_StartsAt result) endsAt (sil_CreatedBy s) (sil_Comment s);
  match r with
  | Err err => mret (Err (ErrText ("unable to create replacement silence: " +:+ error_msg err)))
  | Ok _ =>
      if String.eqb (sil_State s) "active" then
        r ← am_Delete (sil_ID s);
        mret match r with
             | Err err => Err (ErrText ("unable to remove replaced silence: " +:+ error_msg err))
             | Ok _ => Ok tt
             end
      else mret (Ok tt)
  end.
