(* ===== verification/Ocm.v ===== *)
(** * Clients of OCM and of the deployment validation operator
      (util/access_token.go, pkg/ocm, pkg/ocmagent, pkg/dvo)

    The access token of the cluster, the OCM client (direct, or through the
    in-cluster agent) over the connection of the OCM SDK, and the client that
    fetches the metrics of the deployment validation operator. *)

From stdpp Require Import base gmap strings list pretty.
From Stdlib Require Import ZArith Lia Ascii.
From S2P Require Import Prelude GoTime GoJson Api Effects Config Interfaces SpecProvider Notifier Wire Monitoring.

(** ** Code outside the sources *)

(** [net/url]: a parsed URL at another path, made of the joined segments (under
    the path of the URL itself when [base]), with a raw query. *)
Class UrlAt := url_At : forall (u : string) (base : bool) (segments : list string) (query : string), string.

(** The [Build] methods of the OCM SDK. *)
Class OcmBuild := {
  build_State : UpgradePolicyState -> result UpgradePolicyState;
  build_Cluster : OcmCluster -> result OcmCluster;
  build_LogEntry : LogEntry -> result LogEntry;
}.

(** ** The configuration of the client (config.go) *)

Record OcmClientConfig := mkOcmClientConfig { client_OcmBaseUrl : string }.

#[export] Instance OcmClientConfig_IsValid {urlparse : UrlParse} : ConfigValidator OcmClientConfig := fun cfg =>
  match url_Parse (client_OcmBaseUrl cfg) with
  | Err _ => Some (ErrText "OCM Base URL is not a parseable URL")
  | Ok _ => None
  end.

(** The URL is nil when it cannot be parsed. *)
Definition client_GetOCMBaseURL {urlparse : UrlParse} (cfg : OcmClientConfig) : option string :=
  match url_Parse (client_OcmBaseUrl cfg) with Ok u => Some u | Err _ => None end.

(** A configuration that was checked has a URL. *)
Lemma client_GetOCMBaseURL_valid {urlparse : UrlParse} cfg :
  IsValid cfg = None <-> is_Some (client_GetOCMBaseURL cfg).
Proof.
  unfold IsValid, OcmClientConfig_IsValid, client_GetOCMBaseURL.
  destruct (url_Parse _); [by split; [eexists|]|]. split; [done|by intros [? ?]].
Qed.

(** ** The access token (access_token.go) *)

Record AccessToken := mkAccessToken { PullSecret : string; at_ClusterId : string }.

Definition pullSecretKey : string := ".dockerconfigjson".
Definition pullSecretAuthKey : string := "cloud.openshift.com".

Section AccessToken.
Context {json : JsonSyntax} {sprint : JsonPrint}.

(** [fmt.Sprintf] with [%v] *)
Definition Sprintv (j : Json) : string :=
  match j with JString s => s | JNull => "<nil>" | j => json_Sprint j end.

(** [v.(map[string]interface{})] *)
Definition asMap (j : Json) : W (list (string * Json)) :=
  match j with
  | JObject m => mret m
  | _ => Panic "interface conversion: interface {} is not map[string]interface {}"
  end.

(** [json.Unmarshal] into a [map[string]interface{}]. *)
Definition unmarshalMap (text : string) : result (list (string * Json)) :=
  match json_Parse text with
  | Err err => Err err
  | Ok (JObject m) => Ok m
  | Ok JNull => Ok []
  | Ok _ => Err typeError
  end.

(** The token in a pull secret. *)
Definition accessTokenOf (cv : ClusterVersion) (secret : Secret) : W (result AccessToken) :=
  match secret_Data secret !! pullSecretKey with
  | None => mret (Err (ErrText ("pull secret missing required key " +:+ pullSecretKey)))
  | Some pullSecret =>
      match unmarshalMap pullSecret with
      | Err err => mret (Err (ErrText ("unable to interpret decoded pull secret as json: " +:+ error_msg err)))
      | Ok dockerConfig =>
          match lookupMember "auths" dockerConfig with
          | None => mret (Err (ErrText "unable to find auths section in pull secret"))
          | Some authConfig =>
              auths ← asMap authConfig;
              match lookupMember pullSecretAuthKey auths with
              | None => mret (Err (ErrText ("unable to find pull secret auth key '" +:+ pullSecretAuthKey +:+
                                            "' in pull secret")))
              | Some apiConfig =>
                  api ← asMap apiConfig;
                  match lookupMember "auth" api with
                  | None => mret (Err (ErrText "unable to find access auth token in pull secret"))
                  | Some accessToken => mret (Ok (mkAccessToken (Sprintv accessToken) (cv_ClusterID cv)))
                  end
              end
          end
      end
  end.

Definition GetAccessToken : W (result AccessToken) :=
  r ← op GetCV;
  match r with
  | Err err => mret (Err (ErrText ("can't get clusterversion: " +:+ error_msg err)))
  | Ok cv =>
      r ← call (GetSecret "pull-secret" "openshift-config");
      match r with
      | Err err => mret (Err (ErrText ("cannot fetch pull secret: " +:+ error_msg err)))
      | Ok secret => accessTokenOf cv secret
      end
  end.

End AccessToken.

(** ** The OCM client (pkg/ocm) *)

Definition CLUSTERS_V1_PATH : string := "/api/clusters_mgmt/v1/clusters".
Definition UPGRADEPOLICIES_V1_PATH : string := "upgrade_policies".
Definition STATE_V1_PATH : string := "state".
Definition SERVICELOG_LOG_TYPE : string := "Cluster Updates".
Definition SERVICELOG_SERVICE_NAME : string := "RedHat Managed Upgrade Notifications".
Definition SERVICELOG_INTERNAL_ONLY : bool := false.

Record OcmClient := mkOcmClient { ocmBaseUrl : string; conn : Connection }.

(** The accessors of a nil cluster or state give zero values. *)
Definition zeroCluster : OcmCluster := mkOcmCluster "" "" 0.
Definition zeroState : UpgradePolicyState := mkPolicyState "" "".

(** An error of sending a request as the text of an operation's error. *)
Definition sent {A} (message : error -> string) (r : result A) : result A :=
  match r with Ok a => Ok a | Err err => Err (ErrText (message err)) end.

Definition requestFailed (url : string) (statusCode : Z) (operationId : string) : error :=
  ErrText ("request to '" +:+ url +:+ "' received error code " +:+ pretty statusCode +:+
           ", operation id '" +:+ operationId +:+ "'").
Definition policiesFailed (url : string) (statusCode : Z) (operationId : string) : error :=
  ErrText ("request to '" +:+ url +:+ "' received error code " +:+ pretty statusCode +:+
           " from OCM upgrade policy service, operation id '" +:+ operationId +:+ "'").
Definition stateFailed (statusCode : Z) (operationId : string) : error :=
  ErrText ("received error code " +:+ pretty statusCode +:+
           " from OCM upgrade policy service, operation id '" +:+ operationId +:+ "'").

Section Direct.
Context {json : JsonSyntax} {sprint : JsonPrint} {urlparse : UrlParse} {urlat : UrlAt} {build : OcmBuild}.

(** [ocmClientBuilder.New]; without tokens of the cluster there is no client. *)
Definition ocmClientBuilder_New (baseUrl : string) : W (result OcmClient) :=
  r ← GetAccessToken;
  match r with
  | Err _ => mret (Err (ErrText "failed to retrieve cluster access token"))
  | Ok accessToken =>
      let c := mkConnection baseUrl (Some (at_ClusterId accessToken +:+ ":" +:+ PullSecret accessToken)) None
                 (Some 5%Z) (Some (2 * Second)%Z) (10 * Second)%Z in
      _ ←? call (BuildConnection c);
      mret (Ok (mkOcmClient baseUrl c))
  end.

Definition ocm_GetCluster (s : OcmClient) : W (result OcmCluster) :=
  r ← op GetCV;
  match r with
  | Err err => mret (Err (ErrText ("can't get clusterversion: " +:+ error_msg err)))
  | Ok cv =>
      let externalID := cv_ClusterID cv in
      let clustersSearch := "external_id = '" +:+ externalID +:+ "'" in
      r ← call (SearchClusters (conn s) clustersSearch 1);
      response ←? mret (sent (fun err => "can't query OCM cluster service for external_id '" +:+ externalID +:+
                                         "': " +:+ error_msg err) r);
      u ←? mret (sent (fun err => "can't parse OCM API url: " +:+ error_msg err) (url_Parse (ocmBaseUrl s)));
      let csUrl := url_At u true [CLUSTERS_V1_PATH] ("search=" +:+ queryEscape clustersSearch +:+ "&size=1") in
      if (400 <=? sdk_Status response)%Z
      then mret (Err (requestFailed csUrl (sdk_Status response) (sdk_OperationId response)))
      else if negb (fst (sdk_Body response) =? 1)%Z then mret (Err (ErrSentinel ErrClusterIdNotFound))
      else mret (Ok (default zeroCluster (snd (sdk_Body response) !! 0)))
  end.

(** One page of one policy. *)
Definition ocm_GetClusterUpgradePolicies (s : OcmClient) (clusterId : string)
    : W (result (Z * list UpgradePolicy)) :=
  r ← call (ListUpgradePolicies (conn s) clusterId 1 1);
  response ←? mret (sent (fun err => "can't pull upgrade policies for cluster " +:+ clusterId +:+ ": " +:+
                                     error_msg err) r);
  u ←? mret (sent (fun err => "can't read OCM API url: " +:+ error_msg err) (url_Parse (ocmBaseUrl s)));
  let upUrl := url_At u true [CLUSTERS_V1_PATH; clusterId; UPGRADEPOLICIES_V1_PATH] "page=1&size=1" in
  if (400 <=? sdk_Status response)%Z
  then mret (Err (policiesFailed upUrl (sdk_Status response) (sdk_OperationId response)))
  else mret (Ok (sdk_Body response)).

Definition ocm_SetState (s : OcmClient) (value description policyId clusterId : string) : W (result unit) :=
  stateUpdate ←? mret (sent (fun err => "failed to build policy state: " +:+ error_msg err)
                         (build_State (mkPolicyState value description)));
  u ←? mret (sent (fun err => "can't read OCM API url: " +:+ error_msg err) (url_Parse (ocmBaseUrl s)));
  let reqUrl := url_At u true [CLUSTERS_V1_PATH; clusterId; UPGRADEPOLICIES_V1_PATH; policyId; STATE_V1_PATH] "" in
  r ← call (UpdatePolicyState (conn s) clusterId policyId stateUpdate);
  response ←? mret (sent (fun err => "can't set upgrade policy state: request to '" +:+ reqUrl +:+
                                     "' returned error '" +:+ error_msg err +:+ "'") r);
  if (400 <=? sdk_Status response)%Z
  then mret (Err (requestFailed reqUrl (sdk_Status response) (sdk_OperationId response)))
  else mret (Ok tt).

Definition ocm_GetClusterUpgradePolicyState (s : OcmClient) (policyId clusterId : string)
    : W (result UpgradePolicyState) :=
  r ← call (GetPolicyState (conn s) clusterId policyId);
  response ←? mret (sent (fun err => "can't pull upgrade policy state: " +:+ error_msg err) r);
  if (400 <=? sdk_Status response)%Z
  then mret (Err (stateFailed (sdk_Status response) (sdk_OperationId response)))
  else mret (Ok (default zeroState (sdk_Body response))).

(** The entry that the builder is filled with; [docs] when the document
    references are set. *)
Definition logEntry (sl : ServiceLog) (description : string) (cluster : OcmCluster) (docs : bool) : LogEntry :=
  mkLogEntry (if String.eqb (sl_Severity sl) "" then SeverityInfo else sl_Severity sl)
    SERVICELOG_INTERNAL_ONLY SERVICELOG_SERVICE_NAME SERVICELOG_LOG_TYPE description (ocm_ID cluster) (sl_Summary sl)
    (if docs && negb (String.eqb (sl_DocReferences sl) "") then Some (sl_DocReferences sl) else None).

(** Send an entry; an error of the response is reported without its text. *)
Definition postEntry (c : Connection) (summary : string) (entry : LogEntry) : W (result unit) :=
  le ←? mret (sent (fun err => "could not create post request (SL): " +:+ error_msg err) (build_LogEntry entry));
  r ← call (AddClusterLog c le);
  mret match r with
       | Err err => Err (ErrText ("could not post service log " +:+ summary +:+ ": " +:+ error_msg err))
       | Ok (Some _) => Err (ErrText ("could not post service log " +:+ summary +:+ ": <nil>"))
       | Ok None => Ok tt
       end.

Definition clusterUnknown (err : error) : string :=
  "failed to retrieve internal cluster ID from OCM: " +:+ error_msg err.

Definition ocm_PostServiceLog (s : OcmClient) (sl : ServiceLog) (description : string) : W (result unit) :=
  r ← ocm_GetCluster s;
  cluster ←? mret (sent clusterUnknown r);
  postEntry (conn s) (sl_Summary sl) (logEntry sl description cluster true).

(** ** Through the agent (pkg/ocmagent) *)

Definition ocmAgentClientBuilder_New (baseUrl : string) : W (result OcmClient) :=
  r ← GetAccessToken;
  match r with
  | Err _ => mret (Err (ErrText "failed to retrieve cluster access token"))
  | Ok accessToken =>
      let c := mkConnection baseUrl None
                 (Some ("AccessToken " +:+ at_ClusterId accessToken +:+ ":" +:+ PullSecret accessToken))
                 None None (30 * Second)%Z in
      _ ←? call (BuildConnection c);
      mret (Ok (mkOcmClient baseUrl c))
  end.

(** The part of the agent's answer that the cluster is built from and read. *)
Record clusterInfoJSON := mkClusterInfo {
  ci_Id : string; ci_VersionId : string; ci_ChannelGroup : string; ci_GraceValue : Z; ci_GraceUnit : string }.

(** Assign a decoded value with an update of the record. *)
Definition assign {A B} (r : result A) (set : A -> B) : result B :=
  match r with Ok a => Ok (set a) | Err e => Err e end.

Definition decodeVersion (ci : clusterInfoJSON) : Json -> result clusterInfoJSON :=
  intoStruct (fun ci key v =>
    if String.eqb key "id" then
      assign (intoString (ci_VersionId ci) v)
        (fun s => mkClusterInfo (ci_Id ci) s (ci_ChannelGroup ci) (ci_GraceValue ci) (ci_GraceUnit ci))
    else if String.eqb key "channel_group" then
      assign (intoString (ci_ChannelGroup ci) v)
        (fun s => mkClusterInfo (ci_Id ci) (ci_VersionId ci) s (ci_GraceValue ci) (ci_GraceUnit ci))
    else Ok ci) ci.
Definition decodeGrace (ci : clusterInfoJSON) : Json -> result clusterInfoJSON :=
  intoStruct (fun ci key v =>
    if String.eqb key "value" then
      assign (intoInt64 (ci_GraceValue ci) v)
        (fun z => mkClusterInfo (ci_Id ci) (ci_VersionId ci) (ci_ChannelGroup ci) z (ci_GraceUnit ci))
    else if String.eqb key "unit" then
      assign (intoString (ci_GraceUnit ci) v)
        (fun s => mkClusterInfo (ci_Id ci) (ci_VersionId ci) (ci_ChannelGroup ci) (ci_GraceValue ci) s)
    else Ok ci) ci.
Definition decodeClusterInfo : Json -> result clusterInfoJSON :=
  intoStruct (fun ci key v =>
    if String.eqb key "id" then
      assign (intoString (ci_Id ci) v)
        (fun s => mkClusterInfo s (ci_VersionId ci) (ci_ChannelGroup ci) (ci_GraceValue ci) (ci_GraceUnit ci))
    else if String.eqb key "version" then decodeVersion ci v
    else if String.eqb key "node_drain_grace_period" then decodeGrace ci v
    else Ok ci) (mkClusterInfo "" "" "" 0 "").

Definition agent_GetCluster (s : OcmClient) : W (result OcmCluster) :=
  apiUrl ←? mret (sent (fun err => "can't parse OCM API url: " +:+ error_msg err) (url_Parse (ocmBaseUrl s)));
  r ← call (GetPath (conn s) "/");
  response ←? mret (sent (fun err => "can't query OCM cluster service: request to '" +:+ apiUrl +:+
                                     "' returned error '" +:+ error_msg err +:+ "'") r);
  if (400 <=? sdk_Status response)%Z
  then mret (Err (requestFailed apiUrl (sdk_Status response) (sdk_OperationId response)))
  else
    clusterInfo ←? mret (sent (fun err => "failed to unmarshal cluster info response: " +:+ error_msg err)
                           (match json_Parse (sdk_Body response) with
                            | Ok j => decodeClusterInfo j | Err e => Err e end));
    mret (sent (fun err => "failed to build cluster SDK type: " +:+ error_msg err)
            (build_Cluster (mkOcmCluster (ci_Id clusterInfo) (ci_ChannelGroup clusterInfo)
                              (float64_of_int (ci_GraceValue clusterInfo))))).

(** The URL is only used to report a failure. *)
Definition agent_GetClusterUpgradePolicies (s : OcmClient) (clusterId : string)
    : W (result (Z * list UpgradePolicy)) :=
  r ← call (ListUpgradePolicies (conn s) clusterId 1 1);
  response ←? mret (sent (fun err => "can't pull upgrade policies for cluster " +:+ clusterId +:+ ": " +:+
                                     error_msg err) r);
  if (400 <=? sdk_Status response)%Z then
    let logUrl := match url_Parse (ocmBaseUrl s) with
                  | Ok u => url_At u false [UPGRADEPOLICIES_V1_PATH] "" | Err _ => "ocm-agent" end in
    mret (Err (policiesFailed logUrl (sdk_Status response) (sdk_OperationId response)))
  else mret (Ok (sdk_Body response)).

Definition agent_SetState (s : OcmClient) (value description policyId clusterId : string) : W (result unit) :=
  stateUpdate ←? mret (sent (fun err => "failed to build policy state: " +:+ error_msg err)
                         (build_State (mkPolicyState value description)));
  u ←? mret (sent (fun err => "can't read OCM API url: " +:+ error_msg err) (url_Parse (ocmBaseUrl s)));
  let apiUrl := url_At u false [UPGRADEPOLICIES_V1_PATH; policyId; STATE_V1_PATH] "" in
  r ← call (UpdatePolicyState (conn s) clusterId policyId stateUpdate);
  response ←? mret (sent (fun err => "can't set upgrade policy state: request to '" +:+ apiUrl +:+
                                     "' returned error '" +:+ error_msg err +:+ "'") r);
  if (400 <=? sdk_Status response)%Z
  then mret (Err (requestFailed apiUrl (sdk_Status response) (sdk_OperationId response)))
  else mret (Ok tt).

Definition agent_GetClusterUpgradePolicyState (s : OcmClient) (policyId clusterId : string)
    : W (result UpgradePolicyState) :=
  u ←? mret (sent (fun err => "can't read OCM API url: " +:+ error_msg err) (url_Parse (ocmBaseUrl s)));
  let apiUrl := url_At u false [UPGRADEPOLICIES_V1_PATH; policyId; STATE_V1_PATH] "" in
  r ← call (GetPolicyState (conn s) clusterId policyId);
  response ←? mret (sent (fun err => "can't pull upgrade policy state: request to '" +:+ apiUrl +:+
                                     "' returned error '" +:+ error_msg err +:+ "'") r);
  if (400 <=? sdk_Status response)%Z
  then mret (Err (stateFailed (sdk_Status response) (sdk_OperationId response)))
  else mret (Ok (default zeroState (sdk_Body response))).

Definition agent_PostServiceLog (s : OcmClient) (sl : ServiceLog) (description : string) : W (result unit) :=
  r ← agent_GetCluster s;
  cluster ←? mret (sent clusterUnknown r);
  postEntry (conn s) (sl_Summary sl) (logEntry sl description cluster false).

(** ** The deployment validation operator (pkg/dvo) *)

Definition METRICS_API_PATH : string := "/metrics".

Record DvoClient := mkDvoClient { dvoBaseUrl : string; dvo_Client : HttpClient }.

Definition dvoClientBuilder_New : W (result DvoClient) :=
  svcURL ←? NetworkTarget "openshift-deployment-validation-operator" "deployment-validation-operator-metrics"
              "http-metrics";
  r ← GetAccessToken;
  match r with
  | Err _ => mret (Err (ErrText "failed to retrieve cluster access token"))
  | Ok accessToken =>
      mret (Ok (mkDvoClient svcURL (mkHttpClient
        ("AccessToken " +:+ at_ClusterId accessToken +:+ ":" +:+ PullSecret accessToken) None)))
  end.

(** The status code of the answer is not looked at. *)
Definition dvo_GetMetrics (c : DvoClient) : W (result string) :=
  match url_Parse ("http://" +:+ dvoBaseUrl c +:+ METRICS_API_PATH) with
  | Err err => mret (Err (ErrText ("could not query DVO metrics endpoint: " +:+ error_msg err)))
  | Ok metricsURL =>
      resp ←? call (Do (dvo_Client c) metricsURL);
      mret (sent (fun err => "error when querying dvo endpoint: " +:+ error_msg err) resp.2)
  end.

End Direct.

(** ** Specification of the access token *)

(** The value at a path of members. *)
Fixpoint memberAt (path : list string) (j : Json) : option Json :=
  match path with
  | [] => Some j
  | key :: path => match j with JObject m => lookupMember key m ≫= memberAt path | _ => None end
  end.
Definition isObject (j : Json) : bool := match j with JObject _ => true | _ => false end.

(** A value that is there, and is not an object. *)
Definition misplaced (path : list string) (j : Json) : bool :=
  match memberAt path j with Some v => negb (isObject v) | None => false end.

Section Token.
Context {json : JsonSyntax} {sprint : JsonPrint}.

Definition fails {A} (o : outcome (result A)) : Prop := exists e, o = Done (Err e).

(** What is read out of a pull secret. *)
Definition token_spec (cv : ClusterVersion) (secret : Secret) (o : outcome (result AccessToken)) : Prop :=
  match secret_Data secret !! pullSecretKey with
  | None => fails o
  | Some text =>
      match json_Parse text with
      | Err _ => fails o
      | Ok j =>
          match memberAt ["auths"; pullSecretAuthKey; "auth"] j with
          | Some auth => o = Done (Ok (mkAccessToken (Sprintv auth) (cv_ClusterID cv)))
          | None =>
              if misplaced ["auths"] j || misplaced ["auths"; pullSecretAuthKey] j
              then exists msg, o = Crash msg else fails o
          end
      end
  end.

Lemma accessTokenOf_wp cv secret :
  wp (accessTokenOf cv secret) (fun t o => t = [] /\ token_spec cv secret o).
Proof.
  unfold accessTokenOf, token_spec, misplaced, unmarshalMap, fails.
  destruct (secret_Data secret !! pullSecretKey) as [text|]; [|wp_cbn; eauto].
  destruct (json_Parse text) as [j|e]; [|wp_cbn; eauto].
  destruct j as [|b|n|s|l|m]; cbn [memberAt isObject asMap negb orb lookupMember]; try solve [wp_cbn; eauto].
  destruct (lookupMember "auths" m) as [j1|]; cbn [mbind option_bind]; [|wp_cbn; cbn [orb]; eauto].
  destruct j1 as [|b|n|s|l|m1]; cbn [memberAt isObject asMap negb orb]; try solve [wp_cbn; eauto].
  wp_cbn. destruct (lookupMember pullSecretAuthKey m1) as [j2|]; cbn [mbind option_bind]; [|wp_cbn; cbn [orb]; eauto].
  destruct j2 as [|b|n|s|l|m2]; cbn [memberAt isObject asMap negb orb]; try solve [wp_cbn; eauto].
  wp_cbn. destruct (lookupMember "auth" m2) as [auth|]; cbn [mbind option_bind]; wp_cbn; cbn [orb]; eauto.
Qed.

(** C40: The access token is the value under auths, cloud.openshift.com and auth
    of the pull secret, with the id of the cluster; a member that is missing
    anywhere on the way is an error, but a section that is there and is not an
    object makes the operator panic. *)
Theorem access_token_correct tr o :
  exec GetAccessToken tr o ->
  (exists e, tr = [Obs (Op GetCV) (Err e)] /\ fails o) \/
  exists cv,
    (exists e, tr = [Obs (Op GetCV) (Ok cv); Obs (GetSecret "pull-secret" "openshift-config") (Err e)] /\ fails o) \/
    (exists secret, tr = [Obs (Op GetCV) (Ok cv); Obs (GetSecret "pull-secret" "openshift-config") (Ok secret)] /\
       token_spec cv secret o).
Proof.
  revert tr o. apply wp_exec. unfold GetAccessToken, op. wp_cbn.
  intros [cv|e]; wp_cbn; [|left; unfold fails; eauto]. intros [secret|e]; wp_cbn; [|right; unfold fails; eauto 7].
  eapply wp_mono; [apply accessTokenOf_wp|]. intros t o [-> Ho]. right. exists cv. right. by exists secret.
Qed.

End Token.

(** *** Witness: a pull secret whose auths section is a list *)

Definition demo_documents : JsonSyntax := fun text =>
  if String.eqb text "auths: list" then Ok (JObject [("auths", JArray [])])
  else if String.eqb text "auths: token" then
    Ok (JObject [("auths", JObject [(pullSecretAuthKey, JObject [("auth", JString "secret")])])])
  else Err (ErrText "invalid character").
Definition demo_print : JsonPrint := fun _ => "value".
Definition demo_cluster_version : ClusterVersion := mkClusterVersion "cluster-1" "" "" None [] "" [] [] [] [].

Definition demo_secret_env (text : string) X (w : Wire X) (u : unit) : X * unit :=
  match w in Wire X return X * unit with
  | Op e =>
      match e in Eff X return X * unit with
      | GetCV => (Ok demo_cluster_version, u)
      | e' => (default_resp e', u)
      end
  | GetServicePorts _ _ | GetRoute _ _ | ListSecrets _ | CreateToken _ _ _ | Do _ _ | BuildConnection _ => (unavailable, u)
  | GetSecret name _ => (Ok (mkSecret name {[pullSecretKey := text]}), u)
  | SearchClusters _ _ _ | ListUpgradePolicies _ _ _ _ | GetPolicyState _ _ _ => (unavailable, u)
  | UpdatePolicyState _ _ _ _ | AddClusterLog _ _ | GetPath _ _ | GetSilence _ => (unavailable, u)
  end.

Lemma access_token_correct_witness :
  let p := @GetAccessToken demo_documents demo_print in
  let r text := run (demo_secret_env text) p tt in
  (r "auths: token").1.2 = Done (Ok (mkAccessToken "secret" "cluster-1")) /\
  (exists msg, (r "auths: list").1.2 = Crash msg) /\
  exists cv, (exists e, (r "auths: list").1.1 =
        [Obs (Op GetCV) (Ok cv); Obs (GetSecret "pull-secret" "openshift-config") (Err e)] /\
        fails (r "auths: list").1.2) \/
    exists secret, (r "auths: list").1.1 =
        [Obs (Op GetCV) (Ok cv); Obs (GetSecret "pull-secret" "openshift-config") (Ok secret)] /\
      @token_spec demo_documents demo_print cv secret (r "auths: list").1.2.
Proof.
  split; [vm_compute; reflexivity|]. split; [eexists; vm_compute; reflexivity|].
  destruct (@access_token_correct demo_documents demo_print _ _
    (run_exec (demo_secret_env "auths: list") (@GetAccessToken demo_documents demo_print) tt)) as [(e & H & _)|H].
  - apply (f_equal length) in H. vm_compute in H. discriminate H.
  - exact H.
Defined.
