(* ===== verification/Clients.v ===== *)
(** * The operator over its clients

    The events that stand for operations of clients, replaced by the clients of
    [Monitoring] and [Ocm], and what follows for the components above: what the
    health check makes of the answers of Prometheus, which upgrade policies the
    spec provider can see, which addresses are trusted. *)

From stdpp Require Import base gmap strings list pretty.
From Stdlib Require Import ZArith Lia Ascii.
From S2P Require Import Prelude GoTime GoJson Api Effects Config Interfaces Metrics UpgraderConfig HealthChecks.
From S2P Require Import SpecProvider Notifier Maintenance Validation Wire Monitoring Ocm.

(** ** The interface of the OCM client *)

Record OcmService := mkOcmService {
  svc_GetCluster : W (result OcmCluster);
  svc_GetClusterUpgradePolicies : string -> W (result (Z * list UpgradePolicy));
  svc_GetClusterUpgradePolicyState : string -> string -> W (result UpgradePolicyState);
  svc_PostServiceLog : ServiceLog -> string -> W (result unit);
  svc_SetState : string -> string -> string -> string -> W (result unit);
}.

Section Clients.
Context {pem : PemParse} {json : JsonSyntax} {sprint : JsonPrint}.
Context {urlparse : UrlParse} {urlat : UrlAt} {build : OcmBuild}.

Definition direct (s : OcmClient) : OcmService :=
  mkOcmService (ocm_GetCluster s) (ocm_GetClusterUpgradePolicies s) (ocm_GetClusterUpgradePolicyState s)
    (ocm_PostServiceLog s) (ocm_SetState s).
Definition agent (s : OcmClient) : OcmService :=
  mkOcmService (agent_GetCluster s) (agent_GetClusterUpgradePolicies s) (agent_GetClusterUpgradePolicyState s)
    (agent_PostServiceLog s) (agent_SetState s).

(** [newOcmClient]: the agent's client when the URL names it. *)
Definition connect (baseUrl : string) : W (result OcmService) :=
  if Contains baseUrl (Ocm.OCM_AGENT_SERVICE_URL +:+ ":" +:+ Ocm.OCM_AGENT_SERVICE_PORT)
  then s ←? ocmAgentClientBuilder_New baseUrl; mret (Ok (agent s))
  else s ←? ocmClientBuilder_New baseUrl; mret (Ok (direct s)).

Section Realise.
Context (prom : Counter) (ocm : OcmService) (dvo : DvoClient).

Definition realise X (e : Eff X) : W X :=
  match e in Eff X return W X with
  | PromQuery query => r ←? Counter_Query prom query; mret (Ok (ar_Result r))
  | OcmGetCluster => svc_GetCluster ocm
  | OcmPostServiceLog sl description => svc_PostServiceLog ocm sl description
  | OcmGetUpgradePolicies clusterId => svc_GetClusterUpgradePolicies ocm clusterId
  | OcmGetPolicyState policyId clusterId => svc_GetClusterUpgradePolicyState ocm policyId clusterId
  | OcmSetState value description policyId clusterId => svc_SetState ocm value description policyId clusterId
  | DvoNew => _ ←? dvoClientBuilder_New; mret (Ok tt)
  | DvoGetMetrics => dvo_GetMetrics dvo
  | e' => op e'
  end.

End Realise.
End Clients.

(** ** Specifications *)

(** The answers to the HTTP requests of an execution. *)
Definition http_answer (ob : obs Wire) : list (result (Z * result string)) :=
  match ob_event ob in Wire X return X -> list (result (Z * result string)) with
  | Do _ _ => fun r => [r]
  | _ => fun _ => []
  end (ob_resp ob).
Definition http_answers (tr : list (obs Wire)) : list (result (Z * result string)) := concat (map http_answer tr).

(** The document by which the query API reports an error: a status, no data. *)
Definition reports_error (j : Json) : Prop :=
  exists m, j = JObject m /\ Forall (fun '(key, v) =>
    ToLower key <> "data" /\ (ToLower key = "status" -> exists s, v = JString s)) m.

(** A server that pages its list of policies. *)
Definition page_of {A} (page size : Z) (l : list A) : list A :=
  take (Z.to_nat size) (drop (Z.to_nat ((page - 1) * size)) l).
Definition pages_policies (policies : list UpgradePolicy) (ob : obs Wire) : Prop :=
  match ob_event ob in Wire X return X -> Prop with
  | ListUpgradePolicies _ _ page size => fun r =>
      forall response, r = Ok response ->
        sdk_Body response = (Z.of_nat (length policies), page_of page size policies)
  | _ => fun _ => True
  end (ob_resp ob).

(** ** Lemmas *)

Ltac link_cbn :=
  cbn [link realise op call wp mbind mret prog_mbind prog_ret prog_bind bindr deref Query setGauge
       UpdateMetricHealthcheckFailed UpdateMetricHealthcheckSucceeded app].

(** A document that reports an error decodes to an empty result. *)
Lemma reports_error_decodes j :
  reports_error j -> exists status, decodeAlertResponse j = Ok (mkAlertResponse status []).
Proof.
  intros (m & -> & Hm). unfold decodeAlertResponse, intoStruct.
  enough (forall s, exists status, foldMembers (fun r key v => alertResponseField r (ToLower key) v)
                      (mkAlertResponse s []) m = Ok (mkAlertResponse status [])) as H by apply H.
  induction Hm as [|[key v] m [Hd Hs] _ IH]; intros s; cbn [foldMembers]; [by eexists|].
  unfold alertResponseField at 1. destruct (String.eqb_spec (ToLower key) "status") as [E|_].
  { destruct (Hs E) as [s' ->]. exact (IH s'). }
  destruct (String.eqb_spec (ToLower key) "data"); [done|]. exact (IH s).
Qed.

Section Query.
Context {pem : PemParse} {json : JsonSyntax} {sprint : JsonPrint} {urlparse : UrlParse}.
Context (prom : Counter) (ocm : OcmService) (dvo : DvoClient).
Notation linked := (link (realise prom ocm dvo)).

(** What a query gives for an answer. *)
Definition answered (a : result (Z * result string)) : result (list (gmap string string)) :=
  match a with
  | Ok (_, Ok body) =>
      match json_Parse body with
      | Ok j => match decodeAlertResponse j with Ok r => Ok (ar_Result r) | Err e => Err e end
      | Err e => Err e
      end
  | Ok (_, Err e) => Err (ErrText ("error when querying prometheus: " +:+ error_msg e))
  | Err e => Err e
  end.

Lemma query_wp q Q :
  wp (realise prom ocm dvo _ (PromQuery q)) Q <->
  match url_Parse (queryURL prom) with
  | Err err => Q [] (Done (Err (ErrText ("could not query prometheus: " +:+ error_msg err))))
  | Ok u => forall a, Q [Obs (Do (promClient prom) (u +:+ "?query=" +:+ queryEscape q)) a] (Done (answered a))
  end.
Proof.
  unfold realise, Counter_Query. destruct (url_Parse _) as [u|e]; wp_cbn; [|done].
  apply forall_proper. intros [[st [body|e]]|e]; cbn; [|done..].
  destruct (json_Parse body) as [j|e]; cbn; [|done]. by destruct (decodeAlertResponse j).
Qed.

(** The critical alerts check passes exactly when the query gave no alerts. *)
Lemma CriticalAlerts_linked cfg ug version :
  wp (linked (CriticalAlerts cfg ug version)) (fun tr o => forall a, http_answers tr = [a] ->
    (o = Done (Ok true) <-> answered a = Ok [])).
Proof.
  unfold CriticalAlerts, upgradeState. destruct (GetHistory _ _) as [h|]; [|intros a; discriminate].
  cbn [deref mbind prog_mbind prog_bind mret prog_ret Query call link].
  apply wp_bind, query_wp. destruct (url_Parse _) as [u|e]; [|link_cbn; intros [] a; discriminate].
  intros a. destruct (answered a) as [[|al l]|e] eqn:E; link_cbn; cbn [length Nat.ltb Nat.leb]; link_cbn; intros [].
  - intros [] a' [= <-]. rewrite E. done.
  - intros a' [= <-]. rewrite E. done.
  - intros a' [= <-]. rewrite E. done.
Qed.

End Query.

(** *** Addresses and trust *)

(** The environment of the process, the same at every reading. *)
Definition reads_env (vars : string -> option string) (ob : obs Wire) : Prop :=
  match ob_event ob in Wire X return X -> Prop with
  | Op e =>
      match e in Eff X return X -> Prop with
      | LookupEnv name => fun v => v = vars name
      | _ => fun _ => True
      end
  | _ => fun _ => True
  end (ob_resp ob).
Definition is_set (vars : string -> option string) (name value : string) : bool :=
  String.eqb (default "" (vars name)) value.

(** The host of a service, with or without a port. *)
Definition in_cluster (service target : string) : Prop :=
  exists port, target = service +:+ clusterSVCSuffix +:+ port.

(** Where a client of the monitoring stack connects and what it trusts. *)
Definition connects {pem : PemParse} (vars : string -> option string) (app : string) (tr : list (obs Wire))
    (target : string) (client : HttpClient) : Prop :=
  let local := is_set vars "OSDK_FORCE_RUN_MODE" "local" in
  let routes := is_set vars "ROUTES" "true" in
  (if local && routes then Obs (GetRoute app MonitoringNS) (Ok target) ∈ tr
   else in_cluster (app +:+ "." +:+ MonitoringNS) target) /\
  match hc_CA client with
  | None => routes = true
  | Some ca => routes = false /\ pem_Ok ca = true /\ exists data, data !! MonitoringConfigField = Some ca /\
      Obs (Op (GetConfigMap MonitoringCAConfigMapName MonitoringNS)) (Ok data) ∈ tr
  end.

Section Trust.
Context {pem : PemParse} (vars : string -> option string).
Notation env := (Forall (reads_env vars)).

Lemma NetworkTarget_wp app port :
  wp (NetworkTarget MonitoringNS app port) (fun tr o => env tr -> forall target, o = Done (Ok target) ->
    if is_set vars "OSDK_FORCE_RUN_MODE" "local" && is_set vars "ROUTES" "true"
    then Obs (GetRoute app MonitoringNS) (Ok target) ∈ tr
    else in_cluster (app +:+ "." +:+ MonitoringNS) target).
Proof.
  unfold NetworkTarget, isRunModeLocal, Monitoring.UseRoutes, GetService, getRouteHost, Getenv, op, is_set.
  wp_cbn. intros v w. rewrite <- negb_andb.
  destruct (_ && _) eqn:E; cbn [negb]; wp_cbn; intros [x|e]; wp_cbn;
    intros [Hv [Hw _]%Forall_cons_1]%Forall_cons_1 target [=]; cbn in Hv, Hw; subst.
  - rewrite E, !elem_of_cons. tauto.
  - rewrite E. unfold in_cluster. destruct (String.eqb _ ""); cbn [negb].
    + exists "". by rewrite !string_app_assoc, string_app_nil_r.
    + exists (":" +:+ servicePort x port). by rewrite !string_app_assoc.
Qed.

Lemma trustedCA_wp :
  wp trustedCA (fun tr o => env tr -> forall trusted, o = Done (Ok trusted) ->
    match trusted with
    | None => is_set vars "ROUTES" "true" = true
    | Some ca => is_set vars "ROUTES" "true" = false /\ pem_Ok ca = true /\
        exists data, data !! MonitoringConfigField = Some ca /\
          Obs (Op (GetConfigMap MonitoringCAConfigMapName MonitoringNS)) (Ok data) ∈ tr
    end).
Proof.
  unfold trustedCA, Monitoring.UseRoutes, MonitoringTLSConfig, Getenv, op, is_set. wp_cbn. intros v.
  destruct (String.eqb (default "" v) "true") eqn:E; cbn [negb]; wp_cbn.
  - intros [Hv _]%Forall_cons_1 trusted [= <-]. cbn in Hv. by subst.
  - intros [data|e]; wp_cbn; [|done]. destruct (data !! MonitoringConfigField) as [ca|] eqn:Hd; cbn [from_option id]; [|done].
    destruct (String.eqb ca ""); [by wp_cbn|]. destruct (pem_Ok ca) eqn:Hp; cbn [negb]; wp_cbn; [|done].
    intros [Hv _]%Forall_cons_1 trusted [= <-]. cbn in Hv. subst. split; [done|]. split; [done|].
    exists data. split; [done|]. rewrite !elem_of_cons. tauto.
Qed.

(** Both clients are built in the same way. *)
Lemma connects_wp {C} (mk : string -> HttpClient -> C) (getToken : W (result string)) app :
  wp (target ←? NetworkTarget MonitoringNS app "web"; token ←? getToken; ca ←? trustedCA;
      mret (Ok (mk target (bearer token ca))))
    (fun tr o => env tr -> forall c, o = Done (Ok c) ->
      exists target client, c = mk target client /\ connects vars app tr target client).
Proof.
  apply wp_bindr. eapply wp_mono; [apply NetworkTarget_wp|]. intros t1 [[target|e]|m] H1; [|done..].
  apply wp_bindr, wp_exec. intros t2 [[token|e]|m] _; [|done..].
  apply wp_bindr. eapply wp_mono; [apply trustedCA_wp|]. intros t3 [[ca|e]|m] H3; [|done..].
  wp_cbn. rewrite app_nil_r. intros [He1 [_ He3]%Forall_app]%Forall_app c [= <-].
  exists target, (bearer token ca). split; [done|]. split.
  - specialize (H1 He1 target eq_refl). destruct (_ && _); [|done]. apply elem_of_app. by left.
  - specialize (H3 He3 ca eq_refl). cbn [bearer hc_CA]. destruct ca as [ca|]; [|done].
    destruct H3 as (? & ? & data & ? & ?). split; [done|]. split; [done|]. exists data. split; [done|].
    rewrite !elem_of_app. tauto.
Qed.

End Trust.

(** *** Pages of policies *)

Lemma first_page {A} (l : list A) : page_of 1 1 l = take 1 l.
Proof. reflexivity. Qed.

Section Policies.
Context {pem : PemParse} {json : JsonSyntax} {sprint : JsonPrint}.
Context {urlparse : UrlParse} {urlat : UrlAt} {build : OcmBuild}.

(** Either client asks for one page of one policy. *)
Lemma policies_wp s svc clusterId policies :
  svc = direct s \/ svc = agent s ->
  wp (svc_GetClusterUpgradePolicies svc clusterId) (fun tr o => Forall (pages_policies policies) tr ->
    exists r, o = Done r /\
      forall total items, r = Ok (total, items) -> total = Z.of_nat (length policies) /\ items = take 1 policies).
Proof.
  assert (forall r, Forall (pages_policies policies) [Obs (ListUpgradePolicies (conn s) clusterId 1 1) (Ok r)] ->
    sdk_Body r = (Z.of_nat (length policies), take 1 policies)) as Hbody.
  { intros r [H _]%Forall_cons_1. exact (H r eq_refl). }
  intros [->| ->]; cbn [svc_GetClusterUpgradePolicies direct agent].
  - unfold ocm_GetClusterUpgradePolicies. wp_cbn. intros [r|e]; cbn [sent]; wp_cbn; [|by eexists].
    destruct (url_Parse _); cbn [sent]; wp_cbn; [|by eexists]. destruct (400 <=? _)%Z; wp_cbn; [by eexists|].
    intros H. eexists. split; [done|]. intros total items [= E]. rewrite (Hbody r H) in E. by injection E as <- <-.
  - unfold agent_GetClusterUpgradePolicies. wp_cbn. intros [r|e]; cbn [sent]; wp_cbn; [|by eexists].
    destruct (400 <=? _)%Z; wp_cbn; [by eexists|].
    intros H. eexists. split; [done|]. intros total items [= E]. rewrite (Hbody r H) in E. by injection E as <- <-.
Qed.

End Policies.

(** ** Properties *)

Section Properties.
Context {pem : PemParse} {json : JsonSyntax} {sprint : JsonPrint}.
Context {urlparse : UrlParse} {urlat : UrlAt} {build : OcmBuild}.

(** Over the real metrics client the check for critical alerts passes
    exactly when the document that Prometheus answered decodes to an empty
    result, whatever the status code and the status it reports; so it passes
    for every document by which the query API reports an error. *)
Theorem failed_query_reads_as_no_alerts prom ocm dvo cfg ug version tr o :
  exec (link (realise prom ocm dvo) (CriticalAlerts cfg ug version)) tr o ->
  forall a, http_answers tr = [a] ->
  (o = Done (Ok true) <->
     exists statusCode body j status, a = Ok (statusCode, Ok body) /\ json_Parse body = Ok j /\
       decodeAlertResponse j = Ok (mkAlertResponse status [])) /\
  (forall statusCode body j, a = Ok (statusCode, Ok body) -> json_Parse body = Ok j -> reports_error j ->
     o = Done (Ok true)).
Proof.
  intros Hex a Ha. pose proof (proj1 (wp_exec _ _) (CriticalAlerts_linked prom ocm dvo cfg ug version) _ _ Hex a Ha) as H.
  assert (o = Done (Ok true) <-> exists statusCode body j status, a = Ok (statusCode, Ok body) /\
    json_Parse body = Ok j /\ decodeAlertResponse j = Ok (mkAlertResponse status [])) as Hiff.
  { rewrite H. unfold answered. split.
    - destruct a as [[st [body|]]|]; try discriminate. destruct (json_Parse body) as [j|] eqn:Ej; [|done].
      destruct (decodeAlertResponse j) as [[s l]|] eqn:Ed; [|done]. intros [= ->]. by exists st, body, j, s.
    - intros (st & body & j & s & -> & -> & ->). done. }
  split; [exact Hiff|]. intros st body j -> Hj [s Hs]%reports_error_decodes. apply Hiff. by exists st, body, j, s.
Qed.

(** C39: Over the real OCM client, direct or through the agent, and an OCM that
    pages its list of policies, the spec provider answers with the spec of the
    first policy of the list: another policy is never chosen, however early its
    next run is. *)
Theorem provider_sees_first_policy {semver : Semver} prom s ocm dvo policies ut tr spec specs :
  ocm = direct s \/ ocm = agent s ->
  exec (link (realise prom ocm dvo) (Ocm.ocmProvider_Get ut)) tr (Done (Ok (spec :: specs))) ->
  Forall (pages_policies policies) tr ->
  exists p rest, policies = p :: rest /\ specs = [] /\
    desired_Version (Desired spec) = policy_Version p /\ UpgradeAt spec = formatRFC3339 (policy_NextRun p).
Proof.
  intros Hocm. revert tr.
  enough (wp (link (realise prom ocm dvo) (Ocm.ocmProvider_Get ut)) (fun tr o => Forall (pages_policies policies) tr ->
    o = Done (Ok (spec :: specs)) -> exists p rest, policies = p :: rest /\ specs = [] /\
    desired_Version (Desired spec) = policy_Version p /\ UpgradeAt spec = formatRFC3339 (policy_NextRun p))) as Hw.
  { intros tr Hex Hp. exact (proj1 (wp_exec _ _) Hw _ _ Hex Hp eq_refl). }
  unfold Ocm.ocmProvider_Get. cbn [link mbind prog_mbind prog_bind call]. apply wp_bind, wp_exec.
  intros t1 [[cluster|e]|m] _; [|destruct (is_sentinel _ _); cbn; discriminate|done].
  destruct (String.eqb _ ""); [cbn; discriminate|]. cbn [link mbind prog_mbind prog_bind call].
  apply wp_bind. eapply wp_mono; [apply (policies_wp s _ _ policies Hocm)|]. intros t2 o2 H2.
  destruct o2 as [[[total items]|e]|m]; [|cbn; discriminate|done].
  destruct (Z.ltb_spec 0 total) as [Ht|_]; [|cbn; discriminate]. unfold bindr.
  cbn [link mbind prog_mbind prog_bind call]. apply wp_bind, wp_exec.
  intros t3 [[state|e]|m] _; [|cbn; discriminate|done].
  destruct (Ocm.isActionableUpgradePolicy _ _); cbn [negb]; [|cbn; discriminate].
  cbn [link mret prog_ret wp]. unfold Ocm.buildUpgradeConfigSpecs.
  destruct (Ocm.inferUpgradeChannelFromChannelGroup _ _); [|discriminate].
  intros [_ [Hp _]%Forall_app]%Forall_app [= <- <-]. destruct (H2 Hp) as (r & [= <-] & Hr).
  destruct (Hr total items eq_refl) as [-> ->]. destruct policies as [|p rest]; [cbn in Ht; lia|].
  exists p, rest. split; [done|]. split; [done|]. cbn [take Desired UpgradeAt desired_Version].
  unfold Ocm.getNextOccurringUpgradePolicy. cbn. unfold Before. rewrite Z.ltb_irrefl. done.
Qed.

(** The metrics client and the Alertmanager client connect to the route of
    their application only in local mode with routes; otherwise to its service
    in the cluster.  They trust the certificate authority of the monitoring
    stack, which must parse, exactly when routes are not used. *)
Theorem clients_connect vars :
  (forall tr c, exec metricsBuilder_NewClient tr (Done (Ok c)) -> Forall (reads_env vars) tr ->
     connects vars promApp tr (promTarget c) (promClient c)) /\
  (forall tr c, exec maintenance_NewClient tr (Done (Ok c)) -> Forall (reads_env vars) tr ->
     connects vars alertManagerApp tr (am_Target c) (am_Client c)).
Proof.
  split; intros tr c Hex He.
  - destruct (proj1 (wp_exec _ _) (connects_wp vars mkCounter prometheusToken promApp) _ _ Hex He c eq_refl)
      as (target & client & -> & H). exact H.
  - destruct (proj1 (wp_exec _ _) (connects_wp vars mkAlertManagerClient getAuthentication alertManagerApp)
      _ _ Hex He c eq_refl) as (target & client & -> & H). exact H.
Qed.


End Properties.

(** *** Witnesses *)

(** A Prometheus that refuses queries, an OCM with two policies, services in
    the cluster and routes asked for. *)
Definition demo_error_document : JsonSyntax := fun text =>
  if String.eqb text "overloaded"
  then Ok (JObject [("status", JString "error"); ("errorType", JString "timeout"); ("error", JString "overloaded")])
  else Err (ErrText "unexpected end of JSON input").
Definition demo_pem : PemParse := fun _ => true.
Definition demo_at : UrlAt := fun u _ segments _ => Join (u :: segments) "/".
Definition demo_build : OcmBuild := {| build_State s := Ok s; build_Cluster c := Ok c; build_LogEntry le := Ok le |}.
Definition demo_vars (name : string) : option string := if String.eqb name "ROUTES" then Some "true" else None.

Definition demo_wire X (w : Wire X) (u : unit) : X * unit :=
  match w in Wire X return X * unit with
  | Op e =>
      match e in Eff X return X * unit with
      | GetCV => (Ok demo_cluster_version, u)
      | LookupEnv name => (demo_vars name, u)
      | e' => (default_resp e', u)
      end
  | GetServicePorts _ _ => (Ok [mkServicePort "web" 9091], u)
  | ListSecrets _ => (Ok [mkSecret "prometheus-k8s-token-x" {["token" := "t"]}], u)
  | GetRoute _ _ | CreateToken _ _ _ | BuildConnection _ | GetSecret _ _ => (unavailable, u)
  | Do _ _ => (Ok (503%Z, Ok "overloaded"), u)
  | SearchClusters _ _ _ => (Ok (mkSdkResponse 200 "" (1%Z, [mkOcmCluster "c1" "stable" 60])), u)
  | ListUpgradePolicies _ _ page size =>
      (Ok (mkSdkResponse 200 "" (Z.of_nat (length demo_policies), page_of page size demo_policies)), u)
  | GetPolicyState _ _ _ => (Ok (mkSdkResponse 200 "" (Some (mkPolicyState "scheduled" ""))), u)
  | UpdatePolicyState _ _ _ _ | AddClusterLog _ _ | GetPath _ _ | GetSilence _ => (unavailable, u)
  end.

Definition demo_prom : Counter := mkCounter "prometheus" (bearer "t" None).
Definition demo_dvo : DvoClient := mkDvoClient "dvo" (mkHttpClient "" None).
Definition demo_ocm : OcmClient := mkOcmClient "https://ocm" (mkConnection "https://ocm" None None None None 0).
#[local] Existing Instances demo_error_document demo_print demo_pem plainUrl demo_at demo_build plainSemver.

Definition demo_realise := realise demo_prom (direct demo_ocm) demo_dvo.
Definition demo_alerts := run demo_wire (link demo_realise (CriticalAlerts demo_cfg demo_new_uc "4.15.1")) tt.

Lemma failed_query_reads_as_no_alerts_witness :
  http_answers demo_alerts.1.1 = [Ok (503%Z, Ok "overloaded")] /\ demo_alerts.1.2 = Done (Ok true).
Proof.
  assert (http_answers demo_alerts.1.1 = [Ok (503%Z, Ok "overloaded")]) as Ha by (vm_compute; reflexivity).
  split; [exact Ha|].
  refine (proj2 (failed_query_reads_as_no_alerts demo_prom (direct demo_ocm) demo_dvo demo_cfg demo_new_uc "4.15.1"
    _ _ (run_exec demo_wire (link demo_realise (CriticalAlerts demo_cfg demo_new_uc "4.15.1")) tt) _ Ha)
    503%Z "overloaded" _ eq_refl eq_refl _).
  eexists. split; [reflexivity|]. repeat constructor; intros E; try discriminate E; eauto.
Defined.

(** The second policy is due a day earlier than the first. *)
Definition demo_get := run demo_wire (link demo_realise (Ocm.ocmProvider_Get OSD)) tt.
Lemma demo_wire_pages {A} (p : W A) u : Forall (pages_policies demo_policies) (run demo_wire p u).1.1.
Proof.
  eapply Forall_impl; [apply (run_answers demo_wire)|]. intros [X e x]; cbn [ob_resp ob_event ob_type]; intros ->.
  destruct e; try exact I. intros r [= <-]. reflexivity.
Qed.
Lemma provider_sees_first_policy_witness :
  exists spec, demo_get.1.2 = Done (Ok [spec]) /\ desired_Version (Desired spec) = "4.15.3" /\
    exists p rest, demo_policies = p :: rest /\ desired_Version (Desired spec) = policy_Version p.
Proof.
  eexists. split; [vm_compute; reflexivity|]. split; [reflexivity|].
  edestruct (provider_sees_first_policy demo_prom demo_ocm (direct demo_ocm) demo_dvo demo_policies OSD demo_get.1.1)
    as (p & rest & E & _ & Hv & _).
  - left. reflexivity.
  - enough (demo_get.1.2 = Done (Ok _)) as <- by apply run_exec. vm_compute. reflexivity.
  - apply demo_wire_pages.
  - exists p, rest. split; [exact E|exact Hv].
Defined.

(** Routes without local mode: in-cluster addresses, and no authority for them. *)
Definition demo_connect := run demo_wire metricsBuilder_NewClient tt.
Lemma demo_wire_env {A} (p : W A) u : Forall (reads_env demo_vars) (run demo_wire p u).1.1.
Proof.
  eapply Forall_impl; [apply (run_answers demo_wire)|]. intros [X e x]; cbn [ob_resp ob_event ob_type]; intros ->.
  destruct e as [X []| | | | | | | | | | | | | |]; try exact I. reflexivity.
Qed.
Lemma clients_connect_witness :
  exists c, demo_connect.1.2 = Done (Ok c) /\ hc_CA (promClient c) = None /\
    connects demo_vars promApp demo_connect.1.1 (promTarget c) (promClient c).
Proof.
  eexists. split; [vm_compute; reflexivity|]. split; [reflexivity|].
  apply (proj1 (clients_connect demo_vars)); [|apply demo_wire_env].
  enough (demo_connect.1.2 = Done (Ok _)) as <- by apply run_exec. vm_compute. reflexivity.
Defined.
